(* ===== verification/_CoqProject ===== *)
-Q . S2P
Prelude.v
CxxString.v
OrdMap.v
Unique.v
Format.v
Http.v
Clock.v
RequestHeaders.v
RequestBody.v
Transfer.v
RequestUri.v
Host.v
Response.v
Cgi.v
Client.v
Control.v
ControlFacts.v
Session.v
Upload.v
Script.v
Refusal.v
Generated.v
ScriptFailure.v
Malformed.v
ConfigLex.v
ConfigLexFacts.v
Config.v
Listen.v
ListenFacts.v
TurnFacts.v
Links.v
Removal.v
Server.v
Rosters.v
Registration.v
ConfigFacts.v
ConfigProps.v
ConfigRender.v
ServerFacts.v
Served.v
Logger.v
LoggerFacts.v
Display.v
Main.v
