(* ===== verification/Prelude.v ===== *)
(** * Webserveau: a verification library for an HTTP/1.1 server

    [webserveau] is an HTTP/1.1 server in C++98: it reads a configuration file,
    opens a listening socket per address and port, and serves static files,
    uploads, redirections and CGI scripts to any number of virtual hosts from
    one [epoll] loop.  This library models the program function by function and
    proves what makes it correct, and where it is not correct, that too.

    ** How the program is put together, and which file models what

    - [srcs/format.cpp] (numbers, case-insensitive equality, the [*] patterns of
      locations): [Format], on top of [CxxString] ([std::string]) and [OrdMap]
      ([std::map] with a user-supplied order).
    - [includes/Request.hpp], [Response.hpp], [Host.hpp] (the data): [Http].
    - [srcs/Request.cpp]: the request line and the header lines in
      [RequestHeaders], the body and trailers in [RequestBody], the target in
      [RequestUri].  The parser is incremental: each call gets one network read
      and returns the C return value, the request and the rest of the buffer.
      [Transfer] is the interface of the body parser, a class that says what a
      read of a body does, with an instance per coding.
    - [srcs/Host.cpp]: routing, rules and checks of resources in [Host]; the
      static list of hosts in [Listen].
    - [srcs/Response.cpp]: [Response].  [srcs/CGIProcess.cpp]: [Cgi] (the
      parent's side, the reading of the script's answer, the child up to
      [execv]).
    - [srcs/Client.cpp]: one connection in [Client], the static list in [Listen],
      time-outs in [Control] and [Server].
    - [srcs/IControl.cpp]: the handlers of a client's event in [Control], the
      dispatch of the events and the command prompt in [Server].
    - [srcs/IParseConfig.cpp]: words, quotes, comments and blocks in [ConfigLex],
      directives, checks and exceptions in [Config], which knows the servers
      through the interface [Registry] only.
    - [srcs/ListenServer.cpp]: [Listen], which also holds the static lists of
      servers, hosts and clients as a heap with addresses ([world]) and everything
      these objects do to each other.  [includes/UniqueValuesMapIterator.tpp]:
      [Unique].
    - [srcs/main.cpp]: one turn of the loop, [main_turn] in [Server]; start, loop
      and exit in [Main].
    - [srcs/ILogger.cpp]: [Logger], with its theorems in [LoggerFacts].
    - Dates, durations and temporary names ([srcs/Response.cpp], [srcs/Client.cpp],
      [srcs/format.cpp]): [Clock].
    - What the objects print and the commands that print them ([srcs/Host.cpp],
      [srcs/ListenServer.cpp], [srcs/Client.cpp], [srcs/IControl.cpp]): [Display].

    A struct or class is a [Record], an assignment to a field is
    [r <| f := v |>] (below), a method takes the object and returns it.  Code
    that can fail returns an [outcome] (below): a value, an exception, undefined
    behaviour, or out of fuel.  What the operating system answers is a parameter:
    [filesystem] (files), [os_answers] (one event), [network] (sockets).  A
    client's actions on other objects are logged in order ([cl_log]) and replayed
    on the [world] ([commit]), also when its handler throws ([settle]).

    An exception carries the state it leaves ([failing]): [main] catches it and
    cleans up.  Where one of the functions on requests throws, the request and the
    buffer are those from before its call ([throwing]); nothing reads them again.
    The builders of a response throw before they change the hints they are given.

    ** What the theorems show

    - Requests ([RequestHeaders], [RequestBody], [RequestUri]): round trips of
      rendered requests and of chunked bodies, independence of the cutting into
      reads, exact files for measured bodies, path normalisation and percent
      decoding against reference definitions, totality, and the inputs that
      crash the parser, escape from the root or pass the body limit.
    - Routing and access ([Host], [ControlFacts]): the chosen location is the
      first of the closest matches, in an order of the patterns stated apart from
      the code ([closer] in [Format]), and a request is only accepted when the location's and the script's
      rules allow it.
    - Responses and scripts ([Response], [Cgi], [ControlFacts]): every request is
      answered, the length announced is the length sent, the queue is delivered in
      order, a script's header block is read as a reference reader reads it.
    - Connections from end to end, for every cutting of the input into reads:
      [Session] composes parser, handlers and responses over sequences of requests
      for files on one connection (exact bytes, order, keep-alive, and that the
      work is finished), [Upload] does it for a request that stores a file, with
      a length or in chunks, proved against the interface [Transfer],
      [Script] for a request that a script answers, [Generated] for redirections
      and deletions; and for what goes wrong: heads that are none ([Malformed]),
      requests that the rules, the files or the limits of the host exclude
      ([Refusal]), scripts that fail or are late ([ScriptFailure]).  [Served] puts
      the client of [Session] into the running server, among others that come,
      fail and go.
    - Configuration ([ConfigLexFacts], [ConfigFacts], [ConfigProps],
      [ConfigRender]): a rendered configuration registers exactly the hosts it was
      rendered from, whatever is registered is well formed and keeps its names,
      the block reader is a one-pass reader, words end; and the file the parser
      never leaves.
    - The whole server ([ListenFacts], [TurnFacts], [Links], [Removal],
      [Rosters], [Registration], [ServerFacts]): from any configuration file,
      through any events and time-outs, the links between servers, hosts and
      clients are sound: the pointers of a client, the maps of the servers and the
      lists of clients lead to living objects that know each other.  The set of
      servers of a host is exact on the living servers ([Rosters]), and holds no
      other if every server could listen; one that could not stays in it
      ([refused_server_stays]).  A client's turn in the server is its turn in
      [Control]; connections, time-outs, the removal of a server and the shutdown
      complete; removing one host does not.  [Links] states the invariant,
      [TurnFacts] what a client may do to its links, [Registration] discharges the
      [Registry] interface.  [Main] lifts this to whole runs of [main]: no
      exception leaves it, an exit leaves no server, no client and no open
      descriptor, and both the end of the standard input and an exception of a
      handler lead to it.
    - Output ([LoggerFacts], [Display], [Clock]): a message reaches exactly the
      streams enabled for it, rendered as its format says; the log files, their
      table and the streams stay in step; printing is safe and lists every host
      once; the date of a response is right but for the year of the days around
      the new year.

    ** Bounds and fuel

    Integers of the code are [Z]; conversions to [int] and [size_t] are written
    out ([i32], [u64]).  Loops that are not structural carry fuel.  The loops of
    the request parsers use the length of the buffer, [generateResponse] two
    attempts, [unassign_all] the number of names of the server; theorems show
    that these never run out ([parseURI_total], [generateResponse_answers],
    [removeServer_correct], ...).  The configuration parser takes its fuel as an
    argument: more fuel never changes a result ([ConfigFacts]), words and values
    need a fuel linear in the text, rendered files have an explicit bound, and
    for one file no fuel is enough ([parseConfigText_loops]).

    ** Not modelled

    The signal set-up of [main], the registrations with [epoll], the process of a
    script after a failed [execv] (its [child_exit_exception] reaches the same
    clauses of [main]), the getters and setters that only move a field,
    [printRequest] and [printHeaders] of a request (nothing calls them),
    [srcs/Debug.cpp] (empty) and the test client under [sender/].  The handlers do
    not thread the logger: a message changes nothing else.  Memory allocation does
    not fail; a stream reports no error of the system while the configuration is
    read; the text of exceptions of the configuration parser is not modelled, only
    their kind.  The removal of a host is modelled, and shown to break the links
    when the host or its server has clients; without clients nothing is proved. *)

From Stdlib Require Export Ascii String ZArith Lia.
From stdpp Require Export base tactics option list strings gmap.

#[export] Set Default Goal Selector "!".

Declare Scope web_scope.
Delimit Scope web_scope with web.
Open Scope web_scope.

(** The hints of the development: laws that close routine side conditions. *)
Create HintDb web.

(** ** Outcomes

    A C++ function either returns, throws an exception of type [E], runs into
    undefined behaviour (a null dereference, an uninitialised pointer), or --
    in the model only -- runs out of the fuel of a loop.  [Diverge] is never
    identified with a returned value: the theorems show that it is not
    reached. *)
Inductive outcome (E A : Type) : Type :=
  | Ret (a : A)
  | Throw (e : E)
  | Undef
  | Diverge.
Arguments Ret {E A} a.
Arguments Throw {E A} e.
Arguments Undef {E A}.
Arguments Diverge {E A}.

#[export] Instance outcome_ret {E} : MRet (outcome E) := fun A a => Ret a.
#[export] Instance outcome_bind {E} : MBind (outcome E) := fun A B k m =>
  match m with
  | Ret a => k a
  | Throw e => Throw e
  | Undef => Undef
  | Diverge => Diverge
  end.

Lemma bind_ret_l {E A B} (a : A) (k : A -> outcome E B) : mbind k (Ret a) = k a.
Proof. reflexivity. Qed.

Lemma bind_ret_inv {E A B} (m : outcome E A) (k : A -> outcome E B) b :
  mbind k m = Ret b -> exists a, m = Ret a /\ k a = Ret b.
Proof. destruct m; try discriminate. simpl. eauto. Qed.

(** Dereferencing a pointer. *)
Definition deref {E A} (p : option A) : outcome E A :=
  match p with Some a => Ret a | None => Undef end.

(** A computation that ran out of fuel. *)
Definition fueled {E A} (o : option A) : outcome E A :=
  match o with Some a => Ret a | None => Diverge end.

(** The exceptions of [m], as another handler sees them. *)
Definition map_exn {E E' A} (f : E -> E') (m : outcome E A) : outcome E' A :=
  match m with
  | Ret a => Ret a
  | Throw e => Throw (f e)
  | Undef => Undef
  | Diverge => Diverge
  end.

(** The exceptions of [m] together with the state they leave: the object [s] is
    in when [m] runs. *)
Definition throwing {E S A} (s : S) (m : outcome E A) : outcome (E * S) A := map_exn (fun e => (e, s)) m.

(** [try m catch h] *)
Definition catch {E E' A} (m : outcome E A) (h : E -> outcome E' A) : outcome E' A :=
  match m with
  | Ret a => Ret a
  | Throw e => h e
  | Undef => Undef
  | Diverge => Diverge
  end.

(** [safe m Q]: [m] has defined behaviour and terminates, and if it returns then
    what it returns satisfies [Q]; it may throw. *)
Definition safe {E A} (m : outcome E A) (Q : A -> Prop) : Prop :=
  match m with Ret a => Q a | Throw _ => True | Undef | Diverge => False end.

Lemma safe_bind {E A B} (m : outcome E A) (k : A -> outcome E B) (P : A -> Prop) Q :
  safe m P -> (forall a, P a -> safe (k a) Q) -> safe (mbind k m) Q.
Proof. destruct m; simpl; auto. Qed.

Lemma safe_mono {E A} (m : outcome E A) (P Q : A -> Prop) :
  safe m P -> (forall a, P a -> Q a) -> safe m Q.
Proof. destruct m; simpl; auto. Qed.

(** [post m Q]: if [m] returns, what it returns satisfies [Q]. *)
Definition post {E A} (m : outcome E A) (Q : A -> Prop) : Prop :=
  match m with Ret a => Q a | _ => True end.

Lemma post_bind {E A B} (m : outcome E A) (k : A -> outcome E B) (P : A -> Prop) Q :
  post m P -> (forall a, P a -> post (k a) Q) -> post (mbind k m) Q.
Proof. destruct m; simpl; auto. Qed.

Lemma post_bind_any {E A B} (m : outcome E A) (k : A -> outcome E B) Q :
  (forall a, post (k a) Q) -> post (mbind k m) Q.
Proof. destruct m; simpl; auto. Qed.

Lemma post_mono {E A} (m : outcome E A) (P Q : A -> Prop) :
  post m P -> (forall a, P a -> Q a) -> post m Q.
Proof. destruct m; simpl; auto. Qed.

Lemma map_exn_ret {E E' A} (f : E -> E') (m : outcome E A) a : map_exn f m = Ret a -> m = Ret a.
Proof. destruct m; by intros [=]; subst. Qed.

Lemma throwing_ret {E S A} (s : S) (m : outcome E A) a : throwing s m = Ret a -> m = Ret a.
Proof. apply map_exn_ret. Qed.

(** [yields m Q R]: if [m] returns, what it returns satisfies [Q]; if it throws,
    what it throws satisfies [R]. *)
Definition yields {E A} (m : outcome E A) (Q : A -> Prop) (R : E -> Prop) : Prop :=
  match m with Ret a => Q a | Throw e => R e | _ => True end.

Lemma yields_bind {E A B} (m : outcome E A) (k : A -> outcome E B) (P : A -> Prop) Q R :
  yields m P R -> (forall a, P a -> yields (k a) Q R) -> yields (mbind k m) Q R.
Proof. destruct m; simpl; auto. Qed.

Lemma yields_mono {E A} (m : outcome E A) (P Q : A -> Prop) (R S : E -> Prop) :
  yields m P R -> (forall a, P a -> Q a) -> (forall e, R e -> S e) -> yields m Q S.
Proof. destruct m; simpl; auto. Qed.

Lemma yields_post {E A} (m : outcome E A) (Q : A -> Prop) (R : E -> Prop) : yields m Q R -> post m Q.
Proof. by destruct m. Qed.

Lemma yields_elim {E A} (m : outcome E A) (Q : A -> Prop) (R : E -> Prop) a : yields m Q R -> m = Ret a -> Q a.
Proof. by intros H ->. Qed.

Lemma yields_map_exn {E E' A} (f : E -> E') (m : outcome E A) (Q : A -> Prop) (R : E' -> Prop) :
  yields m Q (fun e => R (f e)) -> yields (map_exn f m) Q R.
Proof. by destruct m. Qed.

Lemma post_map_exn {E E' A} (f : E -> E') (m : outcome E A) (Q : A -> Prop) : post m Q -> post (map_exn f m) Q.
Proof. by destruct m. Qed.

Lemma safe_map_exn {E E' A} (f : E -> E') (m : outcome E A) (Q : A -> Prop) : safe m Q -> safe (map_exn f m) Q.
Proof. by destruct m. Qed.

Lemma post_elim {E A} (m : outcome E A) Q a : post m Q -> m = Ret a -> Q a.
Proof. by intros H ->. Qed.

(** ** Record updates

    [r <| f := v |>] is the assignment [r.f = v] on a struct. *)
Class Eta (R : Type) := eta_of : R -> R.
Class Upd {R T : Type} (proj : R -> T) := upd : (T -> T) -> R -> R.
Arguments upd {R T} proj {_} f r /.

Ltac derive_upd :=
  match goal with
  | |- @Upd ?R ?T ?p =>
      let f := fresh "f" in
      let r := fresh "r" in
      intros f r;
      let i := constr:(_ : Eta R) in
      let i' := eval red in i in
      let b := eval cbv beta in (i' r) in
      match eval pattern (p r) in b with
      | ?g _ => let b' := eval cbv beta in (g (f (p r))) in exact b'
      end
  end.
#[export] Hint Extern 0 (Upd _) => derive_upd : typeclass_instances.

Notation "r <| f := v |>" := (upd f (fun _ => v) r)
  (at level 1, f constr at level 0, left associativity) : web_scope.

Notation "r <| f ; g := v |>" := (upd f (upd g (fun _ => v)) r)
  (at level 1, f constr at level 0, g constr at level 0, left associativity) : web_scope.

(** ** Characters and strings

    A [std::string] is the list of its bytes; an embedded NUL is a byte like
    any other until a function goes through [c_str()]. *)
Abbreviation str := (list ascii).

Definition lit (s : string) : str := String.list_ascii_of_string s.
Notation "`s s" := (lit s%string) (at level 1, s at level 0, format "`s s") : web_scope.

Definition code (c : ascii) : Z := Z.of_N (N_of_ascii c).
Definition chr (z : Z) : ascii := ascii_of_N (Z.to_N (z mod 256)).
Definition NUL : ascii := Ascii.zero.
Definition zlen (s : str) : Z := Z.of_nat (length s).

Lemma code_inj a b : code a = code b -> a = b.
Proof.
  unfold code. intros H. rewrite <- (ascii_N_embedding a), <- (ascii_N_embedding b).
  f_equal. lia.
Qed.

Lemma code_bound c : (0 <= code c < 256)%Z.
Proof. unfold code. pose proof (N_ascii_bounded c). lia. Qed.

(** ** Filtered lists *)
Lemma filter_all {T} (P : T -> Prop) `{!forall x, Decision (P x)} (l : list T) : Forall P l -> filter P l = l.
Proof. induction 1 as [|x l Hx _ IH]; [done|]. rewrite filter_cons, decide_True by done. by rewrite IH. Qed.

Lemma filter_filter_and {T} (P Q : T -> Prop) `{!forall x, Decision (P x), !forall x, Decision (Q x)} (l : list T) :
  filter P (filter Q l) = filter (fun x => P x /\ Q x) l.
Proof.
  induction l as [|x l IH]; [done|]. rewrite (filter_cons Q), (filter_cons (fun x => P x /\ Q x)).
  destruct (decide (Q x)) as [HQ|HQ].
  - rewrite filter_cons. destruct (decide (P x)) as [HP|HP].
    + by rewrite decide_True, IH.
    + rewrite decide_False by tauto. by rewrite IH.
  - rewrite decide_False by tauto. done.
Qed.

Lemma filter_iff_in {T} (P Q : T -> Prop) `{!forall x, Decision (P x), !forall x, Decision (Q x)} (l : list T) :
  (forall x, x ∈ l -> P x <-> Q x) -> filter P l = filter Q l.
Proof.
  induction l as [|x l IH]; intros Hpq; [done|]. rewrite !filter_cons.
  rewrite IH by (intros y Hy; apply Hpq; by right).
  destruct (decide (P x)) as [HP|HP].
  - rewrite decide_True; [done|]. apply Hpq; [by left|done].
  - rewrite decide_False; [done|]. intros HQ. apply HP, Hpq; [by left|done].
Qed.

Lemma filter_length_le {T} (P : T -> Prop) `{!forall x, Decision (P x)} (l : list T) : (length (filter P l) <= length l)%nat.
Proof. induction l as [|x l IH]; [done|]. rewrite filter_cons. destruct (decide (P x)); cbn; lia. Qed.

(** ** Machine integers *)
#[local] Open Scope Z_scope.

Definition INT32_MAX : Z := 2147483647.
Definition LONG_MAX : Z := 9223372036854775807.
Definition npos : Z := 18446744073709551615.

(** Conversion of a wider value to [int] and to [size_t]. *)
Definition i32 (z : Z) : Z := (z + 2147483648) mod 4294967296 - 2147483648.
Definition u64 (z : Z) : Z := z mod 18446744073709551616.

Lemma zlen_app a b : zlen (a ++ b) = zlen a + zlen b.
Proof. unfold zlen. rewrite length_app. lia. Qed.

Lemma zlen_nonneg s : 0 <= zlen s.
Proof. unfold zlen. lia. Qed.
#[export] Hint Resolve zlen_nonneg : web.

Lemma i32_id z : (-2147483648 <= z <= 2147483647)%Z -> i32 z = z.
Proof. intros. unfold i32. rewrite Z.mod_small; lia. Qed.

Lemma i32_range z : (-2147483648 <= i32 z <= 2147483647)%Z.
Proof. unfold i32. pose proof (Z.mod_pos_bound (z + 2147483648) 4294967296). lia. Qed.

Lemma i32_mod z : i32 z mod 4294967296 = z mod 4294967296.
Proof.
  unfold i32. rewrite Zminus_mod_idemp_l. f_equal; lia.
Qed.

Lemma i32_mod_eq a b : a mod 4294967296 = b mod 4294967296 -> i32 a = i32 b.
Proof.
  intros H. unfold i32.
  rewrite <- (Zplus_mod_idemp_l a), <- (Zplus_mod_idemp_l b), H. reflexivity.
Qed.

Lemma i32_add_l a b : i32 (i32 a + b) = i32 (a + b).
Proof. apply i32_mod_eq. rewrite <- Zplus_mod_idemp_l, i32_mod, Zplus_mod_idemp_l. done. Qed.

Lemma i32_idem a : i32 (i32 a) = i32 a.
Proof. apply i32_mod_eq, i32_mod. Qed.

#[local] Close Scope Z_scope.
