(* ===== verification/CxxString.v ===== *)
(** * CxxString: the part of [std::string] the server uses

    Positions are [nat]; [None] stands for [std::string::npos] (code that
    computes with [npos] converts it with [pos_z]).  A string's [operator[]]
    returns the NUL character at [size()], as libstdc++ does. *)

From S2P Require Import Prelude.

(** [s[i]] for [i <= s.size()]. *)
Definition char_at (s : str) (i : nat) : ascii := nth i s NUL.

(** [s.erase(pos, n)] and [s.substr(pos, n)] for [pos <= s.size()]. *)
Definition erase (s : str) (pos n : nat) : str := take pos s ++ drop (pos + n) s.
Definition substr (s : str) (pos n : nat) : str := take n (drop pos s).

Fixpoint prefixb (p s : str) : bool :=
  match p, s with
  | [], _ => true
  | a :: p', b :: s' => Ascii.eqb a b && prefixb p' s'
  | _ :: _, [] => false
  end.

(** [s.find(p, 0)], [s.find(p, i)], [s.rfind(p)]. *)
Fixpoint find (p s : str) : option nat :=
  if prefixb p s then Some 0
  else match s with [] => None | _ :: s' => S <$> find p s' end.

Definition find_from (p s : str) (i : nat) : option nat :=
  if decide (i <= length s) then Nat.add i <$> find p (drop i s) else None.

Fixpoint rfind (p s : str) : option nat :=
  match s with
  | [] => if prefixb p [] then Some 0 else None
  | _ :: s' => match rfind p s' with
               | Some k => Some (S k)
               | None => if prefixb p s then Some 0 else None
               end
  end.

Definition pos_z (o : option nat) : Z :=
  match o with Some k => Z.of_nat k | None => npos end.

Definition mem (c : ascii) (set : str) : bool := existsb (Ascii.eqb c) set.

(** [s.find_first_not_of(set, i)] *)
Fixpoint find_first_not (set s : str) : option nat :=
  match s with
  | [] => None
  | c :: s' => if mem c set then S <$> find_first_not set s' else Some 0
  end.

Definition find_first_not_of (set s : str) (i : nat) : option nat :=
  Nat.add i <$> find_first_not set (drop i s).

(** [operator==] of [std::string] *)
Definition str_eqb (a b : str) : bool := bool_decide (a = b).

Definition is_empty (s : str) : bool := match s with [] => true | _ => false end.

(** Classification as the C locale's [<cctype>] does. *)
Definition lower_char (c : ascii) : ascii :=
  if ((65 <=? code c) && (code c <=? 90))%Z then chr (code c + 32) else c.
Definition upper_char (c : ascii) : ascii :=
  if ((97 <=? code c) && (code c <=? 122))%Z then chr (code c - 32) else c.
Definition isalpha (c : ascii) : bool :=
  (((65 <=? code c) && (code c <=? 90)) || ((97 <=? code c) && (code c <=? 122)))%Z.
Definition isspace (c : ascii) : bool :=
  ((code c =? 32) || ((9 <=? code c) && (code c <=? 13)))%Z.
Definition is_blank (c : ascii) : bool := ((code c =? 32) || (code c =? 9))%Z.

(** The C string seen through [c_str()]: everything before the first NUL. *)
Fixpoint c_str (s : str) : str :=
  match s with
  | [] => []
  | c :: s' => if Ascii.eqb c NUL then [] else c :: c_str s'
  end.

Definition CRLF : str := [Ascii.ascii_of_nat 13; Ascii.ascii_of_nat 10].

(** ** Lemmas on searching *)

Lemma prefixb_spec p s : prefixb p s = true <-> p `prefix_of` s.
Proof.
  revert s. induction p as [|a p IH]; intros s; simpl.
  - split; [intros; apply prefix_nil | done].
  - destruct s as [|b s]; [split; [done | by intros ?%prefix_nil_inv]|].
    rewrite andb_true_iff, IH, Ascii.eqb_eq. split.
    + intros [-> H]. by apply prefix_cons.
    + intros H. split; [by eapply prefix_cons_inv_1 | by eapply prefix_cons_inv_2].
Qed.

Lemma prefixb_app p s : prefixb p (p ++ s) = true.
Proof. apply prefixb_spec. by exists s. Qed.

Lemma prefixb_false p s : prefixb p s = false <-> ¬ p `prefix_of` s.
Proof. rewrite <- prefixb_spec. by destruct (prefixb p s). Qed.

(** [s] holds [p] at position [k]. *)
Definition occurs (p s : str) (k : nat) : Prop :=
  exists a b, s = a ++ p ++ b /\ length a = k.

Lemma occurs_0 p s : occurs p s 0 <-> p `prefix_of` s.
Proof.
  split.
  - intros (a & b & -> & Ha). destruct a; [|done]. by exists b.
  - intros [b ->]. by exists [], b.
Qed.

Lemma occurs_S p c s k : occurs p (c :: s) (S k) <-> occurs p s k.
Proof.
  split.
  - intros (a & b & Hs & Ha). destruct a as [|x a]; [done|].
    simplify_eq/=. by exists a, b.
  - intros (a & b & -> & Ha). exists (c :: a), b. simpl. by rewrite Ha.
Qed.

Lemma find_Some p s k :
  find p s = Some k <-> occurs p s k /\ forall j, j < k -> ¬ occurs p s j.
Proof.
  revert k. induction s as [|c s IH]; intros k; simpl.
  - destruct (prefixb p []) eqn:E.
    + apply prefixb_spec, occurs_0 in E. split.
      * intros [= <-]. split; [done | lia].
      * intros [_ H]. destruct k; [done|]. by destruct (H 0 ltac:(lia)).
    + split; [done|]. intros [(a & b & Hs & Ha) _].
      apply prefixb_false in E. destruct a; [|done]. destruct E. by exists b.
  - destruct (prefixb p (c :: s)) eqn:E.
    + apply prefixb_spec, occurs_0 in E. split.
      * intros [= <-]. split; [done | lia].
      * intros [_ H]. destruct k; [done|]. by destruct (H 0 ltac:(lia)).
    + apply prefixb_false in E. rewrite <- occurs_0 in E. split.
      * intros (k' & Hk & ->)%fmap_Some. apply IH in Hk as [H1 H2].
        split; [by apply occurs_S|]. intros [|j] Hj; [done|].
        rewrite occurs_S. apply H2. lia.
      * intros [H1 H2]. destruct k as [|k]; [done|]. apply occurs_S in H1.
        rewrite (proj2 (IH k)); [done|]. split; [done|].
        intros j Hj Hc. apply (H2 (S j)); [lia|]. by apply occurs_S.
Qed.

Lemma find_complete p s k : occurs p s k -> exists j, j <= k /\ find p s = Some j.
Proof.
  revert k. induction s as [|c s IH]; intros k Hk; simpl.
  - destruct (prefixb p []) eqn:E; [exists 0; split; [lia|done]|].
    destruct Hk as (a & b & Hs & _). apply prefixb_false in E.
    destruct a; [|done]. destruct E. by exists b.
  - destruct (prefixb p (c :: s)) eqn:E; [exists 0; split; [lia|done]|].
    destruct k as [|k].
    + apply occurs_0, prefixb_spec in Hk. congruence.
    + apply occurs_S, IH in Hk as (j & Hj & ->). exists (S j). split; [lia|done].
Qed.

Lemma find_None p s : find p s = None <-> forall k, ¬ occurs p s k.
Proof.
  split.
  - intros H k Hk. apply find_complete in Hk as (j & _ & ?). congruence.
  - intros H. destruct (find p s) as [k|] eqn:E; [|done].
    apply find_Some in E as [? _]. by destruct (H k).
Qed.

Lemma find_occurs p s k : find p s = Some k -> occurs p s k.
Proof. intros H. by apply find_Some in H as [? _]. Qed.

Lemma occurs_bound p s k : occurs p s k -> k + length p <= length s.
Proof. intros (a & b & -> & <-). rewrite !length_app. lia. Qed.

Lemma find_bound p s k : find p s = Some k -> k + length p <= length s.
Proof. intros ?%find_occurs. by apply occurs_bound. Qed.

Lemma occurs_split p s k :
  occurs p s k -> s = take k s ++ p ++ drop (k + length p) s.
Proof.
  intros (a & b & -> & <-). rewrite take_app_length. f_equal.
  rewrite (assoc_L (++) a p b), <- length_app, drop_app_length. done.
Qed.

Lemma occurs_app_l p s t k : occurs p s k -> occurs p (s ++ t) k.
Proof. intros (a & b & -> & <-). exists a, (b ++ t). by rewrite <- !(assoc_L (++)). Qed.

Lemma occurs_app_inv p s t k :
  occurs p (s ++ t) k -> k + length p <= length s -> occurs p s k.
Proof.
  intros (a & b & Hs & <-) Hk.
  exists a, (take (length s - length (a ++ p)) b). split; [|done].
  apply (f_equal (take (length s))) in Hs. rewrite take_app_length in Hs.
  rewrite Hs at 1. rewrite (assoc_L (++)).
  rewrite take_app_ge by (rewrite length_app; lia). by rewrite <- (assoc_L (++)).
Qed.

Lemma find_app_l p s t k : find p s = Some k -> find p (s ++ t) = Some k.
Proof.
  intros H. pose proof (find_bound _ _ _ H) as Hb.
  apply find_Some in H as [H1 H2]. apply find_Some. split; [by apply occurs_app_l|].
  intros j Hj Hc. apply (H2 j Hj). eapply occurs_app_inv; [done | lia].
Qed.

(** Everything before the first occurrence holds no occurrence. *)
Lemma find_take_None p s k :
  p <> [] -> find p s = Some k -> find p (take k s) = None.
Proof.
  intros Hp H. apply find_None. intros j Hj.
  pose proof (occurs_bound _ _ _ Hj) as Hb. rewrite length_take in Hb.
  apply find_Some in H as [_ H]. apply (H j).
  - destruct p; [done|]. simpl in Hb. lia.
  - rewrite <- (take_drop k s). by apply occurs_app_l.
Qed.

(** [find] of a one-character pattern. *)
Lemma find_char_app c s t : c ∉ s -> find [c] (s ++ c :: t) = Some (length s).
Proof.
  intros Hc. induction s as [|x s IH]; simpl.
  - by rewrite Ascii.eqb_refl.
  - apply not_elem_of_cons in Hc as [Hx Hs].
    rewrite (proj2 (Ascii.eqb_neq c x)) by done. simpl. by rewrite IH.
Qed.

Lemma find_char_None c s : find [c] s = None <-> c ∉ s.
Proof.
  split.
  - intros H Hc. apply list_elem_of_split in Hc as (a & b & ->).
    apply find_None with (k := length a) in H. destruct H. by exists a, b.
  - intros Hc. apply find_None. intros k (a & b & -> & _).
    apply Hc. set_solver.
Qed.

Lemma find_char_Some c s k :
  find [c] s = Some k -> (c ∉ take k s) /\ (s = take k s ++ (c :: drop (S k) s)).
Proof.
  intros H. split.
  - apply find_char_None. by eapply find_take_None.
  - apply find_occurs, occurs_split in H. rewrite H at 1. simpl. do 2 f_equal.
    by rewrite Nat.add_1_r.
Qed.

(** ** [rfind] *)

Lemma rfind_Some p s k : rfind p s = Some k -> occurs p s k.
Proof.
  revert k. induction s as [|c s IH]; intros k; simpl.
  - destruct (prefixb p []) eqn:E; [|done]. intros [= <-].
    by apply occurs_0, prefixb_spec.
  - destruct (rfind p s) as [j|].
    + intros [= <-]. apply occurs_S. by apply IH.
    + destruct (prefixb p (c :: s)) eqn:E; [|done]. intros [= <-].
      by apply occurs_0, prefixb_spec.
Qed.

Lemma rfind_last p s k : occurs p s k -> exists j, k <= j /\ rfind p s = Some j.
Proof.
  revert k. induction s as [|c s IH]; intros k Hk; simpl.
  - destruct Hk as (a & b & Hs & Ha). destruct a; [|done]. simpl in *.
    rewrite (proj2 (prefixb_spec _ _)) by (by exists b). exists 0. split; [lia|done].
  - destruct k as [|k].
    + apply occurs_0, prefixb_spec in Hk. rewrite Hk.
      destruct (rfind p s); eexists; split; [|done| |done]; lia.
    + apply occurs_S, IH in Hk as (j & Hj & ->). exists (S j). split; [lia|done].
Qed.

Lemma rfind_None p s : rfind p s = None <-> forall k, ¬ occurs p s k.
Proof.
  split.
  - intros H k Hk. apply rfind_last in Hk as (j & _ & ?). congruence.
  - intros H. destruct (rfind p s) as [k|] eqn:E; [|done].
    apply rfind_Some in E. by destruct (H k).
Qed.

Lemma rfind_char_None c s : rfind [c] s = None <-> c ∉ s.
Proof. by rewrite rfind_None, <- find_None, find_char_None. Qed.

Lemma rfind_char_Some c s k :
  rfind [c] s = Some k -> s = take k s ++ (c :: drop (S k) s) /\ c ∉ drop (S k) s.
Proof.
  intros H. pose proof (rfind_Some _ _ _ H) as Ho.
  pose proof (occurs_split _ _ _ Ho) as Hs. simpl in Hs. rewrite Nat.add_1_r in Hs.
  split; [done|]. intros Hc. apply list_elem_of_split in Hc as (a & b & Hd).
  destruct (rfind_last [c] s (length (take k s) + length (c :: a))) as (j & Hj & Hj').
  - exists (take k s ++ (c :: a)), b. split; [|by rewrite length_app].
    rewrite Hs at 1. by rewrite Hd, <- (assoc_L (++)).
  - rewrite H in Hj'. injection Hj' as <-.
    rewrite length_take in Hj. apply occurs_bound in Ho. simpl in Ho, Hj. lia.
Qed.

Lemma rfind_char_app c s t : c ∉ t -> rfind [c] (s ++ c :: t) = Some (length s).
Proof.
  intros Hc. destruct (rfind_last [c] (s ++ c :: t) (length s)) as (j & Hj & E); [by exists s, t|].
  rewrite E. f_equal. destruct (decide (j = length s)) as [|Hne]; [done|]. exfalso.
  apply rfind_Some in E as (a & b & Hs & Ha). apply Hc.
  apply (f_equal (drop (S (length s)))) in Hs.
  change (s ++ c :: t) with (s ++ [c] ++ t) in Hs. rewrite (assoc_L (++)) in Hs.
  rewrite drop_app_length' in Hs by (rewrite length_app; simpl; lia).
  rewrite drop_app_le in Hs by lia. rewrite Hs. apply elem_of_app. right. by left.
Qed.

(** A pattern does not occur in a text that misses one of its characters. *)
Lemma find_missing c p s : c ∈ p -> c ∉ s -> find p s = None.
Proof.
  intros Hp Hs. apply find_None. intros k (a & b & -> & _). apply Hs.
  rewrite !elem_of_app. tauto.
Qed.

(** ** Equality and emptiness tests *)

Lemma str_eqb_eq a b : str_eqb a b = true <-> a = b.
Proof. unfold str_eqb. apply bool_decide_eq_true. Qed.

Lemma str_eqb_neq a b : str_eqb a b = false <-> a <> b.
Proof. unfold str_eqb. apply bool_decide_eq_false. Qed.

Lemma is_empty_true s : is_empty s = true <-> s = [].
Proof. by destruct s. Qed.

Lemma is_empty_false s : is_empty s = false <-> s <> [].
Proof. by destruct s. Qed.

Lemma length_erase s pos n :
  pos + n <= length s -> length (erase s pos n) = length s - n.
Proof. intros. unfold erase. rewrite length_app, length_take, length_drop. lia. Qed.

Lemma find_first_not_None set s :
  find_first_not set s = None <-> forallb (fun c => mem c set) s = true.
Proof.
  induction s as [|c s IH]; simpl; [done|].
  destruct (mem c set); simpl; [|done]. rewrite fmap_None. exact IH.
Qed.

Lemma c_str_id s : NUL ∉ s -> c_str s = s.
Proof.
  induction s as [|c s IH]; simpl; [done|]. intros [Hc Hs]%not_elem_of_cons.
  rewrite (proj2 (Ascii.eqb_neq c NUL)) by done. by rewrite IH.
Qed.

(** The line end after a text that holds none. *)
Lemma find_crlf l s : find CRLF l = None -> find CRLF (l ++ CRLF ++ s) = Some (length l).
Proof.
  intros Hl. apply find_Some. split; [by exists l, s|].
  intros j Hj (a & b & Hs & Ha). apply find_None with (k := j) in Hl. apply Hl.
  destruct (decide (j + 2 <= length l)) as [Hle|Hle].
  - eapply (occurs_app_inv _ l (CRLF ++ s)); [by exists a, b|exact Hle].
  - exfalso. assert (length l = S (length a)) as Hlen by (simpl in *; lia).
    apply (f_equal (lookup (length l))) in Hs.
    rewrite (lookup_app_r l), Nat.sub_diag in Hs by done.
    rewrite (lookup_app_r a), Hlen in Hs by lia.
    replace (S (length a) - length a) with 1 in Hs by lia. done.
Qed.

Lemma find_crlf_no_cr l : Ascii.ascii_of_nat 13 ∉ l -> find CRLF l = None.
Proof.
  intros Hl. apply find_None. intros k (a & b & -> & _). apply Hl.
  apply elem_of_app. right. by left.
Qed.

(** A property of single characters, checked on all 256 of them. *)
Ltac ascii_cases c := destruct c as [[] [] [] [] [] [] [] []]; vm_compute; try done.
