(* ===== verification/OrdMap.v ===== *)
(** * OrdMap: [std::map] with a user-supplied comparator

    A [std::map<K, V, Compare>] is the list of its entries in iteration order.
    Two keys are the same key when neither is less than the other, so a map
    ordered case-insensitively keeps the spelling of the key inserted first.
    The operations take the comparator as an argument; their laws hold for
    every strict weak order, the contract the C++ standard puts on [Compare]. *)

From S2P Require Import Prelude CxxString.
From Stdlib Require Import Sorted.

(** The requirement on [Compare]. *)
Class StrictWeakOrder {K : Type} (ltb : K -> K -> bool) : Prop := {
  swo_irrefl x : ltb x x = false;
  swo_trans x y z : ltb x y = true -> ltb y z = true -> ltb x z = true;
  swo_cotrans x y z : ltb x z = true -> ltb x y = true \/ ltb y z = true;
}.

Section ordmap.
Context {K V : Type} (ltb : K -> K -> bool).

(** The equivalence of keys the comparator induces. *)
Definition key_equiv (a b : K) : bool := negb (ltb a b) && negb (ltb b a).

(** [m.find(k)], reading the value. *)
Fixpoint om_find (k : K) (m : list (K * V)) : option V :=
  match m with
  | [] => None
  | (k', v) :: m' =>
      if ltb k' k then om_find k m' else if ltb k k' then None else Some v
  end.

(** [m[k] = f(old)]: assignment through [operator[]]; an equivalent key that is
    already there keeps its spelling. *)
Fixpoint om_update (k : K) (f : option V -> V) (m : list (K * V)) : list (K * V) :=
  match m with
  | [] => [(k, f None)]
  | (k', v) :: m' =>
      if ltb k' k then (k', v) :: om_update k f m'
      else if ltb k k' then (k, f None) :: (k', v) :: m'
      else (k', f (Some v)) :: m'
  end.

Definition om_assign (k : K) (v : V) : list (K * V) -> list (K * V) :=
  om_update k (fun _ => v).

(** [m.erase(k)] *)
Fixpoint om_erase (k : K) (m : list (K * V)) : list (K * V) :=
  match m with
  | [] => []
  | (k', v) :: m' =>
      if ltb k' k then (k', v) :: om_erase k m'
      else if ltb k k' then (k', v) :: m' else m'
  end.

(** The iteration order: each key is less than every later one. *)
Definition om_sorted (m : list (K * V)) : Prop :=
  StronglySorted (fun a b => ltb a.1 b.1 = true) m.

Context `{!StrictWeakOrder ltb}.

Lemma ltb_irrefl x : ltb x x = false.
Proof. apply swo_irrefl. Qed.

Lemma swo_asym x y : ltb x y = true -> ltb y x = false.
Proof.
  intros H. destruct (ltb y x) eqn:E; [|done].
  rewrite <- (swo_irrefl x). symmetry. by eapply swo_trans.
Qed.

Lemma key_equiv_refl a : key_equiv a a = true.
Proof. unfold key_equiv. by rewrite ltb_irrefl. Qed.

Lemma key_equiv_sym a b : key_equiv a b = key_equiv b a.
Proof. apply Bool.andb_comm. Qed.

Lemma swo_congr_l a b c : key_equiv a b = true -> ltb a c = ltb b c.
Proof.
  unfold key_equiv. rewrite andb_true_iff, !negb_true_iff. intros [H1 H2].
  destruct (ltb a c) eqn:E1, (ltb b c) eqn:E2; try done.
  - destruct (swo_cotrans a b c E1); congruence.
  - destruct (swo_cotrans b a c E2); congruence.
Qed.

Lemma swo_congr_r a b c : key_equiv a b = true -> ltb c a = ltb c b.
Proof.
  unfold key_equiv. rewrite andb_true_iff, !negb_true_iff. intros [H1 H2].
  destruct (ltb c a) eqn:E1, (ltb c b) eqn:E2; try done.
  - destruct (swo_cotrans c b a E1); congruence.
  - destruct (swo_cotrans c a b E2); congruence.
Qed.

#[export] Instance key_equiv_equivalence :
  Equivalence (fun a b => key_equiv a b = true).
Proof.
  split.
  - intros x. apply key_equiv_refl.
  - intros x y H. by rewrite key_equiv_sym.
  - intros x y z H1 H2. unfold key_equiv.
    rewrite (swo_congr_l x y z), (swo_congr_r x y z) by done. exact H2.
Qed.

(** Lookup only depends on the key up to equivalence. *)
#[export] Instance om_find_proper :
  Proper ((fun a b => key_equiv a b = true) ==> (=) ==> (=)) om_find.
Proof.
  intros a b Hab m ? <-. induction m as [|[k v] m IH]; [done|]. simpl.
  by rewrite IH, (swo_congr_r a b k), (swo_congr_l a b k).
Qed.

Lemma om_find_update_eq k f m : om_find k (om_update k f m) = Some (f (om_find k m)).
Proof.
  induction m as [|[k' v] m IH]; simpl.
  - by rewrite ltb_irrefl.
  - destruct (ltb k' k) eqn:E1; simpl; [by rewrite E1|].
    destruct (ltb k k') eqn:E2; simpl; [by rewrite ltb_irrefl|]. by rewrite E1, E2.
Qed.

Lemma key_equiv_false a b :
  key_equiv a b = false <-> ltb a b = true \/ ltb b a = true.
Proof. unfold key_equiv. destruct (ltb a b), (ltb b a); simpl; intuition congruence. Qed.

Lemma om_find_update_ne k k' f m :
  key_equiv k k' = false -> om_find k' (om_update k f m) = om_find k' m.
Proof.
  intros Hne. apply key_equiv_false in Hne.
  induction m as [|[j v] m IH]; simpl.
  - destruct Hne as [->|H]; [done|]. by rewrite H, (swo_asym _ _ H).
  - destruct (ltb j k) eqn:E1; simpl; [by rewrite IH|].
    destruct (ltb k j) eqn:E2; simpl.
    + destruct Hne as [->|H]; [done|]. rewrite H, (swo_asym _ _ H).
      assert (ltb k' j = true) as E3 by (by eapply swo_trans).
      by rewrite E3, (swo_asym _ _ E3).
    + assert (key_equiv j k = true) as Hj by (unfold key_equiv; by rewrite E1, E2).
      rewrite (swo_congr_l j k), (swo_congr_r j k) by done.
      by destruct Hne as [->| ->]; [|destruct (ltb k k')].
Qed.

(** *** The entries stay in strictly increasing order *)

Lemma om_update_keys k f m a :
  a ∈ om_update k f m -> a.1 = k \/ a ∈ m \/ exists b, b ∈ m /\ a.1 = b.1.
Proof.
  induction m as [|[j v] m IH]; simpl.
  - intros ->%list_elem_of_singleton. by left.
  - destruct (ltb j k); [|destruct (ltb k j)]; rewrite !elem_of_cons.
    + intros [->|H]; [auto|]. destruct (IH H) as [?|[?|(b & ? & ?)]]; [auto|auto|].
      right; right. exists b. split; [|done]. by right.
    + intros [->|H]; [by left|]. auto.
    + intros [->|H]; [|auto]. right; right. exists (j, v). split; [|done]. by left.
Qed.

Lemma om_update_sorted k f m : om_sorted m -> om_sorted (om_update k f m).
Proof.
  unfold om_sorted. induction 1 as [|[j v] m Hm IH Hj]; simpl.
  - by repeat constructor.
  - destruct (ltb j k) eqn:E1; [|destruct (ltb k j) eqn:E2].
    + constructor; [done|]. rewrite Forall_forall in *. intros a Ha.
      apply om_update_keys in Ha as [Ha|[Ha|(b & Hb & Ha)]]; simpl.
      * by rewrite Ha.
      * by apply Hj.
      * rewrite Ha. by apply Hj.
    + constructor; [by constructor|]. constructor; [done|].
      rewrite Forall_forall in *. intros a Ha. simpl.
      eapply swo_trans; [done|]. by apply Hj.
    + by constructor.
Qed.

Lemma om_erase_subseteq k m a : a ∈ om_erase k m -> a ∈ m.
Proof.
  induction m as [|[j v] m IH]; simpl; [done|].
  destruct (ltb j k); [|destruct (ltb k j)]; rewrite !elem_of_cons; intuition auto.
Qed.

Lemma om_erase_sorted k m : om_sorted m -> om_sorted (om_erase k m).
Proof.
  unfold om_sorted. induction 1 as [|[j v] m Hm IH Hj]; simpl; [constructor|].
  destruct (ltb j k); [|destruct (ltb k j)]; [|by constructor|done].
  constructor; [done|]. rewrite Forall_forall in *.
  intros a Ha. eapply Hj, om_erase_subseteq, Ha.
Qed.

Lemma om_find_before k m :
  (forall a, a ∈ m -> ltb k a.1 = true) -> om_find k m = None.
Proof.
  destruct m as [|[j v] m]; simpl; [done|]. intros H.
  assert (ltb k j = true) as E by (apply (H (j, v)); by left).
  by rewrite E, (swo_asym _ _ E).
Qed.

Lemma om_find_erase_eq k m : om_sorted m -> om_find k (om_erase k m) = None.
Proof.
  unfold om_sorted. induction 1 as [|[j v] m Hm IH Hj]; simpl; [done|].
  destruct (ltb j k) eqn:E1; simpl; [by rewrite E1|].
  destruct (ltb k j) eqn:E2; simpl; [by rewrite E1, E2|].
  apply om_find_before. rewrite Forall_forall in Hj. intros a Ha.
  rewrite (swo_congr_l k j); [by apply Hj|]. unfold key_equiv. by rewrite E1, E2.
Qed.

Lemma om_find_Some k v m :
  om_sorted m ->
  om_find k m = Some v <-> exists k', (k', v) ∈ m /\ key_equiv k' k = true.
Proof.
  unfold om_sorted. induction 1 as [|[j w] m Hm IH Hj]; simpl.
  { split; [done|]. by intros (? & ?%not_elem_of_nil & _). }
  rewrite Forall_forall in Hj. destruct (ltb j k) eqn:E1; [|destruct (ltb k j) eqn:E2].
  - rewrite IH. split; intros (k' & Hk & He); exists k'; (split; [|done]).
    + by right.
    + apply elem_of_cons in Hk as [[= -> ->]|?]; [|done].
      unfold key_equiv in He. by rewrite E1 in He.
  - split; [done|]. intros (k' & Hk & He). unfold key_equiv in He.
    apply elem_of_cons in Hk as [[= -> ->]|Hk].
    + by rewrite E2, andb_false_r in He.
    + apply Hj in Hk. simpl in Hk.
      rewrite (swo_trans k j k'), andb_false_r in He; done.
  - assert (key_equiv j k = true) as Ek by (unfold key_equiv; by rewrite E1, E2).
    split.
    + intros [= ->]. exists j. split; [by left|done].
    + intros (k' & Hk & He). apply elem_of_cons in Hk as [[= -> ->]|Hk]; [done|].
      apply Hj in Hk. simpl in Hk. unfold key_equiv in He.
      rewrite (swo_congr_l j k) in Hk by done. rewrite Hk, andb_false_r in He. done.
Qed.

Lemma om_find_None k m :
  om_sorted m -> om_find k m = None <-> forall e, e ∈ m -> key_equiv e.1 k = false.
Proof.
  intros Hm. split.
  - intros H [k' v] He. destruct (key_equiv k' k) eqn:E; [|done].
    assert (om_find k m = Some v) by (apply om_find_Some; eauto). congruence.
  - intros H. destruct (om_find k m) as [v|] eqn:E; [|done].
    apply om_find_Some in E as (k' & Hk & He); [|done]. apply H in Hk. simpl in Hk. congruence.
Qed.
End ordmap.

#[export] Hint Resolve om_update_sorted om_erase_sorted : web.

(** ** Orders on strings *)

(** [std::less<std::string>]: lexicographic order of unsigned bytes. *)
Fixpoint lex_ltb (a b : str) : bool :=
  match a, b with
  | _, [] => false
  | [], _ :: _ => true
  | x :: a', y :: b' =>
      if (code x <? code y)%Z then true
      else if (code y <? code x)%Z then false else lex_ltb a' b'
  end.

Lemma lex_irrefl a : lex_ltb a a = false.
Proof. induction a as [|x a IH]; simpl; [done|]. by rewrite Z.ltb_irrefl. Qed.

Lemma lex_trans a b c : lex_ltb a b = true -> lex_ltb b c = true -> lex_ltb a c = true.
Proof.
  revert b c. induction a as [|x a IH]; intros [|y b] [|z c]; simpl; try done.
  repeat case_match; rewrite ?Z.ltb_lt, ?Z.ltb_ge in *; try lia; try done.
  intros. by eapply IH.
Qed.

Lemma lex_total a b : lex_ltb a b = false -> lex_ltb b a = false -> a = b.
Proof.
  revert b. induction a as [|x a IH]; intros [|y b]; simpl; try done.
  repeat case_match; rewrite ?Z.ltb_lt, ?Z.ltb_ge in *; try lia; try done.
  intros. f_equal; [apply code_inj; lia | by apply IH].
Qed.

#[export] Instance lex_swo : StrictWeakOrder lex_ltb.
Proof.
  split; [apply lex_irrefl | apply lex_trans |].
  intros x y z Hxz. destruct (lex_ltb x y) eqn:E1; [by left|]. right.
  destruct (lex_ltb y x) eqn:E2.
  - by eapply lex_trans.
  - by rewrite <- (lex_total x y).
Qed.

Lemma lex_equiv a b : key_equiv lex_ltb a b = true <-> a = b.
Proof.
  unfold key_equiv. rewrite andb_true_iff, !negb_true_iff. split.
  - intros [? ?]. by apply lex_total.
  - intros ->. by rewrite lex_irrefl.
Qed.

(** Erasing and filtering. *)
Lemma om_erase_filter {V} n (m : list (str * V)) : om_sorted lex_ltb m ->
  om_erase lex_ltb n m = filter (fun e => e.1 <> n) m.
Proof.
  unfold om_sorted. induction 1 as [|[k v] m Hm IH Hk]; [done|]. cbn [om_erase]. rewrite filter_cons.
  cbn [fst]. destruct (lex_ltb k n) eqn:E1.
  - rewrite decide_True by (intros ->; by rewrite lex_irrefl in E1). by rewrite IH.
  - assert (forall e, e ∈ m -> e.1 <> n) as Hm'.
    { intros e He Heq. rewrite Forall_forall in Hk. apply Hk in He. cbn in He. congruence. }
    assert (filter (fun e => e.1 <> n) m = m) as Hf by (apply filter_all; by apply Forall_forall).
    destruct (lex_ltb n k) eqn:E2.
    + rewrite decide_True by (intros ->; by rewrite lex_irrefl in E2). by rewrite Hf.
    + rewrite decide_False; [by rewrite Hf|]. intros Hne. by apply Hne, lex_total.
Qed.

Lemma om_sorted_filter {V} (P : str * V -> Prop) `{!forall x, Decision (P x)} m :
  om_sorted lex_ltb m -> om_sorted lex_ltb (filter P m).
Proof.
  unfold om_sorted. induction 1 as [|e m Hm IH He]; [constructor|]. rewrite filter_cons.
  destruct (decide (P e)); [|done]. constructor; [done|]. rewrite Forall_forall in He |- *.
  intros x [_ Hx]%list_elem_of_filter. by apply He.
Qed.

(** Assigning a key that is absent adds one entry. *)
Lemma om_assign_new {K V} (ltb : K -> K -> bool) k (v : V) m :
  om_find ltb k m = None -> om_assign ltb k v m ≡ₚ (k, v) :: m.
Proof.
  unfold om_assign. induction m as [|[j w] m IH]; [done|]. cbn [om_find om_update].
  destruct (ltb j k); [intros H; rewrite IH by done; apply Permutation_swap|]. by destruct (ltb k j).
Qed.

Lemma om_erase_assign_new {K V} (ltb : K -> K -> bool) `{!StrictWeakOrder ltb} k (v : V) m :
  om_find ltb k m = None -> om_erase ltb k (om_assign ltb k v m) = m.
Proof.
  unfold om_assign. induction m as [|[j w] m IH]; cbn [om_find om_update].
  - intros _. cbn [om_erase]. by rewrite (ltb_irrefl ltb).
  - destruct (ltb j k) eqn:E; [intros H; cbn [om_erase]; by rewrite E, IH|].
    destruct (ltb k j); [|done]. intros _. cbn [om_erase]. by rewrite (ltb_irrefl ltb).
Qed.
