(* ===== verification/Unique.v ===== *)
(** * Unique: the iterator over the distinct values of a map

    [includes/UniqueValuesMapIterator.tpp], as the program instantiates it: a map
    from server names to (addresses of) hosts, where a host is a value once per
    name.  The iterator keeps its place in the map and the values it has left.
    Going back before the first node, going on after [end()] and reading
    [end()] are undefined behaviour ([Undef]). *)

From S2P Require Import Prelude CxxString OrdMap.

(** A place is the key of a node, [None] is [end()]. *)
Record unique_iterator := mkIter { it_base : option str; it_seen : list nat }.

Definition it_begin (m : list (str * nat)) : unique_iterator := mkIter (fst <$> head m) [].

(** [==] and [!=] compare the places only. *)
Definition it_eqb (a b : unique_iterator) : bool := bool_decide (it_base a = it_base b).
Definition base_eqb (a : unique_iterator) (b : option str) : bool := bool_decide (it_base a = b).

(** The nodes on the two sides of a key, the nearest first. *)
Definition entries_after (k : str) (m : list (str * nat)) : list (str * nat) :=
  filter (fun e => lex_ltb k e.1 = true) m.
Definition entries_before (k : str) (m : list (str * nat)) : list (str * nat) :=
  rev (filter (fun e => lex_ltb e.1 k = true) m).

Section operations.
Context {E : Type} (m : list (str * nat)).

(** [operator->], and [->second] of it *)
Definition it_second (it : unique_iterator) : outcome E nat :=
  k ← deref (it_base it); deref (om_find lex_ltb k m).

(** The loop of all the steps, [do move while (_baseIt != limit && seen)], on the
    nodes it would visit; the unlimited operators have no limit. *)
Fixpoint scan (limit : option (option str)) (seen : list nat) (nodes : list (option (str * nat))) : outcome E (option str) :=
  match nodes with
  | [] => Undef
  | n :: nodes =>
      if bool_decide (limit = Some (fst <$> n)) then Ret (fst <$> n)
      else
        '(k, v) ← deref n;
        if existsb (Nat.eqb v) seen then scan limit seen nodes else Ret (Some k)
  end.

(** [insert] of the value left, then the loop. *)
Definition step (nodes : str -> list (option (str * nat))) (limit : option (option str)) (it : unique_iterator) :
    outcome E unique_iterator :=
  k ← deref (it_base it);
  v ← it_second it;
  let seen := v :: it_seen it in
  base ← scan limit seen (nodes k);
  Ret (mkIter base seen).

Definition nodes_after (k : str) : list (option (str * nat)) := map Some (entries_after k m) ++ [None].
Definition nodes_before (k : str) : list (option (str * nat)) := map Some (entries_before k m).

Definition safePreIncrement (limit : option str) : unique_iterator -> outcome E unique_iterator :=
  step nodes_after (Some limit).
Definition safePreDecrement (limit : option str) : unique_iterator -> outcome E unique_iterator :=
  step nodes_before (Some limit).

(** The copy and the iterator that moved. *)
Definition safePostIncrement (limit : option str) (it : unique_iterator) : outcome E (unique_iterator * unique_iterator) :=
  it' ← safePreIncrement limit it; Ret (it, it').

(** [this->safePreIncrement(begin)] *)
Definition safePostDecrement (limit : option str) (it : unique_iterator) : outcome E (unique_iterator * unique_iterator) :=
  it' ← safePreIncrement limit it; Ret (it, it').

Definition preIncrement : unique_iterator -> outcome E unique_iterator := step nodes_after None.
Definition preDecrement : unique_iterator -> outcome E unique_iterator := step nodes_before None.
Definition postIncrement (it : unique_iterator) : outcome E (unique_iterator * unique_iterator) :=
  it' ← preIncrement it; Ret (it, it').
Definition postDecrement (it : unique_iterator) : outcome E (unique_iterator * unique_iterator) :=
  it' ← preDecrement it; Ret (it, it').
End operations.

(** ** Forwards *)

(** The next unseen node, [None] when there is none. *)
Fixpoint next_unseen (seen : list nat) (m : list (str * nat)) : option str :=
  match m with
  | [] => None
  | (k, v) :: m => if existsb (Nat.eqb v) seen then next_unseen seen m else Some k
  end.

Lemma seen_spec v (seen : list nat) : existsb (Nat.eqb v) seen = bool_decide (v ∈ seen).
Proof.
  apply eq_bool_prop_intro. rewrite bool_decide_spec, Is_true_true, existsb_exists. split.
  - intros (x & Hx & <-%Nat.eqb_eq). by apply list_elem_of_In.
  - intros Hv. exists v. split; [by apply list_elem_of_In|apply Nat.eqb_refl].
Qed.

Lemma next_unseen_head seen (m : list (str * nat)) :
  next_unseen seen m = fst <$> head (filter (fun e => e.2 ∉ seen) m).
Proof.
  induction m as [|[k v] m IH]; [done|]. cbn [next_unseen]. rewrite seen_spec, filter_cons. cbn [snd].
  by case_bool_decide as Hv; [rewrite decide_False by naive_solver|rewrite decide_True].
Qed.

(** With the end as limit the loop always ends there or at an unseen node. *)
Lemma scan_end {E} seen (l : list (str * nat)) :
  scan (E:=E) (Some None) seen (map Some l ++ [None]) = Ret (next_unseen seen l).
Proof.
  induction l as [|[k v] l IH]; [done|]. cbn [map app scan]. rewrite bool_decide_eq_false_2 by done.
  cbn [deref mbind outcome_bind next_unseen]. by destruct (existsb _ _).
Qed.

Lemma safePostIncrement_eq {E} m it k v : it_base it = Some k -> om_find lex_ltb k m = Some v ->
  safePostIncrement (E:=E) m None it =
    Ret (it, mkIter (next_unseen (v :: it_seen it) (entries_after k m)) (v :: it_seen it)).
Proof.
  intros Hk Hv. unfold safePostIncrement, safePreIncrement, step, it_second. rewrite Hk.
  cbn [deref mbind outcome_bind]. rewrite Hv. cbn [deref mbind outcome_bind]. unfold nodes_after. by rewrite scan_end.
Qed.

Lemma it_second_eq {E} m it k v : it_base it = Some k -> om_find lex_ltb k m = Some v -> it_second (E:=E) m it = Ret v.
Proof. intros Hk Hv. unfold it_second. rewrite Hk. cbn. by rewrite Hv. Qed.

(** The entries not seen yet, after the iterator moved on. *)
Lemma unseen_after m0 seen k v m : om_sorted lex_ltb m0 ->
  filter (fun e => e.2 ∉ seen) m0 = (k, v) :: m ->
  filter (fun e => e.2 ∉ v :: seen) (entries_after k m0) = filter (fun e => e.2 ∉ v :: seen) m0.
Proof.
  intros Hs E. unfold entries_after. rewrite filter_filter_and. apply filter_iff_in. intros e He.
  split; [by intros [? _]|]. intros Hv. split; [done|].
  assert (e ∈ (k, v) :: m) as Hm.
  { rewrite <- E. apply list_elem_of_filter. split; [|done]. intros ?. apply Hv. by right. }
  apply elem_of_cons in Hm as [->|Hm]; [destruct Hv; by left|].
  pose proof (om_sorted_filter (fun e => e.2 ∉ seen) m0 Hs) as Hf. rewrite E in Hf.
  unfold om_sorted in Hf. inversion Hf as [|? ? _ Hall]; subst. rewrite Forall_forall in Hall. by apply Hall.
Qed.

Lemma entries_after_shorter k k' v' (m : list (str * nat)) : (k', v') ∈ entries_after k m ->
  (length (entries_after k' m) < length (entries_after k m))%nat.
Proof.
  unfold entries_after. intros Hin. pose proof Hin as [Hlt _]%list_elem_of_filter. cbn in Hlt.
  assert (filter (fun e => lex_ltb k' e.1 = true) m
          = filter (fun e => lex_ltb k' e.1 = true) (filter (fun e => lex_ltb k e.1 = true) m)) as ->.
  { rewrite filter_filter_and. apply filter_iff_in. intros e _. split; [|by intros [? _]].
    intros H. split; [done|]. by eapply lex_trans. }
  eapply length_filter_lt; [exact Hin|]. cbn. by rewrite lex_irrefl.
Qed.

(** The iterator stands on the first entry and has seen none of the values left. *)
Lemma entries_after_head k v (m : list (str * nat)) : om_sorted lex_ltb ((k, v) :: m) ->
  entries_after k ((k, v) :: m) = m.
Proof.
  unfold om_sorted. intros H. inversion H as [|? ? _ Hall]; subst. unfold entries_after. rewrite filter_cons. cbn.
  rewrite lex_irrefl, decide_False by done. by apply filter_all.
Qed.

(** ** What a loop finds *)
Lemma scan_result {E} limit seen nodes b :
  scan (E:=E) limit seen nodes = Ret b ->
  exists n, n ∈ nodes /\ b = fst <$> n /\ (limit = Some b \/ exists k v, n = Some (k, v) /\ v ∉ seen).
Proof.
  induction nodes as [|n nodes IH]; [done|]. cbn [scan]. case_bool_decide as Hl.
  - intros [= <-]. exists n. split; [by left|]. split; [done|by left].
  - destruct n as [[k v]|]; [|done]. cbn [deref mbind outcome_bind]. rewrite seen_spec. case_bool_decide as Hv.
    + intros (n & Hn & H)%IH. exists n. split; [by right|done].
    + intros [= <-]. exists (Some (k, v)). split; [by left|]. split; [done|]. right. by exists k, v.
Qed.

Lemma scan_defined {E} limit seen nodes :
  (exists b, scan (E:=E) limit seen nodes = Ret b) \/ scan (E:=E) limit seen nodes = Undef.
Proof.
  induction nodes as [|n nodes IH]; [by right|]. cbn [scan]. case_bool_decide; [by left; eexists|].
  destruct n as [[k v]|]; [|by right]. cbn [deref mbind outcome_bind].
  destruct (existsb _ _); [done|by left; eexists].
Qed.

(** Backwards from a node to the first one: the loop stops there at the latest. *)
Lemma scan_begin {E} seen (l : list (str * nat)) k0 :
  fst <$> last l = Some k0 -> exists k, scan (E:=E) (Some (Some k0)) seen (map Some l) = Ret (Some k).
Proof.
  induction l as [|[k v] l IH]; [done|]. intros Hl. cbn [map scan].
  case_bool_decide as Hk; [by eexists|]. cbn [deref mbind outcome_bind]. destruct (existsb _ _); [|by eexists].
  apply IH. destruct l; [|done]. cbn in Hl, Hk. congruence.
Qed.

(** The nodes before a node of a map that begins with [k0]. *)
Lemma nodes_before_first k0 v0 m k : om_sorted lex_ltb ((k0, v0) :: m) -> (k = k0 \/ exists v, (k, v) ∈ m) ->
  entries_before k ((k0, v0) :: m) =
    if bool_decide (k = k0) then [] else rev (filter (fun e => lex_ltb e.1 k = true) m) ++ [(k0, v0)].
Proof.
  intros Hs Hk. inversion Hs as [|? ? _ Hall]; subst. rewrite Forall_forall in Hall.
  unfold entries_before. rewrite filter_cons. cbn [fst]. case_bool_decide as E.
  - subst k. rewrite decide_False by (by rewrite lex_irrefl).
    rewrite (filter_iff_in _ (fun _ => False)); [|].
    + clear. induction m as [|e m IH]; [done|]. rewrite filter_cons. by rewrite decide_False by tauto.
    + intros e He. split; [|done]. intros Hlt. pose proof (lex_trans _ _ _ Hlt (Hall e He)) as Hx.
      by rewrite lex_irrefl in Hx.
  - destruct Hk as [?|[v Hv]]; [done|]. rewrite decide_True by apply (Hall (k, v) Hv). done.
Qed.

(** ** Theorems *)

(** [safePreDecrement] with [begin()] goes back to the nearest node whose value
    was not left before, and to the first node when there is none, whatever its
    value; from the first node it is undefined. *)
Theorem safePreDecrement_correct {E} k0 v0 m0 it k v (m := (k0, v0) :: m0) :
  om_sorted lex_ltb m -> it_base it = Some k -> om_find lex_ltb k m = Some v ->
  if bool_decide (k = k0) then safePreDecrement (E:=E) m (Some k0) it = Undef
  else exists k' v', safePreDecrement (E:=E) m (Some k0) it = Ret (mkIter (Some k') (v :: it_seen it)) /\
    (k', v') ∈ m /\ lex_ltb k' k = true /\ (k' = k0 \/ v' ∉ v :: it_seen it).
Proof.
  intros Hs Hk Hv. unfold safePreDecrement, step. rewrite (it_second_eq m it k v), Hk by done.
  cbn [deref mbind outcome_bind]. set (seen := v :: it_seen it).
  assert (k = k0 \/ exists w, (k, w) ∈ m0) as Hin.
  { apply om_find_Some in Hv as (k1 & Hin & ->%lex_equiv); [|apply _|done].
    apply elem_of_cons in Hin as [[= -> ->]|Hin]; [by left|right; by exists v]. }
  pose proof (nodes_before_first k0 v0 m0 k Hs Hin) as Hbef. fold m in Hbef. unfold nodes_before.
  case_bool_decide as Hne; [by rewrite Hbef|]. set (before := entries_before k m) in *.
  assert (forall e, e ∈ before -> e ∈ m /\ lex_ltb e.1 k = true) as Hb.
  { intros e He. unfold before, entries_before in He. rewrite list_elem_of_In, <- in_rev, <- list_elem_of_In in He.
    by apply list_elem_of_filter in He as [? ?]. }
  destruct (scan_begin (E:=E) seen before k0) as [k' Hk']; [by rewrite Hbef, last_snoc|].
  pose proof (scan_result _ _ _ _ Hk') as (n & Hn & Hb' & Hwhy). rewrite Hk'. cbn [mbind outcome_bind].
  apply list_elem_of_fmap in Hn as (e & -> & He). injection Hb' as ->. destruct (Hb e He) as [He1 He2].
  exists e.1, e.2. split; [done|]. split; [by destruct e|]. split; [done|].
  destruct Hwhy as [[= ?]|(k2 & v2 & [= ->] & Hv2)]; [by left|by right].
Qed.

(** [safePostDecrement] goes forwards: whatever the limit, it ends on a later node
    or at the end, or is undefined; it never goes back. *)
Theorem safePostDecrement_forwards {E} m limit it old it' :
  safePostDecrement (E:=E) m limit it = Ret (old, it') ->
  old = it /\ match it_base it, it_base it' with
              | Some k, Some k' => lex_ltb k k' = true
              | Some _, None => True
              | None, _ => False
              end.
Proof.
  unfold safePostDecrement, safePreIncrement, step. destruct (it_base it) as [k|] eqn:Hk; [|done].
  cbn [deref mbind outcome_bind]. destruct (it_second m it) as [v| | |]; cbn [mbind outcome_bind]; [|done..].
  destruct (scan _ _ _) as [b| | |] eqn:Es; cbn [mbind outcome_bind]; [|done..]. intros [= <- <-].
  split; [done|]. cbn [it_base]. apply scan_result in Es as (n & Hn & -> & _).
  unfold nodes_after in Hn. apply elem_of_app in Hn as [Hn|Hn].
  - apply list_elem_of_fmap in Hn as (e & -> & He). cbn. unfold entries_after in He.
    by apply list_elem_of_filter in He as [? _].
  - by apply list_elem_of_singleton in Hn as ->.
Qed.

(** A step that has no limit never ends at the end of the map. *)
Lemma unlimited_node {E} seen nodes b : scan (E:=E) None seen nodes = Ret b -> exists k v, Some (k, v) ∈ nodes /\ b = Some k /\ v ∉ seen.
Proof.
  intros (n & Hn & -> & [?|(k & v & -> & Hv)])%scan_result; [done|]. by exists k, v.
Qed.

(** [b] and [a] are names of host 1, [c] of host 2. *)
Definition demo_map : list (str * nat) := [(`s"a", 1); (`s"b", 1); (`s"c", 2)]%nat.

Example increment_ex : safePreIncrement (E:=unit) demo_map None (it_begin demo_map) = Ret (mkIter (Some (`s"c")) [1%nat]).
Proof. reflexivity. Qed.

(** Backwards from [c] over [b]; from [b] to [a], which has the value just left. *)
Example decrement_ex :
  safePreDecrement (E:=unit) demo_map (Some (`s"a")) (mkIter (Some (`s"c")) []) = Ret (mkIter (Some (`s"b")) [2%nat]) /\
  safePreDecrement (E:=unit) demo_map (Some (`s"a")) (mkIter (Some (`s"b")) [2%nat]) = Ret (mkIter (Some (`s"a")) [1; 2]%nat) /\
  preDecrement (E:=unit) demo_map (mkIter (Some (`s"b")) [2%nat]) = Undef.
Proof. done. Qed.
