(* ===== verification/Format.v ===== *)
(** * Format: the helpers of [srcs/format.cpp]

    Number parsing and printing, case-insensitive equality, and the [*]
    patterns that select the location of a request. *)

From S2P Require Import Prelude CxxString.
#[local] Open Scope Z_scope.

Definition deci : str := `s"0123456789".
Definition hexa : str := `s"0123456789ABCDEF".

Definition to_upper (c : ascii) : ascii := upper_char c.

(** *** The C library's [strtol] *)

Definition digit_val (c : ascii) : Z :=
  let z := code c in
  if (48 <=? z) && (z <=? 57) then z - 48
  else if (65 <=? z) && (z <=? 90) then z - 55
  else if (97 <=? z) && (z <=? 122) then z - 87
  else 99.

(** Reads digits of [base] up to the first other character. *)
Fixpoint digits_val (base acc : Z) (s : str) : Z :=
  match s with
  | [] => acc
  | c :: s' => if digit_val c <? base then digits_val base (acc * base + digit_val c) s'
               else acc
  end.

Fixpoint drop_while (f : ascii -> bool) (s : str) : str :=
  match s with
  | [] => []
  | c :: s' => if f c then drop_while f s' else s
  end.

Definition is_sign (c : ascii) : bool := (code c =? 43) || (code c =? 45).

(** Optional [0x] of base 16, recognised when a hexadecimal digit follows. *)
Definition drop_0x (base : Z) (s : str) : str :=
  match s with
  | a :: b :: c :: s' =>
      if (base =? 16) && (code a =? 48) && (code (lower_char b) =? 120) && (digit_val c <? 16)
      then c :: s' else s
  | _ => s
  end.

(** The value, and whether [errno] is set ([ERANGE]). *)
Definition strtol (s : str) (base : Z) : Z * bool :=
  let s := drop_while isspace (c_str s) in
  let '(neg, s) := match s with
                   | c :: s' => if is_sign c then (code c =? 45, s') else (false, s)
                   | [] => (false, [])
                   end in
  let v := digits_val base 0 (drop_0x base s) in
  let v := if neg : bool then - v else v in
  if LONG_MAX <? v then (LONG_MAX, true)
  else if v <? - LONG_MAX - 1 then (- LONG_MAX - 1, true)
  else (v, false).

(** *** [getInt]

    Returns the C return value (0 for success) and the new value of [res]. *)
Fixpoint count_blanks (s : str) : nat :=
  match s with
  | c :: s' => if is_blank c then S (count_blanks s') else 0
  | [] => 0
  end.

Definition getInt (s : str) (base : Z) (res : Z) : Z * Z :=
  let s := map to_upper s in
  let sbase := if base =? 10 then deci else if base =? 16 then hexa else [] in
  let idx := count_blanks s in
  let idx := if is_sign (char_at s idx) then S idx else idx in
  if Nat.eqb idx (length s) then (1, res)
  else match find_first_not_of sbase s idx with
       | Some _ => (1, res)
       | None =>
           let '(v, err) := strtol s base in
           (if err : bool then 1 else 0, i32 v)
       end.

(** *** [IntToString]: an [ostringstream] in base 10 or 16 *)
Definition digit_char (d : Z) : ascii := if d <? 10 then chr (48 + d) else chr (87 + d).

Fixpoint to_digits (fuel : nat) (base n : Z) : str :=
  match fuel with
  | O => []
  | S fuel => if n <? base then [digit_char n]
              else to_digits fuel base (n / base) ++ [digit_char (n mod base)]
  end.

Definition IntToString (x base : Z) : str :=
  if base =? 16 then to_digits 32 16 (x mod 4294967296)
  else if x <? 0 then "-"%char :: to_digits 32 10 (- x) else to_digits 32 10 x.

Definition ichar_equals (a b : ascii) : bool := Ascii.eqb (lower_char a) (lower_char b).

Fixpoint all2 (f : ascii -> ascii -> bool) (a b : str) : bool :=
  match a, b with
  | x :: a', y :: b' => f x y && all2 f a' b'
  | [], _ => true
  | _ :: _, [] => false
  end.

Definition nocase_string_eq (a b : str) : bool :=
  Nat.eqb (length a) (length b) && all2 ichar_equals a b.

(** *** Location patterns *)
Definition STAR : str := `s"*".

(** [tokenize]: [acc] is [expression.substr(begin, i - begin)]. *)
Definition flush (acc : str) : list str := if is_empty acc then [] else [acc].

Fixpoint tokenize_from (acc e : str) : list str :=
  match e with
  | [] => flush acc
  | c :: e' =>
      if Ascii.eqb c NUL then flush acc
      else if Ascii.eqb c "*" then flush acc ++ STAR :: tokenize_from [] e'
      else tokenize_from (acc ++ [c]) e'
  end.

Definition tokenize (e : str) : list str := tokenize_from [] e.

(** [uri[i]] is NUL: the end of the string, or an embedded NUL. *)
Definition at_nul (u : str) : bool := Ascii.eqb (char_at u 0) NUL.

(** The loop of [isMatch]; [u] is [uri] from position [i] on. *)
Fixpoint isMatch_from (u : str) (toks : list str) : bool :=
  match toks with
  | [] => true
  | t :: rest =>
      if at_nul u then str_eqb t STAR && bool_decide (rest = [])
      else if str_eqb t STAR then
        match rest with
        | [] => true
        | t2 :: rest2 =>
            match find t2 u with
            | None => false
            | Some k =>
                let u' := drop (k + length t2) u in
                match rest2 with [] => at_nul u' | _ => isMatch_from u' rest2 end
            end
        end
      else if str_eqb (take (length t) u) t then
        let u' := drop (length t) u in
        match rest with [] => at_nul u' | _ => isMatch_from u' rest end
      else false
  end.

Definition isMatch (uri : str) (toks : list str) : bool :=
  match toks with [] => false | _ => isMatch_from uri toks end.

(** [uri.substr(0, pos)] for an [int] position: a negative one converts to a
    huge [size_t] and selects the whole string. *)
Definition substr_to (uri : str) (pos : Z) : str :=
  if pos <? 0 then uri else take (Z.to_nat pos) uri.

(** The comparison loop of [isUriMatch], over the reversed token lists. *)
Fixpoint better_match (uri : str) (ra rb : list str) : bool :=
  match ra, rb with
  | [], _ => false
  | _ :: _, [] => true
  | a :: ra', b :: rb' =>
      if str_eqb a STAR then
        if str_eqb b STAR then better_match uri ra' rb' else false
      else if str_eqb b STAR then true
      else
        let posA := i32 (pos_z (rfind a uri)) in
        let posB := i32 (pos_z (rfind b uri)) in
        let diff := i32 ((posA + zlen a) - (posB + zlen b)) in
        if 0 <? diff then true
        else if diff <? 0 then false
        else if zlen b <? zlen a then true
        else if zlen a <? zlen b then false
        else better_match (substr_to uri posA) ra' rb'
  end.

Definition isUriMatch (uriRef expression : str) (previousMatch : option str) : bool :=
  if isMatch uriRef (tokenize expression) then
    match previousMatch with
    | None => true
    | Some p => better_match uriRef (rev (tokenize expression)) (rev (tokenize p))
    end
  else false.

(** *** Examples *)
Example getInt_ex1 : getInt (`s"  42") 10 7 = (0, 42). Proof. reflexivity. Qed.
Example getInt_ex2 : getInt (`s"-2a") 16 7 = (0, -42). Proof. reflexivity. Qed.
Example getInt_ex3 : getInt (`s"12a") 10 7 = (1, 7). Proof. reflexivity. Qed.
Example getInt_ex4 : getInt (`s"99999999999999999999") 10 7 = (1, -1). Proof. reflexivity. Qed.
Example IntToString_ex : IntToString 40960 16 = `s"a000". Proof. reflexivity. Qed.
Example match_ex1 : isMatch (`s"images/a.png") (tokenize (`s"images/*")) = true.
Proof. reflexivity. Qed.
Example match_ex2 :
  isUriMatch (`s"images/a.png") (`s"images/*") (Some (`s"*")) = true.
Proof. reflexivity. Qed.

(** ** Numbers *)

(** The reference: blanks, an optional sign, then at least one digit and
    nothing else. *)
Definition all_digits (base : Z) (s : str) : bool :=
  forallb (fun c => digit_val c <? base) s.

Definition parse_num (base : Z) (s : str) : option Z :=
  let r := drop_while is_blank s in
  let '(neg, ds) := match r with
                    | c :: r' => if is_sign c then (code c =? 45, r') else (false, r)
                    | [] => (false, [])
                    end in
  if is_empty ds || negb (all_digits base ds) then None
  else Some (if neg : bool then - digits_val base 0 ds else digits_val base 0 ds).

Definition in_long (v : Z) : bool := (- LONG_MAX - 1 <=? v) && (v <=? LONG_MAX).

Definition base_ok (base : Z) : bool := (base =? 10) || (base =? 16).

Lemma base_ok_cases base : base_ok base = true -> base = 10 \/ base = 16.
Proof. unfold base_ok. rewrite orb_true_iff, !Z.eqb_eq. done. Qed.

Lemma digit_val_upper c : (digit_val c <? 16) = true -> digit_val (to_upper c) = digit_val c.
Proof. ascii_cases c. Qed.

Lemma digit_char_class c :
  (digit_val c <? 16) = true ->
  is_blank c = false /\ is_sign c = false /\ isspace c = false /\ c <> NUL /\
  (code (lower_char c) =? 120) = false.
Proof. ascii_cases c. Qed.

Lemma sbase_deci c : mem (to_upper c) deci = (digit_val c <? 10).
Proof. ascii_cases c. Qed.
Lemma sbase_hexa c : mem (to_upper c) hexa = (digit_val c <? 16).
Proof. ascii_cases c. Qed.

Lemma blank_class c :
  is_blank c = true -> to_upper c = c /\ isspace c = true /\ c <> NUL /\ is_sign c = false.
Proof. ascii_cases c. Qed.

Lemma sign_class c :
  is_sign c = true -> to_upper c = c /\ isspace c = false /\ c <> NUL /\ is_blank c = false.
Proof. ascii_cases c. Qed.

Lemma is_sign_upper c : is_sign (to_upper c) = is_sign c.
Proof. ascii_cases c. Qed.
Lemma is_blank_upper c : is_blank (to_upper c) = is_blank c.
Proof. ascii_cases c. Qed.

Lemma digit_lt_16 base c : base_ok base = true ->
  (digit_val c <? base) = true -> (digit_val c <? 16) = true.
Proof. intros [-> | ->]%base_ok_cases; rewrite !Z.ltb_lt; lia. Qed.

Lemma count_blanks_upper s : count_blanks (map to_upper s) = count_blanks s.
Proof. induction s as [|c s IH]; simpl; [done|]. by rewrite is_blank_upper, IH. Qed.

Lemma blanks_split s :
  exists bl, s = bl ++ drop_while is_blank s /\ forallb is_blank bl = true
             /\ count_blanks s = length bl.
Proof.
  induction s as [|c s (bl & Hs & Hbl & Hn)]; simpl; [by exists []|].
  destruct (is_blank c) eqn:E; [|by exists []].
  exists (c :: bl). simpl. rewrite E, <- Hs, Hn. done.
Qed.

Lemma drop_while_head f s c r : drop_while f s = c :: r -> f c = false.
Proof.
  induction s as [|x s IH]; simpl; [done|].
  destruct (f x) eqn:E; [exact IH|]. by intros [= -> ->].
Qed.

Lemma digits_val_upper base acc s :
  base_ok base = true -> all_digits base s = true ->
  digits_val base acc (map to_upper s) = digits_val base acc s.
Proof.
  intros Hb. revert acc. induction s as [|c s IH]; intros acc; simpl; [done|].
  rewrite andb_true_iff. intros [Hc Hs].
  rewrite digit_val_upper by (by eapply digit_lt_16). rewrite Hc. by apply IH.
Qed.

Lemma digits_no_nul base s :
  base_ok base = true -> all_digits base s = true -> NUL ∉ map to_upper s.
Proof.
  intros Hb Hs (c & Hc & Hin)%list_elem_of_In%in_map_iff.
  unfold all_digits in Hs. rewrite forallb_forall in Hs. apply Hs in Hin.
  eapply digit_lt_16 in Hin; [|done]. revert Hc Hin. clear. ascii_cases c.
Qed.

Lemma drop_0x_digits base s :
  base_ok base = true -> all_digits base s = true ->
  drop_0x base (map to_upper s) = map to_upper s.
Proof.
  intros Hb Hs. destruct s as [|a [|b [|c s]]]; try done. simpl in *.
  rewrite !andb_true_iff in Hs. destruct Hs as (_ & Hs & _).
  eapply digit_lt_16 in Hs; [|done].
  assert ((code (lower_char (to_upper b)) =? 120) = false) as ->.
  { revert Hs. clear. ascii_cases b. }
  by rewrite andb_false_r.
Qed.

Lemma drop_while_blanks bl s :
  forallb is_blank bl = true -> drop_while isspace (bl ++ s) = drop_while isspace s.
Proof.
  induction bl as [|c bl IH]; simpl; [done|].
  rewrite andb_true_iff. intros [Hc Hbl]. apply blank_class in Hc as (_ & -> & _).
  by apply IH.
Qed.

Lemma blanks_upper bl : forallb is_blank bl = true -> map to_upper bl = bl.
Proof.
  induction bl as [|c bl IH]; simpl; [done|]. rewrite andb_true_iff.
  intros [Hc Hbl]. rewrite IH by done. by apply blank_class in Hc as (-> & _).
Qed.

Lemma blanks_no_nul bl : forallb is_blank bl = true -> NUL ∉ bl.
Proof.
  intros Hbl Hin%list_elem_of_In. rewrite forallb_forall in Hbl. by apply Hbl in Hin.
Qed.

(** *** [getInt] computes the reference *)

Lemma find_first_not_of_spec sbase s i :
  find_first_not_of sbase s i = None <->
  forallb (fun c => mem c sbase) (drop i s) = true.
Proof. unfold find_first_not_of. by rewrite fmap_None, find_first_not_None. Qed.

Lemma forallb_map_upper set base s :
  (forall c, mem (to_upper c) set = (digit_val c <? base)) ->
  forallb (fun c => mem c set) (map to_upper s) = all_digits base s.
Proof.
  intros H. induction s as [|c s IH]; simpl; [done|]. by rewrite H, IH.
Qed.

Lemma sbase_spec base s :
  base_ok base = true ->
  forallb (fun c => mem c (if base =? 10 then deci else if base =? 16 then hexa else []))
    (map to_upper s) = all_digits base s.
Proof.
  intros [-> | ->]%base_ok_cases.
  - apply (forallb_map_upper deci), sbase_deci.
  - apply (forallb_map_upper hexa), sbase_hexa.
Qed.

(** [strtol] on blanks, a sign character or none, then digits. *)
Lemma strtol_digits base bl sg ds :
  base_ok base = true -> forallb is_blank bl = true ->
  (sg = [] \/ exists c, sg = [c] /\ is_sign c = true) ->
  ds <> [] -> all_digits base ds = true ->
  let v := if str_eqb sg (`s"-") then - digits_val base 0 ds else digits_val base 0 ds in
  strtol (map to_upper (bl ++ sg ++ ds)) base =
    (if LONG_MAX <? v then (LONG_MAX, true)
     else if v <? - LONG_MAX - 1 then (- LONG_MAX - 1, true) else (v, false)).
Proof.
  intros Hb Hbl Hsg Hne Hds v. unfold strtol.
  rewrite !map_app, blanks_upper by done.
  assert (NUL ∉ map to_upper sg) as Hsgn.
  { destruct Hsg as [->|(c & -> & Hc)]; simpl; [by apply not_elem_of_nil|].
    apply sign_class in Hc as (-> & _ & ? & _). by rewrite list_elem_of_singleton. }
  rewrite c_str_id; last first.
  { rewrite !not_elem_of_app. eauto using blanks_no_nul, digits_no_nul. }
  rewrite drop_while_blanks by done.
  pose proof (drop_0x_digits base ds Hb Hds) as H0x.
  pose proof (digits_val_upper base 0 ds Hb Hds) as Hv.
  destruct Hsg as [->|(c & -> & Hc)]; simpl.
  - destruct ds as [|d ds]; [done|]. simpl in Hds. apply andb_true_iff in Hds as [Hd Hds].
    eapply digit_lt_16 in Hd; [|done].
    assert (isspace (to_upper d) = false /\ is_sign (to_upper d) = false) as [Hs1 Hs2].
    { clear -Hd. ascii_cases d. }
    change (map to_upper (d :: ds)) with (to_upper d :: map to_upper ds) in *.
    cbn [drop_while app]. rewrite Hs1. cbn. rewrite Hs2, H0x, Hv. done.
  - pose proof (sign_class _ Hc) as (-> & -> & _ & _). rewrite Hc, H0x, Hv.
    assert ((code c =? 45) = str_eqb [c] (`s"-")) as ->; [|done].
    clear -Hc. ascii_cases c.
Qed.

Definition clamp_long (v : Z) : Z :=
  if LONG_MAX <? v then LONG_MAX else if v <? - LONG_MAX - 1 then - LONG_MAX - 1 else v.

(** The split of a string that [parse_num] and [getInt] share. *)
Lemma num_split s :
  exists bl sg ds,
    s = bl ++ sg ++ ds /\ forallb is_blank bl = true /\
    (sg = [] \/ exists c, sg = [c] /\ is_sign c = true) /\
    count_blanks s = length bl /\
    is_sign (char_at s (length bl)) = negb (is_empty sg) /\
    (forall base, parse_num base s =
       if is_empty ds || negb (all_digits base ds) then None
       else Some (if str_eqb sg (`s"-") then - digits_val base 0 ds else digits_val base 0 ds)).
Proof.
  destruct (blanks_split s) as (bl & Hs & Hbl & Hn).
  assert (char_at s (length bl) = char_at (drop_while is_blank s) 0) as Hat.
  { rewrite Hs at 1. unfold char_at. rewrite app_nth2 by lia. by rewrite Nat.sub_diag. }
  unfold parse_num. remember (drop_while is_blank s) as r eqn:Hr.
  destruct r as [|c r].
  - exists bl, [], []. rewrite Hat. repeat split; auto.
  - destruct (is_sign c) eqn:Hc.
    + exists bl, [c], r. rewrite Hat. repeat split; auto; [by eauto|]. intros base.
      assert (str_eqb [c] (`s"-") = (code c =? 45)) as ->; [|done]. clear. ascii_cases c.
    + exists bl, [], (c :: r). rewrite Hat. repeat split; auto.
Qed.

Lemma getInt_spec base s res :
  base_ok base = true ->
  getInt s base res =
    match parse_num base s with
    | None => (1, res)
    | Some v => (if in_long v then 0 else 1, i32 (clamp_long v))
    end.
Proof.
  intros Hb. destruct (num_split s) as (bl & sg & ds & Hs & Hbl & Hsg & Hn & Hat & Hp).
  rewrite Hp. clear Hp. unfold getInt. rewrite count_blanks_upper, Hn.
  unfold char_at in *.
  assert (is_sign (nth (length bl) (map to_upper s) NUL) = negb (is_empty sg)) as ->.
  { change NUL with (to_upper NUL). rewrite map_nth, is_sign_upper. exact Hat. }
  replace (if negb (is_empty sg) then S (length bl) else length bl)
    with (length (bl ++ sg)); last first.
  { rewrite length_app. destruct Hsg as [->|(c & -> & _)]; simpl; lia. }
  rewrite Hs, length_map, (assoc_L (++)), (length_app (bl ++ sg)).
  destruct (is_empty ds) eqn:Hemp.
  { apply is_empty_true in Hemp as ->. by rewrite Nat.add_0_r, Nat.eqb_refl. }
  apply is_empty_false in Hemp.
  rewrite (proj2 (Nat.eqb_neq _ _)) by (destruct ds; simpl; [done|lia]). simpl orb.
  pose proof (sbase_spec base ds Hb) as Hsb.
  destruct (find_first_not_of _ _ _) as [k|] eqn:E.
  - destruct (all_digits base ds) eqn:Hd; [|done].
    assert (Some k = None) as HN; [|done].
    rewrite <- E. apply find_first_not_of_spec.
    rewrite map_app, <- (length_map to_upper (bl ++ sg)), drop_app_length. exact Hsb.
  - apply find_first_not_of_spec in E.
    rewrite map_app, <- (length_map to_upper (bl ++ sg)), drop_app_length, Hsb in E.
    rewrite E. simpl negb. rewrite <- (assoc_L (++)).
    rewrite strtol_digits by done.
    generalize (if str_eqb sg (`s"-") then - digits_val base 0 ds else digits_val base 0 ds).
    intros v. unfold in_long, clamp_long.
    destruct (Z.ltb_spec LONG_MAX v), (Z.ltb_spec v (- LONG_MAX - 1)),
      (Z.leb_spec (- LONG_MAX - 1) v), (Z.leb_spec v LONG_MAX); simpl; done || lia.
Qed.

(** *** Printing and reading back *)

Lemma digit_val_char d : 0 <= d < 16 -> digit_val (digit_char d) = d.
Proof.
  intros Hd. apply Z.eqb_eq.
  assert (forallb (fun d => digit_val (digit_char d) =? d) (seqZ 0 16) = true) as H
    by (vm_compute; reflexivity).
  rewrite forallb_forall in H. apply H, list_elem_of_In, elem_of_seqZ. lia.
Qed.

Lemma digits_val_snoc base acc s c :
  all_digits base s = true -> (digit_val c <? base) = true ->
  digits_val base acc (s ++ [c]) = digits_val base acc s * base + digit_val c.
Proof.
  revert acc. induction s as [|x s IH]; intros acc; simpl.
  - by intros _ ->.
  - rewrite andb_true_iff. intros [-> Hs] Hc. by apply IH.
Qed.

Lemma to_digits_S fuel base n :
  to_digits (S fuel) base n =
    if n <? base then [digit_char n]
    else to_digits fuel base (n / base) ++ [digit_char (n mod base)].
Proof. reflexivity. Qed.

Lemma to_digits_spec base fuel n :
  1 < base <= 16 -> 0 <= n < base ^ Z.of_nat (S fuel) ->
  let s := to_digits (S fuel) base n in
  s <> [] /\ all_digits base s = true /\ digits_val base 0 s = n.
Proof.
  intros Hb. revert n. induction fuel as [|fuel IH]; intros n Hn s; subst s.
  - simpl. rewrite Z.pow_1_r in Hn. rewrite (proj2 (Z.ltb_lt n base)) by lia. simpl.
    rewrite !digit_val_char, (proj2 (Z.ltb_lt n base)) by lia. done.
  - rewrite to_digits_S. destruct (Z.ltb_spec n base) as [H|H].
    { simpl. rewrite !digit_val_char, (proj2 (Z.ltb_lt n base)) by lia. done. }
    destruct (IH (n / base)) as (Hne & Had & Hv).
    { split; [apply Z.div_pos; lia|]. apply Z.div_lt_upper_bound; [lia|].
      rewrite Nat2Z.inj_succ, Z.pow_succ_r in Hn by lia. lia. }
    pose proof (Z.mod_pos_bound n base) as Hm.
    assert ((digit_val (digit_char (n mod base)) <? base) = true) as Hd.
    { rewrite digit_val_char by lia. apply Z.ltb_lt. lia. }
    split; [by intros [_ ?]%app_eq_nil|]. split.
    + unfold all_digits in *. rewrite forallb_app, Had. simpl. by rewrite Hd.
    + rewrite digits_val_snoc, Hv, digit_val_char by (done || lia).
      pose proof (Z.div_mod n base). lia.
Qed.

Lemma digits_parse_num base s :
  base_ok base = true -> s <> [] -> all_digits base s = true ->
  parse_num base s = Some (digits_val base 0 s).
Proof.
  intros Hb Hne Hs. unfold parse_num. destruct s as [|c s]; [done|].
  assert (is_blank c = false /\ is_sign c = false) as [Hc1 Hc2].
  { simpl in Hs. apply andb_true_iff in Hs as [Hc _]. eapply digit_lt_16 in Hc; [|done].
    apply digit_char_class in Hc. tauto. }
  cbn [drop_while]. rewrite Hc1, Hc2, Hs. done.
Qed.

(** ** Case-insensitive equality *)

Lemma nocase_string_eq_spec a b :
  nocase_string_eq a b = true <-> map lower_char a = map lower_char b.
Proof.
  unfold nocase_string_eq. revert b. induction a as [|x a IH]; intros [|y b]; simpl; try done.
  unfold ichar_equals at 1. specialize (IH b).
  rewrite andb_true_iff in IH. rewrite !andb_true_iff, Ascii.eqb_eq. split.
  - intros (Hl & Hxy & Hab). f_equal; [done|]. by apply IH.
  - intros [= Hxy Hab]. apply IH in Hab. tauto.
Qed.

(** ** Patterns *)

Definition is_star (t : str) : bool := str_eqb t STAR.

(** What a token list denotes: [*] stands for any string. *)
Inductive glob : list str -> str -> Prop :=
  | glob_nil : glob [] []
  | glob_star t toks a u : is_star t = true -> glob toks u -> glob (t :: toks) (a ++ u)
  | glob_lit t toks u : is_star t = false -> glob toks u -> glob (t :: toks) (t ++ u).

#[export] Hint Constructors glob : web.

Lemma glob_star_self t : is_star t = true -> forall a, glob [t] a.
Proof. intros Ht a. rewrite <- (app_nil_r a). eauto with web. Qed.

(** Under a leading star any prefix may be added. *)
Lemma glob_star_extend t toks a u :
  is_star t = true -> glob (t :: toks) u -> glob (t :: toks) (a ++ u).
Proof.
  intros Ht H. inversion H; subst; [|congruence].
  rewrite (assoc_L (++)). by apply glob_star.
Qed.

(** [uri] as the matcher sees it: cut at some NUL, or whole. *)
Definition nul_cut (u v : str) : Prop := exists w, u = v ++ w /\ at_nul w = true.

Lemma nul_cut_drop k u v : nul_cut (drop k u) v -> nul_cut u (take k u ++ v).
Proof.
  intros (w & Hw & Hn). exists w. split; [|done].
  by rewrite <- (assoc_L (++)), <- Hw, take_drop.
Qed.

Lemma nul_cut_refl u : at_nul u = true -> nul_cut u [].
Proof. intros. by exists u. Qed.

Lemma nul_cut_whole u v : NUL ∉ u -> nul_cut u v -> v = u.
Proof.
  intros Hu (w & -> & Hw). destruct w as [|c w]; [by rewrite app_nil_r|].
  unfold at_nul in Hw. apply Ascii.eqb_eq in Hw. simpl in Hw. subst.
  destruct Hu. set_solver.
Qed.

Lemma prefix_take (t u : str) : str_eqb (take (length t) u) t = true -> take (length t) u = t.
Proof. by intros ?%str_eqb_eq. Qed.

Lemma isMatch_from_sound n toks u :
  (length toks <= n)%nat -> isMatch_from u toks = true -> toks <> [] ->
  exists v, nul_cut u v /\ glob toks v.
Proof.
  revert toks u. induction n as [|n IH]; intros [|t rest] u Hn H Hne; try done; [simpl in Hn; lia|].
  simpl in H, Hn. destruct (at_nul u) eqn:Hu.
  { apply andb_true_iff in H as [Ht ->%bool_decide_eq_true].
    exists []. split; [by apply nul_cut_refl|]. by apply glob_star_self. }
  destruct (str_eqb t STAR) eqn:Ht.
  - destruct rest as [|t2 rest2].
    { exists u. split; [exists []; by rewrite app_nil_r|]. by apply glob_star_self. }
    destruct (find t2 u) as [k|] eqn:Hk; [|done].
    assert (exists v, nul_cut (drop (k + length t2) u) v /\ glob rest2 v) as (v & Hv & Hg).
    { destruct rest2 as [|t3 r3].
      - exists []. split; [by apply nul_cut_refl|constructor].
      - apply IH; [simpl in *; lia | done | done]. }
    apply find_occurs in Hk. pose proof (occurs_split _ _ _ Hk) as Hs.
    exists (take k u ++ (t2 ++ v)). split.
    + apply nul_cut_drop in Hv.
      assert (take (k + length t2) u = take k u ++ t2) as Htk.
      { rewrite Hs at 1. rewrite (assoc_L (++)). apply take_app_length'.
        rewrite length_app, length_take. apply occurs_bound in Hk. lia. }
      by rewrite Htk, <- (assoc_L (++)) in Hv.
    + apply glob_star; [done|]. destruct (is_star t2) eqn:E2.
      * by apply glob_star.
      * by apply glob_lit.
  - destruct (str_eqb (take (length t) u) t) eqn:Hp; [|done].
    apply str_eqb_eq in Hp.
    assert (exists v, nul_cut (drop (length t) u) v /\ glob rest v) as (v & Hv & Hg).
    { destruct rest as [|t3 r3].
      - exists []. split; [by apply nul_cut_refl|constructor].
      - apply IH; [simpl in *; lia | done | done]. }
    exists (t ++ v). split; [|by apply glob_lit].
    apply nul_cut_drop in Hv. by rewrite Hp in Hv.
Qed.

(** Stars and literals alternate, and the pattern ends with a star. *)
Fixpoint alternating (toks : list str) : bool :=
  match toks with
  | [] => false
  | t :: rest =>
      match rest with
      | [] => is_star t
      | t' :: _ => xorb (is_star t) (is_star t') && alternating rest
      end
  end.

Definition nonempty_tokens (toks : list str) : bool := forallb (fun t => negb (is_empty t)) toks.

Lemma flush_nonempty acc : nonempty_tokens (flush acc) = true.
Proof. by destruct acc. Qed.

Lemma tokenize_nonempty e : nonempty_tokens (tokenize e) = true.
Proof.
  unfold tokenize. generalize ([] : str) as acc. induction e as [|c e IH]; intros acc; simpl.
  - apply flush_nonempty.
  - destruct (c =? NUL)%char; [apply flush_nonempty|]. destruct (c =? "*")%char; [|apply IH].
    unfold nonempty_tokens in *. rewrite forallb_app, flush_nonempty. simpl. apply IH.
Qed.

Lemma at_nul_nil u : NUL ∉ u -> at_nul u = true -> u = [].
Proof.
  unfold at_nul, char_at. destruct u as [|c u]; [done|]. simpl. intros Hu ->%Ascii.eqb_eq.
  destruct Hu. by left.
Qed.

Lemma glob_lit_inv t toks u :
  is_star t = false -> glob (t :: toks) u -> exists u', u = t ++ u' /\ glob toks u'.
Proof. intros Ht H. inversion H; subst; [congruence|eauto]. Qed.

Lemma glob_star_inv t toks u :
  is_star t = true -> glob (t :: toks) u -> exists a u', u = a ++ u' /\ glob toks u'.
Proof. intros Ht H. inversion H; subst; [eauto|congruence]. Qed.

Lemma isMatch_from_complete n toks u :
  (length toks <= n)%nat -> alternating toks = true -> nonempty_tokens toks = true ->
  NUL ∉ u -> glob toks u -> isMatch_from u toks = true.
Proof.
  revert toks u. induction n as [|n IH]; intros [|t rest] u Hn Ha Hne Hu Hg; try done.
  { simpl in Hn. lia. }
  simpl in Hn. pose proof Hne as [Ht0 Hne']%andb_true_iff. cbn [isMatch_from].
  destruct (is_star t) eqn:Ht; unfold is_star in Ht; rewrite Ht.
  - destruct rest as [|t2 rest2]; [by destruct (at_nul u)|].
    cbn [alternating] in Ha. apply andb_true_iff in Ha as [Hx Ha].
    unfold is_star at 1 in Hx. rewrite Ht in Hx. simpl in Hx. apply negb_true_iff in Hx.
    destruct rest2 as [|t3 r3]; [simpl in Ha; congruence|].
    pose proof Hne' as [Ht2 Hne'']%andb_true_iff.
    apply glob_star_inv in Hg as (a & u1 & -> & Hg); [|done].
    apply glob_lit_inv in Hg as (u2 & -> & Hg); [|done].
    destruct (at_nul _) eqn:E.
    { apply at_nul_nil in E; [|done]. apply app_eq_nil in E as [_ E].
      apply app_eq_nil in E as [-> _]. done. }
    destruct (find_complete t2 (a ++ (t2 ++ u2)) (length a)) as (k & Hk & Hf); [by exists a, u2|].
    rewrite Hf. apply IH; [simpl in *; lia| |done| |].
    + cbn [alternating] in Ha. by apply andb_true_iff in Ha as [_ Ha].
    + intros Hin. apply Hu. rewrite <- (take_drop (k + length t2) (a ++ _)).
      apply elem_of_app. by right.
    + rewrite (assoc_L (++)), drop_app_le by (rewrite length_app; lia).
      apply glob_star_extend; [|done]. cbn [alternating] in Ha.
      rewrite Hx in Ha. by apply andb_true_iff in Ha as [Ha _].
  - apply glob_lit_inv in Hg as (u' & -> & Hg); [|done].
    destruct (at_nul _) eqn:E.
    { apply at_nul_nil in E; [|done]. by apply app_eq_nil in E as [-> _]. }
    rewrite take_app_length, drop_app_length.
    assert (str_eqb t t = true) as -> by (by apply str_eqb_eq).
    destruct rest as [|t3 r3]; [cbn in Ha; unfold is_star in Ha; congruence|].
    apply IH; [lia| |done| |done].
    + cbn [alternating] in Ha. by apply andb_true_iff in Ha as [_ Ha].
    + intros Hin. apply Hu, elem_of_app. by right.
Qed.

(** The comparison of [isUriMatch] never prefers a pattern to itself. *)
Lemma better_match_irrefl r : forall uri, better_match uri r r = false.
Proof.
  induction r as [|a r IH]; intros uri; simpl; [done|].
  destruct (str_eqb a STAR); [apply IH|].
  rewrite Z.sub_diag. simpl. rewrite !Z.ltb_irrefl. apply IH.
Qed.

Lemma isUriMatch_isMatch uri e p :
  isUriMatch uri e p = true -> isMatch uri (tokenize e) = true.
Proof. unfold isUriMatch. by destruct (isMatch uri (tokenize e)). Qed.

Lemma isMatch_star uri : isMatch uri (tokenize STAR) = true.
Proof. simpl. by destruct (at_nul uri). Qed.

(** ** The order of the patterns

    Patterns are compared from their ends: a literal is closer than a star; of
    two literals, the one whose last occurrence in what is left of the uri ends
    later, then the longer one; and a pattern with more tokens than one it
    agrees with.  [rank] makes this a lexicographic order on pairs of numbers,
    [-1] standing for a star. *)
Fixpoint rank (uri : str) (toks : list str) : list (Z * Z) :=
  match toks with
  | [] => []
  | t :: toks =>
      if str_eqb t STAR then (-1, 0) :: rank uri toks
      else match rfind t uri with
           | Some k => (Z.of_nat k + zlen t, zlen t) :: rank (take k uri) toks
           | None => (zlen t - 1, zlen t) :: rank uri toks
           end
  end.

Fixpoint rank_ltb (x y : list (Z * Z)) : bool :=
  match x, y with
  | _, [] => false
  | [], _ :: _ => true
  | (e1, n1) :: x, (e2, n2) :: y =>
      (e1 <? e2) || ((e1 =? e2) && ((n1 <? n2) || ((n1 =? n2) && rank_ltb x y)))
  end.

(** How close the pattern [e] is to the uri. *)
Definition closeness (uri e : str) : list (Z * Z) := rank uri (rev (tokenize e)).
Definition closer (uri e1 e2 : str) : Prop := rank_ltb (closeness uri e2) (closeness uri e1) = true.

(** Lengths that fit an [int] with room to spare. *)
Definition short (s : str) : Prop := zlen s <= 1073741823.

Lemma rank_ltb_irrefl x : rank_ltb x x = false.
Proof. induction x as [|[e n] x IH]; cbn; [done|]. by rewrite !Z.ltb_irrefl, !Z.eqb_refl, IH. Qed.

(** [x <= y < z] and [x < y <= z]. *)
Lemma rank_ltb_le_lt : forall x y z, rank_ltb y x = false -> rank_ltb y z = true -> rank_ltb x z = true.
Proof.
  induction x as [|[e1 n1] x IH]; intros [|[e2 n2] y] [|[e3 n3] z]; cbn; try done.
  specialize (IH y z). destruct (rank_ltb y x), (rank_ltb y z), (rank_ltb x z); lia.
Qed.

Lemma rank_ltb_lt_le x y z : rank_ltb x y = true -> rank_ltb z y = false -> rank_ltb x z = true.
Proof.
  intros H1 H2. destruct (rank_ltb x z) eqn:E; [done|].
  by rewrite (rank_ltb_le_lt z x y E H1) in H2.
Qed.

Lemma rank_ltb_asym : forall x y, rank_ltb x y = true -> rank_ltb y x = false.
Proof.
  induction x as [|[e1 n1] x IH]; intros [|[e2 n2] y]; cbn; try done.
  specialize (IH y). destruct (rank_ltb x y), (rank_ltb y x); lia.
Qed.

Lemma rank_ltb_trans x y z : rank_ltb x y = true -> rank_ltb y z = true -> rank_ltb x z = true.
Proof. intros H1 H2. eapply rank_ltb_le_lt; [by apply rank_ltb_asym|done]. Qed.

Definition token_ok (t : str) : Prop := t <> [] /\ short t.

(** Where [rfind] finds a token, as the code computes it. *)
Lemma rfind_int uri t : short uri -> token_ok t ->
  match rfind t uri with
  | Some k => i32 (pos_z (rfind t uri)) = Z.of_nat k /\ Z.of_nat k + zlen t <= zlen uri
  | None => i32 (pos_z (rfind t uri)) = -1
  end.
Proof.
  unfold short. intros Hu _. destruct (rfind t uri) as [k|] eqn:E; [|done].
  apply rfind_Some, occurs_bound in E. unfold zlen in *. cbn [pos_z]. split; [apply i32_id; lia|lia].
Qed.

(** The end of that occurrence. *)
Definition end_of (uri t : str) : Z := match rfind t uri with Some k => Z.of_nat k + zlen t | None => zlen t - 1 end.

Lemma end_of_int uri t : short uri -> token_ok t ->
  i32 (pos_z (rfind t uri)) + zlen t = end_of uri t /\ 0 <= end_of uri t <= 1073741823.
Proof.
  intros Hu Ht. pose proof (rfind_int uri t Hu Ht) as H. destruct Ht as [Hne Ht]. unfold short, end_of in *.
  assert (0 < zlen t) by (destruct t; [done|unfold zlen; cbn; lia]).
  destruct (rfind t uri) as [k|]; [destruct H as [-> ?]|rewrite H]; lia.
Qed.

Lemma rank_literal uri t toks : str_eqb t STAR = false -> short uri -> token_ok t ->
  rank uri (t :: toks) = (end_of uri t, zlen t) :: rank (substr_to uri (i32 (pos_z (rfind t uri)))) toks.
Proof.
  intros Hs Hu Ht. cbn [rank]. rewrite Hs. pose proof (rfind_int uri t Hu Ht) as H. unfold end_of, substr_to.
  destruct (rfind t uri) as [k|]; [destruct H as [-> _]|by rewrite H].
  by rewrite (proj2 (Z.ltb_ge _ _)), Nat2Z.id by lia.
Qed.

Lemma short_substr uri z : short uri -> short (substr_to uri z).
Proof.
  unfold short, substr_to. destruct (z <? 0); [done|]. unfold zlen. rewrite length_take. lia.
Qed.

(** The comparison loop computes that order. *)
Lemma better_match_rank : forall ra rb uri, short uri -> Forall token_ok ra -> Forall token_ok rb ->
  better_match uri ra rb = rank_ltb (rank uri rb) (rank uri ra).
Proof.
  induction ra as [|a ra IH]; intros [|b rb] uri Hu Ha Hb.
  - done.
  - cbn [better_match]. by destruct (rank uri (b :: rb)) as [|[e n] l].
  - cbn [better_match]. destruct (rank uri (a :: ra)) as [|[e n] l] eqn:E; [|done].
    revert E. cbn [rank]. destruct (str_eqb a STAR); [done|]. by destruct (rfind a uri).
  - apply Forall_cons in Ha as [Ha1 Ha], Hb as [Hb1 Hb]. cbn [better_match].
    destruct (str_eqb a STAR) eqn:Ea, (str_eqb b STAR) eqn:Eb.
    + cbn [rank]. rewrite Ea, Eb. cbn. by apply IH.
    + rewrite (rank_literal uri b rb) by done. cbn [rank]. rewrite Ea. cbn [rank_ltb].
      pose proof (end_of_int uri b Hu Hb1). lia.
    + rewrite (rank_literal uri a ra) by done. cbn [rank]. rewrite Eb. cbn [rank_ltb].
      pose proof (end_of_int uri a Hu Ha1). lia.
    + rewrite (rank_literal uri a ra), (rank_literal uri b rb) by done. cbn [rank_ltb]. cbv zeta.
      destruct (end_of_int uri a Hu Ha1) as [-> Ra], (end_of_int uri b Hu Hb1) as [-> Rb].
      rewrite i32_id by lia.
      destruct (Z.lt_total (end_of uri a) (end_of uri b)) as [H|[H|H]]; [repeat case_match; lia| |repeat case_match; lia].
      destruct (Z.lt_total (zlen a) (zlen b)) as [H'|[H'|H']]; [repeat case_match; lia| |repeat case_match; lia].
      assert (i32 (pos_z (rfind a uri)) = i32 (pos_z (rfind b uri))) as <-.
      { pose proof (proj1 (end_of_int uri a Hu Ha1)). pose proof (proj1 (end_of_int uri b Hu Hb1)). lia. }
      rewrite (IH rb) by first [done|by apply short_substr].
      rewrite H, H', Z.sub_diag. rewrite !Z.ltb_irrefl, !Z.eqb_refl. done.
Qed.

Lemma flush_short acc : short acc -> Forall short (flush acc).
Proof. intros H. unfold flush. destruct (is_empty acc); by repeat constructor. Qed.

Lemma tokenize_short e : short e -> Forall short (tokenize e).
Proof.
  unfold tokenize. intros He. assert (zlen [] + zlen e <= 1073741823) as H by exact He. clear He.
  revert H. generalize ([] : str) as acc. induction e as [|c e IH]; intros acc H; cbn [tokenize_from].
  - apply flush_short. unfold short. pose proof (zlen_nonneg (@nil ascii)). lia.
  - assert (zlen (c :: e) = 1 + zlen e) as E by (unfold zlen; cbn; lia). rewrite E in H.
    pose proof (zlen_nonneg e). pose proof (zlen_nonneg acc). assert (short acc) by (unfold short; lia).
    destruct (_ =? NUL)%char; [by apply flush_short|]. destruct (_ =? "*")%char.
    + apply Forall_app. split; [by apply flush_short|]. constructor; [unfold short; done|].
      apply IH. unfold zlen at 1. cbn. lia.
    + apply IH. rewrite zlen_app. unfold zlen at 2. cbn. lia.
Qed.

Lemma tokenize_ok e : short e -> Forall token_ok (rev (tokenize e)).
Proof.
  intros He. apply Forall_rev, Forall_and. split; [|by apply tokenize_short].
  pose proof (tokenize_nonempty e) as H. unfold nonempty_tokens in H. rewrite forallb_forall in H.
  apply Forall_forall. intros t Ht%list_elem_of_In%H. by destruct t.
Qed.

(** [isUriMatch] asks for a match that is closer than the previous one. *)
Lemma isUriMatch_closer uri e p : short uri -> short e -> short p ->
  isUriMatch uri e (Some p) = isMatch uri (tokenize e) && rank_ltb (closeness uri p) (closeness uri e).
Proof.
  intros Hu He Hp. unfold isUriMatch. destruct (isMatch uri (tokenize e)); [|done].
  apply better_match_rank; [done|by apply tokenize_ok..].
Qed.

(** ** Printing *)

Lemma IntToString_digits base x :
  base = 10 \/ base = 16 -> 0 <= x <= INT32_MAX -> IntToString x base = to_digits 32 base x.
Proof.
  unfold INT32_MAX, IntToString. intros [-> | ->] Hx; simpl (_ =? _); cbv iota.
  - by rewrite (proj2 (Z.ltb_ge x 0)) by lia.
  - by rewrite Z.mod_small by lia.
Qed.

Lemma IntToString_spec base x :
  base = 10 \/ base = 16 -> 0 <= x <= INT32_MAX ->
  let s := IntToString x base in
  s <> [] /\ all_digits base s = true /\ digits_val base 0 s = x.
Proof.
  intros Hb Hx. cbv zeta. rewrite (IntToString_digits base x) by done. unfold INT32_MAX in Hx.
  apply (to_digits_spec base 31); [by destruct Hb as [-> | ->]|].
  split; [lia|]. apply Z.le_lt_trans with 2147483647; [lia|]. by destruct Hb as [-> | ->].
Qed.

Lemma length_to_digits fuel base n : (length (to_digits fuel base n) <= fuel)%nat.
Proof.
  revert n. induction fuel as [|fuel IH]; intros n; simpl; [lia|].
  destruct (_ <? _); simpl; [lia|]. rewrite length_app. simpl. specialize (IH (n / base)). lia.
Qed.

Lemma getInt_print base x res :
  base = 10 \/ base = 16 -> 0 <= x <= INT32_MAX ->
  getInt (IntToString x base) base res = (0, x).
Proof.
  intros Hb Hx. assert (base_ok base = true) as Hok by (by destruct Hb as [-> | ->]).
  destruct (IntToString_spec base x Hb Hx) as (Hne & Had & Hv). unfold INT32_MAX in Hx.
  rewrite getInt_spec, digits_parse_num, Hv by done.
  assert (in_long x = true) as ->.
  { unfold in_long, LONG_MAX. rewrite andb_true_iff, !Z.leb_le. lia. }
  unfold clamp_long, LONG_MAX.
  rewrite !(proj2 (Z.ltb_ge _ _)) by lia. by rewrite i32_id by lia.
Qed.

Lemma isMatch_instance uri e :
  isMatch uri (tokenize e) = true ->
  exists v w, uri = v ++ w /\ at_nul w = true /\ glob (tokenize e) v.
Proof.
  intros H. unfold isMatch in H. destruct (tokenize e) as [|t toks] eqn:E; [done|].
  destruct (isMatch_from_sound _ _ _ (le_n _) H) as (v & (w & ? & ?) & Hg); [done|].
  by exists v, w.
Qed.

(** ** Properties *)

(** C35: [getInt] succeeds exactly on optional blanks, an optional sign and a
    non-empty run of digits of the base whose value fits a [long]; the stored
    [int] is that value modulo 2^32.  On a syntax error [res] is untouched, on
    a range error it receives the saturated value. *)
Theorem getInt_correct base s res :
  base = 10 \/ base = 16 ->
  getInt s base res =
    match parse_num base s with
    | None => (1, res)
    | Some v => (if in_long v then 0 else 1, i32 (clamp_long v))
    end.
Proof. intros Hb. apply getInt_spec. by destruct Hb as [-> | ->]. Qed.

Lemma getInt_correct_witness :
  getInt (`s" -7fFFffFFf") 16 3 = (0, 1).
Proof. rewrite (getInt_correct 16); [vm_compute; reflexivity | by right]. Defined.

(** Printing an [int] with [IntToString] and reading it with [getInt] gives
    the number back, in both bases. *)
Theorem getInt_IntToString base x res :
  base = 10 \/ base = 16 -> 0 <= x <= INT32_MAX ->
  getInt (IntToString x base) base res = (0, x).
Proof. apply getInt_print. Qed.

Lemma getInt_IntToString_witness :
  getInt (IntToString 40960 16) 16 0 = (0, 40960).
Proof. apply (getInt_IntToString 16 40960 0); [by right | done]. Defined.

(** A positive match is justified: the uri, up to an embedded NUL if it has
    one, is an instance of the pattern. *)
Theorem isMatch_sound uri e :
  isMatch uri (tokenize e) = true ->
  exists v w, uri = v ++ w /\ at_nul w = true /\ glob (tokenize e) v.
Proof. apply isMatch_instance. Qed.

Lemma isMatch_sound_witness :
  exists v w, `s"images/a.png" = v ++ w /\ at_nul w = true /\ glob (tokenize (`s"images/*")) v.
Proof. apply isMatch_sound. reflexivity. Defined.

(** C36: For a pattern whose stars are not adjacent and which ends with a star --
    the shape of every wildcard location of the shipped configuration -- the
    greedy matcher decides the pattern language on NUL-free uris. *)
Theorem isMatch_decides uri e :
  alternating (tokenize e) = true -> NUL ∉ uri ->
  isMatch uri (tokenize e) = true <-> glob (tokenize e) uri.
Proof.
  intros Ha Hu. split.
  - intros (v & w & Hw & Hn & Hg)%isMatch_instance.
    assert (v = uri) as <-; [|done]. apply nul_cut_whole; [done|]. by exists w.
  - intros Hg. unfold isMatch. destruct (tokenize e) as [|t toks] eqn:E; [done|].
    rewrite <- E in *. eapply isMatch_from_complete; eauto using tokenize_nonempty.
Qed.

Lemma isMatch_decides_witness :
  isMatch (`s"a.php/b") (tokenize (`s"*.php*")) = true <->
  glob (tokenize (`s"*.php*")) (`s"a.php/b").
Proof.
  apply isMatch_decides; [reflexivity|].
  apply (bool_decide_unpack _). vm_compute. exact I.
Defined.

(** The matcher commits to the first occurrence of a literal, so a pattern
    that ends with a literal misses uris it denotes. *)
Theorem isMatch_greedy_incomplete :
  exists e uri, (NUL ∉ uri) /\ glob (tokenize e) uri /\ isMatch uri (tokenize e) = false.
Proof.
  exists (`s"*.py"), (`s"a.py.py"). split; [|split; [|reflexivity]].
  - apply (bool_decide_unpack _). vm_compute. exact I.
  - change (glob [STAR; `s".py"] (`s"a.py" ++ (`s".py" ++ []))).
    apply glob_star; [done|]. apply glob_lit; [done|]. constructor.
Qed.
