(* ===== verification/Http.v ===== *)
(** * Http: the data the components share

    The enumerations and structs of [includes/Request.hpp], [includes/Host.hpp]
    and [includes/Response.hpp].  The code stores enumerators in [int] fields
    and compares enumerators of different enumerations with each other
    ([_final_status] starts as [ONGOING], [_bodyStatus] is compared with
    [ONGOING]), so they are integers here too. *)

From S2P Require Import Prelude CxxString OrdMap Format.
#[local] Open Scope Z_scope.

Definition BUFFER_SIZE : Z := 4000.
Definition HEADER_MAX_BUFFER : Z := 4.

(** enum {GET, POST, PUT, DELETE, HEAD} *)
Definition GET : Z := 0.
Definition POST : Z := 1.
Definition PUT : Z := 2.
Definition DELETE : Z := 3.
Definition HEAD : Z := 4.

(** enum {TERM, ONGOING, RLINE, NEW} *)
Definition TERM : Z := 0.
Definition ONGOING : Z := 1.
Definition RLINE : Z := 2.
Definition NEW : Z := 3.

(** enum {HEADER, HOST, BODY, TRAILER, CONT, COMPLETE, ERROR} *)
Definition HEADER : Z := 0.
Definition HOST : Z := 1.
Definition BODY : Z := 2.
Definition TRAILER : Z := 3.
Definition CONT : Z := 4.
Definition COMPLETE : Z := 5.
Definition ERROR : Z := 6.

(** enum {REQ_TYPE_NO_MATCH, REQ_TYPE_CGI, REQ_TYPE_STATIC, REQ_TYPE_DIR} *)
Definition REQ_TYPE_NO_MATCH : Z := 0.
Definition REQ_TYPE_CGI : Z := 1.
Definition REQ_TYPE_STATIC : Z := 2.
Definition REQ_TYPE_DIR : Z := 3.

Definition METHOD_STR : list str := [`s"GET"; `s"POST"; `s"PUT"; `s"DELETE"; `s"HEAD"].

(** Status codes *)
Definition RES_CONTINUE : Z := 100.
Definition RES_OK : Z := 200.
Definition RES_CREATED : Z := 201.
Definition RES_NO_CONTENT : Z := 204.
Definition RES_MULTIPLE_CHOICE : Z := 300.
Definition RES_MOVED_PERMANENTLY : Z := 301.
Definition RES_FOUND : Z := 302.
Definition RES_SEE_OTHER : Z := 303.
Definition RES_TEMPORARY_REDIRECT : Z := 307.
Definition RES_PERMANENT_REDIRECT : Z := 308.
Definition RES_BAD_REQUEST : Z := 400.
Definition RES_FORBIDDEN : Z := 403.
Definition RES_NOT_FOUND : Z := 404.
Definition RES_METHOD_NOT_ALLOWED : Z := 405.
Definition RES_TIMEOUT : Z := 408.
Definition RES_REQUEST_ENTITY_TOO_LARGE : Z := 413.
Definition RES_UNSUPPORTED_MEDIA_TYPE : Z := 415.
Definition RES_EXPECTATION_FAILED : Z := 417.
Definition RES_INTERNAL_ERROR : Z := 500.
Definition RES_NOT_IMPLEMENTED : Z := 501.
Definition RES_SERVICE_UNAVAILABLE : Z := 503.
Definition RES_HTTP_VERSION_NOT_SUPPORTED : Z := 505.

(** Exceptions that are not those of the configuration parser. *)
Inductive exn : Type :=
  | out_of_range
  | domain_error (what : str)
  | std_exception
  | child_exit_exception.

(** An exception leaves the object of a method in some state. *)
Abbreviation failing S A := (outcome (exn * S) A).

(** ** The case-insensitive order of header names *)
Definition lowercase (c : ascii) : ascii := lower_char c.

Fixpoint stricmp (s1 s2 : str) : Z :=
  match s1 with
  | [] => code NUL - code (lowercase (char_at s2 0))
  | c1 :: s1' =>
      if negb (Ascii.eqb c1 NUL) && Ascii.eqb (lowercase c1) (lowercase (char_at s2 0))
      then stricmp s1' (tail s2)
      else code (lowercase c1) - code (lowercase (char_at s2 0))
  end.

Definition i_less (lhs rhs : str) : bool := stricmp lhs rhs <? 0.

(** ** Structs *)
Record Location := mkLocation {
  loc_root : str;
  loc_methods : Z;
  loc_dir_listing : bool;
  loc_default_uri : str;
  loc_upload : bool;
  loc_upload_root : str;
  loc_redir : Z;
  loc_addr_redir : list str;
}.
#[export] Instance eta_Location : Eta Location := fun l =>
  mkLocation (loc_root l) (loc_methods l) (loc_dir_listing l) (loc_default_uri l)
    (loc_upload l) (loc_upload_root l) (loc_redir l) (loc_addr_redir l).

Record CGIConfig := mkCGIConfig {
  cgi_exec : str;
  cgi_root : str;
  cgi_methods : Z;
  cgi_extension : str;
}.
#[export] Instance eta_CGIConfig : Eta CGIConfig := fun c =>
  mkCGIConfig (cgi_exec c) (cgi_root c) (cgi_methods c) (cgi_extension c).

Record URI := mkURI {
  uri_filename : str;
  uri_path : str;
  uri_root : str;
  uri_pathInfo : str;
  uri_extension : str;
  uri_query : str;
}.
#[export] Instance eta_URI : Eta URI := fun u =>
  mkURI (uri_filename u) (uri_path u) (uri_root u) (uri_pathInfo u) (uri_extension u)
    (uri_query u).

Abbreviation headers_t := (list (str * str)).

(** A NULL pointer is [None]; [rh_redirList] is not initialised by the
    constructor and [None] there stands for the indeterminate value. *)
Record ResHints := mkResHints {
  rh_parsedUri : URI;
  rh_path : str;
  rh_extension : str;
  rh_scriptPath : str;
  rh_bodyFileName : str;
  rh_alreadyExist : bool;
  rh_unlink : bool;
  rh_hasBody : bool;
  rh_verboseError : str;
  rh_status : Z;
  rh_type : Z;
  rh_cgiRedir : Z;
  rh_index : Z;
  rh_method : Z;
  rh_locationRules : option Location;
  rh_cgiRules : option CGIConfig;
  rh_redirList : option (list str);
  rh_headers : headers_t;
  rh_cookies : list str;
}.
#[export] Instance eta_ResHints : Eta ResHints := fun h =>
  mkResHints (rh_parsedUri h) (rh_path h) (rh_extension h) (rh_scriptPath h)
    (rh_bodyFileName h) (rh_alreadyExist h) (rh_unlink h) (rh_hasBody h)
    (rh_verboseError h) (rh_status h) (rh_type h) (rh_cgiRedir h) (rh_index h)
    (rh_method h) (rh_locationRules h) (rh_cgiRules h) (rh_redirList h) (rh_headers h)
    (rh_cookies h).

Record Request := mkRequest {
  _headers : headers_t;
  _formated_headers : str;
  _uri : str;
  _status : Z;
  _header_size : Z;
  _line : str;
  _hostname : str;
  _body_max_size : Z;
  _len : Z;
  _content_length : Z;
  _chunked : bool;
  _b_status : Z;
  _chunked_body_size : Z;
  _chunked_status : bool;
  _trailer_status : Z;
  _trailer_size : Z;
  _final_status : Z;
  req_type : Z;
  req_method : Z;
  resHints : ResHints;
}.
#[export] Instance eta_Request : Eta Request := fun r =>
  mkRequest (_headers r) (_formated_headers r) (_uri r) (_status r) (_header_size r)
    (_line r) (_hostname r) (_body_max_size r) (_len r) (_content_length r) (_chunked r)
    (_b_status r) (_chunked_body_size r) (_chunked_status r) (_trailer_status r)
    (_trailer_size r) (_final_status r) (req_type r) (req_method r) (resHints r).

Definition URI_init : URI := mkURI [] [] [] [] [] [].

Definition ResHints_init : ResHints :=
  mkResHints URI_init [] [] [] [] false false false [] 0 0 0 0 (-1) None None None [] [].

(** [Request::Request()] *)
Definition Request_init : Request :=
  mkRequest [] [] [] NEW 0 [] [] 0 0 (-1) false NEW 0 false 0 0 ONGOING 0 (-1) ResHints_init.

(** [Location::Location()] and [CGIConfig::CGIConfig()] *)
Definition DFT_VALUE_METHOD : Z := Z.lor (Z.shiftl 1 GET) (Z.shiftl 1 HEAD).
Definition Location_init : Location := mkLocation [] DFT_VALUE_METHOD false [] false [] 0 [].
Definition CGIConfig_init : CGIConfig := mkCGIConfig [] [] GET [].

(** An [std::ofstream]: what was written to the file, and whether it is open.
    Writing to a closed stream only sets its fail bit. *)
Record ofstream := mkOfstream { of_data : str; of_open : bool }.
#[export] Instance eta_ofstream : Eta ofstream := fun f => mkOfstream (of_data f) (of_open f).

Definition of_write (s : str) (f : ofstream) : ofstream :=
  if of_open f then f <| of_data := of_data f ++ s |> else f.
Definition of_close (f : ofstream) : ofstream := f <| of_open := false |>.

(** [if (filestream) filestream->...] *)
Definition on_stream (g : ofstream -> ofstream) (f : option ofstream) : option ofstream :=
  g <$> f.

(** [methods & (1 << method)] is not zero. *)
Definition method_allowed (methods method : Z) : bool :=
  negb (Z.land methods (Z.shiftl 1 method) =? 0).

Fixpoint index_of (x : str) (l : list str) (i : Z) : Z :=
  match l with
  | [] => -1
  | y :: l' => if str_eqb y x then i else index_of x l' (i + 1)
  end.

Definition getMethodIndex (method : str) : Z := index_of method METHOD_STR 0.

(** What the operating system says of a path: the mode and the size of [stat],
    [access], the bytes an [fstream] opened on it reads, the entries (name and
    [d_type]) [opendir] and [readdir] give.  The code only asks; the answers are
    parameters of the model. *)
Inductive file_kind : Type := RegularFile | Directory | OtherFile.
Definition R_OK : Z := 4.
Definition W_OK : Z := 2.

Record filesystem := mkFilesystem {
  fs_stat : str -> option file_kind;
  fs_access : str -> Z -> bool;
  fs_size : str -> Z;
  fs_open : str -> option str;
  fs_dir : str -> option (list (str * Z));
}.

(** ** The order of header names is a strict weak order *)

(** The key a header name stands for: its C string in lower case. *)
Definition header_key (s : str) : str := map lowercase (c_str s).

Lemma lowercase_nul c : c <> NUL -> (0 < code (lowercase c))%Z.
Proof. ascii_cases c. Qed.

Lemma stricmp_spec a b : (stricmp a b <? 0) = lex_ltb (header_key a) (header_key b).
Proof.
  assert (code NUL = 0 /\ code (lowercase NUL) = 0) as [HN HN'] by done.
  unfold header_key. revert b. induction a as [|x a IH]; intros b; simpl.
  - unfold char_at. destruct b as [|y b]; simpl; [done|].
    destruct (y =? NUL)%char eqn:E; [by apply Ascii.eqb_eq in E as ->|].
    apply Ascii.eqb_neq, lowercase_nul in E. simpl. apply Z.ltb_lt. lia.
  - unfold char_at. destruct (Ascii.eqb_spec x NUL) as [->|Hx]; simpl.
    + destruct b as [|y b]; simpl; [done|].
      destruct (Ascii.eqb_spec y NUL) as [->|Hy]; [done|].
      apply lowercase_nul in Hy. simpl. apply Z.ltb_lt. lia.
    + pose proof (lowercase_nul x Hx) as Hlx.
      destruct b as [|y b]; simpl.
      { destruct (Ascii.eqb_spec (lowercase x) (lowercase NUL)) as [E|_].
        - rewrite E in Hlx. done.
        - apply Z.ltb_ge. change (code (lowercase NUL)) with 0. lia. }
      destruct (Ascii.eqb_spec y NUL) as [->|Hy]; simpl.
      { destruct (Ascii.eqb_spec (lowercase x) (lowercase NUL)) as [E|_].
        - rewrite E in Hlx. done.
        - apply Z.ltb_ge. change (code (lowercase NUL)) with 0. lia. }
      destruct (Ascii.eqb_spec (lowercase x) (lowercase y)) as [E|E].
      * rewrite IH, E, Z.ltb_irrefl. done.
      * assert (code (lowercase x) <> code (lowercase y)) by (by intros ?%code_inj).
        destruct (Z.ltb_spec (code (lowercase x)) (code (lowercase y))).
        -- apply Z.ltb_lt. lia.
        -- rewrite (proj2 (Z.ltb_lt (code (lowercase y)) (code (lowercase x)))) by lia. apply Z.ltb_ge. lia.
Qed.

#[export] Instance i_less_swo : StrictWeakOrder i_less.
Proof.
  split; unfold i_less.
  - intros x. rewrite stricmp_spec. apply lex_irrefl.
  - intros x y z. rewrite !stricmp_spec. apply lex_trans.
  - intros x y z. rewrite !stricmp_spec. apply swo_cotrans.
Qed.

Lemma header_equiv a b : key_equiv i_less a b = true <-> header_key a = header_key b.
Proof. unfold key_equiv, i_less. rewrite !stricmp_spec. apply lex_equiv. Qed.

(** ** Properties *)

(** The map type of the headers is used within its contract: the comparator
    [i_less] is a strict weak order whose equivalence is equality of the names
    up to ASCII case (and up to an embedded NUL). *)
Theorem i_less_contract :
  StrictWeakOrder i_less /\
  forall a b, key_equiv i_less a b = true <-> map lower_char (c_str a) = map lower_char (c_str b).
Proof. split; [apply i_less_swo | apply header_equiv]. Qed.
