(* ===== verification/Clock.v ===== *)
(** * Clock: dates, durations and temporary names

    [getTime] ([srcs/Response.cpp]), [getDuration] ([srcs/Client.cpp],
    [srcs/CGIProcess.cpp]) and [generate_name] ([srcs/format.cpp]) as functions
    of the clock.  [gmtime] and the conversions of [strftime] they use are the C
    library's; [gmtime] is proved against the count of days before a year. *)

From S2P Require Import Prelude CxxString OrdMap Format Http.
#[local] Open Scope Z_scope.

(** ** The calendar of [gmtime] *)
Definition is_leap (y : Z) : bool := (y mod 4 =? 0) && (negb (y mod 100 =? 0) || (y mod 400 =? 0)).
Definition year_length (y : Z) : Z := if is_leap y then 366 else 365.

(** The days from 1970-01-01 to the first day of a year. *)
Definition days_before_year (y : Z) : Z :=
  365 * (y - 1970) + (y - 1969) / 4 - (y - 1901) / 100 + (y - 1601) / 400.

(** The year of a day: an estimate, which is one off at most. *)
Definition year_of (n : Z) : Z :=
  let y := 1970 + n * 400 / 146097 in
  if n <? days_before_year y then y - 1 else if days_before_year (y + 1) <=? n then y + 1 else y.

Definition month_lengths (leap : bool) : list Z := [31; if leap then 29 else 28; 31; 30; 31; 30; 31; 31; 30; 31; 30; 31].

(** Month and day of the month from the day of the year. *)
Fixpoint month_day (lengths : list Z) (mon yday : Z) : Z * Z :=
  match lengths with
  | [] => (mon, yday + 1)
  | l :: lengths => if yday <? l then (mon, yday + 1) else month_day lengths (mon + 1) (yday - l)
  end.

Record tm := mkTm { tm_sec : Z; tm_min : Z; tm_hour : Z; tm_mday : Z; tm_mon : Z; tm_year : Z; tm_wday : Z; tm_yday : Z }.

(** [tm_year] holds the year itself, and not the years since 1900. *)
Definition gmtime (t : Z) : tm :=
  let n := t / 86400 in
  let s := t mod 86400 in
  let y := year_of n in
  let yday := n - days_before_year y in
  let '(mon, mday) := month_day (month_lengths (is_leap y)) 0 yday in
  mkTm (s mod 60) (s / 60 mod 60) (s / 3600) mday mon y ((n + 4) mod 7) yday.

(** [%G]: the year of the Thursday of the week, which starts on Monday. *)
Definition iso_year (d : tm) : Z :=
  year_of (days_before_year (tm_year d) + tm_yday d - (tm_wday d + 6) mod 7 + 3).

(** ** [strftime] and [getTime] *)
Definition pad (width : nat) (n : Z) : str :=
  let s := to_digits 20 10 n in replicate (width - length s) "0"%char ++ s.

Definition day_names : list str := [`s"Sun"; `s"Mon"; `s"Tue"; `s"Wed"; `s"Thu"; `s"Fri"; `s"Sat"].
Definition month_names : list str :=
  [`s"Jan"; `s"Feb"; `s"Mar"; `s"Apr"; `s"May"; `s"Jun"; `s"Jul"; `s"Aug"; `s"Sep"; `s"Oct"; `s"Nov"; `s"Dec"].
Definition name_of (names : list str) (i : Z) : str := default (`s"?") (names !! Z.to_nat i).

(** The format [%a, %d %b <year> %T GMT]. *)
Definition http_date (year : Z) (d : tm) : str :=
  name_of day_names (tm_wday d) ++ `s", " ++ pad 2 (tm_mday d) ++ `s" " ++ name_of month_names (tm_mon d) ++ `s" "
  ++ pad 4 year ++ `s" " ++ pad 2 (tm_hour d) ++ `s":" ++ pad 2 (tm_min d) ++ `s":" ++ pad 2 (tm_sec d) ++ `s" GMT".

(** [strftime] fills at most 30 bytes, the terminator included; when they are
    not enough the content of the array is not determined. *)
Definition getTime (t : Z) : outcome exn str :=
  let d := gmtime t in
  let s := http_date (iso_year d) d in
  if Nat.ltb (length s) 30 then Ret s else Undef.

(** ** [getDuration] and [generate_name] *)
Record timeval := mkTimeval { tv_sec : Z; tv_usec : Z }.

Definition getDuration (now time : timeval) : Z :=
  tv_sec now * 1000 + Z.quot (tv_usec now) 1000 - tv_sec time * 1000 - Z.quot (tv_usec time) 1000.

Definition generate_name (hostname : option str) (t : timeval) : str :=
  `s"./tmp/" ++ default [] hostname ++ `s"_" ++ to_digits 20 10 (tv_sec t * 1000000 + tv_usec t).

Example getTime_ex : getTime 1735516800 = Ret (`s"Mon, 30 Dec 2025 00:00:00 GMT").
Proof. vm_compute. reflexivity. Qed.
Example gmtime_ex : gmtime 951827696 = mkTm 56 34 12 29 1 2000 2 59.
Proof. vm_compute. reflexivity. Qed.
Example generate_name_ex : generate_name (Some (`s"a")) (mkTimeval 12 34) = `s"./tmp/a_12000034".
Proof. vm_compute. reflexivity. Qed.

(** ** Years *)
Lemma days_before_next y : days_before_year (y + 1) = days_before_year y + year_length y.
Proof.
  unfold days_before_year, year_length, is_leap.
  destruct (Z.eqb_spec (y mod 4) 0), (Z.eqb_spec (y mod 100) 0), (Z.eqb_spec (y mod 400) 0); cbn [andb orb negb];
    Z.div_mod_to_equations; lia.
Qed.

Lemma year_length_range y : 365 <= year_length y <= 366.
Proof. unfold year_length. destruct (is_leap y); lia. Qed.

Lemma days_before_mono y z : y <= z -> days_before_year y <= days_before_year z.
Proof. intros H. unfold days_before_year. Z.div_mod_to_equations. lia. Qed.

Lemma year_of_spec n : days_before_year (year_of n) <= n < days_before_year (year_of n + 1).
Proof.
  unfold year_of. cbv zeta. set (y := 1970 + n * 400 / 146097).
  assert (days_before_year (y - 1) <= n /\ n < days_before_year (y + 2)) as [H1 H2].
  { subst y. unfold days_before_year. Z.div_mod_to_equations. lia. }
  destruct (Z.ltb_spec n (days_before_year y)) as [H|H].
  - replace (y - 1 + 1) with y by lia. lia.
  - destruct (Z.leb_spec (days_before_year (y + 1)) n) as [H'|H']; [|lia].
    replace (y + 1 + 1) with (y + 2) by lia. lia.
Qed.

Lemma year_of_unique n y : days_before_year y <= n < days_before_year (y + 1) -> year_of n = y.
Proof.
  intros H. pose proof (year_of_spec n) as Hs.
  destruct (Z.lt_trichotomy (year_of n) y) as [Hlt|[->|Hlt]]; [|done|].
  - pose proof (days_before_mono (year_of n + 1) y ltac:(lia)). lia.
  - pose proof (days_before_mono (y + 1) (year_of n) ltac:(lia)). lia.
Qed.

(** ** The fields of a date *)
Definition days_before_month (leap : bool) (mon : Z) : Z :=
  fold_left Z.add (take (Z.to_nat mon) (month_lengths leap)) 0.

Record tm_valid (d : tm) : Prop := {
  tv_time : 0 <= tm_sec d < 60 /\ 0 <= tm_min d < 60 /\ 0 <= tm_hour d < 24;
  tv_mon : 0 <= tm_mon d < 12;
  tv_mday : 1 <= tm_mday d <= nth (Z.to_nat (tm_mon d)) (month_lengths (is_leap (tm_year d))) 0;
  tv_yday : tm_yday d = days_before_month (is_leap (tm_year d)) (tm_mon d) + tm_mday d - 1;
  tv_wday : tm_wday d = (days_before_year (tm_year d) + tm_yday d + 4) mod 7;
}.

(** The moment a date stands for. *)
Definition seconds_of (d : tm) : Z :=
  (days_before_year (tm_year d) + days_before_month (is_leap (tm_year d)) (tm_mon d) + tm_mday d - 1) * 86400
  + tm_hour d * 3600 + tm_min d * 60 + tm_sec d.

Definition month_day_ok (leap : bool) (yday : Z) : bool :=
  let '(mon, mday) := month_day (month_lengths leap) 0 yday in
  (0 <=? mon) && (mon <? 12) && (1 <=? mday) && (mday <=? nth (Z.to_nat mon) (month_lengths leap) 0)
  && (yday =? days_before_month leap mon + mday - 1)
  && eqb (yday <? 3) ((mon =? 0) && (mday <=? 3))
  && eqb ((if leap then 366 else 365) - 3 <=? yday) ((mon =? 11) && (29 <=? mday)).

Lemma month_day_all (leap : bool) yday : 0 <= yday < (if leap then 366 else 365) -> month_day_ok leap yday = true.
Proof.
  intros H. assert (forall l, forallb (month_day_ok l) (seqZ 0 (if l then 366 else 365)) = true) as Hall
    by (intros []; vm_compute; reflexivity).
  specialize (Hall leap). rewrite forallb_forall in Hall. apply Hall, list_elem_of_In, elem_of_seqZ. lia.
Qed.

(** The last days of the first and the first days of the last week of a year. *)
Definition year_edge (d : tm) : bool :=
  ((tm_mon d =? 0) && (tm_mday d <=? 3)) || ((tm_mon d =? 11) && (29 <=? tm_mday d)).

Lemma gmtime_spec t :
  let d := gmtime t in
  tm_valid d /\ seconds_of d = t /\ 0 <= tm_yday d < year_length (tm_year d) /\
  year_edge d = (tm_yday d <? 3) || (year_length (tm_year d) - 3 <=? tm_yday d).
Proof.
  cbv zeta. unfold gmtime. set (n := t / 86400). set (s := t mod 86400). set (y := year_of n).
  pose proof (year_of_spec n) as Hy. fold y in Hy. rewrite days_before_next in Hy.
  pose proof (month_day_all (is_leap y) (n - days_before_year y) ltac:(unfold year_length in Hy; lia)) as Hm.
  unfold month_day_ok in Hm. destruct (month_day (month_lengths (is_leap y)) 0 (n - days_before_year y)) as [mon mday].
  rewrite !andb_true_iff, !eqb_true_iff, !Z.leb_le, Z.ltb_lt, Z.eqb_eq in Hm.
  destruct Hm as ((((((H1 & H2) & H3) & H4) & H5) & H6) & H7).
  assert (0 <= s < 86400) as Hs by (subst s; apply Z.mod_pos_bound; lia).
  split; [split; cbn -[nth]; try lia; try done|split; [|split]].
  - Z.div_mod_to_equations. lia.
  - f_equal. lia.
  - unfold seconds_of. cbn [tm_year tm_mon tm_mday tm_hour tm_min tm_sec].
    assert (t = n * 86400 + s) as Ht by (subst n s; Z.div_mod_to_equations; lia).
    assert (s / 3600 * 3600 + s / 60 mod 60 * 60 + s mod 60 = s) by (clear -Hs; Z.div_mod_to_equations; lia). lia.
  - cbn [tm_yday tm_year]. lia.
  - unfold year_edge. cbn [tm_yday tm_year tm_mon tm_mday]. unfold year_length. by rewrite H6, H7.
Qed.

(** [%G] is the year, but at its edges. *)
Lemma iso_year_mid d : tm_valid d -> 0 <= tm_yday d < year_length (tm_year d) ->
  (tm_yday d <? 3) || (year_length (tm_year d) - 3 <=? tm_yday d) = false -> iso_year d = tm_year d.
Proof.
  intros Hv Hr He. apply orb_false_iff in He as [H1%Z.ltb_ge H2%Z.leb_gt]. unfold iso_year. apply year_of_unique.
  rewrite days_before_next. pose proof (Z.mod_pos_bound (tm_wday d + 6) 7 ltac:(lia)). lia.
Qed.

Lemma iso_year_near d : 0 <= tm_yday d < year_length (tm_year d) -> tm_year d - 1 <= iso_year d <= tm_year d + 1.
Proof.
  intros Hr. unfold iso_year. set (n := days_before_year (tm_year d) + _ - _ + 3).
  assert (days_before_year (tm_year d) - 3 <= n < days_before_year (tm_year d + 1) + 3) as Hn.
  { subst n. rewrite days_before_next. pose proof (Z.mod_pos_bound (tm_wday d + 6) 7 ltac:(lia)). lia. }
  pose proof (year_of_spec n) as Hs. pose proof (year_length_range (tm_year d - 1)). pose proof (year_length_range (tm_year d + 1)).
  pose proof (days_before_next (tm_year d - 1)) as E1. pose proof (days_before_next (tm_year d + 1)) as E2.
  replace (tm_year d - 1 + 1) with (tm_year d) in E1 by lia. split; apply Z.nlt_ge; intros Hlt.
  - pose proof (days_before_mono (year_of n + 1) (tm_year d - 1) ltac:(lia)). lia.
  - pose proof (days_before_mono (tm_year d + 1 + 1) (year_of n) ltac:(lia)). lia.
Qed.

(** ** Texts *)
Lemma pad_length width n : (width <= 4)%nat -> 0 <= n < 10 ^ Z.of_nat width -> (0 < width)%nat -> length (pad width n) = width.
Proof.
  intros Hw Hn H0. assert (length (to_digits 20 10 n) <= width)%nat as Hl; [|unfold pad; rewrite length_app, length_replicate; lia].
  rewrite to_digits_S. destruct (Z.ltb_spec n 10) as [?|H1]; [cbn; lia|].
  rewrite length_app, to_digits_S. destruct (Z.ltb_spec (n / 10) 10) as [?|H2].
  { cbn. destruct width as [|[|w]]; [lia|cbn in Hn; lia|lia]. }
  rewrite length_app, to_digits_S. destruct (Z.ltb_spec (n / 10 / 10) 10) as [?|H3].
  { cbn. destruct width as [|[|[|w]]]; [lia|..|lia]; cbn in Hn; Z.div_mod_to_equations; lia. }
  rewrite length_app, to_digits_S. destruct (Z.ltb_spec (n / 10 / 10 / 10) 10) as [?|H4].
  { cbn. destruct width as [|[|[|[|w]]]]; [lia|..|lia]; cbn in Hn; Z.div_mod_to_equations; lia. }
  exfalso. destruct width as [|[|[|[|[|w]]]]]; [lia|..|lia]; cbn in Hn; Z.div_mod_to_equations; lia.
Qed.

Lemma day_name_length i : 0 <= i < 7 -> length (name_of day_names i) = 3%nat.
Proof.
  intros H. assert (i = 0 \/ i = 1 \/ i = 2 \/ i = 3 \/ i = 4 \/ i = 5 \/ i = 6) as Hi by lia.
  repeat destruct Hi as [->|Hi]; [done..|by subst].
Qed.

Lemma month_name_length i : 0 <= i < 12 -> length (name_of month_names i) = 3%nat.
Proof.
  intros H. assert (i = 0 \/ i = 1 \/ i = 2 \/ i = 3 \/ i = 4 \/ i = 5 \/ i = 6 \/ i = 7 \/ i = 8 \/ i = 9 \/ i = 10 \/ i = 11)
    as Hi by lia. repeat destruct Hi as [->|Hi]; [done..|by subst].
Qed.

Lemma month_length_range (leap : bool) i : nth i (month_lengths leap) 0 <= 31.
Proof. destruct leap; do 13 (destruct i as [|i]; [cbn; lia|]); cbn; destruct i; lia. Qed.

Lemma http_date_length year d : tm_valid d -> 0 <= year < 10000 -> length (http_date year d) = 29%nat.
Proof.
  intros [(H1 & H2 & H3) H4 H5 _ H6] Hy. unfold http_date. rewrite !length_app.
  pose proof (month_length_range (is_leap (tm_year d)) (Z.to_nat (tm_mon d))).
  assert (0 <= tm_wday d < 7) as Hw by (rewrite H6; apply Z.mod_pos_bound; lia).
  rewrite day_name_length, month_name_length, !pad_length by (cbn; lia). reflexivity.
Qed.

(** ** The properties *)

(** C32: the [Date] of a response: the fields are the date of the clock and fill the buffer of 30 bytes exactly, in the
    format of RFC 7231; the year is the calendar's on every day but the first and the last three of a year, where it is the
    year of the ISO week. *)
Theorem getTime_correct t :
  0 <= t < 253370764800 ->
  let d := gmtime t in
  tm_valid d /\ seconds_of d = t /\ getTime t = Ret (http_date (iso_year d) d) /\ length (http_date (iso_year d) d) = 29%nat /\
  (year_edge d = false -> getTime t = Ret (http_date (tm_year d) d)).
Proof.
  intros Ht. cbv zeta. destruct (gmtime_spec t) as (Hv & Hs & Hr & He). cbv zeta in *.
  pose proof (iso_year_near _ Hr) as Hn.
  assert (1970 <= tm_year (gmtime t) < 9999) as Hy.
  { assert (days_before_year (tm_year (gmtime t)) + tm_yday (gmtime t) = t / 86400) as E.
    { unfold gmtime. destruct (month_day _ _ _). cbn. lia. }
    pose proof (days_before_next (tm_year (gmtime t))) as E2. split; [apply Z.nlt_ge|apply Z.nle_gt]; intros H.
    - pose proof (days_before_mono (tm_year (gmtime t) + 1) 1970 ltac:(lia)) as Hm.
      change (days_before_year 1970) with 0 in Hm. pose proof (Z.div_pos t 86400). lia.
    - assert (9999 <= tm_year (gmtime t)) as H' by lia. apply days_before_mono in H'.
      assert (t / 86400 < 2932532) by (apply Z.div_lt_upper_bound; lia).
      change (days_before_year 9999) with 2932532 in H'. lia. }
  assert (length (http_date (iso_year (gmtime t)) (gmtime t)) = 29%nat) as Hl by (apply http_date_length; [done|lia]).
  assert (getTime t = Ret (http_date (iso_year (gmtime t)) (gmtime t))) as Hg.
  { unfold getTime. cbv zeta. by rewrite Hl. }
  split_and!; [done..|]. intros Hedge. rewrite Hg. do 2 f_equal. apply iso_year_mid; [done|done|]. by rewrite <- He.
Qed.

Lemma getTime_correct_witness :
  let d := gmtime 951827696 in
  tm_valid d /\ seconds_of d = 951827696 /\ getTime 951827696 = Ret (http_date (iso_year d) d) /\
  length (http_date (iso_year d) d) = 29%nat /\
  (year_edge d = false -> getTime 951827696 = Ret (http_date (tm_year d) d)).
Proof. apply (getTime_correct 951827696). lia. Defined.

(** On 30 December 2024 the answer is dated 2025. *)
Theorem getTime_wrong_year :
  seconds_of (gmtime 1735516800) = 1735516800 /\ tm_year (gmtime 1735516800) = 2024 /\
  getTime 1735516800 = Ret (`s"Mon, 30 Dec 2025 00:00:00 GMT").
Proof. vm_compute. done. Qed.

(** *** Temporary names *)
Lemma digits_no_underscore s : all_digits 10 s = true -> "_"%char ∉ s.
Proof.
  intros H Hin. unfold all_digits in H. rewrite forallb_forall in H. apply list_elem_of_In, H in Hin. by vm_compute in Hin.
Qed.

Lemma last_underscore p p' s s' : "_"%char ∉ s -> "_"%char ∉ s' ->
  p ++ "_"%char :: s = p' ++ "_"%char :: s' -> p = p' /\ s = s'.
Proof.
  intros Hs Hs' E. apply (f_equal (@rev ascii)) in E. rewrite !rev_app_distr in E. cbn [rev] in E. rewrite <- !app_assoc in E.
  assert (forall (a b u v : str), "_"%char ∉ a -> "_"%char ∉ b -> a ++ "_"%char :: u = b ++ "_"%char :: v -> a = b /\ u = v) as Hcut.
  { clear. induction a as [|x a IH]; intros [|y b] u v Ha Hb E; cbn in E; simplify_eq; [done| | |].
    - by destruct Hb; left.
    - by destruct Ha; left.
    - apply not_elem_of_cons in Ha as [_ Ha], Hb as [_ Hb]. by destruct (IH b u v Ha Hb) as [-> ->]. }
  destruct (Hcut (rev s) (rev s') (rev p) (rev p')) as [H1 H2].
  - rewrite list_elem_of_In, <- in_rev, <- list_elem_of_In. done.
  - rewrite list_elem_of_In, <- in_rev, <- list_elem_of_In. done.
  - exact E.
  - apply (f_equal (@rev ascii)) in H1, H2. by rewrite !rev_involutive in H1, H2.
Qed.

(** Two temporary files have the same name only when they are made for the same host in the same microsecond. *)
Theorem generate_name_injective h h' t t' :
  0 <= tv_sec t < 10 ^ 13 -> 0 <= tv_usec t < 1000000 -> 0 <= tv_sec t' < 10 ^ 13 -> 0 <= tv_usec t' < 1000000 ->
  generate_name h t = generate_name h' t' -> default [] h = default [] h' /\ t = t'.
Proof.
  intros H1 H2 H3 H4 E. unfold generate_name in E.
  destruct (to_digits_spec 10 19 (tv_sec t * 1000000 + tv_usec t)) as (_ & D1 & V1); [lia|lia|].
  destruct (to_digits_spec 10 19 (tv_sec t' * 1000000 + tv_usec t')) as (_ & D2 & V2); [lia|lia|].
  apply app_inv_head in E. apply last_underscore in E as [Eh Ed]; [|by apply digits_no_underscore..].
  split; [done|]. rewrite <- Ed, V1 in V2. destruct t as [a b], t' as [a' b']. cbn [tv_sec tv_usec] in *.
  f_equal; lia.
Qed.

Lemma generate_name_injective_witness :
  let t := mkTimeval 12 34 in
  generate_name (Some (`s"a_1")) t = generate_name (Some (`s"a_1")) t -> `s"a_1" = `s"a_1" /\ t = t.
Proof.
  cbv zeta. apply (generate_name_injective (Some (`s"a_1")) (Some (`s"a_1")) (mkTimeval 12 34) (mkTimeval 12 34)); cbn; lia.
Defined.
