(* ===== verification/RequestHeaders.v ===== *)
(** * RequestHeaders: the request line and the header lines of [srcs/Request.cpp]

    The parser is fed one network read at a time.  It keeps the unfinished
    line in [_line]; [getLine] prepends it to the buffer.  Each operation takes
    the request and the buffer and returns the C return value, the new request
    and what is left of the buffer. *)

From S2P Require Import Prelude CxxString OrdMap Format Http.
#[local] Open Scope Z_scope.

Definition getHeader (key : str) (r : Request) : str :=
  default [] (om_find i_less key (_headers r)).

Definition checkHeader (key : str) (r : Request) : bool :=
  match om_find i_less key (_headers r) with Some _ => true | None => false end.

Definition removeHeader (key : str) (r : Request) : Request :=
  r <| _headers := om_erase i_less key (_headers r) |>.

(** Prints the map in its order, then the empty line. *)
Definition formatHeaders (r : Request) : Request :=
  r <| _formated_headers :=
         _formated_headers r ++
         concat (map (fun h => h.1 ++ `s": " ++ h.2 ++ CRLF) (_headers r)) ++ CRLF |>.

Definition trimSpace (r : Request) : Request :=
  r <| _line := drop_while is_blank (_line r) |>.

Definition _fillError (error : Z) (verbose : str) (r : Request) : Z * Request :=
  (error,
   r <| resHints ; rh_status := error |> <| resHints ; rh_verboseError := verbose |>
     <| _line := [] |> <| _final_status := ERROR |>).

Definition getError (r : Request) : Z := rh_status (resHints r).

Definition getLine (r : Request) (buffer : str) : Z * Request * str :=
  let buffer := _line r ++ buffer in
  match find CRLF buffer with
  | None => (1, r <| _line := buffer |>, [])
  | Some idx => (0, r <| _line := take idx buffer |>, drop (idx + 2) buffer)
  end.

(** [skipSpaces] and [nextSpace] move an index past (non-)blanks. *)
Fixpoint count_while (f : ascii -> bool) (s : str) : nat :=
  match s with
  | c :: s' => if f c then S (count_while f s') else 0%nat
  | [] => 0%nat
  end.

Definition skipSpaces (idx : nat) (s : str) : nat :=
  (idx + count_while is_blank (drop idx s))%nat.
Definition nextSpace (idx : nat) (s : str) : nat :=
  (idx + count_while (fun c => negb (is_blank c)) (drop idx s))%nat.

Definition checkVersion (s : str) : Z :=
  if (zlen s <? 8) || negb (pos_z (find (`s"HTTP/") s) =? 0) then 1
  else if negb (str_eqb (drop 5 s) (`s"1.1")) && negb (str_eqb (drop 5 s) (`s"1.0")) then 505
  else 0.

Definition COLON : ascii := ":"%char.

(** Splits [line] at the first colon. *)
Definition getHeaderName (line : str) : option (str * str) :=
  match find [COLON] line with
  | None => None
  | Some idx => Some (take idx line, drop (idx + 1) line)
  end.

(** [_line.substr(r_idx + 1)] throws when the line ends at [r_idx]. *)
Definition parseRequestLine (r : Request) : outcome exn (Z * Request) :=
  let line := _line r in
  let idx := nextSpace 0 line in
  let method := getMethodIndex (take idx line) in
  let r := r <| req_method := method |> in
  if method <? 0 then
    Ret (_fillError RES_NOT_IMPLEMENTED (`s"Method Not Implemented") r)
  else
    let idx := skipSpaces idx line in
    let r_idx := nextSpace idx line in
    let r := r <| _uri := substr line idx (r_idx - idx) |> in
    if Nat.ltb (length line) (S r_idx) then Throw out_of_range
    else if checkVersion (drop (S r_idx) line) =? 0 then Ret (0, r)
    else Ret (_fillError RES_HTTP_VERSION_NOT_SUPPORTED (`s"HTTP version not implemented") r).

Definition _checkSizes (r : Request) : Z * Request :=
  if (_status r =? ONGOING) || (_status r =? NEW) then
    if (HEADER_MAX_BUFFER * BUFFER_SIZE <? _header_size r) || (BUFFER_SIZE <? zlen (_line r))
    then _fillError 431 (`s"Request header too large") r
    else (0, r)
  else if (_status r =? TERM) && (_b_status r =? ONGOING) then
    if _chunked r && (_body_max_size r <? _chunked_body_size r)
    then _fillError 413 (`s"Request entity too large") r
    else (0, r)
  else if _trailer_status r =? ONGOING then
    if BUFFER_SIZE <? _trailer_size r
    then _fillError 400 (`s"Trailer header too large") r
    else (0, r)
  else (0, r).

Definition with_buffer {E} (b : str) (p : Z * Request) : outcome E (Z * Request * str) :=
  Ret (p.1, p.2, b).

(** [_headers[name] += ", " + value] or [_headers[name] = value] *)
Definition add_header (name value : str) (r : Request) : Request :=
  let old := getHeader name r in
  let v := if str_eqb old [] then value else old ++ (`s", " ++ value) in
  r <| _headers := om_assign i_less name v (_headers r) |>.

(** One iteration of the header loop: it returns from [parseHeaders], or goes
    on with the rest of the buffer. *)
Inductive iteration : Type :=
  | Stop (code : Z) (r : Request) (buffer : str)
  | Next (r : Request) (buffer : str).

Definition stop (b : str) (p : Z * Request) : iteration := Stop p.1 p.2 b.

Definition header_line (r : Request) (buffer : str) : iteration :=
  let '(e, r, buffer) := getLine r buffer in
  if negb (e =? 0) then stop buffer (_checkSizes r)
  else if str_eqb (_line r) [] then
    Stop (-1) (r <| _status := TERM |> <| _final_status := HOST |> <| _line := [] |>) buffer
  else
    let r := trimSpace r in
    match getHeaderName (_line r) with
    | None => stop buffer (_fillError 400 (`s"Invalid header line") r)
    | Some (header_name, line) =>
        let r := r <| _line := line |> in
        if BUFFER_SIZE <? zlen (_line r) then
          stop buffer (_fillError 431 (`s"The " ++ header_name ++ `s" header was too large") r)
        else
          let r := trimSpace r in
          let r := add_header header_name (_line r) r in
          Next (r <| _line := [] |>) buffer
    end.

(** [while (!buffer.empty())] and the end of [parseHeaders]. *)
Fixpoint headers_loop (fuel : nat) (r : Request) (buffer : str) :
    outcome exn (Z * Request * str) :=
  match fuel with
  | O => Diverge
  | S fuel =>
      if is_empty buffer then
        with_buffer buffer
          (_checkSizes (r <| _header_size := i32 (_header_size r - zlen buffer) |>))
      else match header_line r buffer with
           | Stop code r buffer => Ret (code, r, buffer)
           | Next r buffer => headers_loop fuel r buffer
           end
  end.

Definition loop_fuel (r : Request) (buffer : str) : nat :=
  S (length (_line r) + length buffer).

Definition header_lines (r : Request) (buffer : str) : outcome exn (Z * Request * str) :=
  headers_loop (loop_fuel r buffer) r buffer.

(** [if (_status == RLINE) {...}] and what follows. *)
Definition rline_phase (r : Request) (buffer : str) : outcome exn (Z * Request * str) :=
  if _status r =? RLINE then
    let '(e, r, buffer) := getLine r buffer in
    if negb (e =? 0) then with_buffer buffer (_checkSizes r)
    else if BUFFER_SIZE <? zlen (_line r) then
      with_buffer buffer (_fillError 414 (`s"Request uri too long") r)
    else
      '(e, r) ← parseRequestLine r;
      if negb (e =? 0) then Ret (getError r, r, buffer)
      else header_lines (r <| _line := [] |> <| _status := ONGOING |>) buffer
  else header_lines r buffer.

Definition skip_to_alpha (buffer : str) : str :=
  drop_while (fun c => negb (isalpha c)) buffer.

Definition parseHeaders (r : Request) (buffer : str) : outcome exn (Z * Request * str) :=
  if _status r =? TERM then Ret (0, r, buffer)
  else
    let r := r <| _header_size := i32 (_header_size r + zlen buffer) |> in
    if _status r =? NEW then
      let buffer := skip_to_alpha buffer in
      if negb (is_empty buffer) then
        rline_phase (r <| _status := RLINE |> <| _header_size := i32 (zlen buffer) |>) buffer
      else with_buffer buffer (_checkSizes r)
    else rline_phase r buffer.

(** What [handleClientIn] does over several reads: each fragment goes to
    [parseHeaders] until it reports something else than "incomplete". *)
Fixpoint feed (r : Request) (frags : list str) : outcome exn (Z * Request * str) :=
  match frags with
  | [] => Ret (0, r, [])
  | b :: frags =>
      '(c, r, rest) ← parseHeaders r b;
      if c =? 0 then feed r frags else Ret (c, r, rest ++ concat frags)
  end.

(** *** Examples *)
Definition crlf (s : string) : str := lit s ++ CRLF.

Example parse_ex :
  match parseHeaders Request_init
          (crlf "GET /a?x=1 HTTP/1.1" ++ crlf "Host: h" ++ crlf "host:b" ++ CRLF ++ `s"tail") with
  | Ret (c, r, rest) =>
      (c, req_method r, _uri r, getHeader (`s"HOST") r, _headers r, rest) =
      (-1, GET, `s"/a?x=1", `s"h, b", [(`s"Host", `s"h, b")], `s"tail")
  | _ => False
  end.
Proof. vm_compute. reflexivity. Qed.

(** ** Lines *)

Definition set_hs (h : Z) (r : Request) : Request := r <| _header_size := h |>.

Lemma getLine_cases r b :
  (find CRLF (_line r ++ b) = None /\ getLine r b = (1, r <| _line := _line r ++ b |>, []))
  \/ exists x y, _line r ++ b = x ++ CRLF ++ y /\ find CRLF (_line r ++ b) = Some (length x)
                 /\ getLine r b = (0, r <| _line := x |>, y).
Proof.
  unfold getLine. destruct (find CRLF (_line r ++ b)) as [k|] eqn:E; [right|by left].
  pose proof (find_bound _ _ _ E) as Hb.
  pose proof (occurs_split _ _ _ (find_occurs _ _ _ E)) as Hs.
  exists (take k (_line r ++ b)), (drop (k + 2) (_line r ++ b)).
  split; [exact Hs|]. split; [|done]. rewrite length_take. f_equal. lia.
Qed.

Lemma getLine_app r b1 b2 r' y :
  getLine r b1 = (0, r', y) -> getLine r (b1 ++ b2) = (0, r', y ++ b2).
Proof.
  unfold getLine. rewrite (assoc_L (++)).
  destruct (find CRLF (_line r ++ b1)) as [k|] eqn:E; [|done]. intros [= <- <-].
  rewrite (find_app_l _ _ _ _ E). apply find_bound in E. simpl in E.
  rewrite take_app_le, drop_app_le by lia. done.
Qed.

(** [getLine] sees the stashed line and the buffer as one string. *)
Lemma getLine_stash r l b b' :
  l ++ b = _line r ++ b' -> getLine (r <| _line := l |>) b = getLine r b'.
Proof. intros H. unfold getLine. simpl. rewrite H. by destruct (find _ _). Qed.

Lemma getLine_hs h r b :
  getLine (set_hs h r) b = ((getLine r b).1.1, set_hs h (getLine r b).1.2, (getLine r b).2).
Proof. unfold getLine. simpl. by destruct (find _ _). Qed.

Lemma header_line_stash r l b b' :
  l ++ b = _line r ++ b' -> header_line (r <| _line := l |>) b = header_line r b'.
Proof. intros H. unfold header_line. by rewrite (getLine_stash r l b b'). Qed.

(** What happens to a complete line. *)
Definition line_complete (r : Request) (b : str) : Prop := (getLine r b).1.1 = 0.

Lemma header_line_app r b1 b2 :
  line_complete r b1 ->
  header_line r (b1 ++ b2) =
    match header_line r b1 with
    | Stop c r' y => Stop c r' (y ++ b2)
    | Next r' y => Next r' (y ++ b2)
    end.
Proof.
  unfold line_complete, header_line. destruct (getLine r b1) as [[e r'] y] eqn:E.
  simpl. intros ->. rewrite (getLine_app _ _ _ _ _ E). simpl.
  destruct (str_eqb _ _); [done|]. destruct (getHeaderName _) as [[n l]|]; [|done].
  by destruct (BUFFER_SIZE <? _).
Qed.

Lemma header_line_hs h r b :
  line_complete r b ->
  header_line (set_hs h r) b =
    match header_line r b with
    | Stop c r' y => Stop c (set_hs h r') y
    | Next r' y => Next (set_hs h r') y
    end.
Proof.
  unfold line_complete, header_line. rewrite getLine_hs.
  destruct (getLine r b) as [[e r'] y]. simpl. intros ->. simpl.
  destruct (str_eqb _ _); [done|]. destruct (getHeaderName _) as [[n l]|]; [|done].
  by destruct (BUFFER_SIZE <? _).
Qed.

(** An incomplete line is stashed; the sizes are checked. *)
Lemma header_line_partial r b :
  ¬ line_complete r b ->
  header_line r b = stop [] (_checkSizes (r <| _line := _line r ++ b |>)).
Proof.
  unfold line_complete, header_line.
  destruct (getLine_cases r b) as [[_ ->]|(x & y & _ & _ & ->)]; [done|]. by intros [].
Qed.

Lemma line_complete_dec r b : {line_complete r b} + {¬ line_complete r b}.
Proof. apply Z.eq_dec. Qed.

Lemma header_line_stop_code r b c r' y :
  line_complete r b -> header_line r b = Stop c r' y -> c <> 0.
Proof.
  unfold line_complete, header_line. destruct (getLine r b) as [[e r1] y1]. simpl.
  intros ->. simpl. unfold stop, _fillError.
  destruct (str_eqb _ _); [by intros [= <- _ _]|].
  destruct (getHeaderName _) as [[n l]|]; [|by intros [= <- _ _]].
  destruct (BUFFER_SIZE <? _); [by intros [= <- _ _]|done].
Qed.

Lemma header_line_next r b r' y :
  header_line r b = Next r' y ->
  line_complete r b /\ _line r' = [] /\ (length y + 2 <= length (_line r) + length b)%nat.
Proof.
  destruct (line_complete_dec r b) as [Hc|Hc]; [|by rewrite header_line_partial].
  intros H. split; [done|]. unfold line_complete in Hc. unfold header_line in H.
  destruct (getLine_cases r b) as [[_ E]|(x & z & Hs & _ & E)]; rewrite E in H, Hc; [done|].
  apply (f_equal length) in Hs. rewrite !length_app in Hs. simpl in Hs, H.
  destruct (str_eqb _ _); [done|]. destruct (getHeaderName _) as [[n l]|]; [|done].
  destruct (BUFFER_SIZE <? _); [done|]. injection H as <- <-. split; [done|lia].
Qed.

Lemma checkSizes_zero r r' : _checkSizes r = (0, r') -> r' = r.
Proof. unfold _checkSizes, _fillError. repeat case_match; intros [=]; done. Qed.

(** ** The loop terminates: each line consumes at least two characters *)

Lemma headers_loop_fuel n m r b :
  (length (_line r) + length b < n)%nat -> (length (_line r) + length b < m)%nat ->
  headers_loop n r b = headers_loop m r b.
Proof.
  revert m r b. induction n as [|n IH]; intros [|m] r b Hn Hm; try lia. simpl.
  destruct (is_empty b); [done|].
  destruct (header_line r b) as [|r' y] eqn:E; [done|].
  apply header_line_next in E as (_ & Hl & Hy). apply IH; rewrite Hl; simpl; lia.
Qed.

Lemma header_lines_eq r b :
  header_lines r b =
    if is_empty b then
      with_buffer b (_checkSizes (r <| _header_size := i32 (_header_size r - zlen b) |>))
    else match header_line r b with
         | Stop c r' y => Ret (c, r', y)
         | Next r' y => header_lines r' y
         end.
Proof.
  unfold header_lines, loop_fuel at 1. cbn [headers_loop].
  destruct (is_empty b); [done|]. destruct (header_line r b) as [|r' y] eqn:E; [done|].
  apply header_line_next in E as (_ & Hl & Hy).
  apply headers_loop_fuel; unfold loop_fuel; rewrite Hl; simpl; lia.
Qed.

Lemma header_lines_ind (P : Request -> str -> Prop) :
  (forall r b, (forall r' y, header_line r b = Next r' y -> P r' y) -> P r b) ->
  forall r b, P r b.
Proof.
  intros H r b. remember (length (_line r) + length b)%nat as n eqn:Hn.
  assert (length (_line r) + length b <= n)%nat as Hle by lia. clear Hn.
  revert r b Hle. induction n as [|n IH]; intros r b Hle; apply H; intros r' y E;
    apply header_line_next in E as (_ & Hl & Hy); [lia|].
  apply IH. rewrite Hl. simpl. lia.
Qed.

Lemma set_hs_id h r : _header_size r = h -> set_hs h r = r.
Proof. intros <-. by destruct r. Qed.

(** ** Fragmentation *)

Lemma header_lines_split r b1 r1 y b2 h :
  i32 (_header_size r) = _header_size r -> i32 h = h ->
  header_lines r b1 = Ret (0, r1, y) ->
  y = [] /\ _header_size r1 = _header_size r /\ _status r1 = _status r /\
  header_lines (set_hs h r) (b1 ++ b2) = header_lines (set_hs h r1) b2.
Proof.
  intros Hr Hh. revert r b1 Hr. refine (header_lines_ind _ _). intros r b1 IH Hr H.
  rewrite header_lines_eq in H. destruct (is_empty b1) eqn:Eb.
  { apply is_empty_true in Eb as ->. unfold with_buffer in H.
    assert (r <| _header_size := i32 (_header_size r - zlen []) |> = r) as Hid.
    { unfold zlen. simpl. rewrite Z.sub_0_r, Hr. by destruct r. }
    rewrite Hid in H. destruct (_checkSizes r) as [c r'] eqn:E.
    simpl in H. simplify_eq. apply checkSizes_zero in E as ->. done. }
  destruct (line_complete_dec r b1) as [Hc|Hc].
  - destruct (header_line r b1) as [c r' y'|r' y'] eqn:E.
    { simplify_eq. by eapply header_line_stop_code in E. }
    assert (_header_size r' = _header_size r /\ _status r' = _status r) as [Hhs Hst].
    { pose proof (header_line_hs (_header_size r) r b1 Hc) as Hx.
      rewrite set_hs_id, E in Hx by done. injection Hx as Hx. split; [by rewrite Hx|].
      unfold header_line in E. clear Hx IH H.
      destruct (getLine_cases r b1) as [[_ El]|(x & z & _ & _ & El)]; rewrite El in E;
        simpl in E; [by unfold stop in E|]. destruct (str_eqb _ _); [done|].
      destruct (getHeaderName _) as [[n l]|]; [|done].
      destruct (BUFFER_SIZE <? _); [done|]. by injection E as <- _. }
    destruct (IH r' y' eq_refl) as (-> & Hh1 & Hs1 & IH'); [by rewrite Hhs|done|].
    split_and!; [done|congruence|congruence|].
    rewrite header_lines_eq. assert (is_empty (b1 ++ b2) = false) as -> by (by destruct b1).
    rewrite header_line_hs, header_line_app, E by
      (try done; unfold line_complete in *; destruct (getLine r b1) as [[e ?] ?] eqn:El;
       simpl in Hc; subst; by rewrite (getLine_app _ _ _ _ _ El)).
    done.
  - rewrite header_line_partial in H by done. unfold stop in H.
    destruct (_checkSizes _) as [c r'] eqn:E. simpl in H. simplify_eq.
    apply checkSizes_zero in E as Er. subst r1. split_and!; [done|done|done|].
    rewrite (header_lines_eq _ (b1 ++ b2)).
    assert (is_empty (b1 ++ b2) = false) as -> by (by destruct b1).
    destruct b2 as [|c b2].
    + rewrite app_nil_r, header_line_partial; last first.
      { unfold line_complete in *. rewrite getLine_hs. done. }
      rewrite header_lines_eq. simpl. rewrite Z.sub_0_r, Hh. done.
    + rewrite (header_lines_eq _ (c :: b2)). simpl is_empty. cbv iota.
      change (set_hs h (r <| _line := _line r ++ b1 |>))
        with ((set_hs h r) <| _line := _line r ++ b1 |>).
      rewrite (header_line_stash (set_hs h r) _ (c :: b2) (b1 ++ (c :: b2))); [done|].
      simpl. by rewrite (assoc_L (++)).
Qed.

Lemma line_complete_app r b1 b2 : line_complete r b1 -> line_complete r (b1 ++ b2).
Proof.
  unfold line_complete. destruct (getLine r b1) as [[e r'] y] eqn:E. simpl. intros ->.
  by rewrite (getLine_app _ _ _ _ _ E).
Qed.

Lemma checkSizes_code r : (_checkSizes r).1 <> -1.
Proof. unfold _checkSizes, _fillError. repeat case_match; done. Qed.

(** Once the empty line was seen, more input is left alone. *)
Lemma header_lines_complete r b1 r1 y b2 h :
  header_lines r b1 = Ret (-1, r1, y) ->
  header_lines (set_hs h r) (b1 ++ b2) = Ret (-1, set_hs h r1, y ++ b2).
Proof.
  revert r b1. refine (header_lines_ind _ _). intros r b1 IH H.
  rewrite header_lines_eq in H. destruct (is_empty b1) eqn:Eb.
  { pose proof (checkSizes_code (r <| _header_size := i32 (_header_size r - zlen b1) |>)).
    unfold with_buffer in H. injection H. congruence. }
  destruct (line_complete_dec r b1) as [Hc|Hc].
  - rewrite header_lines_eq. assert (is_empty (b1 ++ b2) = false) as -> by (by destruct b1).
    rewrite header_line_hs, header_line_app by eauto using line_complete_app.
    destruct (header_line r b1) as [c r' y'|r' y'] eqn:E; [by simplify_eq|].
    by apply IH.
  - rewrite header_line_partial in H by done. unfold stop in H.
    pose proof (checkSizes_code (r <| _line := _line r ++ b1 |>)). injection H. congruence.
Qed.

(** *** The request line *)

Lemma parseRequestLine_hs h r :
  parseRequestLine (set_hs h r) = ('(e, r') ← parseRequestLine r; Ret (e, set_hs h r')).
Proof.
  unfold parseRequestLine. change (_line (set_hs h r)) with (_line r).
  destruct (_ <? 0); [done|]. destruct (Nat.ltb _ _); [done|]. by destruct (_ =? 0).
Qed.

Lemma parseRequestLine_error r e r' :
  parseRequestLine r = Ret (e, r') -> e = 0 \/ (e <> 0 /\ getError r' = e).
Proof.
  unfold parseRequestLine, _fillError.
  destruct (_ <? 0); [by intros [= <- <-]; right|]. destruct (Nat.ltb _ _); [done|].
  destruct (_ =? 0); intros [= <- <-]; [by left|by right].
Qed.

Lemma rline_phase_rline r b :
  _status r = RLINE ->
  rline_phase r b =
    match find CRLF (_line r ++ b) with
    | None => with_buffer [] (_checkSizes (r <| _line := _line r ++ b |>))
    | Some k =>
        let r' := r <| _line := take k (_line r ++ b) |> in
        let y := drop (k + 2) (_line r ++ b) in
        if BUFFER_SIZE <? Z.of_nat k then
          with_buffer y (_fillError 414 (`s"Request uri too long") r')
        else
          '(e, r') ← parseRequestLine r';
          if negb (e =? 0) then Ret (getError r', r', y)
          else header_lines (r' <| _line := [] |> <| _status := ONGOING |>) y
    end.
Proof.
  intros Hs. unfold rline_phase. rewrite Hs. cbn [Z.eqb RLINE Pos.eqb].
  unfold getLine. destruct (find CRLF _) as [k|] eqn:E; [|done]. simpl negb. cbv iota.
  simpl _line. unfold zlen. rewrite length_take, Nat.min_l; [done|].
  apply find_bound in E. lia.
Qed.

Lemma rline_phase_other r b : _status r <> RLINE -> rline_phase r b = header_lines r b.
Proof. intros H. unfold rline_phase. by rewrite (proj2 (Z.eqb_neq _ _) H). Qed.

Definition in_progress (r : Request) : Prop := _status r <> TERM /\ _status r <> NEW.

Lemma rline_phase_split r b1 r1 y b2 h :
  i32 (_header_size r) = _header_size r -> i32 h = h -> in_progress r ->
  rline_phase r b1 = Ret (0, r1, y) ->
  y = [] /\ _header_size r1 = _header_size r /\ in_progress r1 /\
  rline_phase (set_hs h r) (b1 ++ b2) = rline_phase (set_hs h r1) b2.
Proof.
  intros Hr Hh Hp H. destruct (Z.eq_dec (_status r) RLINE) as [Hs|Hs]; last first.
  { rewrite rline_phase_other in H by done.
    eapply header_lines_split in H as (-> & Hh1 & Hs1 & H); [|done|done].
    unfold in_progress in *. rewrite Hs1. split_and!; try done || apply Hp.
    rewrite !rline_phase_other by (simpl; congruence). exact H. }
  rewrite rline_phase_rline in H by done. rewrite rline_phase_rline by done.
  cbv zeta in H |- *. change (_line (set_hs h r)) with (_line r).
  rewrite (assoc_L (++)).
  destruct (find CRLF (_line r ++ b1)) as [k|] eqn:E.
  - rewrite (find_app_l _ _ _ _ E). apply find_bound in E. simpl in E.
    rewrite take_app_le, drop_app_le by lia.
    destruct (BUFFER_SIZE <? Z.of_nat k); [by simplify_eq/=|].
    set (r' := r <| _line := take k (_line r ++ b1) |>) in *.
    change ((set_hs h r) <| _line := take k (_line r ++ b1) |>) with (set_hs h r').
    rewrite parseRequestLine_hs.
    destruct (parseRequestLine r') as [[e r2]|  | |] eqn:Ep; try done. simpl in H |- *.
    destruct (Z.eqb_spec e 0) as [->|He]; simpl in H |- *; last first.
    { apply parseRequestLine_error in Ep as [?|[_ Ep]]; [done|]. injection H. congruence. }
    assert (_header_size r2 = _header_size r) as Hh2.
    { pose proof (parseRequestLine_hs (_header_size r) r') as Hx.
      rewrite (set_hs_id (_header_size r) r') in Hx by done. rewrite Ep in Hx.
      simpl in Hx. injection Hx as Hx. by rewrite Hx. }
    eapply header_lines_split in H as (-> & Hh1 & Hs1 & H); [|by simpl; congruence|done].
    simpl in Hh1, Hs1. split_and!; [done|congruence|by unfold in_progress; rewrite Hs1|].
    rewrite rline_phase_other by (simpl; rewrite Hs1; done). exact H.
  - unfold with_buffer in H. destruct (_checkSizes _) as [c r2] eqn:Ec. simpl in H.
    simplify_eq. apply checkSizes_zero in Ec. subst r1.
    split_and!; [done|done|done|]. rewrite rline_phase_rline by done. done.
Qed.

Lemma skip_to_alpha_app a b :
  skip_to_alpha (a ++ b) =
    if is_empty (skip_to_alpha a) then skip_to_alpha b else skip_to_alpha a ++ b.
Proof.
  induction a as [|c a IH]; simpl; [done|].
  unfold skip_to_alpha in *. simpl. destruct (isalpha c); simpl; [done|]. exact IH.
Qed.

Lemma i32_zlen_app a b c : i32 (i32 (c + zlen a) + zlen b) = i32 (c + zlen (a ++ b)).
Proof. rewrite i32_add_l. unfold zlen. rewrite length_app. f_equal. lia. Qed.

Lemma parseHeaders_phase r b :
  in_progress r -> parseHeaders r b = rline_phase (set_hs (i32 (_header_size r + zlen b)) r) b.
Proof.
  intros [H1 H2]. unfold parseHeaders. rewrite (proj2 (Z.eqb_neq _ _) H1). simpl _status.
  by rewrite (proj2 (Z.eqb_neq _ _) H2).
Qed.

Lemma parseHeaders_split r b1 r1 y b2 :
  _status r <> TERM -> parseHeaders r b1 = Ret (0, r1, y) ->
  y = [] /\ _status r1 <> TERM /\ parseHeaders r (b1 ++ b2) = parseHeaders r1 b2.
Proof.
  intros Ht H. destruct (Z.eq_dec (_status r) NEW) as [Hn|Hn]; last first.
  { rewrite parseHeaders_phase in H by done.
    eapply rline_phase_split with (h := i32 (_header_size r + zlen (b1 ++ b2)))
      in H as (-> & Hh & Hp & H); try apply i32_idem; [|done].
    split; [done|]. split; [apply Hp|].
    rewrite !parseHeaders_phase by done. rewrite Hh. simpl.
    rewrite i32_zlen_app. exact H. }
  unfold parseHeaders in *. rewrite Hn in *. cbn [Z.eqb TERM NEW Pos.eqb] in *.
  simpl _status in *. rewrite Hn in *. cbn [Z.eqb TERM NEW Pos.eqb] in *.
  rewrite skip_to_alpha_app. destruct (is_empty (skip_to_alpha b1)) eqn:Eb; simpl negb in *.
  - unfold with_buffer in H. destruct (_checkSizes _) as [c r2] eqn:Ec. simpl in H.
    simplify_eq. apply checkSizes_zero in Ec. subst r1.
    apply is_empty_true in Eb. rewrite Eb in *.
    split; [done|]. simpl. rewrite Hn. split; [done|]. cbn [Z.eqb TERM NEW Pos.eqb].
    by rewrite i32_zlen_app.
  - set (b' := skip_to_alpha b1) in *. cbv iota in H.
    assert (is_empty (b' ++ b2) = false) as -> by (by destruct b').
    eapply rline_phase_split with (h := i32 (zlen (b' ++ b2)))
      in H as (-> & Hh & Hp & H); [|apply i32_idem|apply i32_idem|done].
    split; [done|]. split; [apply Hp|].
    change (if negb false then ?x else _) with x.
    change (rline_phase ?R (b' ++ b2)) with (rline_phase (set_hs (i32 (zlen (b' ++ b2)))
      (r <| _header_size := i32 (_header_size r + zlen (b1 ++ b2)) |>
         <| _status := RLINE |> <| _header_size := i32 (zlen b') |>)) (b' ++ b2)).
    transitivity (parseHeaders r1 b2); [|done].
    rewrite parseHeaders_phase, Hh by done. simpl.
    replace (i32 (i32 (zlen b') + zlen b2)) with (i32 (zlen (b' ++ b2))); [exact H|].
    rewrite i32_add_l. unfold zlen. rewrite length_app. f_equal. lia.
Qed.

Lemma rline_phase_complete r b1 r1 y b2 h :
  in_progress r -> rline_phase r b1 = Ret (-1, r1, y) ->
  rline_phase (set_hs h r) (b1 ++ b2) = Ret (-1, set_hs h r1, y ++ b2).
Proof.
  intros Hp H. destruct (Z.eq_dec (_status r) RLINE) as [Hs|Hs]; last first.
  { rewrite rline_phase_other in * by done. by apply header_lines_complete. }
  rewrite rline_phase_rline in H by done. rewrite rline_phase_rline by done.
  cbv zeta in H |- *. change (_line (set_hs h r)) with (_line r). rewrite (assoc_L (++)).
  destruct (find CRLF (_line r ++ b1)) as [k|] eqn:E.
  - rewrite (find_app_l _ _ _ _ E). apply find_bound in E. simpl in E.
    rewrite take_app_le, drop_app_le by lia.
    destruct (BUFFER_SIZE <? Z.of_nat k); [by simplify_eq/=|].
    set (r' := r <| _line := take k (_line r ++ b1) |>) in *.
    change ((set_hs h r) <| _line := take k (_line r ++ b1) |>) with (set_hs h r').
    rewrite parseRequestLine_hs.
    destruct (parseRequestLine r') as [[e r2]|  | |] eqn:Ep; try done. simpl in H |- *.
    destruct (Z.eqb_spec e 0) as [->|He]; simpl in H |- *.
    + exact (header_lines_complete _ _ _ _ b2 h H).
    + assert (getError (set_hs h r2) = getError r2) as -> by done.
      injection H as H1 H2 H3. subst. by rewrite H1.
  - unfold with_buffer in H.
    pose proof (checkSizes_code (r <| _line := _line r ++ b1 |>)). injection H. congruence.
Qed.

Lemma parseHeaders_complete r b1 r1 y b2 :
  parseHeaders r b1 = Ret (-1, r1, y) ->
  exists h, parseHeaders r (b1 ++ b2) = Ret (-1, set_hs h r1, y ++ b2).
Proof.
  intros H. unfold parseHeaders in *. destruct (_ =? TERM) eqn:Et; [done|].
  simpl _status in *. destruct (_ =? NEW) eqn:En.
  - rewrite skip_to_alpha_app. destruct (is_empty (skip_to_alpha b1)) eqn:Eb; simpl negb in *.
    + unfold with_buffer in H.
      pose proof (checkSizes_code (r <| _header_size := i32 (_header_size r + zlen b1) |>)).
      injection H. congruence.
    + set (b' := skip_to_alpha b1) in *. cbv iota in H.
      assert (is_empty (b' ++ b2) = false) as -> by (by destruct b').
      eapply rline_phase_complete with (b2 := b2) (h := i32 (zlen (b' ++ b2))) in H; [|done].
      eexists. exact H.
  - eexists.
    eapply rline_phase_complete with (b2 := b2) (h := i32 (_header_size r + zlen (b1 ++ b2)))
      in H; [exact H|].
    split; simpl; by apply Z.eqb_neq.
Qed.

(** ** Results *)

(** The shape of what the header parser returns. *)
Definition header_errors : list Z := [400; 413; 414; 431; 501; 505].

Definition failed (c : Z) (r : Request) : Prop :=
  c ∈ header_errors /\ getError r = c /\ _final_status r = ERROR /\ _line r = [].

Inductive header_result : Z -> Request -> str -> Prop :=
  | hr_more r : header_result 0 r []
  | hr_done r y : _status r = TERM -> _final_status r = HOST -> _line r = [] ->
      header_result (-1) r y
  | hr_error c r y : failed c r -> header_result c r y.

#[export] Hint Constructors header_result : web.

(** Closes [failed c r] for a record just filled by [_fillError]. *)
Ltac solve_failed := split; [apply (bool_decide_unpack _); exact I | done].

Lemma checkSizes_result r p : _checkSizes r = p -> header_result p.1 p.2 [].
Proof.
  intros <-. unfold _checkSizes.
  repeat (case_match; try apply hr_more);
    apply hr_error; solve_failed.
Qed.

Lemma checkSizes_headers r : _headers (_checkSizes r).2 = _headers r.
Proof. unfold _checkSizes. by repeat case_match. Qed.

Lemma header_line_result r b :
  match header_line r b with
  | Stop c r' y => header_result c r' y /\ (_headers r' = _headers r)
  | Next r' y => exists n v, _headers r' = _headers (add_header n v r)
  end.
Proof.
  destruct (line_complete_dec r b) as [Hc|Hc].
  - unfold line_complete in Hc. unfold header_line.
    destruct (getLine_cases r b) as [[_ E]|(x & z & _ & _ & E)]; rewrite E in Hc |- *; [done|].
    simpl negb. cbv iota. destruct (str_eqb _ _); [split; [by apply hr_done|done]|].
    destruct (getHeaderName _) as [[n l]|].
    + destruct (BUFFER_SIZE <? _).
      * split; [|done]. apply hr_error. solve_failed.
      * by eexists n, _.
    + split; [|done]. apply hr_error. solve_failed.
  - rewrite header_line_partial by done. unfold stop. split.
    + by eapply checkSizes_result.
    + by rewrite checkSizes_headers.
Qed.

(** [add_header] keeps the map well-formed; other names keep their value. *)
Lemma add_header_sorted n v r :
  om_sorted i_less (_headers r) -> om_sorted i_less (_headers (add_header n v r)).
Proof. intros. simpl. by apply om_update_sorted; [apply _|]. Qed.

Lemma header_lines_result r b :
  exists c r' y, header_lines r b = Ret (c, r', y) /\ header_result c r' y /\
    (om_sorted i_less (_headers r) -> om_sorted i_less (_headers r')).
Proof.
  revert r b. refine (header_lines_ind _ _). intros r b IH. rewrite header_lines_eq.
  destruct (is_empty b) eqn:Eb.
  - apply is_empty_true in Eb as ->. do 3 eexists. split; [done|]. split.
    + by eapply checkSizes_result.
    + by rewrite checkSizes_headers.
  - pose proof (header_line_result r b) as Hr.
    destruct (header_line r b) as [c r' y|r' y] eqn:E.
    + destruct Hr as [Hr Hh]. exists c, r', y. by rewrite Hh.
    + destruct (IH r' y eq_refl) as (c & r2 & y2 & -> & Hres & Hs).
      exists c, r2, y2. split; [done|]. split; [done|]. intros Hso. apply Hs.
      destruct Hr as (n & v & Hh). rewrite Hh. by apply add_header_sorted.
Qed.

Lemma parseRequestLine_headers r e r' :
  parseRequestLine r = Ret (e, r') ->
  _headers r' = _headers r /\ (e = 0 \/ failed e r').
Proof.
  unfold parseRequestLine. destruct (_ <? 0).
  { intros [= <- <-]. split; [done|]. right. solve_failed. }
  destruct (Nat.ltb _ _); [done|]. destruct (_ =? 0); intros [= <- <-]; (split; [done|]).
  - by left.
  - right. solve_failed.
Qed.

Lemma parseRequestLine_outcome r :
  (exists e r', parseRequestLine r = Ret (e, r')) \/ parseRequestLine r = Throw out_of_range.
Proof.
  unfold parseRequestLine. destruct (_ <? 0); [left; by do 2 eexists|].
  destruct (Nat.ltb _ _); [by right|]. destruct (_ =? 0); left; by do 2 eexists.
Qed.

Lemma rline_phase_result r b :
  rline_phase r b = Throw out_of_range \/
  exists c r' y, rline_phase r b = Ret (c, r', y) /\ header_result c r' y /\
    (om_sorted i_less (_headers r) -> om_sorted i_less (_headers r')).
Proof.
  destruct (Z.eq_dec (_status r) RLINE) as [Hs|Hs]; last first.
  { rewrite rline_phase_other by done. right. apply header_lines_result. }
  rewrite rline_phase_rline by done. cbv zeta. destruct (find CRLF _) as [k|].
  - destruct (BUFFER_SIZE <? _).
    { right. do 3 eexists. split; [done|]. split; [|done].
      apply hr_error. solve_failed. }
    destruct (parseRequestLine_outcome (r <| _line := take k (_line r ++ b) |>))
      as [(e & r' & E)| ->]; [|by left].
    rewrite E. simpl. right. apply parseRequestLine_headers in E as [Hh He]. simpl in Hh.
    destruct (Z.eqb_spec e 0); simpl.
    + rewrite <- Hh.
      destruct (header_lines_result (r' <| _line := [] |> <| _status := ONGOING |>)
        (drop (k + 2) (_line r ++ b))) as (c & r2 & y2 & H1 & H2 & H3).
      exists c, r2, y2. split; [exact H1|]. split; [exact H2|exact H3].
    + do 3 eexists. split; [done|]. rewrite Hh. split; [|done].
      apply hr_error. destruct He as [?|(He1 & He2 & He)]; [done|].
      unfold failed. by rewrite He2.
  - right. do 3 eexists. split; [done|]. split; [by eapply checkSizes_result|].
    by rewrite checkSizes_headers.
Qed.

Lemma rline_phase_result_from hs r b :
  _headers r = hs ->
  rline_phase r b = Throw out_of_range \/
  exists c r' y, rline_phase r b = Ret (c, r', y) /\ header_result c r' y /\
    (om_sorted i_less hs -> om_sorted i_less (_headers r')).
Proof. intros <-. apply rline_phase_result. Qed.

Lemma parseHeaders_result r b :
  _status r <> TERM ->
  parseHeaders r b = Throw out_of_range \/
  exists c r' y, parseHeaders r b = Ret (c, r', y) /\ header_result c r' y /\
    (om_sorted i_less (_headers r) -> om_sorted i_less (_headers r')).
Proof.
  intros Ht. unfold parseHeaders. rewrite (proj2 (Z.eqb_neq _ _) Ht).
  destruct (_ =? NEW); [|by apply rline_phase_result_from].
  destruct (is_empty (skip_to_alpha b)) eqn:Eb; simpl negb; cbv iota.
  - right. apply is_empty_true in Eb. rewrite Eb. do 3 eexists. split; [done|]. split.
    + by eapply checkSizes_result.
    + by rewrite checkSizes_headers.
  - by apply rline_phase_result_from.
Qed.

(** ** Reading a rendered request back *)

Definition SP : str := `s" ".
Definition CR : ascii := Ascii.ascii_of_nat 13.

Definition no_char (c : ascii) (s : str) : bool := negb (mem c s).

Lemma no_char_spec c s : no_char c s = true <-> c ∉ s.
Proof.
  unfold no_char, mem. rewrite negb_true_iff, <- not_true_iff_false, existsb_exists.
  rewrite list_elem_of_In. split.
  - intros H Hin. apply H. exists c. split; [done|]. by apply Ascii.eqb_eq.
  - intros H (x & Hx & ->%Ascii.eqb_eq). done.
Qed.

Lemma find_crlf_line l rest : CR ∉ l -> find CRLF (l ++ (CRLF ++ rest)) = Some (length l).
Proof.
  intros Hl. apply find_Some. split; [by exists l, rest|].
  intros j Hj (a & b & Hs & <-). apply Hl.
  assert (take (length l) (l ++ (CRLF ++ rest)) = l) as Ht by apply take_app_length.
  rewrite Hs in Ht. rewrite <- Ht. rewrite take_app_ge by lia. apply elem_of_app. right.
  destruct (length l - length a)%nat eqn:E; [lia|]. simpl. by left.
Qed.

Lemma getLine_line r l rest :
  _line r = [] -> CR ∉ l -> getLine r (l ++ (CRLF ++ rest)) = (0, r <| _line := l |>, rest).
Proof.
  intros Hr Hl. unfold getLine. rewrite Hr, app_nil_l.
  rewrite find_crlf_line, take_app_length by done.
  rewrite (assoc_L (++)). replace (length l + 2)%nat with (length (l ++ CRLF)).
  - by rewrite drop_app_length.
  - rewrite length_app. simpl. lia.
Qed.

Lemma drop_while_id f s : match s with c :: _ => f c = false | [] => True end -> drop_while f s = s.
Proof. destruct s as [|c s]; simpl; [done|]. by intros ->. Qed.

Lemma count_while_app f a b :
  forallb f a = true -> match b with c :: _ => f c = false | [] => True end ->
  count_while f (a ++ b) = length a.
Proof.
  intros Ha Hb. induction a as [|c a IH]; simpl in *.
  - destruct b; simpl; [done|]. by rewrite Hb.
  - apply andb_true_iff in Ha as [-> Ha]. by rewrite IH.
Qed.

(** A header field that survives rendering: the name has no colon, CR or
    leading blank, the value no CR or leading blank, and they fit. *)
Definition starts_blank (s : str) : bool :=
  match s with c :: _ => is_blank c | [] => false end.

Definition field_ok (f : str * str) : bool :=
  negb (is_empty f.1) && negb (starts_blank f.1) && no_char COLON f.1 && no_char CR f.1 &&
  negb (starts_blank f.2) && no_char CR f.2 && (zlen f.2 <? BUFFER_SIZE).

Definition render_field (f : str * str) : str := f.1 ++ (COLON :: SP) ++ f.2 ++ CRLF.
Definition render_fields (fs : list (str * str)) : str := concat (map render_field fs).

Definition render_request (m uri : str) (fs : list (str * str)) : str :=
  (m ++ SP ++ uri ++ `s" HTTP/1.1") ++ CRLF ++ render_fields fs ++ CRLF.

Definition uri_ok (uri : str) : bool :=
  negb (is_empty uri) && forallb (fun c => negb (is_blank c)) uri && no_char CR uri &&
  (zlen uri <? 3900).

Definition add_fields (r : Request) (fs : list (str * str)) : Request :=
  fold_left (fun r f => add_header f.1 f.2 r) fs r.

Lemma getHeaderName_field n v :
  COLON ∉ n -> getHeaderName (n ++ (COLON :: v)) = Some (n, v).
Proof.
  intros H. unfold getHeaderName. rewrite find_char_app, take_app_length by done.
  rewrite drop_app_ge by lia. by replace (length n + 1 - length n)%nat with 1%nat by lia.
Qed.

Lemma header_line_field r f rest :
  _line r = [] -> field_ok f = true ->
  header_line r (render_field f ++ rest) = Next (add_header f.1 f.2 r) rest.
Proof.
  destruct f as [n v]. intros Hr H. unfold field_ok in H. simpl in H.
  rewrite !andb_true_iff, !negb_true_iff, !no_char_spec, Z.ltb_lt in H.
  destruct H as ((((((Hn & Hnb) & Hco) & Hcr) & Hvb) & Hvr) & Hlen).
  assert (render_field (n, v) ++ rest = (n ++ (COLON :: (SP ++ v))) ++ (CRLF ++ rest)) as ->.
  { unfold render_field. cbn [fst snd]. by rewrite <- !(assoc_L (++)). }
  unfold header_line. rewrite getLine_line; [|done|]; last first.
  { change (SP ++ v) with (" "%char :: v).
    rewrite elem_of_app, !elem_of_cons. intros [?|[?|[?|?]]]; done. }
  simpl negb. cbv iota. simpl _line.
  rewrite (proj2 (str_eqb_neq _ _)) by (by destruct n).
  unfold trimSpace at 1. simpl _line. rewrite drop_while_id by (by destruct n).
  rewrite getHeaderName_field by done. simpl _line.
  assert (zlen (" "%char :: v) = zlen v + 1) as -> by (unfold zlen; simpl; lia).
  rewrite (proj2 (Z.ltb_ge _ _)) by lia.
  unfold trimSpace.
  change (drop_while is_blank (" "%char :: v)) with (drop_while is_blank v).
  rewrite (drop_while_id is_blank v) by (by destruct v).
  unfold add_header, getHeader. simpl. destruct r; simpl in *; subst; done.
Qed.

Lemma add_header_line n v r : _line (add_header n v r) = _line r.
Proof. done. Qed.

Lemma header_lines_fields fs r rest :
  _line r = [] -> forallb field_ok fs = true ->
  header_lines r (render_fields fs ++ (CRLF ++ rest)) =
    Ret (-1, (add_fields r fs) <| _status := TERM |> <| _final_status := HOST |>
               <| _line := [] |>, rest).
Proof.
  revert r. induction fs as [|f fs IH]; intros r Hr Hok; rewrite header_lines_eq.
  - change (is_empty (render_fields [] ++ (CRLF ++ rest))) with false. cbv iota.
    unfold header_line.
    change (render_fields [] ++ (CRLF ++ rest)) with ([] ++ (CRLF ++ rest)).
    rewrite (getLine_line r [] rest Hr (not_elem_of_nil _)). simpl. done.
  - simpl in Hok. apply andb_true_iff in Hok as [Hf Hok].
    unfold render_fields. simpl concat. rewrite <- (assoc_L (++)).
    assert (forall t, is_empty (render_field f ++ t) = false) as ->.
    { intros t. unfold render_field. by destruct (f.1). }
    rewrite header_line_field by done. apply IH; done.
Qed.

Lemma nextSpace_word w rest i pre :
  i = length pre -> forallb (fun c => negb (is_blank c)) w = true ->
  starts_blank rest = true \/ rest = [] ->
  nextSpace i (pre ++ (w ++ rest)) = (length pre + length w)%nat.
Proof.
  intros -> Hw Hr. unfold nextSpace. rewrite drop_app_length, count_while_app; [done|done|].
  destruct rest as [|c rest]; [done|]. simpl in Hr. destruct Hr as [-> | ?]; done.
Qed.

Lemma skipSpaces_one w pre :
  starts_blank w = false ->
  skipSpaces (length pre) (pre ++ (SP ++ w)) = (length pre + 1)%nat.
Proof.
  intros Hw. unfold skipSpaces. rewrite drop_app_length, count_while_app; [done|done|].
  by destruct w.
Qed.

Lemma method_word m :
  m ∈ METHOD_STR -> forallb (fun c => negb (is_blank c)) m = true /\ (CR ∉ m) /\
    0 <= getMethodIndex m /\ (exists c m', m = c :: m' /\ isalpha c = true) /\
    (length m <= 6)%nat.
Proof.
  intros H. unfold METHOD_STR in H. rewrite !elem_of_cons in H.
  destruct H as [->|[->|[->|[->|[->|H]]]]]; [..|by apply elem_of_nil in H];
    (split; [done|]; split; [by apply no_char_spec|]; split; [done|]; split; [by do 2 eexists|simpl; lia]).
Qed.

Lemma parseRequestLine_render r m uri :
  m ∈ METHOD_STR -> uri_ok uri = true ->
  _line r = m ++ SP ++ uri ++ `s" HTTP/1.1" ->
  parseRequestLine r = Ret (0, r <| req_method := getMethodIndex m |> <| _uri := uri |>).
Proof.
  intros Hm Hu Hl. apply method_word in Hm as (Hmb & _ & Hmi & _).
  unfold uri_ok in Hu. rewrite !andb_true_iff, negb_true_iff in Hu.
  destruct Hu as (((Hne & Hub) & _) & _).
  assert (starts_blank (uri ++ `s" HTTP/1.1") = false) as Hsb.
  { destruct uri as [|c u]; [done|]. simpl in Hub |- *. by destruct (is_blank c). }
  unfold parseRequestLine. rewrite Hl.
  assert (nextSpace 0 (m ++ (SP ++ (uri ++ `s" HTTP/1.1"))) = length m) as ->.
  { apply (nextSpace_word m (SP ++ _) 0 []); [done|done|by left]. }
  rewrite take_app_length, (proj2 (Z.ltb_ge _ _)) by done.
  rewrite skipSpaces_one by done. 
  assert (nextSpace (length m + 1) (m ++ (SP ++ (uri ++ `s" HTTP/1.1"))) =
          (length m + 1 + length uri)%nat) as ->.
  { rewrite (assoc_L (++) m). rewrite (nextSpace_word uri (`s" HTTP/1.1"));
      [|rewrite length_app; simpl; lia|done|by left]. rewrite length_app. simpl. lia. }
  assert (substr (m ++ (SP ++ (uri ++ `s" HTTP/1.1"))) (length m + 1)
            (length m + 1 + length uri - (length m + 1)) = uri) as ->.
  { unfold substr. rewrite (assoc_L (++) m).
    replace (length m + 1)%nat with (length (m ++ SP)) by (rewrite length_app; simpl; lia).
    rewrite drop_app_length. rewrite Nat.add_comm, Nat.add_sub. apply take_app_length. }
  assert (drop (S (length m + 1 + length uri)) (m ++ (SP ++ (uri ++ `s" HTTP/1.1")))
          = `s"HTTP/1.1") as ->.
  { change (`s" HTTP/1.1") with (SP ++ `s"HTTP/1.1").
    rewrite !(assoc_L (++)). rewrite <- (drop_app_length (((m ++ SP) ++ uri) ++ SP) (`s"HTTP/1.1")) at 2.
    f_equal. rewrite !length_app. simpl. lia. }
  assert (Nat.ltb (length (m ++ (SP ++ (uri ++ `s" HTTP/1.1")))) (S (length m + 1 + length uri)) = false)
    as ->.
  { apply Nat.ltb_ge. rewrite !length_app. simpl. lia. }
  done.
Qed.

Lemma add_fields_headers fs r r' :
  _headers r = _headers r' -> _headers (add_fields r fs) = _headers (add_fields r' fs).
Proof.
  revert r r'. induction fs as [|f fs IH]; intros r r' H; simpl; [done|].
  apply IH. unfold add_header, getHeader. simpl. by rewrite H.
Qed.

Lemma add_fields_other fs r :
  req_method (add_fields r fs) = req_method r /\ _uri (add_fields r fs) = _uri r.
Proof.
  revert r. induction fs as [|f fs IH]; intros r; simpl; [done|]. apply (IH (add_header _ _ r)).
Qed.

Lemma parseHeaders_new b :
  (match b with c :: _ => isalpha c = true | [] => False end) ->
  parseHeaders Request_init b =
    rline_phase (Request_init <| _status := RLINE |> <| _header_size := i32 (zlen b) |>) b.
Proof.
  intros H. unfold parseHeaders. cbn [Request_init _status Z.eqb NEW TERM].
  assert (skip_to_alpha b = b) as ->; [|by destruct b].
  unfold skip_to_alpha. apply drop_while_id. destruct b; [done|]. by rewrite H.
Qed.

(** A request whose first line is [l]. *)
Lemma parseHeaders_first_line l rest :
  (match l with c :: _ => isalpha c = true | [] => False end) -> CR ∉ l ->
  zlen l <= BUFFER_SIZE ->
  let r := Request_init <| _status := RLINE |>
             <| _header_size := i32 (zlen (l ++ (CRLF ++ rest))) |> <| _line := l |> in
  parseHeaders Request_init (l ++ (CRLF ++ rest)) =
    ('(e, r') ← parseRequestLine r;
     if negb (e =? 0) then Ret (getError r', r', rest)
     else header_lines (r' <| _line := [] |> <| _status := ONGOING |>) rest).
Proof.
  intros Ha Hcr Hl r. rewrite parseHeaders_new by (by destruct l).
  rewrite rline_phase_rline by done. cbn [_line Request_init]. cbn [app upd].
  rewrite app_nil_l || idtac. change (_line _) with (@nil ascii). 
  change ([] ++ (l ++ (CRLF ++ rest))) with (l ++ (CRLF ++ rest)).
  rewrite find_crlf_line, take_app_length by done.
  unfold zlen in Hl. rewrite (proj2 (Z.ltb_ge _ _)) by done. cbv zeta.
  replace (drop (length l + 2) (l ++ (CRLF ++ rest))) with rest; [done|].
  rewrite (assoc_L (++)). replace (length l + 2)%nat with (length (l ++ CRLF)).
  - by rewrite drop_app_length.
  - rewrite length_app. simpl. lia.
Qed.

Lemma getHeader_add k n v r :
  getHeader k (add_header n v r) =
    if key_equiv i_less n k then
      (if str_eqb (getHeader n r) [] then v else getHeader n r ++ (`s", " ++ v))
    else getHeader k r.
Proof.
  unfold add_header. unfold getHeader at 1. simpl _headers. unfold om_assign.
  destruct (key_equiv i_less n k) eqn:E.
  - rewrite <- (om_find_proper i_less n k E _ _ eq_refl).
    by rewrite om_find_update_eq by apply _.
  - by rewrite om_find_update_ne by (apply _ || done).
Qed.

Lemma add_fields_hints fs r : resHints (add_fields r fs) = resHints r.
Proof. revert r. induction fs as [|f fs IH]; intros r; simpl; [done|]. apply (IH (add_header _ _ r)). Qed.

(** What the body parser counts and remembers. *)
Definition body_view (r : Request) : bool * Z * Z * Z * Z * bool * Z :=
  (_chunked r, _b_status r, _len r, _content_length r, _chunked_body_size r, _chunked_status r, _trailer_status r).

(** A head was read, and nothing of the body. *)
Definition unread (r : Request) : Prop :=
  body_view r = body_view Request_init /\ _line r = [] /\ _status r = TERM /\ _final_status r = HOST.

Lemma add_fields_body fs r : body_view (add_fields r fs) = body_view r.
Proof. revert r. induction fs as [|f fs IH]; intros r; simpl; [done|]. apply (IH (add_header _ _ r)). Qed.

Lemma parseHeaders_rendered m uri fs rest :
  m ∈ METHOD_STR -> uri_ok uri = true -> forallb field_ok fs = true ->
  exists r, parseHeaders Request_init (render_request m uri fs ++ rest) = Ret (-1, r, rest) /\
    req_method r = getMethodIndex m /\ _uri r = uri /\
    _headers r = _headers (add_fields Request_init fs) /\
    resHints r = ResHints_init /\ unread r.
Proof.
  intros Hm Hu Hf. pose proof (method_word m Hm) as (_ & Hcr & _ & (c & m' & Hc & Ha) & Hlen).
  pose proof Hu as Hu'. unfold uri_ok in Hu'. rewrite !andb_true_iff, no_char_spec in Hu'.
  destruct Hu' as ((_ & Hucr) & Hul%Z.ltb_lt).
  unfold render_request. rewrite <- !(assoc_L (++)).
  set (l := m ++ (SP ++ (uri ++ `s" HTTP/1.1"))).
  assert (m ++ (SP ++ (uri ++ (`s" HTTP/1.1" ++ (CRLF ++ (render_fields fs ++ (CRLF ++ rest))))))
          = l ++ (CRLF ++ (render_fields fs ++ (CRLF ++ rest)))) as ->.
  { unfold l. by rewrite <- !(assoc_L (++)). }
  rewrite parseHeaders_first_line; [|by unfold l; rewrite Hc| |]; last first.
  { unfold l, zlen in *. rewrite !length_app. simpl. unfold BUFFER_SIZE. lia. }
  { unfold l. rewrite !elem_of_app. intros [?|[H|[?|H]]]; [done| |done|].
    - by apply list_elem_of_singleton in H.
    - by apply no_char_spec in H. }
  erewrite parseRequestLine_render; [|exact Hm|exact Hu|reflexivity].
  rewrite bind_ret_l. change (negb (0 =? 0)) with false. cbv iota beta.
  rewrite header_lines_fields by done. eexists. split; [done|].
  match goal with |- context [add_fields ?R fs] => pose proof (add_fields_other fs R) as [H1 H2];
    pose proof (add_fields_headers fs R Request_init eq_refl) as H3;
    pose proof (add_fields_hints fs R) as H4; pose proof (add_fields_body fs R) as H5 end.
  split_and!; [exact H1|exact H2|exact H3|exact H4|]. split; [exact H5|done].
Qed.

(** ** Short heads

    A head of at most [BUFFER_SIZE] bytes never trips a size limit half-way, so
    whatever the parser concludes on its first bytes it concludes on all. *)

Lemma checkSizes_small r :
  _status r <> TERM -> _trailer_status r <> ONGOING ->
  zlen (_line r) <= BUFFER_SIZE -> _header_size r <= BUFFER_SIZE -> _checkSizes r = (0, r).
Proof.
  intros Ht Htr Hl Hh. unfold _checkSizes.
  rewrite (proj2 (Z.eqb_neq _ TERM)), (proj2 (Z.eqb_neq _ ONGOING) Htr) by done.
  rewrite (proj2 (Z.ltb_ge _ (_header_size r))) by (unfold HEADER_MAX_BUFFER, BUFFER_SIZE in *; lia).
  rewrite (proj2 (Z.ltb_ge _ _)) by done. by destruct (_ || _).
Qed.

(** What the header loop keeps of a request. *)
Definition small (n : Z) (r : Request) : Prop :=
  _status r <> TERM /\ _trailer_status r <> ONGOING /\ i32 (_header_size r) = _header_size r /\
  _header_size r <= BUFFER_SIZE /\ zlen (_line r) + n <= BUFFER_SIZE.

Lemma header_line_small r b r' y :
  header_line r b = Next r' y -> small (zlen b) r -> small (zlen y) r'.
Proof.
  intros H (H1 & H2 & H3 & H4 & H5). pose proof (header_line_next _ _ _ _ H) as (Hc & Hl & Hy).
  unfold header_line in H. unfold line_complete in Hc.
  destruct (getLine_cases r b) as [[_ E]|(x & z & _ & _ & E)]; rewrite E in H, Hc; [done|].
  simpl in H. destruct (str_eqb _ _); [done|]. destruct (getHeaderName _) as [[n l]|]; [|done].
  destruct (BUFFER_SIZE <? _); [done|]. injection H as <- <-.
  split; [done|]. split; [done|]. split; [done|]. split; [done|].
  change (zlen [] + zlen z <= BUFFER_SIZE). unfold zlen in *. simpl. lia.
Qed.

Lemma header_lines_final r b1 c r1 y b2 h :
  small (zlen b1) r -> header_lines r b1 = Ret (c, r1, y) -> c <> 0 ->
  header_lines (set_hs h r) (b1 ++ b2) = Ret (c, set_hs h r1, y ++ b2).
Proof.
  revert r b1. refine (header_lines_ind _ _). intros r b1 IH Hs H Hc.
  pose proof Hs as (H1 & H2 & H3 & H4 & H5).
  rewrite header_lines_eq in H. destruct (is_empty b1) eqn:Eb.
  { exfalso. apply is_empty_true in Eb as ->. unfold with_buffer in H.
    change (zlen []) with 0 in H. rewrite Z.sub_0_r, H3 in H.
    rewrite checkSizes_small in H; [by injection H as <-|done|done|cbn [_line upd]; change (zlen []) with 0 in H5; lia|done]. }
  destruct (line_complete_dec r b1) as [Hl|Hl].
  - rewrite header_lines_eq. assert (is_empty (b1 ++ b2) = false) as -> by (by destruct b1).
    rewrite header_line_hs, header_line_app by eauto using line_complete_app.
    destruct (header_line r b1) as [k r' y'|r' y'] eqn:E; [by simplify_eq|].
    apply IH; [done|by eapply header_line_small|done|done].
  - exfalso. rewrite header_line_partial in H by done. unfold stop in H.
    rewrite checkSizes_small in H; [by injection H as <-|done|done| |done].
    cbn [_line upd]. rewrite zlen_app. lia.
Qed.

Lemma rline_phase_final r b1 c r1 y b2 h :
  small (zlen b1) r -> _status r = RLINE -> _line r = [] -> 
  rline_phase r b1 = Ret (c, r1, y) -> c <> 0 ->
  rline_phase (set_hs h r) (b1 ++ b2) = Ret (c, set_hs h r1, y ++ b2).
Proof.
  intros Hs Hst Hl H Hc. pose proof Hs as (H1 & H2 & H3 & H4 & H5).
  rewrite rline_phase_rline in H by done. rewrite rline_phase_rline by done.
  cbv zeta in H |- *. change (_line (set_hs h r)) with (_line r). rewrite Hl in H |- *.
  rewrite app_nil_l in H |- *.
  destruct (find CRLF b1) as [k|] eqn:E.
  - rewrite (find_app_l _ _ _ _ E). apply find_bound in E. simpl in E.
    rewrite take_app_le, drop_app_le by lia.
    destruct (BUFFER_SIZE <? Z.of_nat k); [by injection H as <- <- <-|].
    set (r' := r <| _line := take k b1 |>) in *.
    change ((set_hs h r) <| _line := take k b1 |>) with (set_hs h r').
    rewrite parseRequestLine_hs.
    destruct (parseRequestLine r') as [[e r2]|  | |] eqn:Ep; try done. simpl in H |- *.
    destruct (Z.eqb_spec e 0) as [->|He]; simpl in H |- *.
    + refine (header_lines_final _ _ _ _ _ b2 h _ H Hc).
      assert (_header_size r2 = _header_size r /\ _trailer_status r2 = _trailer_status r) as [Hh2 Ht2].
      { revert Ep. unfold parseRequestLine. destruct (_ <? 0); [done|].
        destruct (Nat.ltb _ _); [done|]. destruct (_ =? 0); intros Ep; first [discriminate Ep|by injection Ep as <-]. }
      unfold small. cbn [_status _trailer_status _header_size _line upd]. rewrite Hh2, Ht2.
      split_and!; try done. rewrite Hl in H5. unfold zlen in *. rewrite length_drop. simpl in *. lia.
    + by simplify_eq/=.
  - exfalso. unfold with_buffer in H. rewrite checkSizes_small in H; [by injection H as <-|done|done| |done].
    cbn [_line upd]. rewrite Hl in H5. exact H5.
Qed.

Lemma skip_to_alpha_length b : zlen (skip_to_alpha b) <= zlen b.
Proof.
  unfold zlen. induction b as [|c b IH]; [done|]. unfold skip_to_alpha in *. cbn [drop_while].
  destruct (negb _); simpl in *; lia.
Qed.

Lemma i32_small n : 0 <= n <= BUFFER_SIZE -> i32 n = n.
Proof. unfold i32, BUFFER_SIZE. intros. Z.div_mod_to_equations. lia. Qed.

(** A conclusion on the first bytes is the conclusion on all. *)
Lemma parseHeaders_final b1 c r1 y b2 :
  zlen b1 <= BUFFER_SIZE -> parseHeaders Request_init b1 = Ret (c, r1, y) -> c <> 0 ->
  exists h, parseHeaders Request_init (b1 ++ b2) = Ret (c, set_hs h r1, y ++ b2).
Proof.
  intros Hb H Hc. unfold parseHeaders in *.
  change (_status Request_init =? TERM) with false in *. cbv iota in *.
  change (_status (Request_init <| _header_size := _ |>) =? NEW) with true in *. cbv iota in *.
  rewrite skip_to_alpha_app. pose proof (skip_to_alpha_length b1) as Hsk.
  destruct (is_empty (skip_to_alpha b1)) eqn:Eb; simpl negb in *.
  - exfalso. unfold with_buffer in H. rewrite checkSizes_small in H; [by injection H as <-|done|done|done|].
    cbn [_header_size upd Request_init]. pose proof (zlen_nonneg b1). by rewrite i32_small by lia.
  - set (b' := skip_to_alpha b1) in *. cbv iota in H.
    assert (is_empty (b' ++ b2) = false) as -> by (by destruct b').
    exists (i32 (zlen (b' ++ b2))).
    refine (rline_phase_final _ _ _ _ _ b2 (i32 (zlen (b' ++ b2))) _ _ _ H Hc); [|done|done].
    pose proof (zlen_nonneg b'). unfold small.
    cbn [_status _trailer_status _header_size _line upd Request_init].
    assert (i32 (zlen b') = zlen b') as -> by (apply i32_small; lia). rewrite i32_small by lia. change (zlen []) with 0. split_and!; done || lia.
Qed.

Lemma parseHeaders_final_throw b1 e b2 :
  parseHeaders Request_init b1 = Throw e -> parseHeaders Request_init (b1 ++ b2) = Throw e.
Proof.
  unfold parseHeaders.
  change (_status Request_init =? TERM) with false. cbv iota.
  change (_status (Request_init <| _header_size := _ |>) =? NEW) with true. cbv iota.
  rewrite skip_to_alpha_app. destruct (is_empty (skip_to_alpha b1)) eqn:Eb; simpl negb; [done|].
  set (b' := skip_to_alpha b1) in *. cbv iota.
  assert (is_empty (b' ++ b2) = false) as -> by (by destruct b'). cbv iota.
  rewrite !rline_phase_rline by done. cbv zeta.
  change (_line (_ <| _header_size := _ |>) ++ ?x) with x. destruct (find CRLF b') as [k|] eqn:E; [|done].
  rewrite (find_app_l _ _ _ _ E). apply find_bound in E. simpl in E.
  rewrite take_app_le, drop_app_le by lia. simpl negb. cbv iota.
  destruct (BUFFER_SIZE <? Z.of_nat k); [done|].
  match goal with |- context [parseRequestLine ?r] => set (r0 := r) end.
  intros H. match goal with |- context [parseRequestLine ?r] =>
    change r with (set_hs (i32 (zlen (b' ++ b2))) r0) end. rewrite parseRequestLine_hs.
  destruct (parseRequestLine r0) as [[z r2]| | |]; try done. cbn [mbind outcome_bind] in H |- *.
  destruct (negb _); [done|]. exfalso.
  destruct (header_lines_result (r2 <| _line := [] |> <| _status := ONGOING |>) (drop (k + 2) b'))
    as (? & ? & ? & E2 & _). by rewrite E2 in H.
Qed.

(** A proper prefix of a short complete head is incomplete. *)
Lemma parseHeaders_prefix p q r :
  zlen p <= BUFFER_SIZE -> q <> [] -> parseHeaders Request_init (p ++ q) = Ret (-1, r, []) ->
  exists r', parseHeaders Request_init p = Ret (0, r', []).
Proof.
  intros Hp Hq H. destruct (parseHeaders_result Request_init p) as [E|(c & r' & y & E & Hr & _)]; [done| |].
  - by rewrite (parseHeaders_final_throw _ _ q E) in H.
  - destruct (Z.eq_dec c 0) as [->|Hc].
    + exists r'. destruct (parseHeaders_split Request_init p r' y [] ltac:(done) E) as [-> _]. done.
    + destruct (parseHeaders_final p c r' y q Hp E Hc) as [h E2]. rewrite E2 in H.
      injection H as _ _ Hy. by apply app_eq_nil in Hy as [_ ?].
Qed.

(** The result of the parser without its size counter. *)
Definition parsed_view (m : outcome exn (Z * Request * str)) : outcome exn (Z * Request * str) :=
  '(c, r, y) ← m; Ret (c, set_hs 0 r, y).

Lemma feed_view r p frags :
  _status r <> TERM -> (forall b, parseHeaders Request_init (p ++ b) = parseHeaders r b) ->
  zlen (p ++ concat frags) <= BUFFER_SIZE ->
  parsed_view (feed r frags) = parsed_view (parseHeaders r (concat frags)) \/
  feed r frags = Ret (0, r, []) /\ concat frags = [].
Proof.
  revert r p. induction frags as [|b frags IH]; intros r p Ht Hp Hl; [by right|left].
  cbn [feed concat] in *. rewrite (assoc_L (++)) in Hl.
  assert (zlen (p ++ b) <= BUFFER_SIZE) as Hpb.
  { rewrite zlen_app in Hl. pose proof (zlen_nonneg (concat frags)). lia. }
  rewrite <- (Hp (b ++ concat frags)), (assoc_L (++)).
  destruct (parseHeaders_result r b Ht) as [E|(c & r' & y & E & _)]; rewrite E.
  - rewrite (parseHeaders_final_throw (p ++ b) out_of_range) by (by rewrite Hp). done.
  - cbn [mbind outcome_bind]. destruct (Z.eqb_spec c 0) as [->|Hc].
    + destruct (parseHeaders_split r b r' y (concat frags) Ht E) as (-> & Ht' & Hs).
      rewrite <- (assoc_L (++)), Hp, Hs.
      destruct (IH r' (p ++ b) Ht') as [->|[-> E0]]; [|done|done|].
      * intros b'. rewrite <- (assoc_L (++)), Hp.
        by destruct (parseHeaders_split r b r' [] b' Ht E) as (_ & _ & ->).
      * rewrite E0, app_nil_r in Hs. rewrite E0, <- Hs, E. done.
    + rewrite <- Hp in E. destruct (parseHeaders_final _ c r' y (concat frags) Hpb E Hc) as [h ->].
      done.
Qed.

(** ** Properties *)

(** C14: Every request that is rendered by the grammar [render_request] and fed
    in one read is parsed back: method, uri and header fields are recovered
    (duplicate fields joined by [add_header]) and the bytes after the empty line
    are left in the buffer. *)
Theorem parseHeaders_render m uri fs rest :
  m ∈ METHOD_STR -> uri_ok uri = true -> forallb field_ok fs = true ->
  exists r, parseHeaders Request_init (render_request m uri fs ++ rest) = Ret (-1, r, rest) /\
    req_method r = getMethodIndex m /\ _uri r = uri /\
    _headers r = _headers (add_fields Request_init fs) /\
    _status r = TERM /\ _final_status r = HOST.
Proof.
  intros Hm Hu Hf. destruct (parseHeaders_rendered m uri fs rest Hm Hu Hf)
    as (r & H1 & H2 & H3 & H4 & _ & _ & _ & H5 & H6). by exists r.
Qed.

Lemma parseHeaders_render_witness :
  exists r, parseHeaders Request_init
    (render_request (`s"POST") (`s"/up/a") [(`s"Host", `s"server1"); (`s"X", `s"1")] ++ `s"xy")
      = Ret (-1, r, `s"xy") /\
    req_method r = 1 /\ _uri r = `s"/up/a" /\
    _headers r = _headers (add_fields Request_init [(`s"Host", `s"server1"); (`s"X", `s"1")]) /\
    _status r = TERM /\ _final_status r = HOST.
Proof.
  apply (parseHeaders_render (`s"POST") (`s"/up/a") [(`s"Host", `s"server1"); (`s"X", `s"1")]).
  - apply (bool_decide_unpack _). vm_compute. exact I.
  - reflexivity.
  - reflexivity.
Defined.

(** The parser does not depend on how the bytes are cut into reads: if
    feeding the fragments one by one completes the headers, one read of their
    concatenation completes them with the same request (the size counter
    aside) and the same rest. *)
Theorem feed_concat r frags r' rest :
  _status r <> TERM -> feed r frags = Ret (-1, r', rest) ->
  exists h, parseHeaders r (concat frags) = Ret (-1, r' <| _header_size := h |>, rest).
Proof.
  revert r. induction frags as [|b frags IH]; intros r Ht H; simpl in H; [done|].
  destruct (parseHeaders r b) as [[[c r1] y]|  | |] eqn:E; try done. simpl in H.
  destruct (Z.eqb_spec c 0) as [->|Hc].
  - apply parseHeaders_split with (b2 := concat frags) in E as (_ & Ht1 & E); [|done].
    simpl. rewrite E. by apply IH.
  - simplify_eq. by apply parseHeaders_complete with (b2 := concat frags) in E.
Qed.

Definition demo_frags : list str :=
  [`s" GE"; `s"T / HTT"; crlf "P/1.1"; `s"Host"; crlf ": a" ++ [CR]; [Ascii.ascii_of_nat 10]].

Lemma feed_concat_witness :
  exists r' h,
    parseHeaders Request_init (concat demo_frags) = Ret (-1, r' <| _header_size := h |>, []).
Proof.
  eexists. apply (feed_concat Request_init demo_frags _ []); [discriminate|].
  vm_compute. reflexivity.
Defined.

(** C17: Fragmentation.  A head that arrives in at most [BUFFER_SIZE] bytes is
    parsed the same way however its bytes are cut into reads: feeding the
    fragments one by one gives, errors and exceptions included, the code, the
    request (the size counter aside) and the rest that one read of their
    concatenation gives. *)
Theorem feed_short frags :
  zlen (concat frags) <= BUFFER_SIZE ->
  parsed_view (feed Request_init frags) = parsed_view (parseHeaders Request_init (concat frags)).
Proof.
  intros H. destruct (feed_view Request_init [] frags) as [E|[-> ->]]; try done.
Qed.

Lemma feed_short_witness :
  parsed_view (feed Request_init [`s"GET / HTTP/1.1"; CRLF ++ `s"no colon"; CRLF ++ `s"rest"]) =
  parsed_view (parseHeaders Request_init (concat [`s"GET / HTTP/1.1"; CRLF ++ `s"no colon"; CRLF ++ `s"rest"])).
Proof. apply (feed_short [`s"GET / HTTP/1.1"; CRLF ++ `s"no colon"; CRLF ++ `s"rest"]). vm_compute. discriminate. Defined.

(** The header parser always terminates: it returns a code or throws, the
    code 0 leaves nothing in the buffer, -1 means the empty line was reached,
    every other code is an error status recorded in the request; and the
    header map stays ordered. *)
Theorem parseHeaders_outcome r b :
  _status r <> TERM ->
  parseHeaders r b = Throw out_of_range \/
  exists c r' y, parseHeaders r b = Ret (c, r', y) /\ header_result c r' y /\
    (om_sorted i_less (_headers r) -> om_sorted i_less (_headers r')).
Proof. apply parseHeaders_result. Qed.

Lemma parseHeaders_outcome_witness :
  parseHeaders Request_init (`s"GET") = Throw out_of_range \/
  exists c r' y, parseHeaders Request_init (`s"GET") = Ret (c, r', y) /\ header_result c r' y /\
    (om_sorted i_less (_headers Request_init) -> om_sorted i_less (_headers r')).
Proof. apply parseHeaders_outcome. discriminate. Defined.

Lemma parseRequestLine_short r m uri :
  m ∈ METHOD_STR -> uri_ok uri = true -> _line r = m ++ (SP ++ uri) ->
  parseRequestLine r = Throw out_of_range.
Proof.
  intros Hm Hu Hl. pose proof (method_word m Hm) as (Hmb & _ & Hmi & _).
  unfold uri_ok in Hu. rewrite !andb_true_iff, negb_true_iff in Hu.
  destruct Hu as (((Hne & Hub) & _) & _).
  assert (starts_blank uri = false) as Hsb.
  { destruct uri as [|c' u]; [done|]. simpl in Hub |- *. by destruct (is_blank c'). }
  unfold parseRequestLine. rewrite Hl.
  assert (nextSpace 0 (m ++ (SP ++ uri)) = length m) as ->.
  { apply (nextSpace_word m (SP ++ _) 0 []); [done|done|by left]. }
  rewrite take_app_length, (proj2 (Z.ltb_ge _ _)) by done.
  rewrite skipSpaces_one by done.
  assert (nextSpace (length m + 1) (m ++ (SP ++ uri)) = (length m + 1 + length uri)%nat) as ->.
  { rewrite (assoc_L (++) m). rewrite <- (app_nil_r uri) at 1.
    rewrite (nextSpace_word uri []); [|rewrite length_app; simpl; lia|done|by right].
    rewrite length_app. simpl. lia. }
  assert (Nat.ltb (length (m ++ (SP ++ uri))) (S (length m + 1 + length uri)) = true) as ->; [|done].
  apply Nat.ltb_lt. rewrite !length_app. simpl. lia.
Qed.

(** A request line without a version ([GET /index.html]) makes
    [_line.substr(r_idx + 1)] throw [std::out_of_range]: the header parser never
    returns for it.  No handler between here and [main] catches the exception. *)
Theorem parseHeaders_no_version m uri rest :
  m ∈ METHOD_STR -> uri_ok uri = true ->
  parseHeaders Request_init ((m ++ SP ++ uri) ++ (CRLF ++ rest)) = Throw out_of_range.
Proof.
  intros Hm Hu. pose proof (method_word m Hm) as (_ & Hcr & _ & (c & m' & Hc & Ha) & Hlen).
  pose proof Hu as Hu'. unfold uri_ok in Hu'. rewrite !andb_true_iff, no_char_spec in Hu'.
  destruct Hu' as ((_ & Hucr) & Hul%Z.ltb_lt).
  rewrite parseHeaders_first_line; [|by rewrite Hc| |]; last first.
  { unfold zlen in *. rewrite !length_app. simpl. unfold BUFFER_SIZE. lia. }
  { rewrite !elem_of_app. intros [?|[H|?]]; [done| |done]. by apply list_elem_of_singleton in H. }
  erewrite parseRequestLine_short; [done|exact Hm|exact Hu|reflexivity].
Qed.

Lemma parseHeaders_no_version_witness :
  parseHeaders Request_init ((`s"GET" ++ SP ++ `s"/index.html") ++ (CRLF ++ CRLF))
    = Throw out_of_range.
Proof.
  apply (parseHeaders_no_version (`s"GET") (`s"/index.html") CRLF); [|reflexivity].
  apply (bool_decide_unpack _). vm_compute. exact I.
Defined.

Lemma checkSizes_exit (b : str) R r' (y : str) :
  with_buffer (E:=exn) b (_checkSizes R) = Ret (0, r', y) -> _checkSizes r' = (0, r').
Proof.
  destruct (_checkSizes R) as [c r0] eqn:E. unfold with_buffer. cbn [fst snd].
  intros H. injection H as -> -> _. pose proof (checkSizes_zero _ _ E) as H0.
  rewrite <- H0 in E. exact E.
Qed.

Lemma zero_checked_lines r b r' y :
  header_lines r b = Ret (0, r', y) -> _checkSizes r' = (0, r').
Proof.
  revert r b. refine (header_lines_ind _ _). intros r b IH H.
  rewrite header_lines_eq in H. destruct (is_empty b) eqn:Eb.
  { by apply checkSizes_exit in H. }
  destruct (line_complete_dec r b) as [Hc|Hc].
  - destruct (header_line r b) as [c r1 y1|r1 y1] eqn:E; [|by eapply IH].
    simplify_eq. by eapply header_line_stop_code in E.
  - rewrite header_line_partial in H by done. exact (checkSizes_exit [] _ _ _ H).
Qed.

Lemma zero_checked_phase r b r' y :
  rline_phase r b = Ret (0, r', y) -> _checkSizes r' = (0, r').
Proof.
  destruct (Z.eq_dec (_status r) RLINE) as [Hs|Hs]; last first.
  { rewrite rline_phase_other by done. apply zero_checked_lines. }
  rewrite rline_phase_rline by done. cbv zeta. destruct (find CRLF _) as [k|].
  - destruct (BUFFER_SIZE <? _); [done|].
    destruct (parseRequestLine _) as [[e r1]|  | |] eqn:Ep; try done. simpl.
    destruct (Z.eqb_spec e 0); simpl; [apply zero_checked_lines|].
    apply parseRequestLine_error in Ep as [?|[? Ep]]; [done|].
    intros He. injection He as He _ _. congruence.
  - apply checkSizes_exit.
Qed.

Lemma zero_checked r b r' y :
  _status r <> TERM -> parseHeaders r b = Ret (0, r', y) -> _checkSizes r' = (0, r').
Proof.
  intros Ht. unfold parseHeaders. rewrite (proj2 (Z.eqb_neq _ _) Ht).
  destruct (_ =? NEW); [|apply zero_checked_phase].
  destruct (negb _); [apply zero_checked_phase|]. apply checkSizes_exit.
Qed.

(** While header lines are being read, what the parser keeps is bounded:
    when it asks for more input outside the request line, at most 4 * 4000
    header bytes were consumed and the stashed line has at most 4000 bytes. *)
Theorem parseHeaders_bounded r b r' y :
  _status r <> TERM -> parseHeaders r b = Ret (0, r', y) ->
  _status r' = NEW \/ _status r' = ONGOING ->
  _header_size r' <= HEADER_MAX_BUFFER * BUFFER_SIZE /\ zlen (_line r') <= BUFFER_SIZE.
Proof.
  intros Ht H Hs. apply zero_checked in H; [|done]. unfold _checkSizes in H.
  assert ((_status r' =? ONGOING) || (_status r' =? NEW) = true) as Hs'.
  { rewrite orb_true_iff, !Z.eqb_eq. tauto. }
  rewrite Hs' in H. destruct (_ || _) eqn:E in H; [done|].
  rewrite orb_false_iff, !Z.ltb_ge in E. exact E.
Qed.

Lemma parseHeaders_bounded_witness :
  exists r', _status r' = ONGOING /\
  _header_size r' <= HEADER_MAX_BUFFER * BUFFER_SIZE /\ zlen (_line r') <= BUFFER_SIZE.
Proof.
  eexists. split; [|eapply (parseHeaders_bounded Request_init
                              (crlf "GET / HTTP/1.1" ++ `s"Ho")); [discriminate| |]].
  all: cycle 1.
  - vm_compute. reflexivity.
  - right. reflexivity.
  - reflexivity.
Defined.

(** The request line itself is not bounded while it is incomplete: the
    parser accumulates any number of bytes that contain no line end and keeps
    asking for more. *)
Theorem request_line_unbounded s :
  CR ∉ s ->
  exists r', parseHeaders Request_init ("G"%char :: s) = Ret (0, r', []) /\
    _line r' = "G"%char :: s.
Proof.
  intros Hs. rewrite parseHeaders_new by done. rewrite rline_phase_rline by done.
  change (_line _ ++ ?x) with x. 
  assert (find CRLF ("G"%char :: s) = None) as ->.
  { apply find_None. intros k (a & b & Hab & _). assert (CR ∈ "G"%char :: s) as Hin.
    { rewrite Hab. apply elem_of_app. right. by left. }
    apply elem_of_cons in Hin as [?|?]; done. }
  eexists. split; [reflexivity|]. done.
Qed.

Lemma request_line_unbounded_witness :
  exists r', parseHeaders Request_init ("G"%char :: `s"ET /aaaa") = Ret (0, r', []) /\
    _line r' = "G"%char :: `s"ET /aaaa".
Proof. apply request_line_unbounded. by apply no_char_spec. Defined.

(** The header map is case-insensitive and merging: after a field [n: v] the
    value under any spelling of [n] is [v], appended with a comma to a previous
    non-empty value, and every other name keeps its value. *)
Theorem add_header_lookup k n v r :
  getHeader k (add_header n v r) =
    if key_equiv i_less n k then
      (if str_eqb (getHeader n r) [] then v else getHeader n r ++ (`s", " ++ v))
    else getHeader k r.
Proof. apply getHeader_add. Qed.
