(* ===== verification/RequestBody.v ===== *)
(** * RequestBody: the body and trailer parser of [srcs/Request.cpp]

    [parseInput] is fed one network read at a time, like [parseHeaders].  The
    body goes to an [std::ofstream] the client owns (a null pointer is [None]);
    an operation returns the C return value, the request, what is left of the
    buffer and the stream. *)

From S2P Require Import Prelude CxxString OrdMap Format Http RequestHeaders.
#[local] Open Scope Z_scope.

Definition result : Type := Z * Request * str * option ofstream.

Definition with_file (b : str) (f : option ofstream) (p : Z * Request) : result :=
  (p.1, p.2, b, f).

(** [left_to_complete] is a [size_t]; the counter [_len] is an [int]. *)
Definition _parseMesured (r : Request) (buffer : str) (f : option ofstream) : result :=
  let left_to_complete := u64 (i32 (_content_length r - _len r)) in
  let cut := if zlen buffer <? left_to_complete then zlen buffer else left_to_complete in
  let extract := take (Z.to_nat cut) buffer in
  let f := on_stream (of_write extract) f in
  let r := r <| _len := i32 (_len r + zlen extract) |> in
  let buffer := drop (Z.to_nat cut) buffer in
  if _len r =? _content_length r then
    (-1, r <| _b_status := TERM |> <| _final_status := COMPLETE |>, buffer, on_stream of_close f)
  else (0, r, buffer, f).

Definition getLenInfo (r : Request) : Z * Request :=
  if nocase_string_eq (getHeader (`s"Transfer-Encoding") r) (`s"chunked") then
    (0, r <| _chunked := true |> <| _content_length := -1 |>)
  else if negb (str_eqb (getHeader (`s"Content-Length") r) []) then
    let '(e, res) := getInt (getHeader (`s"Content-Length") r) 10 0 in
    if negb (e =? 0) then _fillError 400 (`s"Incorrect content-length provided") r
    else if _body_max_size r <? res then _fillError 413 (`s"Request entity too large") r
    else (0, r <| _content_length := res |>)
  else (0, r <| _b_status := TERM |> <| _final_status := COMPLETE |>).

Definition getChunkedSize (r : Request) (buffer : str) : Z * Request * str :=
  if _chunked_status r then (0, r, buffer)
  else
    let '(e, r, buffer) := getLine r buffer in
    if negb (e =? 0) then
      if BUFFER_SIZE <? zlen (_line r)
      then (_fillError 400 (`s"Chunked body length line too long") r, buffer)
      else (0, r, buffer)
    else
      let '(e, len) := getInt (_line r) 16 0 in
      if negb (e =? 0) || (len <? 0) then
        (_fillError 400 (`s"Syntax error parsing chunked body") r, buffer)
      else
        (0, r <| _chunked_body_size := i32 (_chunked_body_size r - (zlen (_line r) + zlen CRLF)) |>
              <| _len := len |> <| _line := [] |> <| _chunked_status := true |>, buffer).

(** One iteration of the chunk loop. *)
Inductive chunk_step : Type :=
  | CStop (x : result)
  | CNext (r : Request) (buffer : str) (f : option ofstream).

Definition chunk_iter (r : Request) (buffer : str) (f : option ofstream) : chunk_step :=
  let '(e, r, buffer) := getChunkedSize r buffer in
  if negb (e =? 0) then CStop (getError r, r, buffer, f)
  else if _chunked_status r && (_len r =? 0) then
    CStop (-1, r <| _b_status := TERM |> <| _final_status := TRAILER |> <| _line := [] |>,
           buffer, on_stream of_close f)
  else
    let '(e, r, buffer) := getLine r buffer in
    if negb (e =? 0) then CStop (with_file buffer f (_checkSizes r))
    else if negb (zlen (_line r) =? u64 (_len r)) then
      CStop (with_file buffer f (_fillError 400 (`s"Size error in chunked body") r))
    else
      let f := on_stream (of_write (_line r)) f in
      CNext (r <| _line := [] |> <| _len := -1 |> <| _chunked_status := false |>) buffer f.

(** [while (buffer != "")] and the final check; [None] when out of fuel. *)
Fixpoint chunk_loop (fuel : nat) (r : Request) (buffer : str) (f : option ofstream) :
    option result :=
  match fuel with
  | O => None
  | S fuel =>
      if str_eqb buffer [] then
        Some (if _body_max_size r <? _chunked_body_size r
              then with_file buffer f (_fillError 413 (`s"Request entity too large") r)
              else (0, r, buffer, f))
      else match chunk_iter r buffer f with
           | CStop x => Some x
           | CNext r buffer f => chunk_loop fuel r buffer f
           end
  end.

Definition _parseChunked (r : Request) (buffer : str) (f : option ofstream) : option result :=
  if _b_status r =? TERM then Some (0, r, buffer, f)
  else
    let r := r <| _chunked_body_size := i32 (_chunked_body_size r + zlen buffer) |> in
    chunk_loop (loop_fuel r buffer) r buffer f.

Definition parseBody (r : Request) (buffer : str) (f : option ofstream) : option result :=
  if (_b_status r =? TERM) || is_empty buffer then Some (-1, r, buffer, f)
  else
    let r := if _b_status r =? NEW then r <| _b_status := ONGOING |> else r in
    if _chunked r then _parseChunked r buffer f else Some (_parseMesured r buffer f).

(** [if (getHeader(n) != "") _headers[n] += ", "; _headers[n] += v;] *)
Definition add_trailer (name value : str) (r : Request) : Request :=
  let old := getHeader name r in
  let v := (if str_eqb old [] then old else old ++ `s", ") ++ value in
  r <| _headers := om_assign i_less name v (_headers r) |>.

Definition trailer_line (r : Request) (buffer : str) : iteration :=
  let '(e, r, buffer) := getLine r buffer in
  if negb (e =? 0) then stop buffer (_checkSizes r)
  else if is_empty (_line r) then
    Stop (-1) (r <| _trailer_status := TERM |> <| _final_status := COMPLETE |>
                 <| _line := [] |>) buffer
  else
    let r := trimSpace r in
    match getHeaderName (_line r) with
    | None => stop buffer (_fillError 400 (`s"Invalid trailer header line") r)
    | Some (header_name, line) =>
        let r := r <| _line := line |> in
        if str_eqb header_name (`s"Trailer") || str_eqb header_name (`s"Content-Length")
           || str_eqb header_name (`s"Transfer-Encoding") then
          stop buffer (_fillError 400 (`s"Invalid trailer header line") r)
        else if BUFFER_SIZE <? zlen (_line r) then
          stop buffer (_fillError 431 (`s"The " ++ header_name ++ `s" header was too large") r)
        else
          let r := trimSpace r in
          let r := add_trailer header_name (_line r) r in
          Next (r <| _line := [] |>) buffer
    end.

Fixpoint trailer_loop (fuel : nat) (r : Request) (buffer : str) : option (Z * Request * str) :=
  match fuel with
  | O => None
  | S fuel =>
      if is_empty buffer then Some (_checkSizes r, buffer)
      else match trailer_line r buffer with
           | Stop code r buffer => Some (code, r, buffer)
           | Next r buffer => trailer_loop fuel r buffer
           end
  end.

Definition parseTrailerHeaders (r : Request) (buffer : str) : option (Z * Request * str) :=
  if negb (_b_status r =? TERM) then Some (0, r, buffer)
  else if negb (_chunked r) || str_eqb (getHeader (`s"Trailer") r) [] then
    Some (-1, r <| _trailer_status := TERM |> <| _final_status := COMPLETE |>, buffer)
  else
    let r := r <| _trailer_size := i32 (_trailer_size r + zlen buffer) |> in
    trailer_loop (loop_fuel r buffer) r buffer.

Definition parseInput (r : Request) (buffer : str) (f : option ofstream) : option result :=
  if (TRAILER <? _final_status r) || is_empty buffer then Some (0, r, buffer, f)
  else
    '(res, r, buffer, f) ← parseBody r buffer f;
    if negb (res =? 0) then Some (res, r, buffer, f)
    else
      '(res, r, buffer) ← parseTrailerHeaders r buffer;
      Some (res, r, buffer, f).

Definition getStatus (r : Request) : Z := _final_status r.
Definition setStatus (status : Z) (r : Request) : Request := r <| _final_status := status |>.
Definition getBodySize (r : Request) : Z :=
  if _chunked r then _chunked_body_size r else _content_length r.
Definition setContentLength (value : Z) (r : Request) : Request :=
  r <| _content_length := value |>.
Definition setChunked (value : bool) (r : Request) : Request := r <| _chunked := value |>.
Definition setBodyMaxSize (size : Z) (r : Request) : Request := r <| _body_max_size := size |>.

(** The reads of a body, as [handleRequestBody] makes them: until [parseInput]
    returns something else than 0; the rest stays in the client's buffer. *)
Fixpoint feed_body (r : Request) (frags : list str) (f : option ofstream) : option result :=
  match frags with
  | [] => Some (0, r, [], f)
  | b :: frags =>
      '(c, r, rest, f) ← parseInput r b f;
      if c =? 0 then feed_body r frags f else Some (c, r, rest ++ concat frags, f)
  end.

(** *** A body as a sender writes it *)
Definition chunk (c : str) : str := IntToString (zlen c) 16 ++ CRLF ++ c ++ CRLF.
Definition chunks (l : list str) : str := concat (map chunk l).
Definition last_chunk : str := `s"0" ++ CRLF.

(** A chunk the parser can read: not empty, its size an [int], no CRLF in it. *)
Definition chunk_ok (c : str) : bool :=
  negb (is_empty c) && (zlen c <=? INT32_MAX) && bool_decide (find CRLF c = None).

(** The request of a body that starts. *)
Definition chunked_request (max : Z) : Request :=
  Request_init <| _status := TERM |> <| _final_status := BODY |> <| _chunked := true |>
    <| _body_max_size := max |>.
Definition measured_request (n max : Z) : Request :=
  Request_init <| _status := TERM |> <| _final_status := BODY |> <| _content_length := n |>
    <| _body_max_size := max |>.

Example chunked_ex :
  match feed_body (chunked_request 100)
          [`s"5"; CRLF ++ `s"he"; `s"llo" ++ CRLF ++ `s"1"; CRLF ++ `s"!"; CRLF ++ `s"0";
           CRLF ++ CRLF; `s"GET"] (Some (mkOfstream [] true)) with
  | Some (c, r, rest, f) => (c, _final_status r, rest, f) =
      (-1, TRAILER, CRLF ++ `s"GET", Some (mkOfstream (`s"hello!") false))
  | None => False
  end.
Proof. vm_compute. reflexivity. Qed.

Example measured_ex :
  match feed_body (measured_request 5 100) [`s"he"; `s"llo, w"; `s"orld"]
          (Some (mkOfstream [] true)) with
  | Some (c, r, rest, f) => (c, _final_status r, rest, f) =
      (-1, COMPLETE, `s", world", Some (mkOfstream (`s"hello") false))
  | None => False
  end.
Proof. vm_compute. reflexivity. Qed.

(** A size line that is exactly complete, and a body without its end. *)
Example chunked_partial_ex :
  match feed_body (chunked_request 100) [`s"5" ++ CRLF; `s"hell"] None with
  | Some (c, r, rest, _) => (c, _line r, _len r, rest) = (0, `s"hell", 5, [])
  | None => False
  end.
Proof. vm_compute. reflexivity. Qed.

(** ** Lines of a stream *)

(** One call of [getLine] on a prefix of a stream whose next line is [l]: the
    line is complete, or the whole prefix is stashed. *)
Lemma getLine_stream r b t l s :
  find CRLF l = None -> _line r ++ b ++ t = l ++ CRLF ++ s ->
  (exists y, getLine r b = (0, r <| _line := l |>, y) /\ y ++ t = s /\
     zlen y + zlen l + 2 = zlen (_line r) + zlen b) \/
  (getLine r b = (1, r <| _line := _line r ++ b |>, []) /\ t <> [] /\
     find CRLF (_line r ++ b) = None /\ zlen (_line r ++ b) <= zlen l + 1).
Proof.
  intros Hl Hs. rewrite (assoc_L (++)) in Hs.
  destruct (getLine_cases r b) as [[Hn Hg]|(x & y & Hx & Hf & Hg)].
  - right. split_and!; [done| |done|].
    + intros ->. rewrite app_nil_r in Hs. rewrite Hs, find_crlf in Hn by done. done.
    + destruct (decide (length (_line r ++ b) <= length l + 1)%nat) as [H|H].
      { unfold zlen. lia. }
      exfalso. apply find_None with (k := length l) in Hn. apply Hn.
      eapply (occurs_app_inv _ _ t); [rewrite Hs; by exists l, s|]. simpl. lia.
  - left. exists y.
    assert (length x = length l) as Hxl.
    { pose proof (find_app_l _ _ t _ Hf) as Hf'. rewrite Hs, find_crlf in Hf' by done.
      by injection Hf'. }
    rewrite Hx, <- !(assoc_L (++)) in Hs. apply app_inj_1 in Hs as [-> Hs]; [|done].
    injection Hs as Hs. split_and!; [done|done|].
    apply (f_equal length) in Hx. rewrite !length_app in Hx. simpl in Hx. unfold zlen. lia.
Qed.

Lemma getLine_again r l :
  find CRLF l = None -> getLine (r <| _line := l |>) [] = (1, r <| _line := l |>, []).
Proof. intros H. unfold getLine. simpl _line. rewrite app_nil_r, H. by destruct r. Qed.

(** ** The stream *)

Lemma of_write_nil f : of_write [] f = f.
Proof. unfold of_write. destruct f as [d o]. destruct o; [|done]. simpl. by rewrite app_nil_r. Qed.

Lemma on_write_nil f : on_stream (of_write []) f = f.
Proof. destruct f as [f|]; [|done]. simpl. by rewrite of_write_nil. Qed.

Lemma on_write_app a b f :
  on_stream (of_write b) (on_stream (of_write a) f) = on_stream (of_write (a ++ b)) f.
Proof.
  destruct f as [[d o]|]; [|done]. unfold on_stream, of_write. simpl.
  destruct o; [|done]. simpl. by rewrite (assoc_L (++)).
Qed.

(** ** The chunk loop terminates *)

Definition chunk_lines (r : Request) (b : str) (f : option ofstream) : option result :=
  chunk_loop (loop_fuel r b) r b f.

Lemma getLine_length r b e r' y :
  getLine r b = (e, r', y) ->
  (length (_line r') + length y <= length (_line r) + length b)%nat /\
  (e = 0 -> (length (_line r') + length y + 2 <= length (_line r) + length b)%nat).
Proof.
  intros H. destruct (getLine_cases r b) as [[_ E]|(x & z & Hs & _ & E)];
    rewrite E in H; injection H as <- <- <-; simpl.
  - rewrite length_app. split; [lia|done].
  - apply (f_equal length) in Hs. rewrite !length_app in Hs. simpl in Hs. lia.
Qed.

Lemma getChunkedSize_length r b r' y :
  getChunkedSize r b = (0, r', y) ->
  (length (_line r') + length y <= length (_line r) + length b)%nat.
Proof.
  unfold getChunkedSize. destruct (_chunked_status r); [by intros [= <- <-]|].
  destruct (getLine r b) as [[e r1] y1] eqn:E. apply getLine_length in E as [H _].
  destruct (negb _).
  - destruct (BUFFER_SIZE <? _); [done|]. by intros [= <- <-].
  - destruct (getInt _ _ _) as [e' len]. destruct (_ || _); [done|].
    intros [= <- <-]. simpl. lia.
Qed.

Lemma chunk_iter_next r b f r' y f' :
  chunk_iter r b f = CNext r' y f' ->
  _line r' = [] /\ (length y + 2 <= length (_line r) + length b)%nat.
Proof.
  unfold chunk_iter. destruct (getChunkedSize r b) as [[e r1] y1] eqn:E1.
  destruct (Z.eqb_spec e 0) as [->|]; simpl negb; cbv iota; [|done].
  apply getChunkedSize_length in E1. destruct (_ && _); [done|].
  destruct (getLine r1 y1) as [[e' r2] y2] eqn:E2. apply getLine_length in E2 as [_ H].
  destruct (Z.eqb_spec e' 0) as [->|]; simpl negb; cbv iota; [|done].
  destruct (negb _); [done|]. intros [= <- <- <-]. split; [done|]. specialize (H eq_refl). lia.
Qed.

Lemma chunk_loop_fuel n m r b f :
  (length (_line r) + length b < n)%nat -> (length (_line r) + length b < m)%nat ->
  chunk_loop n r b f = chunk_loop m r b f.
Proof.
  revert m r b f. induction n as [|n IH]; intros [|m] r b f Hn Hm; try lia. simpl.
  destruct (str_eqb b []); [done|].
  destruct (chunk_iter r b f) as [|r' y f'] eqn:E; [done|].
  apply chunk_iter_next in E as (Hl & Hy). apply IH; rewrite Hl; simpl; lia.
Qed.

Lemma chunk_lines_eq r b f :
  chunk_lines r b f =
    if str_eqb b [] then
      Some (if _body_max_size r <? _chunked_body_size r
            then with_file b f (_fillError 413 (`s"Request entity too large") r)
            else (0, r, b, f))
    else match chunk_iter r b f with
         | CStop x => Some x
         | CNext r' y f' => chunk_lines r' y f'
         end.
Proof.
  unfold chunk_lines, loop_fuel at 1. cbn [chunk_loop].
  destruct (str_eqb b []); [done|].
  destruct (chunk_iter r b f) as [|r' y f'] eqn:E; [done|].
  apply chunk_iter_next in E as (Hl & Hy).
  apply chunk_loop_fuel; unfold loop_fuel; rewrite Hl; simpl; lia.
Qed.

Lemma chunk_lines_total r b f : exists x, chunk_lines r b f = Some x.
Proof.
  remember (length (_line r) + length b)%nat as n eqn:Hn.
  revert r b f Hn. induction (lt_wf n) as [n _ IH]. intros r b f ->.
  rewrite chunk_lines_eq. destruct (str_eqb b []); [by eexists|].
  destruct (chunk_iter r b f) as [x|r' y f'] eqn:E; [by eexists|].
  apply chunk_iter_next in E as (Hl & Hy). eapply IH; [|done]. rewrite Hl. simpl. lia.
Qed.

Lemma _parseChunked_eq r b f :
  _parseChunked r b f =
    if _b_status r =? TERM then Some (0, r, b, f)
    else chunk_lines (r <| _chunked_body_size := i32 (_chunked_body_size r + zlen b) |>) b f.
Proof. reflexivity. Qed.

Lemma trailer_line_next r b r' y :
  trailer_line r b = Next r' y ->
  _line r' = [] /\ (length y + 2 <= length (_line r) + length b)%nat.
Proof.
  unfold trailer_line. destruct (getLine r b) as [[e r1] y1] eqn:E.
  apply getLine_length in E as [_ H]. destruct (Z.eqb_spec e 0) as [->|]; [|done].
  specialize (H eq_refl). simpl negb. cbv iota.
  destruct (is_empty _); [done|]. destruct (getHeaderName _) as [[n l]|]; [|done].
  destruct (_ || _); [done|]. destruct (BUFFER_SIZE <? _); [done|].
  intros [= <- <-]. split; [done|]. lia.
Qed.

Lemma trailer_loop_total n r b :
  (length (_line r) + length b < n)%nat -> exists x, trailer_loop n r b = Some x.
Proof.
  revert r b. induction n as [|n IH]; intros r b Hn; [lia|]. simpl.
  destruct (is_empty b); [by eexists|].
  destruct (trailer_line r b) as [c r' y|r' y] eqn:E; [by eexists|].
  apply trailer_line_next in E as (Hl & Hy). apply IH. rewrite Hl. simpl. lia.
Qed.

(** ** The chunked body against its sender's view

    While a chunked body is read the unread stream is the rest of the current
    chunk ([cur] is its data once its size line was read), the chunks [l], the
    last chunk and whatever follows. *)
Section stream.
Context (rest : str).

Definition remaining (cur : option str) (l : list str) : str :=
  (match cur with Some c => c ++ CRLF | None => [] end) ++ chunks l ++ last_chunk ++ rest.

Definition data (cur : option str) (l : list str) : str := default [] cur ++ concat l.

Record body_inv (cur : option str) (l : list str) (r : Request) : Prop := {
  bi_cur : match cur with
           | None => _chunked_status r = false
           | Some c => _chunked_status r = true /\ _len r = zlen c /\ chunk_ok c = true
           end;
  bi_ok : forallb chunk_ok l = true;
  bi_status : _status r = TERM;
  bi_b_status : _b_status r = ONGOING;
  bi_chunked : _chunked r = true;
  bi_final : _final_status r <= TRAILER;
}.

(** [n] bytes of data and what was received and not consumed have been counted,
    and the counter did not overflow. *)
Definition counted (n : Z) (r : Request) (b : str) : Prop :=
  0 <= n /\ n + zlen (_line r) + zlen b <= _chunked_body_size r <= INT32_MAX.

Lemma remaining_nonempty cur l : remaining cur l <> [].
Proof.
  unfold remaining. intros [_ [_ [H _]%app_eq_nil]%app_eq_nil]%app_eq_nil. done.
Qed.

Lemma chunk_ok_spec c :
  chunk_ok c = true <-> c <> [] /\ zlen c <= INT32_MAX /\ find CRLF c = None.
Proof.
  unfold chunk_ok.
  rewrite !andb_true_iff, negb_true_iff, is_empty_false, Z.leb_le, bool_decide_eq_true. tauto.
Qed.

Lemma all_digits_no_crlf base s : base_ok base = true -> all_digits base s = true -> find CRLF s = None.
Proof.
  intros Hb Hs. apply find_crlf_no_cr. intros Hc. unfold all_digits in Hs.
  rewrite forallb_forall in Hs. rewrite list_elem_of_In in Hc. specialize (Hs _ Hc).
  by destruct (base_ok_cases base Hb) as [-> | ->].
Qed.

Lemma size_line_spec n :
  0 <= n <= INT32_MAX ->
  find CRLF (IntToString n 16) = None /\ zlen (IntToString n 16) <= 32 /\
  getInt (IntToString n 16) 16 0 = (0, n).
Proof.
  intros Hn. destruct (IntToString_spec 16 n) as (_ & Hd & _); [by right|done|].
  split_and!; [by apply (all_digits_no_crlf 16)| |by apply getInt_print; [right|]].
  rewrite IntToString_digits by (by right || done).
  pose proof (length_to_digits 32 16 n). unfold zlen. lia.
Qed.

(** An incomplete line ends the call with "need more". *)
Lemma checkSizes_body cur l r :
  body_inv cur l r -> _chunked_body_size r <= _body_max_size r ->
  _checkSizes r = (0, r).
Proof.
  intros [_ _ Hs Hb Hc _] Hm. unfold _checkSizes. simpl. rewrite Hs, Hb, Hc. simpl.
  by rewrite (proj2 (Z.ltb_ge _ _)) by lia.
Qed.

Lemma body_inv_line cur l r L : body_inv cur l r -> body_inv cur l (r <| _line := L |>).
Proof. by intros []. Qed.

(** The whole body was read, [n] bytes of data. *)
Definition ended (n : Z) (r : Request) : Prop :=
  _b_status r = TERM /\ _final_status r = TRAILER /\ _chunked r = true /\ n <= _chunked_body_size r.

(** What one iteration does in each situation. *)
Lemma data_phase n c l r b t f :
  body_inv (Some c) l r -> _line r ++ b ++ t = remaining (Some c) l ->
  (t <> [] -> _chunked_body_size r <= _body_max_size r) -> counted n r b ->
  (exists r' y, chunk_iter r b f = CNext r' y (on_stream (of_write c) f) /\
     body_inv None l r' /\ _line r' = [] /\ y ++ t = remaining None l /\
     counted (n + zlen c) r' y /\ _chunked_body_size r' = _chunked_body_size r /\
     _body_max_size r' = _body_max_size r) \/
  (t <> [] /\ chunk_iter r b f = CStop (0, r <| _line := _line r ++ b |>, [], f)).
Proof.
  intros Hi Hs Hm Hc. pose proof Hi as [(Hst & Hlen & Hok) Hl Hs1 Hs2 Hs3 Hs4].
  apply chunk_ok_spec in Hok as (Hne & Hmax & Hf).
  unfold remaining in Hs. rewrite <- (assoc_L (++) c) in Hs.
  assert ((_len r =? 0) = false) as Hz.
  { apply Z.eqb_neq. rewrite Hlen. destruct c; [done|]. unfold zlen. simpl. lia. }
  unfold chunk_iter, getChunkedSize. rewrite Hst. cbv iota zeta. rewrite Hst, Hz. simpl.
  destruct (getLine_stream r b t c _ Hf Hs) as [(y & -> & Hy & Hyl)|(-> & Ht & _ & _)].
  - left. simpl. rewrite Hlen. unfold u64. rewrite Z.mod_small, Z.eqb_refl by
      (unfold zlen, INT32_MAX in *; lia). simpl.
    exists (r <| _line := c |> <| _line := [] |> <| _len := -1 |> <| _chunked_status := false |>), y.
    split_and!; try done. unfold counted in *. simpl.
    assert (0 <= zlen c) by (unfold zlen; lia). change (zlen []) with 0. lia.
  - right. split; [done|]. simpl.
    rewrite (checkSizes_body (Some c) l); [|apply body_inv_line; done|by apply Hm]. done.
Qed.

Lemma size_phase n c l r b t f :
  body_inv None (c :: l) r -> _line r ++ b ++ t = remaining None (c :: l) ->
  (t <> [] -> _chunked_body_size r <= _body_max_size r) -> counted n r b ->
  (exists r' y, chunk_iter r b f = chunk_iter r' y f /\
     body_inv (Some c) l r' /\ _line r' = [] /\ y ++ t = remaining (Some c) l /\
     counted n r' y /\ _chunked_body_size r' <= _chunked_body_size r /\
     _body_max_size r' = _body_max_size r) \/
  (t <> [] /\ chunk_iter r b f = CStop (0, r <| _line := _line r ++ b |>, [], f)).
Proof.
  intros Hi Hs Hm Hc. pose proof Hi as [Hst Hl Hs1 Hs2 Hs3 Hs4]. simpl in Hst.
  simpl in Hl. apply andb_true_iff in Hl as [Hok Hl].
  pose proof Hok as (Hne & Hmax & Hf)%chunk_ok_spec.
  destruct (size_line_spec (zlen c)) as (Hd & Hdl & Hg); [unfold zlen in *; lia|].
  assert (_line r ++ b ++ t = IntToString (zlen c) 16 ++ CRLF ++ remaining (Some c) l) as Hs'.
  { rewrite Hs. unfold remaining, chunks. cbn [map concat].
    unfold chunk. by rewrite <- !(assoc_L (++)). }
  destruct (getLine_stream r b t _ _ Hd Hs') as [(y & Hgl & Hy & Hyl)|(Hgl & Ht & Hn & Hnl)].
  - left. set (r' := r <| _line := IntToString (zlen c) 16 |>
      <| _chunked_body_size := i32 (_chunked_body_size r - (zlen (IntToString (zlen c) 16) + zlen CRLF)) |>
      <| _len := zlen c |> <| _line := [] |> <| _chunked_status := true |>).
    exists r', y.
    assert (getChunkedSize r b = (0, r', y)) as HgC.
    { unfold getChunkedSize. rewrite Hst, Hgl. simpl. rewrite Hg.
      by rewrite (proj2 (Z.ltb_ge (zlen c) 0)) by (unfold zlen; lia). }
    assert (getChunkedSize r' y = (0, r', y)) as HgC' by done.
    assert (_chunked_body_size r' = _chunked_body_size r - (zlen (IntToString (zlen c) 16) + 2)) as Hcs.
    { unfold r'. simpl. change (zlen CRLF) with 2. apply i32_id.
      unfold counted, zlen, INT32_MAX in *. lia. }
    split_and!; try done.
    + unfold chunk_iter. by rewrite HgC, HgC'.
    + unfold counted in *. rewrite Hcs. unfold r'. simpl. unfold zlen in *. simpl. lia.
    + rewrite Hcs. unfold zlen. lia.
  - right. split; [done|].
    assert (getChunkedSize r b = (0, r <| _line := _line r ++ b |>, [])) as HgC.
    { unfold getChunkedSize. rewrite Hst, Hgl. simpl.
      by rewrite (proj2 (Z.ltb_ge _ _)) by (unfold BUFFER_SIZE; lia). }
    unfold chunk_iter. rewrite HgC. cbn [negb Z.eqb].
    change (_chunked_status (r <| _line := _line r ++ b |>)) with (_chunked_status r).
    rewrite Hst. cbn [andb]. cbv iota. rewrite getLine_again by done. simpl.
    rewrite (checkSizes_body None (c :: l)); [|apply body_inv_line; done|by apply Hm]. done.
Qed.

Lemma end_phase n r b t f :
  body_inv None [] r -> _line r ++ b ++ t = remaining None [] ->
  (t <> [] -> _chunked_body_size r <= _body_max_size r) -> counted n r b ->
  (exists r' y, chunk_iter r b f = CStop (-1, r', y, on_stream of_close f) /\
     y ++ t = rest /\ ended n r') \/
  (t <> [] /\ chunk_iter r b f = CStop (0, r <| _line := _line r ++ b |>, [], f)).
Proof.
  intros Hi Hs Hm Hc. pose proof Hi as [Hst Hl Hs1 Hs2 Hs3 Hs4]. simpl in Hst.
  assert (_line r ++ b ++ t = `s"0" ++ CRLF ++ rest) as Hs' by (rewrite Hs; done).
  destruct (getLine_stream r b t (`s"0") rest eq_refl Hs')
    as [(y & Hgl & Hy & Hyl)|(Hgl & Ht & Hn & Hnl)].
  - left. eexists _, y. unfold chunk_iter, getChunkedSize. rewrite Hst, Hgl. simpl.
    split; [reflexivity|]. split; [done|]. split; [done|]. split; [done|]. split; [done|].
    change (zlen ["0"%char]) with 1. change (zlen CRLF) with 2. change (zlen (`s"0")) with 1 in Hyl.
    unfold counted in Hc. pose proof (zlen_nonneg y). cbn [_chunked_body_size].
    unfold INT32_MAX in Hc. rewrite i32_id by (pose proof (zlen_nonneg (_line r)); pose proof (zlen_nonneg b); lia). lia.
  - right. split; [done|].
    assert (getChunkedSize r b = (0, r <| _line := _line r ++ b |>, [])) as HgC.
    { unfold getChunkedSize. rewrite Hst, Hgl. simpl.
      rewrite (proj2 (Z.ltb_ge _ _)); [done|]. unfold BUFFER_SIZE. change (zlen (`s"0")) with 1 in Hnl. lia. }
    unfold chunk_iter. rewrite HgC. cbn [negb Z.eqb].
    change (_chunked_status (r <| _line := _line r ++ b |>)) with (_chunked_status r).
    rewrite Hst. cbn [andb]. cbv iota. rewrite getLine_again by done. simpl.
    rewrite (checkSizes_body None []); [|apply body_inv_line; done|by apply Hm]. done.
Qed.

(** The outcome of one read: the body is complete, or the reader is further
    down the stream and what it wrote is the data it passed. *)
Definition fed (n : Z) (cur : option str) (l : list str) (r : Request) (t : str)
    (f : option ofstream) (o : option result) : Prop :=
  (exists r' y, o = Some (-1, r', y, on_stream of_close (on_stream (of_write (data cur l)) f)) /\
     y ++ t = rest /\ ended (n + zlen (data cur l)) r') \/
  (exists r' cur' l' d, o = Some (0, r', [], on_stream (of_write d) f) /\
     body_inv cur' l' r' /\ _line r' ++ t = remaining cur' l' /\
     data cur l = d ++ data cur' l' /\ counted (n + zlen d) r' [] /\
     _chunked_body_size r' <= _chunked_body_size r /\
     _body_max_size r' = _body_max_size r /\ t <> []).

Lemma fed_incomplete n cur l r b t f :
  body_inv cur l r -> _line r ++ b ++ t = remaining cur l -> counted n r b -> t <> [] ->
  fed n cur l r t f (Some (0, r <| _line := _line r ++ b |>, [], f)).
Proof.
  intros Hi Hs Hc Ht. right. exists (r <| _line := _line r ++ b |>), cur, l, [].
  rewrite on_write_nil. split_and!; try done.
  - by apply body_inv_line.
  - simpl. by rewrite <- (assoc_L (++)).
  - unfold counted, zlen in *. simpl. rewrite length_app. simpl. lia.
Qed.

(** Advancing the stream by data [d] written and a state that did not grow. *)
Lemma fed_advance n d cur l cur1 l1 r r1 t f o :
  data cur l = d ++ data cur1 l1 ->
  _chunked_body_size r1 <= _chunked_body_size r -> _body_max_size r1 = _body_max_size r ->
  fed (n + zlen d) cur1 l1 r1 t (on_stream (of_write d) f) o -> fed n cur l r t f o.
Proof.
  intros Hd Hc Hm [(r' & y & -> & H)|(r' & cur' & l' & d' & -> & Hi & Hl & Hd' & Hc' & Hcs & Hms & Ht)].
  - left. exists r', y. rewrite on_write_app, Hd, zlen_app, Z.add_assoc. done.
  - right. exists r', cur', l', (d ++ d'). rewrite on_write_app, zlen_app, Z.add_assoc. split_and!; try done.
    + rewrite Hd, Hd'. by rewrite (assoc_L (++)).
    + lia.
    + congruence.
Qed.

(** One read of the stream, whatever the phase it starts in. *)
Definition reads (cur : option str) (l : list str) : Prop := forall n r b t f,
  body_inv cur l r -> _line r ++ b ++ t = remaining cur l ->
  (t <> [] -> _chunked_body_size r <= _body_max_size r) -> counted n r b ->
  (b = [] -> t <> []) -> fed n cur l r t f (chunk_lines r b f).

Lemma reads_nil n cur l r t f :
  body_inv cur l r -> _line r ++ t = remaining cur l ->
  (t <> [] -> _chunked_body_size r <= _body_max_size r) -> counted n r [] -> t <> [] ->
  fed n cur l r t f (chunk_lines r [] f).
Proof.
  intros Hi Hs Hm Hc Ht. rewrite chunk_lines_eq. simpl.
  rewrite (proj2 (Z.ltb_ge _ _)) by auto.
  pose proof (fed_incomplete n cur l r [] t f Hi Hs Hc Ht) as H.
  rewrite app_nil_r in H. by destruct r.
Qed.

Lemma chunk_lines_cons r b f :
  b <> [] -> chunk_lines r b f =
    match chunk_iter r b f with
    | CStop x => Some x
    | CNext r' y f' => chunk_lines r' y f'
    end.
Proof. intros Hb. rewrite chunk_lines_eq. by rewrite (proj2 (str_eqb_neq b [])). Qed.

(** From the data of a chunk to the next size line. *)
Lemma reads_data n c l r b t f :
  reads None l -> body_inv (Some c) l r -> _line r ++ b ++ t = remaining (Some c) l ->
  (t <> [] -> _chunked_body_size r <= _body_max_size r) -> counted n r b ->
  fed n (Some c) l r t f
    (match chunk_iter r b f with
     | CStop x => Some x
     | CNext r' y f' => chunk_lines r' y f'
     end).
Proof.
  intros IH Hi Hs Hm Hc.
  destruct (data_phase n c l r b t f Hi Hs Hm Hc)
    as [(r' & y & -> & Hi' & Hl' & Hs' & Hc' & Hcs & Hms)|(Ht & ->)].
  - apply (fed_advance n c (Some c) l None l r r'); [done|lia|done|].
    apply IH; rewrite ?Hl', ?Hcs, ?Hms; try done.
    intros -> ->. by apply (remaining_nonempty None l).
  - by apply fed_incomplete.
Qed.

Lemma reads_all l : reads None l.
Proof.
  induction l as [|c l IH]; intros n r b t f Hi Hs Hm Hc Hb.
  - destruct (decide (b = [])) as [->|Hne]; [by apply reads_nil; auto|].
    rewrite chunk_lines_cons by done.
    destruct (end_phase n r b t f Hi Hs Hm Hc)
      as [(r' & y & -> & Hy & He)|(Ht & ->)]; [|by apply fed_incomplete].
    left. exists r', y. rewrite on_write_nil. change (zlen (data None [])) with 0. by rewrite Z.add_0_r.
  - destruct (decide (b = [])) as [->|Hne]; [by apply reads_nil; auto|].
    rewrite chunk_lines_cons by done.
    destruct (size_phase n c l r b t f Hi Hs Hm Hc)
      as [(r' & y & -> & Hi' & Hl' & Hs' & Hc' & Hcs & Hms)|(Ht & ->)];
      [|by apply fed_incomplete].
    apply (fed_advance n [] None (c :: l) (Some c) l r r'); [done|lia|done|].
    rewrite on_write_nil. change (zlen []) with 0. rewrite Z.add_0_r. apply reads_data; rewrite ?Hl', ?Hms; try done.
    intros Ht. specialize (Hm Ht). lia.
Qed.

Lemma reads_any cur l : reads cur l.
Proof.
  destruct cur as [c|]; [|apply reads_all]. intros n r b t f Hi Hs Hm Hc Hb.
  destruct (decide (b = [])) as [->|Hne]; [by apply reads_nil; auto|].
  rewrite chunk_lines_cons by done. apply reads_data; [apply reads_all|done..].
Qed.
End stream.

(** ** [parseInput] *)

Lemma getLine_b_status r b e r' y :
  getLine r b = (e, r', y) -> _b_status r' = _b_status r.
Proof. destruct (getLine_cases r b) as [[_ ->]|(x & z & _ & _ & ->)]; by intros [= _ <- _]. Qed.

Lemma getChunkedSize_b_status r b e r' y :
  getChunkedSize r b = (e, r', y) ->
  _b_status r' = _b_status r /\ (e <> 0 -> getError r' = e).
Proof.
  unfold getChunkedSize. destruct (_chunked_status r); [by intros [= <- <- _]|].
  destruct (getLine r b) as [[e1 r1] y1] eqn:E. apply getLine_b_status in E.
  destruct (negb _).
  - destruct (BUFFER_SIZE <? _); by intros [= <- <- _].
  - destruct (getInt _ _ _) as [e' len]. destruct (_ || _); by intros [= <- <- _].
Qed.

Lemma chunk_iter_b_status r b f :
  match chunk_iter r b f with
  | CStop (c, r', _, _) => c = 0 -> _b_status r' = _b_status r
  | CNext r' _ _ => _b_status r' = _b_status r
  end.
Proof.
  unfold chunk_iter. destruct (getChunkedSize r b) as [[e r1] y1] eqn:E1.
  apply getChunkedSize_b_status in E1 as [Hb He].
  destruct (Z.eqb_spec e 0) as [->|Hne]; simpl negb; cbv iota.
  - destruct (_ && _); [done|]. destruct (getLine r1 y1) as [[e' r2] y2] eqn:E2.
    apply getLine_b_status in E2.
    destruct (negb _); [|destruct (negb _); [done|simpl; congruence]].
    unfold with_file. destruct (_checkSizes r2) as [c r3] eqn:Ec. cbn [fst snd].
    intros ->. apply checkSizes_zero in Ec. congruence.
  - intros H. specialize (He Hne). congruence.
Qed.

Lemma chunk_lines_zero r b f r' y f' :
  chunk_lines r b f = Some (0, r', y, f') -> _b_status r' = _b_status r.
Proof.
  remember (length (_line r) + length b)%nat as n eqn:Hn.
  revert r b f Hn. induction (lt_wf n) as [n _ IH]. intros r b f ->.
  rewrite chunk_lines_eq. destruct (str_eqb b []).
  { destruct (_body_max_size r <? _); [done|]. by intros [= -> _ _]. }
  pose proof (chunk_iter_b_status r b f) as Hi.
  destruct (chunk_iter r b f) as [[[[c r1] y1] f1]|r1 y1 f1] eqn:E.
  - intros [= -> -> _ _]. by apply Hi.
  - intros H. apply chunk_iter_next in E as (Hl & Hy). rewrite <- Hi.
    eapply IH; [|done|exact H]. rewrite Hl. simpl. lia.
Qed.

Lemma parseBody_zero r b f r' y f' :
  parseBody r b f = Some (0, r', y, f') -> _b_status r' <> TERM.
Proof.
  unfold parseBody. destruct (Z.eqb_spec (_b_status r) TERM) as [|Hb]; [done|].
  destruct (is_empty b); [done|]. cbn [orb].
  set (r1 := if _b_status r =? NEW then _ else _).
  assert (_b_status r1 <> TERM) as Hb1 by (unfold r1; by destruct (_b_status r =? NEW)).
  destruct (_chunked r1).
  - rewrite _parseChunked_eq, (proj2 (Z.eqb_neq _ _)) by done.
    intros ->%chunk_lines_zero. done.
  - unfold _parseMesured. destruct (_len _ =? _); [done|]. intros H. by injection H as <- _ _.
Qed.

Lemma parseBody_total r b f : exists x, parseBody r b f = Some x.
Proof.
  unfold parseBody. destruct (_ || _); [by eexists|]. destruct (_chunked _); [|by eexists].
  rewrite _parseChunked_eq. destruct (_ =? TERM); [by eexists|]. apply chunk_lines_total.
Qed.

Lemma parseInput_body r b f :
  parseInput r b f =
    if (TRAILER <? _final_status r) || is_empty b then Some (0, r, b, f) else parseBody r b f.
Proof.
  unfold parseInput. destruct (_ || _); [done|].
  destruct (parseBody r b f) as [[[[c r'] y] f']|] eqn:E; [|done]. simpl.
  destruct (Z.eqb_spec c 0) as [->|]; [|done]. simpl.
  apply parseBody_zero in E. unfold parseTrailerHeaders.
  by rewrite (proj2 (Z.eqb_neq _ _) E).
Qed.

Lemma parseInput_new r b f :
  b <> [] -> _b_status r = NEW -> _final_status r <= TRAILER ->
  parseInput r b f = parseInput (r <| _b_status := ONGOING |>) b f.
Proof.
  intros Hb Hn Hf. rewrite !parseInput_body.
  change (_final_status (r <| _b_status := ONGOING |>)) with (_final_status r).
  rewrite (proj2 (Z.ltb_ge _ _)) by done. destruct b; [done|]. cbn [is_empty orb].
  unfold parseBody. by rewrite Hn.
Qed.

Lemma feed_body_cons r b frags f :
  feed_body r (b :: frags) f =
    ('(c, r, rest, f) ← parseInput r b f;
     if c =? 0 then feed_body r frags f else Some (c, r, rest ++ concat frags, f)).
Proof. reflexivity. Qed.

Lemma feed_body_new r frags f :
  concat frags <> [] -> _b_status r = NEW -> _final_status r <= TRAILER ->
  feed_body r frags f = feed_body (r <| _b_status := ONGOING |>) frags f.
Proof.
  intros Hne Hn Hfs. induction frags as [|b frags IH]; [done|]. rewrite !feed_body_cons.
  destruct (decide (b = [])) as [->|Hb].
  - rewrite !parseInput_body, !orb_true_r. simpl. by apply IH.
  - by rewrite parseInput_new.
Qed.

(** *** A chunked body over several reads *)

Lemma parseInput_chunked rest n cur l r b t f :
  body_inv cur l r -> b <> [] -> _line r ++ b ++ t = remaining rest cur l ->
  0 <= n -> n + zlen (_line r) <= _chunked_body_size r -> _chunked_body_size r + zlen b <= INT32_MAX ->
  (t <> [] -> _chunked_body_size r + zlen b <= _body_max_size r) ->
  exists r1, _chunked_body_size r1 = _chunked_body_size r + zlen b /\
    _body_max_size r1 = _body_max_size r /\
    fed rest n cur l r1 t f (parseInput r b f).
Proof.
  intros Hi Hb Hs Hn Hl Hc Hm. pose proof Hi as [_ _ _ Hbs Hch Hfs].
  rewrite parseInput_body, (proj2 (Z.ltb_ge _ _)) by done.
  assert (is_empty b = false) as -> by (by destruct b). cbn [orb].
  unfold parseBody. rewrite Hbs. assert (is_empty b = false) as -> by (by destruct b).
  cbn [orb Z.eqb ONGOING TERM NEW Pos.eqb]. rewrite Hch, _parseChunked_eq, Hbs.
  cbn [Z.eqb ONGOING TERM]. assert (0 <= zlen (_line r) /\ 0 <= zlen b) as [? ?] by (unfold zlen; lia).
  unfold INT32_MAX in *. rewrite i32_id by lia.
  eexists. split; [|split]; [| |apply reads_any]; try done.
  - by destruct Hi.
  - unfold counted, INT32_MAX. simpl. lia.
Qed.

Lemma feed_body_stream rest frags : forall cur l r f,
  body_inv cur l r -> _line r ++ concat frags = remaining rest cur l -> concat frags <> [] ->
  zlen (_line r) <= _chunked_body_size r ->
  _chunked_body_size r + zlen (concat frags) <= _body_max_size r <= INT32_MAX ->
  exists r', feed_body r frags f =
      Some (-1, r', rest, on_stream of_close (on_stream (of_write (data cur l)) f)) /\
    _b_status r' = TERM /\ _final_status r' = TRAILER.
Proof.
  induction frags as [|b frags IH]; intros cur l r f Hi Hs Hne Hl Hm; [done|].
  rewrite feed_body_cons. cbn [concat] in Hs, Hne, Hm.
  destruct (decide (b = [])) as [->|Hb].
  { rewrite parseInput_body, orb_true_r. by apply IH. }
  unfold zlen in Hm. rewrite length_app, Nat2Z.inj_add in Hm.
  fold (zlen b) in Hm. fold (zlen (concat frags)) in Hm.
  assert (0 <= zlen (concat frags)) by (unfold zlen; lia).
  destruct (parseInput_chunked rest 0 cur l r b (concat frags) f) as (r1 & Hc1 & Hm1 & Hfed);
    [done..|lia|lia|].
  destruct Hfed as [(r' & y & -> & Hy & Hbs & Hfs & _)
                   |(r' & cur' & l' & d & -> & Hi' & Hl' & Hd & [Hz [Hc' _]] & Hcs & Hms & Ht)].
  - exists r'. simpl. by rewrite Hy.
  - destruct (IH cur' l' r' (on_stream (of_write d) f)) as (r2 & Hf & Hr2);
      try done.
    + change (zlen []) with 0 in Hc'. pose proof (zlen_nonneg d). lia.
    + rewrite Hms, Hm1. lia.
    + exists r2. simpl. rewrite Hf, on_write_app, Hd. done.
Qed.

(** *** A measured body over several reads *)

(** A measured body that still misses bytes. *)
Record measured_inv (n : Z) (r : Request) : Prop := {
  mi_chunked : _chunked r = false;
  mi_b_status : _b_status r <> TERM;
  mi_final : _final_status r <= TRAILER;
  mi_length : _content_length r = n;
  mi_len : 0 <= _len r < n;
  mi_max : n <= INT32_MAX;
}.

Lemma on_write_close d f x :
  on_stream (of_write x) (Some (mkOfstream d f)) =
    Some (mkOfstream (if f then d ++ x else d) f).
Proof. unfold on_stream, of_write. by destruct f. Qed.

Lemma parseInput_measured n r b f :
  measured_inv n r -> b <> [] ->
  let k := Z.to_nat (n - _len r) in
  exists r',
    if n - _len r <=? zlen b then
      parseInput r b f =
        Some (-1, r', drop k b, on_stream of_close (on_stream (of_write (take k b)) f)) /\
      _b_status r' = TERM /\ _final_status r' = COMPLETE
    else
      parseInput r b f = Some (0, r', [], on_stream (of_write b) f) /\
      measured_inv n r' /\ _len r' = _len r + zlen b.
Proof.
  intros [Hc Hb Hf Hn Hl Hm] Hne k. unfold INT32_MAX in Hm.
  rewrite parseInput_body, (proj2 (Z.ltb_ge _ _)) by done.
  assert (is_empty b = false) as -> by (by destruct b). cbn [orb].
  unfold parseBody. rewrite (proj2 (Z.eqb_neq _ _)) by done.
  assert (is_empty b = false) as -> by (by destruct b). cbn [orb].
  set (r1 := if _b_status r =? NEW then _ else _).
  assert (_len r1 = _len r /\ _content_length r1 = n /\ _chunked r1 = false /\
          _final_status r1 = _final_status r /\ _b_status r1 <> TERM)
    as (Hl1 & Hn1 & Hc1 & Hf1 & Hb1).
  { unfold r1. by destruct (_b_status r =? NEW). }
  rewrite Hc1. unfold _parseMesured. rewrite Hl1, Hn1.
  assert (u64 (i32 (n - _len r)) = n - _len r) as ->.
  { rewrite i32_id by lia. unfold u64. apply Z.mod_small. lia. }
  destruct (Z.leb_spec (n - _len r) (zlen b)) as [Hle|Hgt].
  - rewrite (proj2 (Z.ltb_ge _ _)) by lia. fold k.
    assert (zlen (take k b) = n - _len r) as Hk.
    { unfold zlen in *. rewrite length_take. lia. }
    cbv zeta. rewrite Hk. eexists. cbn [_len _content_length upd]. rewrite Hn1.
    rewrite i32_id by lia. rewrite (proj2 (Z.eqb_eq _ _)) by lia. split; [reflexivity|done].
  - rewrite (proj2 (Z.ltb_lt _ _)) by lia. replace (Z.to_nat (zlen b)) with (length b) by (unfold zlen; lia).
    rewrite firstn_all, drop_all.
    cbv zeta. eexists. cbn [_len _content_length upd]. rewrite Hn1.
    assert (0 <= zlen b) by (unfold zlen; lia).
    rewrite i32_id by lia. rewrite (proj2 (Z.eqb_neq _ _)) by lia.
    split; [reflexivity|]. split; [|done].
    split; cbn; rewrite ?Hf1, ?Hn1; done || lia.
Qed.

Lemma feed_body_measured n frags : forall r d,
  measured_inv n r ->
  let s := concat frags in let k := Z.to_nat (n - _len r) in
  exists r',
    if n - _len r <=? zlen s then
      feed_body r frags (Some (mkOfstream d true)) =
        Some (-1, r', drop k s, Some (mkOfstream (d ++ take k s) false)) /\
      _b_status r' = TERM /\ _final_status r' = COMPLETE
    else
      feed_body r frags (Some (mkOfstream d true)) =
        Some (0, r', [], Some (mkOfstream (d ++ s) true)) /\
      measured_inv n r' /\ _len r' = _len r + zlen s.
Proof.
  induction frags as [|b frags IH]; intros r d Hi s k; subst s.
  - exists r. rewrite (proj2 (Z.leb_gt _ _)) by (destruct Hi; change (zlen (concat [])) with 0; lia).
    cbn [feed_body concat]. rewrite app_nil_r. split_and!; [done|done|]. change (zlen []) with 0. lia.
  - cbn [concat]. rewrite feed_body_cons, zlen_app.
    destruct (decide (b = [])) as [->|Hne].
    { rewrite parseInput_body, orb_true_r. apply IH. done. }
    assert (0 <= zlen (concat frags)) by (unfold zlen; lia).
    destruct (parseInput_measured n r b (Some (mkOfstream d true)) Hi Hne) as [r1 H1].
    fold k in H1. destruct (Z.leb_spec (n - _len r) (zlen b)) as [Hle|Hgt].
    + rewrite (proj2 (Z.leb_le _ _)) by lia. destruct H1 as (-> & Hb & Hf). exists r1.
      assert (k <= length b)%nat by (unfold k, zlen in *; lia).
      rewrite take_app_le, drop_app_le by done. done.
    + destruct H1 as (-> & Hi1 & Hl1). rewrite on_write_close. cbn [mbind option_bind Z.eqb].
      destruct (IH r1 (d ++ b) Hi1) as [r2 H2]. exists r2. rewrite Hl1 in H2.
      assert (0 <= _len r) by (destruct Hi; lia).
      replace (n - (_len r + zlen b) <=? zlen (concat frags))
        with (n - _len r <=? zlen b + zlen (concat frags)) in H2 by
        (apply eq_true_iff_eq; rewrite !Z.leb_le; lia).
      assert (k = (length b + Z.to_nat (n - (_len r + zlen b)))%nat) as Hk by (unfold k, zlen in *; lia).
      destruct (_ <=? _).
      * rewrite Hk, take_app_add, drop_app_add, (assoc_L (++)). exact H2.
      * rewrite (assoc_L (++)). destruct H2 as (H2 & Hi2 & Hl2). split_and!; [done|done|lia].
Qed.

(** ** Properties *)

(** A chunked body starts with nothing counted and nothing stashed. *)
Lemma chunked_start max rest l :
  forallb chunk_ok l = true ->
  body_inv None l ((chunked_request max) <| _b_status := ONGOING |>) /\
  remaining rest None l = chunks l ++ last_chunk ++ rest.
Proof. intros Hl. split; [by split|done]. Qed.

(** C18: Chunked round trip.  However the network splits it, a chunked body made
    of readable chunks and its last chunk is read back: the file receives
    exactly the concatenated data and is closed, the parser reports the end,
    and what follows the last chunk's line stays in the buffer. *)
Theorem feed_chunked max l rest frags d :
  forallb chunk_ok l = true -> concat frags = chunks l ++ last_chunk ++ rest ->
  zlen (concat frags) <= max <= INT32_MAX ->
  exists r', feed_body (chunked_request max) frags (Some (mkOfstream d true)) =
      Some (-1, r', rest, Some (mkOfstream (d ++ concat l) false)) /\
    _b_status r' = TERM /\ _final_status r' = TRAILER.
Proof.
  intros Hl Hs Hm. destruct (chunked_start max rest l Hl) as [Hi Hr].
  assert (concat frags <> []) as Hne by (rewrite Hs, <- Hr; apply remaining_nonempty).
  rewrite feed_body_new by done.
  destruct (feed_body_stream rest frags None l _ (Some (mkOfstream d true)) Hi) as (r' & Hf & H);
    [by rewrite Hr|done|done|exact Hm|].
  exists r'. by rewrite Hf, on_write_close.
Qed.

Lemma feed_chunked_witness :
  exists r', feed_body (chunked_request 100)
      [`s"5"; CRLF ++ `s"he"; `s"llo" ++ CRLF ++ `s"1"; CRLF ++ `s"!"; CRLF ++ `s"0";
       CRLF ++ CRLF; `s"GET"] (Some (mkOfstream [] true)) =
      Some (-1, r', CRLF ++ `s"GET", Some (mkOfstream (concat [`s"hello"; `s"!"]) false)) /\
    _b_status r' = TERM /\ _final_status r' = TRAILER.
Proof.
  apply (feed_chunked 100 [`s"hello"; `s"!"] (CRLF ++ `s"GET")); [reflexivity..|].
  split; apply Z.leb_le; vm_compute; reflexivity.
Defined.

(** A body with a Content-Length of [n].  However the network splits it, the
    file receives exactly the first [n] bytes and the rest stays in the buffer;
    while bytes are missing every byte so far is in the file and the parser
    asks for more. *)
Theorem feed_measured n max frags d :
  0 < n <= INT32_MAX ->
  let s := concat frags in
  exists r',
    if n <=? zlen s then
      feed_body (measured_request n max) frags (Some (mkOfstream d true)) =
        Some (-1, r', drop (Z.to_nat n) s, Some (mkOfstream (d ++ take (Z.to_nat n) s) false)) /\
      _final_status r' = COMPLETE
    else
      feed_body (measured_request n max) frags (Some (mkOfstream d true)) =
        Some (0, r', [], Some (mkOfstream (d ++ s) true)) /\
      _len r' = zlen s.
Proof.
  intros Hn s. destruct (feed_body_measured n frags (measured_request n max) d) as [r' H].
  { split; simpl; done || lia. }
  exists r'. change (_len (measured_request n max)) with 0 in H. rewrite Z.sub_0_r in H.
  fold s in H. destruct (n <=? zlen s); tauto.
Qed.

Lemma feed_measured_witness :
  exists r',
    if 5 <=? zlen (concat [`s"he"; `s"llo, w"]) then
      feed_body (measured_request 5 100) [`s"he"; `s"llo, w"] (Some (mkOfstream [] true)) =
        Some (-1, r', `s", w", Some (mkOfstream (`s"hello") false)) /\
      _final_status r' = COMPLETE
    else
      feed_body (measured_request 5 100) [`s"he"; `s"llo, w"] (Some (mkOfstream [] true)) =
        Some (0, r', [], Some (mkOfstream (`s"hello, w") true)) /\
      _len r' = zlen (`s"hello, w").
Proof. apply (feed_measured 5 100 [`s"he"; `s"llo, w"] []). done. Defined.

(** Reading a body always terminates, whatever the state and the input, and
    it is [parseBody] alone: [parseTrailerHeaders] never runs, since a body
    that ends makes [parseInput] return first and one that does not has no
    trailer yet. *)
Theorem parseInput_total_no_trailer r b f :
  (exists x, parseInput r b f = Some x) /\
  parseInput r b f =
    if (TRAILER <? _final_status r) || is_empty b then Some (0, r, b, f) else parseBody r b f.
Proof.
  split; [|apply parseInput_body]. rewrite parseInput_body.
  destruct (_ || _); [by eexists|]. apply parseBody_total.
Qed.

(** Chunk data that holds a line end is refused: the data of a chunk is read
    as a line, so a chunk whose bytes contain CRLF answers 400 and nothing of
    it reaches the file, although its size line is right. *)
Theorem chunked_crlf_rejected c k rest max f :
  find CRLF c = Some k -> zlen c <= INT32_MAX -> zlen (chunk c ++ rest) <= INT32_MAX ->
  exists r' y, parseInput (chunked_request max) (chunk c ++ rest) f = Some (400, r', y, f) /\
    getError r' = 400 /\ _final_status r' = ERROR.
Proof.
  intros Hf Hc Hlen. destruct (size_line_spec (zlen c)) as (Hd & Hdl & Hg); [unfold zlen in *; lia|].
  assert (chunk c ++ rest <> []) as Hne.
  { unfold chunk. intros [[_ [? _]%app_eq_nil]%app_eq_nil _]%app_eq_nil. done. }
  set (S := IntToString (zlen c) 16) in *.
  assert (chunk c ++ rest = S ++ CRLF ++ (c ++ CRLF ++ rest)) as Hs.
  { unfold chunk, S. by rewrite <- !(assoc_L (++)). }
  rewrite parseInput_new by done. rewrite parseInput_body. unfold parseBody.
  assert (is_empty (chunk c ++ rest) = false) as -> by (by apply is_empty_false).
  cbn [chunked_request Request_init _final_status _b_status _chunked upd Z.ltb Z.eqb orb
       TRAILER BODY ONGOING TERM NEW Z.compare Pos.compare Pos.compare_cont Pos.eqb].
  rewrite _parseChunked_eq. cbn [_b_status Z.eqb ONGOING TERM].
  set (r0 := _ <| _chunked_body_size := _ |>). rewrite chunk_lines_cons by done.
  pose proof (find_bound _ _ _ Hf) as Hb. change (length CRLF) with 2%nat in Hb.
  assert (getLine r0 (chunk c ++ rest) = (0, r0 <| _line := S |>, c ++ CRLF ++ rest)) as Hg0.
  { unfold getLine. change (_line r0) with ([] : str). rewrite app_nil_l, Hs, find_crlf by done.
    rewrite take_app_length. do 2 f_equal. rewrite (assoc_L (++) S).
    change 2%nat with (length CRLF). by rewrite <- length_app, drop_app_length. }
  unfold chunk_iter, getChunkedSize. change (_chunked_status r0) with false. cbv iota.
  rewrite Hg0. cbn [negb Z.eqb]. change (_line (r0 <| _line := S |>)) with S. rewrite Hg.
  rewrite (proj2 (Z.ltb_ge (zlen c) 0)) by (unfold zlen; lia). cbn [negb Z.eqb orb].
  set (r1 := _ <| _chunked_status := true |>). change (_chunked_status r1) with true.
  change (_len r1) with (zlen c). rewrite (proj2 (Z.eqb_neq _ _)) by (unfold zlen; lia).
  cbn [andb]. unfold getLine. change (_line r1) with ([] : str).
  rewrite app_nil_l, (find_app_l _ _ _ _ Hf). cbn [negb Z.eqb].
  set (l := take k (c ++ CRLF ++ rest)). change (zlen (_line (r1 <| _line := l |>))) with (zlen l).
  change (_len (r1 <| _line := l |>)) with (zlen c).
  assert (zlen l = Z.of_nat k) as ->.
  { unfold zlen, l. rewrite length_take, length_app. lia. }
  unfold u64, zlen, INT32_MAX in *. rewrite Z.mod_small, (proj2 (Z.eqb_neq _ _)) by lia.
  eexists _, _. split; [reflexivity|]. done.
Qed.

Lemma chunked_crlf_rejected_witness :
  exists r' y, parseInput (chunked_request 100) (chunk (`s"a" ++ CRLF ++ `s"b") ++ last_chunk) None
      = Some (400, r', y, None) /\
    getError r' = 400 /\ _final_status r' = ERROR.
Proof.
  apply (chunked_crlf_rejected _ 1); [reflexivity| |]; apply Z.leb_le; vm_compute; reflexivity.
Defined.

(** The body limit is not applied to a chunked body that ends within one
    read: whatever [max] is, the whole body is accepted and written. *)
Theorem chunked_limit_bypassed max l rest d :
  forallb chunk_ok l = true -> zlen (chunks l ++ last_chunk ++ rest) <= INT32_MAX ->
  exists r' y,
    parseInput (chunked_request max) (chunks l ++ last_chunk ++ rest) (Some (mkOfstream d true)) =
      Some (-1, r', y, Some (mkOfstream (d ++ concat l) false)).
Proof.
  intros Hl Hm. destruct (chunked_start max rest l Hl) as [Hi Hr].
  pose proof (remaining_nonempty rest None l) as Hne. rewrite Hr in Hne.
  rewrite parseInput_new by done.
  destruct (parseInput_chunked rest 0 None l _ _ [] (Some (mkOfstream d true)) Hi Hne)
    as (r1 & _ & _ & [(r' & y & -> & _)|(? & ? & ? & ? & _ & _ & _ & _ & _ & _ & _ & ?)]);
    [by rewrite app_nil_r, Hr|done|done|exact Hm|done| |done].
  exists r', y. by rewrite on_write_close.
Qed.

Lemma chunked_limit_bypassed_witness :
  exists r' y,
    parseInput (chunked_request 3) (chunks [`s"abcdefgh"] ++ last_chunk ++ CRLF)
        (Some (mkOfstream [] true)) =
      Some (-1, r', y, Some (mkOfstream (concat [`s"abcdefgh"]) false)).
Proof.
  apply (chunked_limit_bypassed 3 [`s"abcdefgh"] CRLF []); [reflexivity|].
  apply Z.leb_le. vm_compute. reflexivity.
Defined.
