(* ===== verification/Transfer.v ===== *)
(** * Transfer: how the body of a request arrives

    [parseInput] of [srcs/Request.cpp] as its caller sees it: an interface that
    says what one read of a body does, whatever the coding, and its two
    implementations, the body with a Content-Length and the chunked body.  The
    clients of the interface ([Upload]) do not look at the counters of the parser. *)

From S2P Require Import Prelude CxxString OrdMap Format Http RequestHeaders RequestBody.
#[local] Open Scope Z_scope.

(** ** What the body parser leaves alone *)
Definition rules_view (r : Request) : headers_t * Z * Z * ResHints * bool * Z :=
  (_headers r, req_method r, req_type r, resHints r, _chunked r, _content_length r).

Lemma getLine_view r b e r' y : getLine r b = (e, r', y) -> rules_view r' = rules_view r.
Proof. destruct (getLine_cases r b) as [[_ ->]|(x & z & _ & _ & ->)]; by intros [= _ <- _]. Qed.

Lemma checkSizes_view r c r' : _checkSizes r = (c, r') -> c <= 0 -> rules_view r' = rules_view r.
Proof. unfold _checkSizes, _fillError. repeat case_match; intros [= <- <-]; done || lia. Qed.

Lemma getChunkedSize_view r b e r' y :
  getChunkedSize r b = (e, r', y) -> if e =? 0 then rules_view r' = rules_view r else 0 < getError r'.
Proof.
  unfold getChunkedSize. destruct (_chunked_status r); [by intros [= <- <- _]|].
  destruct (getLine r b) as [[e1 r1] y1] eqn:E. apply getLine_view in E.
  destruct (negb _).
  - destruct (BUFFER_SIZE <? _); by intros [= <- <- _].
  - destruct (getInt _ _ _) as [e' len]. destruct (_ || _); by intros [= <- <- _].
Qed.

Lemma chunk_iter_view r b f :
  match chunk_iter r b f with
  | CStop (c, r', _, _) => c <= 0 -> rules_view r' = rules_view r
  | CNext r' _ _ => rules_view r' = rules_view r
  end.
Proof.
  unfold chunk_iter. destruct (getChunkedSize r b) as [[e r1] y1] eqn:E1.
  apply getChunkedSize_view in E1. destruct (Z.eqb_spec e 0) as [->|Hne]; cbn [negb]; [|lia].
  rewrite <- E1. destruct (_ && _); [done|]. destruct (getLine r1 y1) as [[e' r2] y2] eqn:E2.
  apply getLine_view in E2. rewrite <- E2.
  destruct (negb _); [|destruct (negb _); [cbn; lia|done]].
  unfold with_file. destruct (_checkSizes r2) as [c r3] eqn:Ec. exact (checkSizes_view _ _ _ Ec).
Qed.

Lemma chunk_lines_view r b f c r' y f' :
  chunk_lines r b f = Some (c, r', y, f') -> c <= 0 -> rules_view r' = rules_view r.
Proof.
  remember (length (_line r) + length b)%nat as n eqn:Hn.
  revert r b f Hn. induction (lt_wf n) as [n _ IH]. intros r b f ->.
  rewrite chunk_lines_eq. destruct (str_eqb b []).
  { destruct (_body_max_size r <? _); by intros [= <- <- _ _]. }
  pose proof (chunk_iter_view r b f) as Hi.
  destruct (chunk_iter r b f) as [[[[c1 r1] y1] f1]|r1 y1 f1] eqn:E.
  - intros [= -> -> _ _]. exact Hi.
  - intros H Hc. apply chunk_iter_next in E as (Hl & Hy). rewrite <- Hi.
    eapply IH; [|done|exact H|done]. rewrite Hl. simpl. lia.
Qed.

Lemma parseInput_view r b f c r' y f' :
  parseInput r b f = Some (c, r', y, f') -> c <= 0 -> rules_view r' = rules_view r.
Proof.
  rewrite parseInput_body. destruct (_ || _); [by intros [= _ <- _ _]|].
  unfold parseBody. destruct (_ || _); [by intros [= _ <- _ _]|].
  set (r1 := if _b_status r =? NEW then _ else _).
  assert (rules_view r1 = rules_view r) as <- by (unfold r1; by destruct (_b_status r =? NEW)).
  destruct (_chunked r1).
  - rewrite _parseChunked_eq. destruct (_ =? TERM); [by intros [= _ <- _ _]|].
    intros H Hc. by rewrite (chunk_lines_view _ _ _ _ _ _ _ H Hc).
  - unfold _parseMesured. destruct (_len _ =? _); intros [= _ <- _ _] _; by unfold rules_view.
Qed.

(** ** The interface *)

(** [state d q r]: of the coded body [bytes], [q] has not arrived, and [d] is
    stored.  Then one read moves data on, and the read with the last byte
    stores the whole [content], closes the file and leaves the bytes after the
    body for the next request. *)
Class Transfer (content bytes : str) (state : str -> str -> Request -> Prop) : Prop := {
  tr_step d b q r :
    state d (b ++ q) r -> b <> [] -> q <> [] ->
    exists r' d', parseInput r b (Some (mkOfstream d true)) = Some (0, r', [], Some (mkOfstream d' true)) /\
      state d' q r' /\ rules_view r' = rules_view r;
  tr_end d q rest r :
    state d q r -> q <> [] -> zlen bytes + zlen rest <= INT32_MAX ->
    exists r', parseInput r (q ++ rest) (Some (mkOfstream d true)) =
        Some (-1, r', rest, Some (mkOfstream content false)) /\
      rules_view r' = rules_view r /\ 0 < getBodySize r';
}.

(** Nothing to read changes nothing. *)
Lemma parseInput_nil r f : parseInput r [] f = Some (0, r, [], f).
Proof. by rewrite parseInput_body, orb_true_r. Qed.

(** ** A body with a Content-Length *)
Section measured.
Context (content : str).

Record measured_pending (d q : str) (r : Request) : Prop := {
  mp_inv : measured_inv (zlen content) r;
  mp_len : _len r = zlen d;
  mp_content : content = d ++ q;
}.

#[export] Instance measured_transfer : Transfer content content measured_pending.
Proof.
  split.
  - intros d b q r [Hi Hl E] Hb Hq.
    destruct (parseInput_measured _ r b (Some (mkOfstream d true)) Hi Hb) as (r' & H).
    rewrite Hl in H. assert (zlen content - zlen d = zlen b + zlen q) as En by (rewrite E, !zlen_app; lia).
    rewrite En, (proj2 (Z.leb_gt _ _)) in H by (destruct q; [done|]; unfold zlen; simpl; lia).
    destruct H as (H & Hi' & Hl'). rewrite on_write_close in H. exists r', (d ++ b). split; [done|].
    split; [|by eapply parseInput_view]. split; [done|by rewrite Hl', zlen_app|by rewrite <- (assoc_L (++))].
  - intros d q rest r [Hi Hl E] Hq _.
    destruct (parseInput_measured _ r (q ++ rest) (Some (mkOfstream d true)) Hi) as (r' & H);
      [by intros [? _]%app_eq_nil|].
    rewrite Hl in H. assert (zlen content - zlen d = zlen q) as En by (rewrite E, !zlen_app; lia).
    pose proof (zlen_nonneg rest). rewrite En, zlen_app, (proj2 (Z.leb_le _ _)) in H by lia.
    destruct H as (H & _). assert (Z.to_nat (zlen q) = length q) as Eq by (unfold zlen; lia).
    rewrite Eq, take_app_length, drop_app_length, on_write_close, <- E in H. exists r'. split; [exact H|].
    pose proof (parseInput_view _ _ _ _ _ _ _ H ltac:(lia)) as Hv. split; [done|].
    unfold rules_view in Hv. injection Hv as _ _ _ _ Hk Hc. unfold getBodySize.
    rewrite Hk, (mi_chunked _ _ Hi), Hc, (mi_length _ _ Hi). destruct Hi as [_ _ _ _ ? _]. lia.
Qed.
End measured.

(** ** A chunked body *)
Section chunked.
Context (l0 : list str).

(** The reader is after [cur] or between chunks, with [l] to come; what arrived
    is counted, within the limits. *)
Inductive chunks_pending (d q : str) (r : Request) : Prop :=
  | in_chunks cur l :
      body_inv cur l (r <| _b_status := ONGOING |>) -> _b_status r = NEW \/ _b_status r = ONGOING ->
      _line r ++ q = remaining [] cur l -> concat l0 = d ++ data cur l ->
      zlen d + zlen (_line r) <= _chunked_body_size r ->
      _chunked_body_size r + zlen q <= zlen (chunks l0 ++ last_chunk) <= INT32_MAX ->
      zlen (chunks l0 ++ last_chunk) <= _body_max_size r ->
      chunks_pending d q r.

Lemma parseInput_ongoing r b f :
  b <> [] -> _b_status r = NEW \/ _b_status r = ONGOING -> _final_status r <= TRAILER ->
  parseInput r b f = parseInput (r <| _b_status := ONGOING |>) b f.
Proof. intros Hb [Hs|Hs] Hf; [by apply parseInput_new|]. destruct r. cbn in Hs. by rewrite Hs. Qed.

Lemma remaining_rest rest cur l : remaining rest cur l = remaining [] cur l ++ rest.
Proof. unfold remaining. by rewrite app_nil_r, <- !(assoc_L (++)). Qed.

#[export] Instance chunked_transfer :
  0 < zlen (concat l0) -> Transfer (concat l0) (chunks l0 ++ last_chunk) chunks_pending.
Proof.
  intros Hpos. split.
  - intros d b q r [cur l Hi Hs Hq Hd Hc Hm Hmax] Hb Hne.
    rewrite zlen_app in Hm. pose proof (zlen_nonneg q) as Pq. pose proof (zlen_nonneg d) as Pd.
    pose proof (parseInput_ongoing r b (Some (mkOfstream d true)) Hb Hs (bi_final _ _ _ Hi)) as Hon.
    destruct (parseInput_chunked [] (zlen d) cur l (r <| _b_status := ONGOING |>) b q (Some (mkOfstream d true)))
      as (r1 & Hc1 & Hm1 & Hfed); try done; [cbn; lia|cbn; lia|].
    rewrite <- Hon in Hfed. cbn in Hc1, Hm1.
    destruct Hfed as [(r' & y & _ & [_ ?]%app_eq_nil & _)
                     |(r' & cur' & l' & w & H & Hi' & Hl' & Hw & [_ Hc'] & Hcs & Hms & _)]; [done|].
    rewrite on_write_close in H. exists r', (d ++ w). split; [done|].
    split; [|by eapply parseInput_view]. change (zlen []) with 0 in Hc'. apply (in_chunks _ _ _ cur' l').
    + destruct Hi' as [A1 A2 A3 A4 A5 A6]. by split.
    + right. apply Hi'.
    + done.
    + by rewrite Hd, Hw, (assoc_L (++)).
    + rewrite zlen_app. lia.
    + lia.
    + lia.
  - intros d q rest r [cur l Hi Hs Hq Hd Hc Hm Hmax] Hne Hr.
    pose proof (zlen_nonneg rest) as Pr. pose proof (zlen_nonneg d) as Pd.
    assert (q ++ rest <> []) as Hb by (by intros [? _]%app_eq_nil).
    pose proof (parseInput_ongoing r (q ++ rest) (Some (mkOfstream d true)) Hb Hs (bi_final _ _ _ Hi)) as Hon.
    destruct (parseInput_chunked rest (zlen d) cur l (r <| _b_status := ONGOING |>) (q ++ rest) [] (Some (mkOfstream d true)))
      as (r1 & _ & _ & Hfed); try done.
    { rewrite remaining_rest, <- Hq, app_nil_r. by rewrite (assoc_L (++)). }
    { cbn. rewrite zlen_app. lia. }
    rewrite <- Hon in Hfed.
    destruct Hfed as [(r' & y & H & Hy & _ & _ & Hk & Hn)|(? & ? & ? & ? & _ & _ & _ & _ & _ & _ & _ & ?)]; [|done].
    rewrite app_nil_r in Hy. rewrite on_write_close, <- Hd, Hy in H. exists r'. split; [exact H|].
    split; [by eapply parseInput_view|]. unfold getBodySize. rewrite Hk. rewrite <- zlen_app, <- Hd in Hn. lia.
Qed.
End chunked.

(** ** The codings of a body *)
Inductive coding := Sized | Chunked (chunks : list str).

(** The bytes that carry the content. *)
Definition coded (k : coding) (content : str) : str :=
  match k with Sized => content | Chunked l => chunks l ++ last_chunk end.

Definition pending (k : coding) (content : str) : str -> str -> Request -> Prop :=
  match k with Sized => measured_pending content | Chunked l => chunks_pending l end.

(** The coding carries that content. *)
Definition carries (k : coding) (content : str) : Prop :=
  match k with Sized => True | Chunked l => forallb chunk_ok l = true /\ concat l = content end.

#[export] Instance pending_transfer k content :
  carries k content -> 0 < zlen content -> Transfer content (coded k content) (pending k content).
Proof. destruct k as [|l]; [intros _ _; apply measured_transfer|]. intros [_ <-]. apply chunked_transfer. Qed.

(** What the parser of the body works on. *)
Definition parser_view (r : Request) :=
  (body_view r, _line r, _status r, _final_status r, _body_max_size r).

(** The request when its body begins. *)
Definition begun (k : coding) (n max : Z) (r : Request) : Request :=
  setBodyMaxSize max (match k with Sized => setContentLength n r | Chunked _ => setChunked true r end).

Lemma pending_start k content max r r0 :
  carries k content -> 0 < zlen content -> zlen (coded k content) <= Z.min max INT32_MAX ->
  unread r0 -> parser_view r = parser_view (begun k (zlen content) max r0) ->
  pending k content [] (coded k content) r.
Proof.
  intros Hk Hpos Hm (H1 & H2 & H3 & H4) Hv. unfold parser_view in Hv. unfold body_view in Hv, H1.
  injection H1 as B1 B2 B3 B4 B5 B6 B7. destruct k as [|l].
  - injection Hv as A1 A2 A3 A4 A5 A6 A7 V2 V3 V4 V5. cbn [begun setBodyMaxSize setContentLength upd _chunked _b_status _len
      _content_length _final_status] in *. split; [|by rewrite A3, B3|done].
    cbn [coded] in Hm. split; rewrite ?A1, ?A2, ?A3, ?A4, ?V4, ?B1, ?B2, ?B3, ?H4; done || lia.
  - injection Hv as A1 A2 A3 A4 A5 A6 A7 V2 V3 V4 V5. destruct Hk as [Hok Hl].
    cbn [begun setBodyMaxSize setChunked upd _chunked _b_status _len _line _status _body_max_size
      _chunked_body_size _chunked_status _final_status] in *.
    apply (in_chunks _ _ _ _ None l); rewrite ?V2, ?A5, ?B5, ?V5, ?H2, ?A2, ?B2; try done.
    + split; cbn; rewrite ?A6, ?A1, ?V3, ?V4, ?B6, ?H3, ?H4; done.
    + by left.
    + cbn [coded] in *. lia.
    + cbn [coded] in Hm. lia.
Qed.

Lemma coded_nonempty k content : 0 < zlen content -> coded k content <> [].
Proof.
  destruct k as [|l]; cbn [coded]; [by intros H ->|]. intros _ [_ H]%app_eq_nil. done.
Qed.

(** ** What the size of a chunked body counts *)

(** The size of a chunked body counts the line ends of the chunks and whatever
    came with the last chunk: for an empty body it is 0 or 2 as the empty line
    that ends it comes later or in the same read, and the answer to the upload,
    204 or the status of the file, depends on it. *)
Theorem empty_chunked_size :
  let size s := (fun '(c, r, rest, _) => (c, getBodySize r, rest)) <$> parseInput (chunked_request 100) s None in
  size last_chunk = Some (-1, 0, []) /\ size (last_chunk ++ CRLF) = Some (-1, 2, CRLF).
Proof. split; vm_compute; reflexivity. Qed.
