(* ===== verification/RequestUri.v ===== *)
(** * RequestUri: the uri of a request ([srcs/Request.cpp])

    [parseURI] cuts the request target into path and query, normalises the
    path, splits it into directory and file name and decodes the percent
    escapes -- in this order.  Loops carry fuel: [None] is "out of fuel" and
    [parseURI_total] shows that it does not happen. *)

From S2P Require Import Prelude CxxString OrdMap Format Http RequestHeaders.
#[local] Open Scope Z_scope.

Definition SLASH : str := `s"/".

Definition pruneScheme (uri : str) : Z * str :=
  match find (`s"://") uri with
  | Some n => if negb (str_eqb (take (n + 3) uri) (`s"http://")) then (1, uri)
              else (0, drop (n + 3) uri)
  | None => (0, uri)
  end.

Definition pruneDelim (uri delim : str) : str :=
  match find delim uri with
  | Some idx => if negb (Nat.eqb (idx + 1) (length uri)) then drop (idx + length delim) uri else uri
  | None => uri
  end.

(** Returns the path and the new [uri]. *)
Definition extractPath (uri : str) : str * str :=
  match find (`s"?") uri with
  | Some idx => (take idx uri, drop (idx + 1) uri)
  | None => (uri, [])
  end.

(** [while ((idx = path.find(p, 0)) != npos) path.erase(idx, n);] *)
Fixpoint erase_while (fuel : nat) (p : str) (n : nat) (path : str) : option str :=
  match fuel with
  | O => None
  | S fuel => match find p path with
              | None => Some path
              | Some idx => erase_while fuel p n (erase path idx n)
              end
  end.

(** The vector [v] of the directories, or, where [checkPath] returns 1, what is
    left of the path. *)
Fixpoint path_stack (fuel : nat) (path : str) (v : list str) : option (str + list str) :=
  match fuel with
  | O => None
  | S fuel =>
      match find SLASH path with
      | None => Some (inr (v ++ [path]))
      | Some idx =>
          let subpath := take idx path in
          let path := drop (idx + 1) path in
          if str_eqb subpath (`s"..") then
            match v with
            | [] => Some (inl path)
            | _ => path_stack fuel path (removelast v)
            end
          else path_stack fuel path (v ++ [subpath])
      end
  end.

Definition join (v : list str) : str := drop 1 (concat (map (fun d => SLASH ++ d) v)).

Definition strip_dot (path : str) : str :=
  if Ascii.eqb (char_at path 0) "."%char && Ascii.eqb (char_at path 1) "/"%char
  then drop 2 path else path.

(** The return value and the new path. *)
Definition checkPath (path : str) : option (Z * str) :=
  let path := strip_dot path in
  path ← erase_while (S (length path)) (`s"//") 1 path;
  path ← erase_while (S (length path)) (`s"/./") 2 path;
  v ← path_stack (S (length path)) path [];
  match v with
  | inl path => Some (1, path)
  | inr v => Some (0, join v)
  end.

Definition prunePath (u : URI) : URI :=
  let path := uri_path u in
  if is_empty path || Ascii.eqb (char_at path (length path - 1)) "/"%char then
    u <| uri_root := path |> <| uri_extension := SLASH |> <| uri_filename := [] |>
  else
    let idx := rfind SLASH path in
    let u := match idx with
             | None | Some O => u <| uri_root := SLASH |>
             | Some idx => u <| uri_root := take (idx + 1) path |>
             end in
    let filename := match idx with None => path | Some idx => drop (idx + 1) path end in
    u <| uri_filename := filename |>
      <| uri_extension := match rfind (`s".") filename with
                          | None => []
                          | Some idx => drop idx filename
                          end |>.

(** [len] is a [size_t]: [len - 2] wraps for the shortest strings. *)
Fixpoint translate_loop (fuel : nat) (s : str) (idx : nat) (len : Z) : option str :=
  match fuel with
  | O => None
  | S fuel =>
      let cur := find_from (`s"%") s idx in
      if pos_z cur <? u64 (len - 2) then
        match cur with
        | None => None
        | Some cur =>
            let '(e, res) := getInt (substr s (cur + 1) 2) 16 0 in
            if e =? 0 then
              translate_loop fuel (take cur s ++ chr res :: drop (cur + 3) s) (cur + 1) (u64 (len - 2))
            else translate_loop fuel s (cur + 1) len
        end
      else Some s
  end.

Definition translatePercent (s : str) : option str := translate_loop (S (length s)) s 0 (zlen s).

Definition prunePercent (u : URI) : option URI :=
  path ← translatePercent (uri_path u);
  pathInfo ← translatePercent (uri_pathInfo u);
  query ← translatePercent (uri_query u);
  root ← translatePercent (uri_root u);
  extension ← translatePercent (uri_extension u);
  filename ← translatePercent (uri_filename u);
  Some (mkURI filename path root pathInfo extension query).

Definition set_parsedUri (u : URI) (r : Request) : Request := r <| resHints ; rh_parsedUri := u |>.

Definition parseURI (r : Request) : option (Z * Request) :=
  let u := rh_parsedUri (resHints r) in
  let u := u <| uri_query := _uri r |> <| uri_pathInfo := [] |> in
  let '(e, query) := pruneScheme (uri_query u) in
  let u := u <| uri_query := query |> in
  if negb (e =? 0) then Some (_fillError 400 (`s"Bad uri") (set_parsedUri u r))
  else
    let query := pruneDelim (pruneDelim query (`s"@")) SLASH in
    let '(path, query) := extractPath query in
    let u := u <| uri_query := query |> in
    '(e, path) ← checkPath path;
    let u := u <| uri_path := path |> in
    if negb (e =? 0) then Some (_fillError 400 (`s"too many ../ in uri") (set_parsedUri u r))
    else
      u ← prunePercent (prunePath u);
      Some (0, set_parsedUri u r).

Definition parseURI_suffix (suffix : str) (r : Request) : option (Z * Request) :=
  parseURI (r <| _uri := _uri r ++ suffix |>).

Definition setUri (new_uri : str) (r : Request) : Request := r <| _uri := new_uri |>.

(** [idx + extension.length()] wraps when the extension does not occur. *)
Definition extractPathInfo (extension : str) (r : Request) : outcome exn Request :=
  let u := rh_parsedUri (resHints r) in
  let path := uri_path u in
  let cut := u64 (pos_z (rfind extension path) + zlen extension) in
  if zlen path <? cut then Throw out_of_range
  else
    let u := u <| uri_pathInfo := drop (Z.to_nat cut) path |> in
    let path := take (Z.to_nat cut) path in
    let u := u <| uri_path := path |> in
    let u := match rfind SLASH path with
             | None => u <| uri_filename := path |> <| uri_root := SLASH |>
             | Some idx => u <| uri_root := take (idx + 1) path |>
                             <| uri_filename := drop (idx + 1) path |>
             end in
    Ret (set_parsedUri (u <| uri_extension := extension |>) r).

(** *** Examples *)
Definition uri_of (s : string) : option (Z * URI) :=
  '(e, r) ← parseURI (Request_init <| _uri := lit s |>); Some (e, rh_parsedUri (resHints r)).

Example uri_ex1 :
  uri_of "http://u@h:80/a/./b//c/../d.php?x=%41%2" =
    Some (0, mkURI (`s"d.php") (`s"a/b/d.php") (`s"a/b/") [] (`s".php") (`s"x=A%2")).
Proof. vm_compute. reflexivity. Qed.
Example uri_ex2 : fst <$> uri_of "/a/../../b" = Some 400. Proof. vm_compute. reflexivity. Qed.
Example uri_ex3 : uri_of "/" = Some (0, mkURI [] (`s"/") (`s"/") [] (`s"/") []).
Proof. vm_compute. reflexivity. Qed.
Example uri_ex4 : uri_path <$> (snd <$> uri_of "/%2e%2e/%2e%2e/etc/passwd") = Some (`s"../../etc/passwd").
Proof. vm_compute. reflexivity. Qed.
Example uri_ex5 : uri_path <$> (snd <$> uri_of "/a/..") = Some (`s"a/.."). Proof. vm_compute. reflexivity. Qed.
Example uri_ex6 : uri_path <$> (snd <$> uri_of "http://host/") = Some (`s"host/"). Proof. vm_compute. reflexivity. Qed.
Example uri_ex7 : uri_path <$> (snd <$> uri_of "/images/logo@2x.png") = Some (`s"2x.png").
Proof. vm_compute. reflexivity. Qed.

(** ** References *)

(** Percent decoding, structurally: a [%] followed by two characters [getInt]
    reads as a number is that byte. *)
Fixpoint decode (s : str) : str :=
  match s with
  | [] => []
  | c :: s' =>
      if Ascii.eqb c "%"%char then
        match s' with
        | a :: b :: s'' =>
            let '(e, v) := getInt [a; b] 16 0 in
            if e =? 0 then chr v :: decode s'' else c :: decode s'
        | _ => s
        end
      else c :: decode s'
  end.

Fixpoint squeeze (s : str) : str :=
  match s with
  | [] => []
  | c :: s' =>
      if Ascii.eqb c "/"%char && Ascii.eqb (char_at s' 0) "/"%char
      then squeeze s' else c :: squeeze s'
  end.

Fixpoint drop_dots (s : str) : str :=
  match s with
  | [] => []
  | c :: s' =>
      match s' with
      | a :: (b :: _) as s'' =>
          if Ascii.eqb c "/"%char && Ascii.eqb a "."%char && Ascii.eqb b "/"%char
          then drop_dots s'' else c :: drop_dots s'
      | _ => s
      end
  end.

Definition normalize (path : str) : str := drop_dots (squeeze (strip_dot path)).

Fixpoint components (s : str) : list str :=
  match s with
  | [] => [[]]
  | c :: s' =>
      if Ascii.eqb c "/"%char then [] :: components s'
      else match components s' with
           | d :: ds => (c :: d) :: ds
           | [] => [[c]]
           end
  end.

(** The directories of a path walked from the document root; the last
    component is the file and is kept as it is. *)
Fixpoint resolve (v cs : list str) : option (list str) :=
  match cs with
  | [] => Some v
  | d :: cs' =>
      match cs' with
      | [] => Some (v ++ [d])
      | _ =>
          if str_eqb d (`s"..") then
            match v with
            | [] => None
            | _ => resolve (removelast v) cs'
            end
          else resolve (v ++ [d]) cs'
      end
  end.

(** ** Percent decoding *)

Lemma decode_cons c s : c <> "%"%char -> decode (c :: s) = c :: decode s.
Proof. intros H. cbn [decode]. by rewrite (proj2 (Ascii.eqb_neq _ _) H). Qed.

Lemma decode_app a s : "%"%char ∉ a -> decode (a ++ s) = a ++ decode s.
Proof.
  induction a as [|c a IH]; [done|]. intros [Hc Ha]%not_elem_of_cons.
  cbn [app]. rewrite decode_cons by done. by rewrite IH.
Qed.

Lemma decode_clean s : "%"%char ∉ s -> decode s = s.
Proof. intros H. rewrite <- (app_nil_r s) at 1. rewrite decode_app by done. simpl. by rewrite app_nil_r. Qed.

Lemma decode_short s : (length s <= 2)%nat -> decode s = s.
Proof.
  destruct s as [|a [|b [|c s]]]; simpl; try lia; intros _; [done| |].
  - by destruct (_ =? _)%char.
  - destruct (a =? _)%char; [done|]. by destruct (b =? _)%char.
Qed.

Lemma find_from_app p a s : find_from p (a ++ s) (length a) = Nat.add (length a) <$> find p s.
Proof.
  unfold find_from. rewrite decide_True by (rewrite length_app; lia). by rewrite drop_app_length.
Qed.

Lemma translate_loop_decode fuel : forall a s,
  (length s < fuel)%nat -> zlen (a ++ s) < npos ->
  translate_loop fuel (a ++ s) (length a) (zlen (a ++ s)) = Some (a ++ decode s).
Proof.
  induction fuel as [|fuel IH]; intros a s Hf Hlen; [lia|]. cbn [translate_loop].
  rewrite find_from_app. destruct (find (`s"%") s) as [k|] eqn:E; simpl.
  - destruct (find_char_Some _ _ _ E) as [Hk Hs]. set (x := take k s) in *.
    assert (length x = k) as Hx.
    { unfold x. rewrite length_take. pose proof (find_bound _ _ _ E). simpl in *. lia. }
    set (y := drop (S k) s) in *.
    assert (length s = (k + S (length y))%nat) as Hls.
    { rewrite Hs, length_app, Hx. done. }
    assert (zlen (a ++ s) = zlen a + Z.of_nat k + 1 + zlen y) as Hz.
    { unfold zlen. rewrite length_app, Hls. lia. }
    assert (decode s = x ++ decode ("%"%char :: y)) as -> by (rewrite Hs at 1; by apply decode_app).
    assert (a ++ s = (a ++ x ++ ["%"%char]) ++ y) as Ha.
    { rewrite Hs at 1. by rewrite <- !(assoc_L (++)). }
    assert (length (a ++ x ++ ["%"%char]) = (length a + k + 1)%nat) as Hla.
    { rewrite !length_app, Hx. simpl. lia. }
    destruct (Z.ltb_spec (Z.of_nat (length a + k)) (u64 (zlen (a ++ s) - 2))) as [Hlt|Hge].
    + assert (substr (a ++ s) (length a + k + 1) 2 = take 2 y) as ->.
      { unfold substr. rewrite Ha, <- Hla, drop_app_length. done. }
      destruct y as [|p [|q y]].
      * simpl (take 2 []). cbn [decode Ascii.eqb]. simpl.
        specialize (IH (a ++ x ++ ["%"%char]) []). rewrite <- Ha, Hla in IH.
        rewrite IH by (simpl in *; lia). simpl. by rewrite app_nil_r.
      * exfalso. unfold u64, npos, zlen in *. simpl in Hz. rewrite Hz in Hlt.
        rewrite Z.mod_small in Hlt by lia. lia.
      * change (take 2 (p :: q :: y)) with [p; q]. cbn [decode]. rewrite Ascii.eqb_refl.
        destruct (getInt [p; q] 16 0) as [e v]. destruct (e =? 0).
        -- assert (u64 (zlen (a ++ s) - 2) = zlen ((a ++ x ++ [chr v]) ++ y)) as ->.
           { rewrite Hz. unfold u64, npos, zlen in *. rewrite !length_app, Hx in *. simpl in *.
             rewrite Z.mod_small; lia. }
           assert (take (length a + k) (a ++ s) ++ chr v :: drop (length a + k + 3) (a ++ s)
                   = (a ++ x ++ [chr v]) ++ y) as ->.
           { rewrite take_app_add. fold x. rewrite <- !(assoc_L (++)). do 2 f_equal. simpl. f_equal.
             rewrite <- Nat.add_assoc, drop_app_add. rewrite Hs.
             rewrite <- Hx, drop_app_add. done. }
           replace (length a + k + 1)%nat with (length (a ++ x ++ [chr v]))
             by (rewrite !length_app, Hx; simpl; lia).
           rewrite IH; [by rewrite <- !(assoc_L (++))| |].
           ++ simpl in Hls. lia.
           ++ unfold zlen in *. rewrite !length_app, Hx in *. simpl in *. lia.
        -- specialize (IH (a ++ x ++ ["%"%char]) (p :: q :: y)). rewrite <- Ha, Hla in IH.
           rewrite IH by (done || (simpl in *; lia)). by rewrite <- !(assoc_L (++)).
    + rewrite decode_short; [by rewrite Hs at 1|].
      destruct (decide (length y <= 1)%nat) as [|Hy]; [simpl; lia|].
      unfold u64, npos, zlen in *. rewrite Z.mod_small in Hge by lia. lia.
  - rewrite (proj2 (Z.ltb_ge _ _)).
    + by rewrite decode_clean by (by apply find_char_None).
    + unfold u64, npos in *. pose proof (Z.mod_pos_bound (zlen (a ++ s) - 2) 18446744073709551616). lia.
Qed.

Lemma translatePercent_decode s : zlen s < npos -> translatePercent s = Some (decode s).
Proof. intros H. apply (translate_loop_decode _ []); [lia|done]. Qed.

(** ** Squeezing slashes and dropping "/./" *)

(** The erase loop is a rewriting to normal form: a function that absorbs one
    erasure anywhere and is the identity on normal forms is its result. *)
Lemma erase_while_spec p n (g : str -> str) fuel s :
  (0 < n <= length p)%nat ->
  (forall x y, g (x ++ p ++ y) = g (x ++ drop n p ++ y)) ->
  (forall s, find p s = None -> g s = s) ->
  (length s < fuel)%nat -> erase_while fuel p n s = Some (g s) /\ find p (g s) = None.
Proof.
  intros Hn Hg Hid. revert s. induction fuel as [|fuel IH]; intros s Hf; [lia|]. simpl.
  destruct (find p s) as [k|] eqn:E; [|by rewrite Hid].
  pose proof (occurs_split _ _ _ (find_occurs _ _ _ E)) as Hs.
  pose proof (find_bound _ _ _ E) as Hb.
  assert (erase s k n = take k s ++ drop n p ++ drop (k + length p) s) as He.
  { unfold erase. f_equal. rewrite Hs at 1.
    assert (length (take k s) = k) as Hk by (rewrite length_take; lia).
    rewrite <- Hk at 1. rewrite drop_app_add, drop_app_le by lia. done. }
  assert (g s = g (erase s k n)) as -> by (rewrite He, <- Hg; by rewrite <- Hs).
  apply IH. rewrite length_erase by lia. lia.
Qed.

Lemma squeeze_cons c s :
  squeeze (c :: s) =
    if Ascii.eqb c "/"%char && Ascii.eqb (char_at s 0) "/"%char then squeeze s else c :: squeeze s.
Proof. reflexivity. Qed.

Lemma squeeze_absorb x y : squeeze (x ++ `s"//" ++ y) = squeeze (x ++ SLASH ++ y).
Proof.
  induction x as [|c x IH]; [done|]. change ((c :: x) ++ ?z) with (c :: (x ++ z)).
  rewrite !(squeeze_cons c), IH. by destruct x.
Qed.

Lemma find_cons_None p c s : find p (c :: s) = None -> prefixb p (c :: s) = false /\ find p s = None.
Proof.
  change (find p (c :: s)) with (if prefixb p (c :: s) then Some 0%nat else S <$> find p s).
  destruct (prefixb p (c :: s)); [done|]. by intros ?%fmap_None.
Qed.

#[local] Arguments Ascii.eqb : simpl never.

Lemma squeeze_id s : find (`s"//") s = None -> squeeze s = s.
Proof.
  induction s as [|c s IH]; [done|]. intros [Hp Hs]%find_cons_None.
  rewrite squeeze_cons, IH by done. destruct s as [|d s]; [by rewrite andb_false_r|].
  simpl in Hp |- *. rewrite andb_true_r in Hp.
  rewrite (Ascii.eqb_sym c), (Ascii.eqb_sym d). by rewrite Hp.
Qed.

Lemma drop_dots_cons c s :
  drop_dots (c :: s) =
    if prefixb (`s"/./") (c :: s) then drop_dots (drop 1 s) else c :: drop_dots s.
Proof.
  destruct s as [|a [|b s]]; cbn [drop_dots prefixb lit String.list_ascii_of_string].
  - by rewrite andb_false_r.
  - by rewrite !andb_false_r.
  - rewrite andb_true_r, (Ascii.eqb_sym c), (Ascii.eqb_sym a), (Ascii.eqb_sym b).
    by rewrite (andb_assoc).
Qed.

Lemma drop_dots_absorb x y : drop_dots (x ++ `s"/./" ++ y) = drop_dots (x ++ SLASH ++ y).
Proof.
  remember (length x) as n eqn:Hn. revert x Hn. induction (lt_wf n) as [n _ IH]. intros x ->.
  destruct x as [|c x]; [done|]. change ((c :: x) ++ ?z) with (c :: (x ++ z)).
  rewrite !(drop_dots_cons c).
  assert (forall x', (length x' < length (c :: x))%nat ->
    drop_dots (x' ++ `s"/./" ++ y) = drop_dots (x' ++ SLASH ++ y)) as IH'.
  { intros x' Hx'. by apply (IH (length x')). }
  rewrite (IH' x) by (simpl; lia).
  destruct x as [|a [|b x]].
  - simpl. rewrite !andb_false_r. done.
  - change ([a] ++ ?z) with (a :: z). simpl prefixb.
    destruct (_ && _); [|done]. exact (IH' [] ltac:(simpl; lia)).
  - simpl prefixb. destruct (_ && _); [|done]. exact (IH' (b :: x) ltac:(simpl; lia)).
Qed.

Lemma drop_dots_id s : find (`s"/./") s = None -> drop_dots s = s.
Proof.
  induction s as [|c s IH]; [done|]. intros [Hp Hs]%find_cons_None.
  rewrite drop_dots_cons, IH by done. by rewrite Hp.
Qed.

Lemma normalize_loops path :
  (path' ← erase_while (S (length (strip_dot path))) (`s"//") 1 (strip_dot path);
   erase_while (S (length path')) (`s"/./") 2 path') = Some (normalize path).
Proof.
  destruct (erase_while_spec (`s"//") 1 squeeze (S (length (strip_dot path))) (strip_dot path))
    as [-> _]; [simpl; lia|apply squeeze_absorb|apply squeeze_id|lia|]. cbn [mbind option_bind].
  destruct (erase_while_spec (`s"/./") 2 drop_dots (S (length (squeeze (strip_dot path))))
    (squeeze (strip_dot path))) as [-> _];
    [simpl; lia|apply drop_dots_absorb|apply drop_dots_id|lia|done].
Qed.

(** ** Components *)

Lemma components_nonempty s : components s <> [].
Proof. destruct s as [|c s]; [done|]. simpl. destruct (c =? _)%char; [done|]. by destruct (components s). Qed.

Lemma components_app a s :
  "/"%char ∉ a -> components (a ++ SLASH ++ s) = a :: components s.
Proof.
  induction a as [|c a IH]; intros Ha; [done|]. apply not_elem_of_cons in Ha as [Hc Ha].
  change ((c :: a) ++ ?z) with (c :: (a ++ z)). cbn [components].
  rewrite (proj2 (Ascii.eqb_neq c "/"%char)) by done. by rewrite IH.
Qed.

Lemma components_one a : "/"%char ∉ a -> components a = [a].
Proof.
  induction a as [|c a IH]; intros Ha; [done|]. apply not_elem_of_cons in Ha as [Hc Ha].
  cbn [components]. rewrite (proj2 (Ascii.eqb_neq c "/"%char)) by done. by rewrite IH.
Qed.

Definition no_slash (d : str) : Prop := "/"%char ∉ d.

Lemma no_slash_cons c d : no_slash (c :: d) <-> c <> "/"%char /\ no_slash d.
Proof. unfold no_slash. rewrite not_elem_of_cons. split; intros [? ?]; split; congruence || done. Qed.

Lemma no_slash_nil : no_slash [].
Proof. apply not_elem_of_nil. Qed.
#[export] Hint Resolve no_slash_nil : web.

Lemma components_no_slash s : Forall no_slash (components s).
Proof.
  induction s as [|c s IH]; simpl; [auto with web|].
  destruct (Ascii.eqb_spec c "/"%char) as [->|Hc]; [auto with web|].
  destruct (components s) as [|d ds].
  - apply Forall_singleton, no_slash_cons. auto with web.
  - apply Forall_cons in IH as [Hd Hds]. constructor; [by apply no_slash_cons|done].
Qed.

Lemma join_cons d v : v <> [] -> join (d :: v) = d ++ SLASH ++ join v.
Proof. destruct v as [|e v]; [done|]. intros _. unfold join. simpl. by rewrite drop_0. Qed.

Lemma join_one d : join [d] = d.
Proof. unfold join. simpl. by rewrite drop_0, app_nil_r. Qed.

Lemma components_join v : v <> [] -> Forall no_slash v -> components (join v) = v.
Proof.
  intros Hne Hv. induction v as [|d v IH]; [done|]. inversion Hv; subst.
  destruct (decide (v = [])) as [->|Hne'].
  - rewrite join_one. by apply components_one.
  - rewrite join_cons by done. rewrite components_app by done. by rewrite IH.
Qed.

Lemma path_stack_resolve fuel path v :
  (length path < fuel)%nat ->
  match resolve v (components path) with
  | Some v' => path_stack fuel path v = Some (inr v')
  | None => exists rest, path_stack fuel path v = Some (inl rest)
  end.
Proof.
  revert path v. induction fuel as [|fuel IH]; intros path v Hf; [lia|]. cbn [path_stack].
  destruct (find SLASH path) as [k|] eqn:E; last first.
  { apply find_char_None in E. by rewrite components_one. }
  destruct (find_char_Some _ _ _ E) as [Hk Hs]. pose proof (find_bound _ _ _ E) as Hb.
  rewrite Nat.add_1_r. set (d := take k path) in *. set (path' := drop (S k) path) in *.
  assert (components path = d :: components path') as -> by (rewrite Hs; by apply components_app).
  assert (length path' < fuel)%nat as Hf'.
  { unfold path'. rewrite length_drop. simpl in Hb. lia. }
  cbn [resolve]. destruct (components path') as [|c cs] eqn:Ec; [by apply components_nonempty in Ec|].
  rewrite <- Ec. destruct (str_eqb d _).
  - destruct v as [|e v]; [by eexists|]. by apply IH.
  - by apply IH.
Qed.

(** [checkPath] is normalisation, splitting, walking and joining. *)
Lemma checkPath_resolve path :
  match resolve [] (components (normalize path)) with
  | Some v => checkPath path = Some (0, join v)
  | None => exists rest, checkPath path = Some (1, rest)
  end.
Proof.
  pose proof (normalize_loops path) as Hn.
  pose proof (path_stack_resolve (S (length (normalize path))) (normalize path) []) as Hp.
  specialize (Hp ltac:(lia)). unfold checkPath.
  destruct (erase_while _ (`s"//") 1 (strip_dot path)) as [p1|]; [|done].
  cbn [mbind option_bind] in Hn |- *.
  rewrite Hn. cbn [mbind option_bind]. destruct (resolve [] _) as [v|].
  - by rewrite Hp.
  - destruct Hp as [rest ->]. by exists rest.
Qed.

(** ".." in a directory position never survives. *)
Lemma resolve_safe cs : forall v v',
  cs <> [] -> Forall no_slash v -> Forall no_slash cs -> `s".." ∉ v -> resolve v cs = Some v' ->
  v' <> [] /\ Forall no_slash v' /\ `s".." ∉ removelast v'.
Proof.
  induction cs as [|d cs IH]; intros v v' Hne Hv Hcs Hd H; [done|]. inversion Hcs; subst.
  cbn [resolve] in H. destruct cs as [|c cs].
  { injection H as <-. rewrite removelast_last. split_and!; [by destruct v| |done].
    apply Forall_app. by repeat constructor. }
  destruct (str_eqb d _) eqn:Ed.
  - destruct v as [|e v]; [done|].
    assert (exists x, e :: v = removelast (e :: v) ++ [x]) as [x Hx].
    { eexists. apply (app_removelast_last e). done. }
    rewrite Hx in Hv, Hd. apply Forall_app in Hv as [Hv _]. apply not_elem_of_app in Hd as [Hd _].
    by eapply (IH (removelast (e :: v))).
  - apply str_eqb_neq in Ed. eapply (IH (v ++ [d])); [done| |done| |done].
    + apply Forall_app. by repeat constructor.
    + rewrite elem_of_app, list_elem_of_singleton. intros [?|?]; [done|congruence].
Qed.

(** ** Plain uris *)

(** A directory name without any character [parseURI] treats specially. *)
Definition plain (d : str) : bool :=
  negb (is_empty d) && negb (str_eqb d (`s".")) && negb (str_eqb d (`s"..")) &&
  forallb (fun c => no_char c d) (lit "/?@%:").

Lemma plain_spec d :
  plain d = true ->
  d <> [] /\ d <> `s"." /\ d <> `s".." /\ no_slash d /\ ("?"%char ∉ d) /\ ("@"%char ∉ d) /\
  ("%"%char ∉ d) /\ (":"%char ∉ d).
Proof.
  unfold plain. cbn [forallb lit String.list_ascii_of_string].
  rewrite !andb_true_iff, !negb_true_iff, !no_char_spec, is_empty_false, !str_eqb_neq. tauto.
Qed.

Lemma resolve_plain cs : forall v,
  cs <> [] -> `s".." ∉ cs -> resolve v cs = Some (v ++ cs).
Proof.
  induction cs as [|d cs IH]; intros v Hne Hd; [done|].
  apply not_elem_of_cons in Hd as [Hd Hds]. cbn [resolve]. destruct cs as [|c cs]; [done|].
  rewrite (proj2 (str_eqb_neq d _)) by done. rewrite IH by done. by rewrite <- (assoc_L (++)).
Qed.

(** Normalisation does nothing to a path without empty and "." components. *)
Lemma components_slash a s : components (a ++ SLASH ++ s) = components a ++ components s.
Proof.
  induction a as [|c a IH]; [done|]. change ((c :: a) ++ ?z) with (c :: (a ++ z)).
  cbn [components]. rewrite IH. destruct (c =? "/")%char; [done|].
  pose proof (components_nonempty a). by destruct (components a).
Qed.

Lemma occurs_component d s k : no_slash d -> occurs (SLASH ++ d ++ SLASH) s k -> d ∈ components s.
Proof.
  intros Hd (a & b & -> & _). rewrite <- !(assoc_L (++)), components_slash, components_app by done.
  apply elem_of_app. right. by left.
Qed.

Lemma normalize_id s : [] ∉ components s -> `s"." ∉ components s -> normalize s = s.
Proof.
  intros H1 H2. unfold normalize.
  assert (strip_dot s = s) as ->.
  { unfold strip_dot, char_at. destruct s as [|a [|b s]]; simpl; [done|by rewrite andb_false_r|].
    destruct (Ascii.eqb_spec a "."%char) as [->|]; [|done].
    destruct (Ascii.eqb_spec b "/"%char) as [->|]; [|done]. destruct H2. by left. }
  rewrite squeeze_id, drop_dots_id; [done| |]; apply find_None; intros k Hk.
  - apply H2. eapply (occurs_component (`s".")); [|exact Hk].
    apply no_slash_cons. by split; [|apply no_slash_nil].
  - apply H1. eapply (occurs_component []); [apply no_slash_nil|exact Hk].
Qed.

Definition plain_dirs (v : list str) : Prop := v <> [] /\ Forall (fun d => plain d = true) v.

Lemma plain_dirs_spec v :
  plain_dirs v -> v <> [] /\ Forall no_slash v /\ ([] ∉ v) /\ (`s"." ∉ v) /\ (`s".." ∉ v).
Proof.
  intros [Hne Hv]. split; [done|]. rewrite Forall_forall in Hv. split.
  - apply Forall_forall. intros d Hd. by apply plain_spec, Hv.
  - split_and!; intros Hd; by apply Hv in Hd.
Qed.

Lemma checkPath_dirs v :
  v <> [] -> Forall no_slash v -> ([] ∉ v) -> (`s"." ∉ v) -> (`s".." ∉ v) ->
  checkPath (join v) = Some (0, join v).
Proof.
  intros Hne Hs H1 H2 H3. pose proof (checkPath_resolve (join v)) as H.
  rewrite normalize_id, components_join, resolve_plain in H; by rewrite ?components_join.
Qed.

Lemma checkPath_plain v : plain_dirs v -> checkPath (join v) = Some (0, join v).
Proof. intros (Hne & Hs & H1 & H2 & H3)%plain_dirs_spec. by apply checkPath_dirs. Qed.

Lemma join_no_char c v : c <> "/"%char -> Forall (fun d => c ∉ d) v -> c ∉ join v.
Proof.
  intros Hc. induction v as [|d v IH]; intros Hv; [apply not_elem_of_nil|].
  apply Forall_cons in Hv as [Hd Hv]. destruct (decide (v = [])) as [->|Hne]; [by rewrite join_one|].
  rewrite join_cons by done. rewrite !not_elem_of_app. split_and!; [done| |by apply IH].
  intros H. by apply list_elem_of_singleton in H.
Qed.

Lemma plain_join_no_char c v :
  c ∈ (`s"?@%:") -> plain_dirs v -> c ∉ join v.
Proof.
  intros Hc [_ Hv]. apply join_no_char.
  { intros ->. revert Hc. apply (bool_decide_unpack _). vm_compute. exact I. }
  eapply Forall_impl; [exact Hv|]. intros d (_ & _ & _ & _ & ? & ? & ? & ?)%plain_spec.
  unfold lit in Hc. cbn [String.list_ascii_of_string] in Hc.
  rewrite !elem_of_cons, elem_of_nil in Hc. by destruct Hc as [->|[->|[->|[->|[]]]]].
Qed.

Lemma join_snoc ds f : ds <> [] -> join (ds ++ [f]) = join ds ++ SLASH ++ f.
Proof.
  induction ds as [|d ds IH]; intros Hne; [done|]. change ((d :: ds) ++ ?x) with (d :: (ds ++ x)).
  rewrite join_cons by (by destruct ds). destruct (decide (ds = [])) as [->|Hne'].
  - change ([] ++ [f]) with [f]. by rewrite !join_one.
  - rewrite IH, (join_cons d ds) by done. by rewrite <- !(assoc_L (++)).
Qed.

Lemma join_file v :
  plain_dirs v -> exists ds f, v = ds ++ [f] /\ plain f = true /\
    join v = (if is_empty (join ds) then [] else join ds ++ SLASH) ++ f /\
    (ds = [] \/ is_empty (join ds) = false).
Proof.
  intros [Hne Hv]. destruct (exists_last Hne) as (ds & f & ->). exists ds, f.
  apply Forall_app in Hv as [Hds Hf]. apply Forall_inv in Hf. split; [done|].
  split; [exact Hf|].
  destruct (decide (ds = [])) as [->|Hd]; [split; [apply join_one|by left]|].
  assert (is_empty (join ds) = false) as ->.
  { destruct ds as [|d ds]; [done|]. apply Forall_cons in Hds as [(Hd0 & _)%plain_spec _].
    destruct (decide (ds = [])) as [->|Hd']; [by rewrite join_one; destruct d|].
    rewrite join_cons by done. by destruct d. }
  split; [|by right]. rewrite join_snoc by done. by rewrite (assoc_L (++)).
Qed.

(** The parts of a plain path, as [prunePath] should find them. *)
Definition plain_uri (v : list str) (q : str) : URI :=
  let f := List.last v [] in
  let ds := removelast v in
  mkURI f (join v) (if is_empty (join ds) then SLASH else join ds ++ SLASH) []
    (match rfind (`s".") f with None => [] | Some k => drop k f end) q.

Lemma last_char_no_slash a f :
  f <> [] -> no_slash f -> Ascii.eqb (char_at (a ++ f) (length (a ++ f) - 1)) "/"%char = false.
Proof.
  intros Hne Hs. destruct (exists_last Hne) as (g & c & ->). unfold char_at.
  rewrite (assoc_L (++)), length_app. replace (length (a ++ g) + length [c] - 1)%nat
    with (length (a ++ g) + 0)%nat by (simpl; lia).
  rewrite app_nth2_plus. simpl. apply Ascii.eqb_neq. intros ->. apply Hs.
  apply elem_of_app. right. by left.
Qed.

Lemma prunePath_plain v u :
  plain_dirs v -> uri_path u = join v -> uri_pathInfo u = [] -> 
  prunePath u = plain_uri v (uri_query u).
Proof.
  intros Hv Hp Hi. destruct (join_file v Hv) as (ds & f & -> & Hf & Hj & Hds).
  apply plain_spec in Hf as (Hne & _ & _ & Hs & _).
  unfold prunePath, plain_uri. rewrite Hp, removelast_last, last_last.
  assert (is_empty (join (ds ++ [f])) = false) as ->.
  { rewrite Hj. apply is_empty_false. by intros [_ ?]%app_eq_nil. }
  rewrite Hj, last_char_no_slash by done. cbn [orb].
  destruct u as [u1 u2 u3 u4 u5 u6]. cbn in Hp, Hi. subst u2 u4. rewrite Hj.
  destruct Hds as [-> | Hds].
  - change (is_empty (join [])) with true. cbv iota. rewrite app_nil_l.
    change (rfind SLASH) with (rfind ["/"%char]).
    rewrite (proj2 (rfind_char_None "/"%char f)) by done. reflexivity.
  - rewrite Hds. rewrite <- (assoc_L (++)). change (SLASH ++ f) with ("/"%char :: f).
    change (rfind SLASH) with (rfind ["/"%char]). rewrite (rfind_char_app "/"%char) by done.
    destruct (join ds) as [|c p] eqn:Ej; [done|]. rewrite <- Ej.
    assert (length (join ds) = S (length p)) as Hl by (by rewrite Ej). rewrite Hl.
    assert (take (S (length p) + 1) (join ds ++ "/"%char :: f) = join ds ++ SLASH) as ->.
    { rewrite <- Hl, take_app_add. done. }
    assert (drop (S (length p) + 1) (join ds ++ "/"%char :: f) = f) as ->.
    { rewrite <- Hl, drop_app_add. done. }
    reflexivity.
Qed.

Lemma rfind_suffix_no_char (c : ascii) (s : str) k : c ∉ s -> c ∉ drop k s.
Proof. intros H Hc. apply H. rewrite <- (take_drop k s). apply elem_of_app. by right. Qed.

Lemma plain_uri_no_percent v q :
  plain_dirs v -> "%"%char ∉ q -> prunePercent (plain_uri v q) = Some (plain_uri v q).
Proof.
  intros Hv Hq. pose proof (plain_join_no_char "%"%char v) as Hj.
  specialize (Hj ltac:(apply (bool_decide_unpack _); vm_compute; exact I) Hv).
  destruct (join_file v Hv) as (ds & f & -> & Hf & Hjf & _).
  apply plain_spec in Hf as (_ & _ & _ & _ & _ & _ & Hf & _).
  assert ("%"%char ∉ join ds) as Hds.
  { destruct (join ds) as [|c p]; [apply not_elem_of_nil|]. rewrite Hjf in Hj.
    cbn [is_empty] in Hj. rewrite !not_elem_of_app in Hj. tauto. }
  assert (forall s, "%"%char ∉ s -> translatePercent s = Some s) as Hid.
  { intros s Hs. unfold translatePercent. cbn [translate_loop].
    assert (find_from (`s"%") s 0 = None) as ->.
    { unfold find_from. rewrite decide_True by lia. rewrite drop_0.
      change (find (`s"%")) with (find ["%"%char]). by rewrite (proj2 (find_char_None "%"%char s)). }
    rewrite (proj2 (Z.ltb_ge _ _)); [done|]. change (pos_z None) with npos. unfold u64, npos.
    pose proof (Z.mod_pos_bound (zlen s - 2) 18446744073709551616). lia. }
  unfold plain_uri, prunePercent. rewrite removelast_last, last_last.
  cbn [uri_path uri_pathInfo uri_query uri_root uri_extension uri_filename].
  rewrite !Hid; try done.
  - apply not_elem_of_nil.
  - destruct (is_empty (join ds)); [|rewrite not_elem_of_app; split; [done|]];
      apply (bool_decide_unpack _); vm_compute; exact I.
  - destruct (rfind (`s".") f); [by apply rfind_suffix_no_char|apply not_elem_of_nil].
Qed.

(** The first part of [parseURI] on an origin-form target. *)
Lemma prune_origin p :
  ":"%char ∉ p -> "@"%char ∉ p -> p <> [] ->
  pruneScheme (SLASH ++ p) = (0, SLASH ++ p) /\
  pruneDelim (pruneDelim (SLASH ++ p) (`s"@")) SLASH = p.
Proof.
  intros Hc Ha Hne.
  assert (forall c : ascii, c <> "/"%char -> c ∉ p -> c ∉ SLASH ++ p) as Hs.
  { intros c ? ?. change (SLASH ++ p) with ("/"%char :: p). by apply not_elem_of_cons. }
  unfold pruneScheme, pruneDelim.
  rewrite (find_missing ":"%char (`s"://")), (find_missing "@"%char (`s"@"));
    [|by left|by apply Hs|by left|by apply Hs].
  split; [done|]. change (SLASH ++ p) with ("/"%char :: p). simpl. by destruct p.
Qed.

(** The query part of a target: absent, or what follows the first "?". *)
Definition with_query (q : option str) : str :=
  match q with Some q => `s"?" ++ q | None => [] end.

Lemma parseURI_clean v q r :
  plain_dirs v ->
  Forall (fun c => c ∉ default [] q) (`s":@%") ->
  _uri r = SLASH ++ join v ++ with_query q ->
  parseURI r = Some (0, set_parsedUri (plain_uri v (default [] q)) r).
Proof.
  intros Hv Hq Hu. cbn [lit String.list_ascii_of_string] in Hq.
  inversion_clear Hq as [|? ? Hq1 Hq']. inversion_clear Hq' as [|? ? Hq2 Hq''].
  inversion_clear Hq'' as [|? ? Hq3 _].
  assert (forall c, c ∈ (`s"?@%:") -> c ∉ join v) as Hj by (intros; by apply plain_join_no_char).
  assert (forall c, c ∈ (`s"?@%:") -> c <> "?"%char -> c ∉ default [] q ->
            c ∉ join v ++ with_query q) as Hjq.
  { intros c Hc Hne Hcq. rewrite not_elem_of_app. split; [by apply Hj|].
    destruct q; [|apply not_elem_of_nil]. by apply not_elem_of_cons. }
  assert (join v ++ with_query q <> []) as Hne.
  { destruct (join_file v Hv) as (ds & f & _ & Hf & -> & _). apply plain_spec in Hf as (Hf & _).
    by intros [[_ ?]%app_eq_nil _]%app_eq_nil. }
  destruct (prune_origin (join v ++ with_query q)) as [Hp1 Hp2]; [| |done|].
  { apply Hjq; [by do 3 right; left|done|done]. }
  { apply Hjq; [by right; left|done|done]. }
  unfold parseURI. rewrite Hu. set (u0 := (rh_parsedUri (resHints r)) <| uri_query := _ |> <| uri_pathInfo := [] |>).
  change (uri_query u0) with (SLASH ++ join v ++ with_query q). rewrite Hp1.
  cbn [negb Z.eqb]. cbv zeta. rewrite Hp2.
  assert (extractPath (join v ++ with_query q) = (join v, default [] q)) as ->.
  { unfold extractPath. destruct q as [q|]; cbn [with_query default].
    - change (`s"?" ++ q) with ("?"%char :: q).
      change (find (`s"?")) with (find ["?"%char]).
      rewrite (find_char_app "?"%char) by (apply Hj; by left).
      rewrite take_app_length, drop_app_add. done.
    - rewrite app_nil_r. change (find (`s"?")) with (find ["?"%char]).
      rewrite (proj2 (find_char_None "?"%char (join v))); [done|]. apply Hj. by left. }
  rewrite checkPath_plain by done. cbn [mbind option_bind negb Z.eqb].
  rewrite (prunePath_plain v) by done.
  change (uri_query _) with (default [] q).
  rewrite plain_uri_no_percent by done. reflexivity.
Qed.

(** ** Totality *)

Lemma find_from_Some p s i k :
  find_from p s i = Some k -> (i <= k)%nat /\ (k + length p <= length s)%nat.
Proof.
  unfold find_from. destruct (decide _); [|done]. intros (j & Hj & ->)%fmap_Some.
  apply find_bound in Hj. rewrite length_drop in Hj. lia.
Qed.

Lemma translate_total fuel : forall s idx len,
  (idx <= length s)%nat -> (length s - idx < fuel)%nat ->
  exists s', translate_loop fuel s idx len = Some s'.
Proof.
  induction fuel as [|fuel IH]; intros s idx len Hi Hf; [lia|]. cbn [translate_loop].
  destruct (find_from _ s idx) as [cur|] eqn:E.
  - apply find_from_Some in E as [H1 H2]. simpl in H2. destruct (_ <? _); [|by eexists].
    destruct (getInt _ _ _) as [e v]. destruct (e =? 0).
    + apply IH; rewrite length_app, length_take; cbn [length]; rewrite length_drop; lia.
    + apply IH; lia.
  - rewrite (proj2 (Z.ltb_ge _ _)); [by eexists|]. change (pos_z None) with npos.
    unfold u64, npos. pose proof (Z.mod_pos_bound (len - 2) 18446744073709551616). lia.
Qed.

Lemma translatePercent_total s : exists s', translatePercent s = Some s'.
Proof. apply translate_total; lia. Qed.

Lemma prunePercent_total u : exists u', prunePercent u = Some u'.
Proof.
  unfold prunePercent.
  destruct (translatePercent_total (uri_path u)) as [? ->].
  destruct (translatePercent_total (uri_pathInfo u)) as [? ->].
  destruct (translatePercent_total (uri_query u)) as [? ->].
  destruct (translatePercent_total (uri_root u)) as [? ->].
  destruct (translatePercent_total (uri_extension u)) as [? ->].
  destruct (translatePercent_total (uri_filename u)) as [? ->]. by eexists.
Qed.

Lemma prunePercent_path u u' :
  prunePercent u = Some u' -> translatePercent (uri_path u) = Some (uri_path u').
Proof.
  unfold prunePercent. intros (p & -> & H)%bind_Some. f_equal.
  repeat (apply bind_Some in H as (? & _ & H)). by injection H as <-.
Qed.

(** What [parseURI] does with the pruned target. *)
Definition parse_target (target : str) (r : Request) : option (Z * Request) :=
  let '(path, query) := extractPath target in
  let u := (rh_parsedUri (resHints r)) <| uri_query := query |> <| uri_pathInfo := [] |> in
  '(e, path) ← checkPath path;
  let u := u <| uri_path := path |> in
  if negb (e =? 0) then Some (_fillError 400 (`s"too many ../ in uri") (set_parsedUri u r))
  else u ← prunePercent (prunePath u); Some (0, set_parsedUri u r).

Lemma parseURI_target r q :
  pruneScheme (_uri r) = (0, q) ->
  parseURI r = parse_target (pruneDelim (pruneDelim q (`s"@")) SLASH) r.
Proof.
  intros H. unfold parseURI, parse_target. set (u := _ <| uri_pathInfo := [] |>).
  change (uri_query u) with (_uri r). rewrite H. cbn [negb Z.eqb]. cbv zeta.
  destruct (extractPath _) as [path query]. reflexivity.
Qed.

Lemma parse_target_total target r :
  exists e r', parse_target target r = Some (e, r') /\
    (e = 0 \/ (e = 400 /\ getError r' = 400 /\ _final_status r' = ERROR)).
Proof.
  unfold parse_target. destruct (extractPath target) as [path query].
  pose proof (checkPath_resolve path) as H.
  destruct (resolve _ _) as [v|].
  - rewrite H. cbn [mbind option_bind negb Z.eqb].
    match goal with |- context [prunePercent ?u] => destruct (prunePercent_total u) as [u' ->] end.
    cbn [mbind option_bind]. eexists _, _. split; [reflexivity|by left].
  - destruct H as [rest ->]. cbn [mbind option_bind negb Z.eqb].
    eexists _, _. split; [reflexivity|by right].
Qed.

(** ** Properties *)

(** Percent decoding.  The in-place loop of [translatePercent], with its
    wrapping [size_t] bound, computes the structural decoder: each [%] followed
    by two characters that read as a base-16 number becomes that byte, and
    what was decoded is not decoded again. *)
Theorem translatePercent_correct s :
  zlen s < npos -> translatePercent s = Some (decode s).
Proof. apply translatePercent_decode. Qed.

Lemma translatePercent_correct_witness :
  translatePercent (`s"a%2541%zz%4") = Some (`s"a%41%zz%4").
Proof. rewrite (translatePercent_correct (`s"a%2541%zz%4")); vm_compute; reflexivity. Defined.

(** [checkPath] is, on every path, normalisation (one leading "./", "//" and
    "/./"), splitting at the slashes and walking the directories from the
    root: it returns 1 exactly when a ".." leaves the root. *)
Theorem checkPath_correct path :
  match resolve [] (components (normalize path)) with
  | Some v => checkPath path = Some (0, join v)
  | None => exists rest, checkPath path = Some (1, rest)
  end.
Proof. apply checkPath_resolve. Qed.

(** C27: No directory of an accepted path is "..": only the last component, which
    [checkPath] never looks at, can be. *)
Theorem checkPath_safe path p :
  checkPath path = Some (0, p) -> `s".." ∉ removelast (components p).
Proof.
  intros H. pose proof (checkPath_resolve path) as Hr.
  destruct (resolve [] _) as [v|] eqn:E; [|by destruct Hr as [rest Hr]; rewrite Hr in H].
  rewrite Hr in H. injection H as <-.
  apply resolve_safe in E as (Hne & Hs & Hd);
    [|apply components_nonempty|done|apply components_no_slash|apply not_elem_of_nil].
  by rewrite components_join.
Qed.

Lemma checkPath_safe_witness : `s".." ∉ removelast (components (`s"b/..")).
Proof. apply (checkPath_safe (`s"a/..//b/./..")). vm_compute. reflexivity. Defined.

(** C28: [parseURI] returns on every request: 0, or 400 with the error recorded. *)
Theorem parseURI_total r :
  exists e r', parseURI r = Some (e, r') /\
    (e = 0 \/ (e = 400 /\ getError r' = 400 /\ _final_status r' = ERROR)).
Proof.
  destruct (pruneScheme (_uri r)) as [e q] eqn:Hp. destruct (Z.eq_dec e 0) as [->|Hne].
  - erewrite parseURI_target by exact Hp. apply parse_target_total.
  - unfold parseURI. set (u := _ <| uri_pathInfo := [] |>). change (uri_query u) with (_uri r).
    rewrite Hp, (proj2 (Z.eqb_neq _ _)) by done.
    eexists _, _. split; [reflexivity|by right].
Qed.

(** A plain target [/d1/.../dn/file?query] is taken apart as written: path,
    directory, file name, extension and query, and nothing else of the request
    changes. *)
Theorem parseURI_plain v q r :
  plain_dirs v -> Forall (fun c => c ∉ default [] q) (`s":@%") ->
  _uri r = SLASH ++ join v ++ with_query q ->
  parseURI r = Some (0, set_parsedUri (plain_uri v (default [] q)) r).
Proof. apply parseURI_clean. Qed.

Lemma parseURI_plain_witness :
  let r := Request_init <| _uri := `s"/img/cat.png?w=3" |> in
  parseURI r = Some (0, set_parsedUri
    (mkURI (`s"cat.png") (`s"img/cat.png") (`s"img/") [] (`s".png") (`s"w=3")) r).
Proof.
  intros r. apply (parseURI_plain [`s"img"; `s"cat.png"] (Some (`s"w=3")) r).
  - split; [discriminate|]. repeat constructor.
  - apply (bool_decide_unpack _). vm_compute. exact I.
  - reflexivity.
Defined.

(** The escapes are decoded after the path was checked, so [%2e%2e/] climbs
    out of the document root: any plain path below it is reached as
    [../path], with return value 0. *)
Theorem parseURI_traversal v r :
  plain_dirs v -> zlen (join v) < BUFFER_SIZE -> _uri r = `s"/%2e%2e/" ++ join v ->
  exists r', parseURI r = Some (0, r') /\
    uri_path (rh_parsedUri (resHints r')) = `s"../" ++ join v.
Proof.
  intros Hv Hlen Hu. pose proof Hv as (Hne & Hs & H1 & H2 & H3)%plain_dirs_spec.
  assert (forall c : ascii, c ∈ (`s"?@%:") -> c ∉ join v) as Hj by (intros; by apply plain_join_no_char).
  set (w := `s"%2e%2e" :: v).
  assert (join w = `s"%2e%2e/" ++ join v) as Hw by (unfold w; by rewrite join_cons).
  assert (forall c : ascii, c ∈ (`s"?@:") -> c ∉ join w) as Hjw.
  { intros c Hc. rewrite Hw, not_elem_of_app. cbn [lit String.list_ascii_of_string] in *.
    rewrite !elem_of_cons, elem_of_nil in Hc.
    split; [|apply Hj; rewrite !elem_of_cons; tauto].
    destruct Hc as [->|[->|[->|[]]]]; apply (bool_decide_unpack _); vm_compute; exact I. }
  assert (_uri r = SLASH ++ join w) as Hu' by (by rewrite Hw).
  destruct (prune_origin (join w)) as [Hp1 Hp2];
    [apply Hjw; by do 2 right; left|apply Hjw; by right; left|by rewrite Hw|].
  rewrite <- Hu' in Hp1. rewrite (parseURI_target _ _ Hp1), Hu', Hp2.
  unfold parse_target, extractPath. change (find (`s"?")) with (find ["?"%char]).
  rewrite (proj2 (find_char_None "?"%char (join w))) by (apply Hjw; by left).
  assert (checkPath (join w) = Some (0, join w)) as ->.
  { apply checkPath_dirs; [done| | | |]; [|by apply not_elem_of_cons..].
    constructor; [|done]. apply (bool_decide_unpack _). vm_compute. exact I. }
  cbn [mbind option_bind negb Z.eqb].
  match goal with |- context [prunePercent (prunePath ?u)] => set (u0 := u) end.
  assert (uri_path (prunePath u0) = join w) as Hpath.
  { unfold prunePath. change (uri_path u0) with (join w). destruct (_ || _); [done|].
    destruct (rfind SLASH (join w)) as [[|k]|]; done. }
  destruct (prunePercent_total (prunePath u0)) as [u' Hu'']. rewrite Hu''.
  cbn [mbind option_bind]. eexists. split; [reflexivity|].
  change (uri_path (rh_parsedUri (resHints (set_parsedUri u' r)))) with (uri_path u').
  apply prunePercent_path in Hu''. rewrite Hpath, translatePercent_decode in Hu''; last first.
  { rewrite Hw, zlen_app. change (zlen (`s"%2e%2e/")) with 7. unfold BUFFER_SIZE, npos in *. lia. }
  assert (uri_path u' = decode (join w)) as -> by congruence. rewrite Hw.
  assert (forall s, decode (`s"%2e%2e/" ++ s) = `s"../" ++ decode s) as -> by done.
  by rewrite decode_clean by (apply Hj; by do 2 right; left).
Qed.

Lemma parseURI_traversal_witness :
  exists r', parseURI (Request_init <| _uri := `s"/%2e%2e/etc/passwd" |>) = Some (0, r') /\
    uri_path (rh_parsedUri (resHints r')) = `s"../" ++ `s"etc/passwd".
Proof.
  apply (parseURI_traversal [`s"etc"; `s"passwd"]); [|vm_compute; reflexivity|reflexivity].
  split; [discriminate|]. repeat constructor.
Defined.

(** Everything up to an [@] anywhere in the target is dropped, not only user
    information: [/a@b] names the same resource as [/b]. *)
Theorem parseURI_at_sign a b r :
  "@"%char ∉ a -> "@"%char ∉ b -> ":"%char ∉ a ++ b -> no_slash b -> b <> [] ->
  exists e r1 r2,
    parseURI (setUri (SLASH ++ a ++ `s"@" ++ b) r) = Some (e, r1) /\
    parseURI (setUri (SLASH ++ b) r) = Some (e, r2) /\
    resHints r1 = resHints r2.
Proof.
  intros Ha Hb Hc Hs Hne. apply not_elem_of_app in Hc as [Hca Hcb].
  destruct (prune_origin b Hcb Hb Hne) as [Hp1 Hp2].
  assert (pruneScheme (SLASH ++ a ++ `s"@" ++ b) = (0, SLASH ++ a ++ `s"@" ++ b)) as Hp3.
  { unfold pruneScheme. rewrite (find_missing ":"%char); [done|by left|].
    rewrite !not_elem_of_app. split_and!; try done; apply (bool_decide_unpack _); vm_compute; exact I. }
  rewrite (parseURI_target (setUri (SLASH ++ b) r) _ Hp1), Hp2.
  rewrite (parseURI_target (setUri (SLASH ++ a ++ `s"@" ++ b) r) _ Hp3).
  assert (pruneDelim (pruneDelim (SLASH ++ a ++ `s"@" ++ b) (`s"@")) SLASH = b) as ->.
  { assert (pruneDelim (SLASH ++ a ++ `s"@" ++ b) (`s"@") = b) as ->.
    { unfold pruneDelim. change (find (`s"@")) with (find ["@"%char]).
      change (SLASH ++ a ++ `s"@" ++ b) with (("/"%char :: a) ++ "@"%char :: b).
      rewrite find_char_app by (by apply not_elem_of_cons).
      assert (Nat.eqb (length ("/"%char :: a) + 1) (length (("/"%char :: a) ++ "@"%char :: b)) = false) as ->.
      { apply Nat.eqb_neq. rewrite length_app. destruct b; [done|]. simpl. lia. }
      cbn [negb]. by rewrite drop_app_add. }
    unfold pruneDelim. change (find SLASH) with (find ["/"%char]).
    by rewrite (proj2 (find_char_None _ _)). }
  unfold parse_target. destruct (extractPath b) as [path query].
  pose proof (checkPath_resolve path) as H. destruct (resolve _ _) as [v|].
  - rewrite H. cbn [mbind option_bind negb Z.eqb].
    change (rh_parsedUri (resHints (setUri ?x r))) with (rh_parsedUri (resHints r)).
    match goal with |- context [prunePercent ?u] => destruct (prunePercent_total u) as [u' ->] end.
    cbn [mbind option_bind]. eexists _, _, _. split_and!; reflexivity.
  - destruct H as [rest ->]. cbn [mbind option_bind negb Z.eqb].
    eexists _, _, _. split_and!; reflexivity.
Qed.

Lemma parseURI_at_sign_witness :
  exists e r1 r2,
    parseURI (setUri (`s"/images/logo@2x.png") Request_init) = Some (e, r1) /\
    parseURI (setUri (`s"/2x.png") Request_init) = Some (e, r2) /\
    resHints r1 = resHints r2.
Proof.
  apply (parseURI_at_sign (`s"images/logo") (`s"2x.png")); try discriminate;
    apply (bool_decide_unpack _); vm_compute; exact I.
Defined.

(** A target in origin form whose path or query holds "://" is refused with
    400: the scheme is searched in the whole target. *)
Theorem parseURI_scheme_anywhere s k r :
  find (`s"://") (SLASH ++ s) = Some k -> _uri r = SLASH ++ s ->
  exists r', parseURI r = Some (400, r') /\ getError r' = 400 /\ _final_status r' = ERROR.
Proof.
  intros Hk Hu. assert (pruneScheme (SLASH ++ s) = (1, SLASH ++ s)) as Hp.
  { unfold pruneScheme. rewrite Hk. rewrite (proj2 (str_eqb_neq _ _)); [done|].
    by rewrite Nat.add_comm. }
  unfold parseURI. set (u := _ <| uri_pathInfo := [] |>). change (uri_query u) with (_uri r).
  rewrite Hu, Hp. cbn [negb Z.eqb]. eexists. split; [reflexivity|done].
Qed.

Lemma parseURI_scheme_anywhere_witness :
  exists r', parseURI (setUri (`s"/login?next=http://x/") Request_init) = Some (400, r') /\
    getError r' = 400 /\ _final_status r' = ERROR.
Proof. apply (parseURI_scheme_anywhere (`s"login?next=http://x/") 16); reflexivity. Defined.

(** The path info of a CGI uri.  When the extension occurs, the path is cut
    after its last occurrence, nothing is lost and the rest is the path info;
    when it does not, [rfind] returns [npos] and the cut position wraps: a
    path shorter than the extension minus one makes [substr] throw. *)
Theorem extractPathInfo_correct ext r :
  let path := uri_path (rh_parsedUri (resHints r)) in
  zlen path + zlen ext < npos -> ext <> [] ->
  match rfind ext path with
  | Some k =>
      exists r', extractPathInfo ext r = Ret r' /\
        let u := rh_parsedUri (resHints r') in
        uri_path u = take k path ++ ext /\ path = uri_path u ++ uri_pathInfo u /\
        uri_extension u = ext
  | None =>
      zlen path < zlen ext - 1 -> extractPathInfo ext r = Throw out_of_range
  end.
Proof.
  intros path Hlen Hne. unfold extractPathInfo. fold path.
  assert (0 < zlen ext) as He by (unfold zlen; destruct ext; [done|simpl; lia]).
  destruct (rfind ext path) as [k|] eqn:E.
  - apply rfind_Some in E. pose proof (occurs_bound _ _ _ E) as Hb. apply occurs_split in E.
    cbn [pos_z]. unfold u64. rewrite Z.mod_small by (unfold npos, zlen in *; lia).
    rewrite (proj2 (Z.ltb_ge _ _)) by (unfold zlen; lia).
    replace (Z.to_nat (Z.of_nat k + zlen ext)) with (k + length ext)%nat by (unfold zlen; lia).
    assert (take (k + length ext) path = take k path ++ ext) as ->.
    { rewrite E at 1. assert (length (take k path) = k) as Hk by (rewrite length_take; lia).
      rewrite <- Hk at 1. by rewrite take_app_add, take_app_length. }
    eexists. split; [reflexivity|].
    destruct (rfind SLASH _) as [i|]; cbn; (split; [done|]; split; [|done]);
      rewrite <- (assoc_L (++)); exact E.
  - intros Hs. cbn [pos_z]. unfold u64, npos in *.
    replace (18446744073709551615 + zlen ext) with (zlen ext - 1 + 1 * 18446744073709551616) by lia.
    rewrite Z.mod_add, Z.mod_small by (unfold zlen in *; lia).
    by rewrite (proj2 (Z.ltb_lt _ _)) by done.
Qed.

Definition demo_cgi_uri : Request :=
  set_parsedUri (URI_init <| uri_path := `s"cgi/a.php/x/y" |>) Request_init.

Lemma extractPathInfo_correct_witness :
  exists r', extractPathInfo (`s".php") demo_cgi_uri = Ret r' /\
    let u := rh_parsedUri (resHints r') in
    uri_path u = take 5 (`s"cgi/a.php/x/y") ++ `s".php" /\
    (`s"cgi/a.php/x/y") = uri_path u ++ uri_pathInfo u /\
    uri_extension u = `s".php".
Proof. apply (extractPathInfo_correct (`s".php") demo_cgi_uri); [vm_compute; reflexivity|discriminate]. Defined.
