(* ===== verification/Host.v ===== *)
(** * Host: virtual hosts and request routing ([srcs/Host.cpp], [includes/Host.hpp])

    A host maps patterns to locations and to CGI configurations and decides
    what a request names.  The C++ maps hold pointers into two static lists
    whose elements never change after the configuration was read: the model's
    maps hold the values.  The file system is a parameter. *)

From S2P Require Import Prelude CxxString OrdMap Format Http RequestHeaders RequestUri.
#[local] Open Scope Z_scope.

(** [Location::operator==] and [CGIConfig::operator==] *)
Definition Location_eqb (a b : Location) : bool :=
  negb (negb (Nat.eqb (length (loc_addr_redir a)) (length (loc_addr_redir b)))
        || negb (bool_decide (loc_addr_redir a = loc_addr_redir b))
        || negb (loc_redir a =? loc_redir b)
        || negb (str_eqb (loc_default_uri a) (loc_default_uri b))
        || negb (Bool.eqb (loc_dir_listing a) (loc_dir_listing b))
        || negb (loc_methods a =? loc_methods b)
        || negb (Bool.eqb (loc_upload a) (loc_upload b))
        || negb (str_eqb (loc_upload_root a) (loc_upload_root b))
        || negb (str_eqb (loc_root a) (loc_root b))).

Definition CGIConfig_eqb (a b : CGIConfig) : bool :=
  negb (negb (str_eqb (cgi_exec a) (cgi_exec b))
        || negb (str_eqb (cgi_root a) (cgi_root b))
        || negb (cgi_methods a =? cgi_methods b)
        || negb (str_eqb (cgi_extension a) (cgi_extension b))).

(** Clients and listening servers are named by numbers. *)
Record Host := mkHost {
  h_addr : str;
  h_ports : list str;
  h_body_max_size : Z;
  h_dir_errors : str;
  h_server_names : list str;
  h_locationMap : list (str * Location);
  h_cgiMap : list (str * CGIConfig);
  h_clients : list nat;
  h_listenServers : gset nat;
}.
#[export] Instance eta_Host : Eta Host := fun h =>
  mkHost (h_addr h) (h_ports h) (h_body_max_size h) (h_dir_errors h) (h_server_names h)
    (h_locationMap h) (h_cgiMap h) (h_clients h) (h_listenServers h).

Definition Host_init : Host := mkHost (`s"localhost") [] INT32_MAX [] [] [] [] [] ∅.

Definition getMapObjectByKey {T} (map : list (str * T)) (key : str) : option T :=
  om_find lex_ltb key map.

(** The loop of [getObjectMatch]: [best] is the pair [bestMatch] points to. *)
Fixpoint best_match {T} (uri : str) (best : option (str * T)) (map : list (str * T)) :
    option (str * T) :=
  match map with
  | [] => best
  | it :: map =>
      best_match uri (if isUriMatch uri it.1 (fst <$> best) then Some it else best) map
  end.

Definition getObjectMatch {T} (map : list (str * T)) (uri : str) : option T :=
  snd <$> best_match uri None map.

Definition getLocation (uri : str) (h : Host) : option Location := getMapObjectByKey (h_locationMap h) uri.
Definition getCGIConfig (uri : str) (h : Host) : option CGIConfig := getMapObjectByKey (h_cgiMap h) uri.
Definition matchLocation (uri : str) (h : Host) : option Location := getObjectMatch (h_locationMap h) uri.
Definition matchCGIConfig (uri : str) (h : Host) : option CGIConfig := getObjectMatch (h_cgiMap h) uri.

Definition checkServerName (name : str) (h : Host) : bool :=
  existsb (str_eqb name) (h_server_names h).

Definition addListenServer (s : nat) (h : Host) : Host := h <| h_listenServers := {[s]} ∪ h_listenServers h |>.
Definition removeListenServer (s : nat) (h : Host) : Host := h <| h_listenServers := h_listenServers h ∖ {[s]} |>.
Definition addClient (c : nat) (h : Host) : Host := h <| h_clients := h_clients h ++ [c] |>.
Definition removeClient (c : nat) (h : Host) : Host :=
  h <| h_clients := filter (fun c' => c' <> c) (h_clients h) |>.

(** [std::find] in the static list, an insertion at its end when nothing equal
    is there, and the assignment of every name. *)
Definition pool_add {T} (eqb : T -> T -> bool) (x : T) (pool : list T) : list T * T :=
  match List.find (fun y => eqb y x) pool with
  | Some y => (pool, y)
  | None => (pool ++ [x], x)
  end.

Definition assign_names {T} (names : list str) (x : T) (map : list (str * T)) : list (str * T) :=
  fold_left (fun m n => om_assign lex_ltb n x m) names map.

Definition addLocation (names : list str) (loc : Location) (locations : list Location) (h : Host) :
    list Location * Host :=
  let '(locations, pos) := pool_add Location_eqb loc locations in
  (locations, h <| h_locationMap := assign_names names pos (h_locationMap h) |>).

Definition addCGIConfig (names : list str) (c : CGIConfig) (cgis : list CGIConfig) (h : Host) :
    list CGIConfig * Host :=
  let '(cgis, pos) := pool_add CGIConfig_eqb c cgis in
  (cgis, h <| h_cgiMap := assign_names names pos (h_cgiMap h) |>).

Definition set_rstatus (s : Z) (r : Request) : Request := r <| resHints ; rh_status := s |>.

Definition checkRedirection (r : Request) : outcome exn (Z * Request) :=
  location ← deref (rh_locationRules (resHints r));
  if loc_redir location =? 0 then Ret (0, r)
  else
    let r := if existsb (Z.eqb (loc_redir location))
                  [RES_MULTIPLE_CHOICE; RES_MOVED_PERMANENTLY; RES_FOUND; RES_SEE_OTHER;
                   RES_TEMPORARY_REDIRECT; RES_PERMANENT_REDIRECT]
             then set_rstatus (loc_redir location) r else r in
    let r := r <| resHints ; rh_redirList := Some (loc_addr_redir location) |> in
    Ret (rh_status (resHints r), r).

Definition matchRequest (h : Host) (r : Request) : outcome exn (Z * Request) :=
  let path := uri_path (rh_parsedUri (resHints r)) in
  let r := r <| resHints ; rh_locationRules := matchLocation path h |> in
  let r := r <| resHints ; rh_cgiRules := matchCGIConfig path h |> in
  match rh_cgiRules (resHints r), rh_locationRules (resHints r) with
  | None, None =>
      Ret (RES_NOT_FOUND, set_rstatus RES_NOT_FOUND r <| req_type := REQ_TYPE_NO_MATCH |>)
  | Some cgi, _ =>
      let r := r <| req_type := REQ_TYPE_CGI |> in
      r ← extractPathInfo (cgi_extension cgi) r;
      let u := rh_parsedUri (resHints r) in
      match find SLASH (uri_pathInfo u) with
      | Some _ => Ret (0, r <| resHints ; rh_locationRules := matchLocation (uri_path u) h |>)
      | None => Ret (0, r)
      end
  | None, Some _ =>
      if str_eqb (uri_extension (rh_parsedUri (resHints r))) SLASH
      then Ret (0, r <| req_type := REQ_TYPE_DIR |>)
      else Ret (0, r <| req_type := REQ_TYPE_STATIC |>)
  end.

(** The return value of [parseURI] is ignored. *)
Definition checkDirRessource (h : Host) (r : Request) : outcome exn (Z * Request) :=
  location ← deref (rh_locationRules (resHints r));
  if negb (str_eqb (loc_default_uri location) []) then
    '(_, r) ← fueled (parseURI_suffix (loc_default_uri location) r);
    '(e, r) ← matchRequest h r;
    Ret (if e =? 0 then 0 else RES_NOT_FOUND, r)
  else if loc_dir_listing location then
    if negb (req_method r =? GET) then Ret (RES_FORBIDDEN, set_rstatus RES_FORBIDDEN r)
    else Ret (0, r <| resHints ; rh_path := uri_path (rh_parsedUri (resHints r)) |>)
  else Ret (0, r).

(** [methods & (1 << method)]; a shift by a negative amount is undefined. *)
Definition check_method (methods method : Z) : outcome exn bool :=
  if method <? 0 then Undef else Ret (method_allowed methods method).

Definition checkLocationRules (r : Request) : outcome exn (Z * Request) :=
  location ← deref (rh_locationRules (resHints r));
  allowed ← check_method (loc_methods location) (req_method r);
  if negb allowed then
    Ret (RES_METHOD_NOT_ALLOWED, set_rstatus RES_METHOD_NOT_ALLOWED r)
  else if ((req_method r =? POST) || (req_method r =? PUT)) && (req_type r =? REQ_TYPE_STATIC)
          && negb (loc_upload location) then
    Ret (RES_FORBIDDEN, set_rstatus RES_FORBIDDEN r)
  else Ret (0, r).

Definition checkCGIRules (r : Request) : outcome exn (Z * Request) :=
  cgi ← deref (rh_cgiRules (resHints r));
  allowed ← check_method (cgi_methods cgi) (req_method r);
  if negb allowed then
    Ret (RES_METHOD_NOT_ALLOWED, set_rstatus RES_METHOD_NOT_ALLOWED r)
  else Ret (0, r).

Section routing.
Context (fs : filesystem).

Definition checkRessourcePath (path : str) (type checkWrite : Z) : Z :=
  match fs_stat fs (c_str path) with
  | None => RES_NOT_FOUND
  | Some k =>
      if negb (type =? REQ_TYPE_DIR) && negb (match k with RegularFile => true | _ => false end)
      then RES_FORBIDDEN
      else if (type =? REQ_TYPE_DIR) && negb (match k with Directory => true | _ => false end)
      then RES_NOT_FOUND
      else if negb (checkWrite =? 0) && negb (fs_access fs (c_str path) checkWrite)
      then RES_FORBIDDEN
      else 0
  end.

Definition checkRessourceExistence (r : Request) : outcome exn (Z * Request) :=
  let u := rh_parsedUri (resHints r) in
  '(res, r) ←
    (if req_type r =? REQ_TYPE_CGI then
       cgi ← deref (rh_cgiRules (resHints r));
       let r := r <| resHints ; rh_scriptPath := cgi_root cgi ++ uri_path u |> in
       Ret (checkRessourcePath (rh_scriptPath (resHints r)) REQ_TYPE_CGI R_OK, r)
     else
       location ← deref (rh_locationRules (resHints r));
       if (req_method r =? POST) || (req_method r =? PUT) then
         let path := if negb (str_eqb (loc_upload_root location) [])
                     then loc_upload_root location else loc_root location in
         Ret (checkRessourcePath (path ++ uri_root u) REQ_TYPE_DIR 0, r)
       else
         let r := r <| resHints ; rh_path := loc_root location ++ uri_path u |> in
         Ret (checkRessourcePath (rh_path (resHints r)) (req_type r) R_OK, r));
  Ret (res, set_rstatus res r).

Definition has_location (r : Request) : bool :=
  match rh_locationRules (resHints r) with Some _ => true | None => false end.

(** [if (condition && (res = f(request))) return (res);] *)
Definition check_if (b : bool) (f : Request -> outcome exn (Z * Request))
    (r : Request) (k : Request -> outcome exn (Z * Request)) : outcome exn (Z * Request) :=
  if b then
    '(res, r) ← f r;
    if negb (res =? 0) then Ret (res, r) else k r
  else k r.

Definition checkRequest (h : Host) (r : Request) : outcome exn (Z * Request) :=
  check_if true (matchRequest h) r (fun r =>
  check_if (has_location r) checkRedirection r (fun r =>
  check_if (req_type r =? REQ_TYPE_DIR) (checkDirRessource h) r (fun r =>
  check_if (has_location r) checkLocationRules r (fun r =>
  check_if (req_type r =? REQ_TYPE_CGI) checkCGIRules r (fun r =>
  checkRessourceExistence r))))).
End routing.

(** *** Examples *)
Definition demo_location : Location :=
  Location_init <| loc_root := `s"/www/" |>.
Definition demo_php : CGIConfig := CGIConfig_init <| cgi_root := `s"/cgi/" |>
  <| cgi_methods := 3 |> <| cgi_extension := `s".php" |>.
Definition demo_host : Host :=
  Host_init <| h_locationMap := [(STAR, demo_location)] |>
            <| h_cgiMap := [(`s"*.php*", demo_php)] |>.
Definition demo_fs : filesystem :=
  mkFilesystem (fun p => if str_eqb p (`s"/www/a.txt") || str_eqb p (`s"/cgi/b.php")
                         then Some RegularFile
                         else if str_eqb p (`s"/www/d/") then Some Directory else None)
    (fun _ _ => true) (fun _ => 0) (fun _ => None) (fun _ => None).
Definition demo_request (method : Z) (path extension : str) : Request :=
  Request_init <| req_method := method |>
    <| resHints ; rh_parsedUri := mkURI path path [] [] extension [] |>.

Example checkRequest_ex1 :
  match checkRequest demo_fs demo_host (demo_request GET (`s"a.txt") (`s".txt")) with
  | Ret (res, r) => (res, req_type r, rh_path (resHints r)) = (0, REQ_TYPE_STATIC, `s"/www/a.txt")
  | _ => False
  end.
Proof. vm_compute. reflexivity. Qed.
Example checkRequest_ex2 :
  match checkRequest demo_fs demo_host (demo_request POST (`s"b.php/x") []) with
  | Ret (res, r) => res = RES_METHOD_NOT_ALLOWED
  | _ => False
  end.
Proof. vm_compute. reflexivity. Qed.
Example checkRequest_ex3 :
  match checkRequest demo_fs demo_host (demo_request GET (`s"d/") (`s"/")) with
  | Ret (res, r) => (res, req_type r) = (0, REQ_TYPE_DIR)
  | _ => False
  end.
Proof. vm_compute. reflexivity. Qed.

(** ** The pools *)

Lemma Location_eqb_eq a b : Location_eqb a b = true <-> a = b.
Proof.
  unfold Location_eqb. rewrite negb_true_iff, !orb_false_iff, !negb_false_iff.
  rewrite !Nat.eqb_eq, !bool_decide_eq_true, !Z.eqb_eq, !str_eqb_eq, !Bool.eqb_true_iff.
  split; [|by intros ->]. destruct a, b. simpl. intros. f_equal; tauto.
Qed.

Lemma CGIConfig_eqb_eq a b : CGIConfig_eqb a b = true <-> a = b.
Proof.
  unfold CGIConfig_eqb. rewrite negb_true_iff, !orb_false_iff, !negb_false_iff.
  rewrite !Z.eqb_eq, !str_eqb_eq.
  split; [|by intros ->]. destruct a, b. simpl. intros. f_equal; tauto.
Qed.

Lemma pool_add_spec {T} (eqb : T -> T -> bool) x pool :
  (forall a b, eqb a b = true <-> a = b) ->
  (pool_add eqb x pool).2 = x /\ x ∈ (pool_add eqb x pool).1 /\
  (NoDup pool -> NoDup (pool_add eqb x pool).1).
Proof.
  intros Heq. unfold pool_add. destruct (List.find _ pool) as [y|] eqn:E; simpl.
  - apply List.find_some in E as [Hy ->%Heq]. by rewrite list_elem_of_In.
  - split; [done|]. split; [apply elem_of_app; right; by left|]. intros Hnd.
    apply NoDup_app. split; [done|]. split; [|apply NoDup_singleton].
    intros y Hy ->%list_elem_of_singleton. rewrite list_elem_of_In in Hy.
    eapply List.find_none in E; [|exact Hy]. by rewrite (proj2 (Heq x x)) in E.
Qed.

Lemma assign_names_find {T} (x : T) names : forall map n,
  om_find lex_ltb n (assign_names names x map) =
    if bool_decide (n ∈ names) then Some x else om_find lex_ltb n map.
Proof.
  induction names as [|m names IH]; intros map n; [done|].
  unfold assign_names in *. simpl. rewrite IH.
  destruct (decide (n = m)) as [->|Hne].
  - rewrite (bool_decide_eq_true_2 (m ∈ m :: names)) by (by left).
    unfold om_assign. rewrite om_find_update_eq by apply _. by destruct (bool_decide _).
  - assert (key_equiv lex_ltb m n = false) as Hk.
    { apply not_true_iff_false. rewrite lex_equiv. congruence. }
    unfold om_assign. rewrite om_find_update_ne by (apply _ || done).
    rewrite (bool_decide_ext (n ∈ m :: names) (n ∈ names)); [done|].
    rewrite elem_of_cons. tauto.
Qed.

(** ** Matching *)

Lemma best_match_spec {T} uri (map : list (str * T)) : forall best,
  match best_match uri best map with
  | Some it => best = Some it \/ (it ∈ map /\ isMatch uri (tokenize it.1) = true)
  | None => best = None /\ forall it, it ∈ map -> isMatch uri (tokenize it.1) = false
  end.
Proof.
  induction map as [|it map IH]; intros best; cbn [best_match].
  - destruct best; [by left|]. split; [done|]. by intros it ?%elem_of_nil.
  - specialize (IH (if isUriMatch uri it.1 (fst <$> best) then Some it else best)).
    destruct (best_match _ _ map) as [it'|].
    + destruct IH as [H|[H1 H2]]; [|right; split; [by right|done]].
      destruct (isUriMatch _ _ _) eqn:E; [|by left]. injection H as <-.
      right. split; [by left|]. by eapply isUriMatch_isMatch.
    + destruct IH as [H1 H2]. destruct (isUriMatch _ _ _) eqn:E; [done|]. subst best.
      split; [done|]. intros x [->|Hx]%elem_of_cons; [|by apply H2].
      unfold isUriMatch in E. simpl in E. by destruct (isMatch uri (tokenize it.1)).
Qed.

Lemma getObjectMatch_spec {T} uri (map : list (str * T)) :
  match getObjectMatch map uri with
  | Some v => exists k, (k, v) ∈ map /\ isMatch uri (tokenize k) = true
  | None => forall k v, (k, v) ∈ map -> isMatch uri (tokenize k) = false
  end.
Proof.
  pose proof (best_match_spec uri map None) as H. unfold getObjectMatch.
  destruct (best_match uri None map) as [[k v]|]; simpl.
  - destruct H as [?|H]; [done|]. by exists k.
  - intros k v Hkv. by apply (proj2 H (k, v)).
Qed.

(** The first of the closest entries of [map], closer than [best] if there is one. *)
Definition selects {T} (uri : str) (best : option (str * T)) (map : list (str * T)) (it : str * T) : Prop :=
  exists front back, map = front ++ it :: back /\ isMatch uri (tokenize it.1) = true /\
    (forall b, best = Some b -> closer uri it.1 b.1) /\
    (forall x, x ∈ front -> isMatch uri (tokenize x.1) = true -> closer uri it.1 x.1) /\
    (forall x, x ∈ back -> isMatch uri (tokenize x.1) = true -> ~ closer uri x.1 it.1).

Lemma best_match_selects {T} uri (map : list (str * T)) : forall best,
  short uri -> Forall (fun it => short it.1) map -> (forall b, best = Some b -> short b.1) ->
  match best_match uri best map with
  | Some it => best = Some it /\ (forall x, x ∈ map -> isMatch uri (tokenize x.1) = true -> ~ closer uri x.1 it.1) \/
      selects uri best map it
  | None => True
  end.
Proof.
  induction map as [|x map IH]; intros best Hu Hm Hb; cbn [best_match].
  { destruct best; [|done]. left. split; [done|]. by intros x ?%elem_of_nil. }
  apply Forall_cons in Hm as [Hx Hm]. destruct (isUriMatch uri x.1 (fst <$> best)) eqn:E.
  - assert (isMatch uri (tokenize x.1) = true) as Hxm by by eapply isUriMatch_isMatch.
    assert (forall b, best = Some b -> closer uri x.1 b.1) as Hxb.
    { intros b ->. cbn in E. rewrite isUriMatch_closer in E by first [done|by apply Hb]. by apply andb_true_iff in E as [_ E]. }
    specialize (IH (Some x) Hu Hm ltac:(by intros b [= <-])). destruct (best_match _ _ map) as [it|]; [|done].
    right. destruct IH as [[[= <-] Hback]|(front & back & -> & Hi & Hbest & Hf & Hback)].
    + exists [], map. split_and!; [done..| |done]. by intros y ?%elem_of_nil.
    + exists (x :: front), back. split_and!; [done|done| | |done].
      * intros b Eb. eapply rank_ltb_trans; [by apply Hxb|by apply Hbest].
      * intros y [->|Hy]%elem_of_cons Hym; [by apply Hbest|by apply Hf].
  - assert (isMatch uri (tokenize x.1) = true -> exists b, best = Some b /\ ~ closer uri x.1 b.1) as Hxb.
    { intros Hxm. destruct best as [b|]; cbn in E; [|unfold isUriMatch in E; by rewrite Hxm in E].
      exists b. split; [done|]. rewrite isUriMatch_closer in E by first [done|by apply Hb].
      rewrite Hxm in E. cbn [andb] in E. unfold closer. by rewrite E. }
    specialize (IH best Hu Hm Hb). destruct (best_match _ best map) as [it|]; [|done].
    destruct IH as [[-> Hback]|(front & back & -> & Hi & Hbest & Hf & Hback)]; [left|right].
    + split; [done|]. intros y [->|Hy]%elem_of_cons Hym; [|by apply Hback].
      by destruct (Hxb Hym) as (b & [= <-] & ?).
    + exists (x :: front), back. split_and!; [done|done|done| |done].
      intros y [->|Hy]%elem_of_cons Hym; [|by apply Hf]. destruct (Hxb Hym) as (b & Eb & Hn).
      eapply rank_ltb_le_lt; [by apply not_true_iff_false|by apply Hbest].
Qed.

Lemma getObjectMatch_star {T} uri (map : list (str * T)) x :
  (STAR, x) ∈ map -> exists v, getObjectMatch map uri = Some v.
Proof.
  intros Hx. pose proof (getObjectMatch_spec uri map) as H.
  destruct (getObjectMatch map uri) as [v|]; [by exists v|].
  specialize (H _ _ Hx). by rewrite isMatch_star in H.
Qed.

(** ** Routing *)

(** What a matched request looks like. *)
Definition matched (r : Request) : Prop :=
  (req_type r = REQ_TYPE_CGI /\ exists c, rh_cgiRules (resHints r) = Some c) \/
  ((req_type r = REQ_TYPE_DIR \/ req_type r = REQ_TYPE_STATIC) /\
   exists l, rh_locationRules (resHints r) = Some l).

(** The fields of the request no routing step changes. *)
Definition same_method (r r' : Request) : Prop := req_method r' = req_method r.

Lemma extractPathInfo_frame ext r :
  safe (extractPathInfo ext r) (fun r' =>
    req_method r' = req_method r /\ req_type r' = req_type r /\
    rh_cgiRules (resHints r') = rh_cgiRules (resHints r) /\
    rh_status (resHints r') = rh_status (resHints r)).
Proof.
  unfold extractPathInfo. destruct (_ <? _); [done|]. by destruct (rfind SLASH _).
Qed.

Lemma matchRequest_spec h r :
  safe (matchRequest h r) (fun '(res, r') =>
    same_method r r' /\
    ((res = 0 /\ matched r' /\ rh_status (resHints r') = rh_status (resHints r)) \/
     (res = RES_NOT_FOUND /\ rh_status (resHints r') = RES_NOT_FOUND))).
Proof.
  unfold matchRequest, same_method. cbv zeta.
  set (path := uri_path (rh_parsedUri (resHints r))).
  cbn [rh_cgiRules rh_locationRules resHints upd].
  destruct (matchCGIConfig path h) as [c|].
  - eapply safe_bind; [apply extractPathInfo_frame|]. intros r' (Hm & Ht & Hc & Hs).
    destruct (find SLASH _); simpl; (split; [exact Hm|]); left; (split; [done|]);
      (split; [|exact Hs]); left; (split; [exact Ht|]); exists c; exact Hc.
  - destruct (matchLocation path h) as [l|]; [|simpl; auto].
    destruct (str_eqb _ _); simpl; (split; [done|]); left; (split; [done|]);
      (split; [|done]); right; (split; [auto|by exists l]).
Qed.

Lemma parseURI_method r :
  match parseURI r with Some (_, r') => req_method r' = req_method r | None => True end.
Proof.
  unfold parseURI. destruct (pruneScheme _) as [e q]. destruct (negb _); [done|].
  destruct (extractPath _) as [path query]. destruct (checkPath path) as [[e' p]|]; [|done].
  cbn [mbind option_bind]. destruct (negb _); [done|].
  by destruct (prunePercent _).
Qed.

Lemma parseURI_never_none r : exists p, parseURI r = Some p.
Proof.
  destruct (pruneScheme (_uri r)) as [e q] eqn:Hp. destruct (Z.eq_dec e 0) as [->|Hne].
  - erewrite parseURI_target by exact Hp.
    destruct (parse_target_total (pruneDelim (pruneDelim q (`s"@")) SLASH) r) as (e & r' & -> & _).
    by eexists.
  - unfold parseURI. set (u := _ <| uri_pathInfo := [] |>). change (uri_query u) with (_uri r).
    rewrite Hp, (proj2 (Z.eqb_neq _ _)) by done. by eexists.
Qed.

(** *** The contract of [checkRequest] *)
Section contract.
Context (fs : filesystem).

Definition is_upload (m : Z) : bool := (m =? POST) || (m =? PUT).

Definition upload_dir (l : Location) : str :=
  if negb (str_eqb (loc_upload_root l) []) then loc_upload_root l else loc_root l.

Definition readable (path : str) (k : file_kind) : Prop :=
  fs_stat fs (c_str path) = Some k /\ fs_access fs (c_str path) R_OK = true.

Definition kind_of (type : Z) : file_kind :=
  if type =? REQ_TYPE_DIR then Directory else RegularFile.

(** The location allows the method, and the upload if it is one. *)
Definition location_grants (m : Z) (r : Request) : Prop :=
  forall l, rh_locationRules (resHints r) = Some l ->
    method_allowed (loc_methods l) m = true /\
    (is_upload m = true -> req_type r = REQ_TYPE_STATIC -> loc_upload l = true).

Definition cgi_granted (m : Z) (r : Request) : Prop :=
  exists c, rh_cgiRules (resHints r) = Some c /\ method_allowed (cgi_methods c) m = true /\
    rh_scriptPath (resHints r) = cgi_root c ++ uri_path (rh_parsedUri (resHints r)) /\
    readable (rh_scriptPath (resHints r)) RegularFile.

Definition file_granted (m : Z) (r : Request) : Prop :=
  exists l, rh_locationRules (resHints r) = Some l /\
    if is_upload m then
      fs_stat fs (c_str (upload_dir l ++ uri_root (rh_parsedUri (resHints r)))) = Some Directory
    else
      rh_path (resHints r) = loc_root l ++ uri_path (rh_parsedUri (resHints r)) /\
      readable (rh_path (resHints r)) (kind_of (req_type r)).

(** A request the server goes on with. *)
Definition granted (m : Z) (r : Request) : Prop :=
  req_method r = m /\ location_grants m r /\
  ((req_type r = REQ_TYPE_CGI /\ cgi_granted m r) \/
   ((req_type r = REQ_TYPE_DIR \/ req_type r = REQ_TYPE_STATIC) /\ file_granted m r)).

(** The result of the routing: the status is recorded, and 0 is a grant. *)
Definition routed (m : Z) (x : Z * Request) : Prop :=
  rh_status (resHints x.2) = x.1 /\ (x.1 = 0 -> granted m x.2).

Lemma check_if_safe b f r k Q :
  (b = true -> safe (f r) (fun x => if x.1 =? 0 then safe (k x.2) Q else Q x)) ->
  (b = false -> safe (k r) Q) -> safe (check_if b f r k) Q.
Proof.
  unfold check_if. destruct b; [|auto]. intros H _. eapply safe_bind; [by apply H|].
  intros [res r']. simpl. by destruct (res =? 0).
Qed.

(** A failing step has recorded the status it returns. *)
Lemma routed_fail m res r : res <> 0 -> rh_status (resHints r) = res -> routed m (res, r).
Proof. intros ? ?. by split. Qed.

(** The state between the steps: matched, with the client's method. *)
Definition routing (m : Z) (r : Request) : Prop := matched r /\ req_method r = m.

Lemma checkRedirection_spec m r :
  routing m r -> has_location r = true ->
  safe (checkRedirection r) (fun x => if x.1 =? 0 then routing m x.2 else routed m x).
Proof.
  intros [Hm Hr] Hl. unfold has_location in Hl. unfold checkRedirection.
  destruct (rh_locationRules _) as [l|] eqn:El; [|done]. cbn [deref mbind outcome_bind].
  destruct (_ =? 0); [by split|].
  set (r' := (if existsb _ _ then _ else r) <| resHints ; rh_redirList := _ |>).
  assert (routing m r') as Hr'.
  { unfold r'. destruct (existsb _ _); (split; [|exact Hr]); exact Hm. }
  unfold safe. destruct (Z.eqb_spec (rh_status (resHints r')) 0) as [E|E].
  - change (if rh_status (resHints r') =? 0 then routing m r'
            else routed m (rh_status (resHints r'), r')). by rewrite E.
  - change (if rh_status (resHints r') =? 0 then routing m r'
            else routed m (rh_status (resHints r'), r')).
    rewrite (proj2 (Z.eqb_neq _ _)) by done. by apply routed_fail.
Qed.

Lemma checkDirRessource_spec h m r :
  routing m r -> req_type r = REQ_TYPE_DIR ->
  safe (checkDirRessource h r) (fun x => if x.1 =? 0 then routing m x.2 else routed m x).
Proof.
  intros [Hm Hr] Ht. pose proof Hm as Hm0. unfold checkDirRessource.
  destruct Hm as [[Hc _]|[_ [l El]]]; [by rewrite Ht in Hc|]. rewrite El.
  cbn [deref mbind outcome_bind]. destruct (negb _).
  - unfold parseURI_suffix. set (r0 := r <| _uri := _ |>).
    destruct (parseURI_never_none r0) as [[e r1] Hp]. rewrite Hp. cbn [fueled mbind outcome_bind].
    pose proof (parseURI_method r0) as Hmeth. rewrite Hp in Hmeth.
    eapply safe_bind; [apply matchRequest_spec|]. intros [res r2] [Hsm H]. simpl.
    assert (req_method r2 = m) as Hr2.
    { unfold same_method in Hsm. rewrite Hsm, Hmeth. exact Hr. }
    destruct H as [(-> & Hm2 & _)|(-> & Hs)]; [by split|by apply routed_fail].
  - destruct (loc_dir_listing l); [|by split]. destruct (negb _); [by apply routed_fail|].
    split; [exact Hm0|exact Hr].
Qed.

Lemma checkLocationRules_spec m r :
  0 <= m -> routing m r -> has_location r = true ->
  safe (checkLocationRules r) (fun x =>
    if x.1 =? 0 then routing m x.2 /\ location_grants m x.2 else routed m x).
Proof.
  intros Hm [Hma Hr] Hl. unfold has_location in Hl. unfold checkLocationRules, check_method.
  destruct (rh_locationRules _) as [l|] eqn:El; [|done]. cbn [deref mbind outcome_bind].
  rewrite Hr, (proj2 (Z.ltb_ge _ _)) by done. cbn [mbind outcome_bind].
  destruct (method_allowed _ m) eqn:Ea; [|by apply routed_fail].
  cbn [negb]. destruct (_ && _) eqn:Eu; [by apply routed_fail|].
  split; [by split|]. intros l' Hl'. cbn [snd] in Hl'. rewrite El in Hl'. injection Hl' as <-.
  split; [done|]. intros Hup Hs. unfold is_upload in Hup. cbn [snd] in Hs. rewrite Hup, Hs in Eu.
  by destruct (loc_upload l).
Qed.

Lemma checkCGIRules_spec m r :
  0 <= m -> routing m r -> req_type r = REQ_TYPE_CGI ->
  safe (checkCGIRules r) (fun x =>
    if x.1 =? 0 then x.2 = r /\
      exists c, rh_cgiRules (resHints r) = Some c /\ method_allowed (cgi_methods c) m = true
    else routed m x).
Proof.
  intros Hm [Hma Hr] Ht. unfold checkCGIRules, check_method.
  destruct Hma as [[_ [c Hc]]|[[H|H] _]]; [|by rewrite Ht in H..]. rewrite Hc.
  cbn [deref mbind outcome_bind].
  rewrite Hr, (proj2 (Z.ltb_ge _ _)) by done. cbn [mbind outcome_bind].
  destruct (method_allowed _ m) eqn:Ea; [|by apply routed_fail].
  split; [done|]. by exists c.
Qed.

Lemma checkRessourcePath_spec path type w :
  checkRessourcePath fs path type w = 0 ->
  fs_stat fs (c_str path) = Some (kind_of type) /\ (w <> 0 -> fs_access fs (c_str path) w = true).
Proof.
  unfold checkRessourcePath, kind_of. destruct (fs_stat fs _) as [k|]; [|done].
  destruct (type =? REQ_TYPE_DIR), k; simpl; try done;
    (destruct (Z.eqb_spec w 0) as [->|]; simpl; [by intros|]);
    destruct (fs_access fs (c_str path) w); done.
Qed.
End contract.

Lemma location_grants_frame m r r' :
  rh_locationRules (resHints r') = rh_locationRules (resHints r) -> req_type r' = req_type r ->
  location_grants m r -> location_grants m r'.
Proof. unfold location_grants. intros -> ->. auto. Qed.

Lemma checkRessourceExistence_spec fs m r :
  routing m r -> location_grants m r ->
  (req_type r = REQ_TYPE_CGI ->
     exists c, rh_cgiRules (resHints r) = Some c /\ method_allowed (cgi_methods c) m = true) ->
  safe (checkRessourceExistence fs r) (routed fs m).
Proof.
  intros [Hm Hr] Hg Hc. unfold checkRessourceExistence.
  destruct (Z.eqb_spec (req_type r) REQ_TYPE_CGI) as [Ht|Ht].
  - destruct (Hc Ht) as (c & Ec & Ea). rewrite Ec. cbn. split; [done|]. cbn [fst snd].
    intros [Hst Hacc]%checkRessourcePath_spec. split; [exact Hr|].
    split; [exact (location_grants_frame m r _ eq_refl eq_refl Hg)|].
    left. split; [exact Ht|]. exists c. split_and!; [exact Ec|done|done|split; [exact Hst|by apply Hacc]].
  - destruct Hm as [[? _]|[Htype [l El]]]; [done|]. rewrite El. cbn [deref mbind outcome_bind].
    destruct (_ || _) eqn:Eu; cbn; (split; [done|]); cbn [fst snd];
      intros [Hst Hacc]%checkRessourcePath_spec; (split; [exact Hr|]);
      (split; [exact (location_grants_frame m r _ eq_refl eq_refl Hg)|]); right;
      (split; [exact Htype|]); exists l; (split; [exact El|]);
      unfold is_upload; rewrite <- Hr, Eu; [exact Hst|].
    split; [done|]. split; [exact Hst|by apply Hacc].
Qed.

Lemma checkRequest_routed fs h m r :
  0 <= m -> req_method r = m -> safe (checkRequest fs h r) (routed fs m).
Proof.
  intros Hm Hr. unfold checkRequest. apply check_if_safe; [|done]. intros _.
  eapply safe_mono; [apply matchRequest_spec|]. intros [res r1] [Hsm H]. cbn [fst snd].
  destruct H as [(-> & Hma & _)|(-> & Hs)]; [|by apply routed_fail].
  assert (routing m r1) as H1 by (split; [done|by rewrite Hsm]). cbn [Z.eqb]. clear Hsm Hma Hr r.
  assert (forall r, routing m r -> safe (check_if (has_location r) checkLocationRules r (fun r =>
    check_if (req_type r =? REQ_TYPE_CGI) checkCGIRules r (fun r =>
    checkRessourceExistence fs r))) (routed fs m)) as Hend.
  { intros r Hr.
    assert (forall r, routing m r -> location_grants m r ->
      safe (check_if (req_type r =? REQ_TYPE_CGI) checkCGIRules r (fun r =>
        checkRessourceExistence fs r)) (routed fs m)) as Hend'.
    { clear r Hr. intros r Hr Hg. apply check_if_safe; intros Ht.
      - apply Z.eqb_eq in Ht. eapply safe_mono; [by apply (checkCGIRules_spec fs m)|].
        intros x. cbv beta. destruct (x.1 =? 0); [|done]. intros [-> Hx].
        by apply checkRessourceExistence_spec.
      - apply Z.eqb_neq in Ht. by apply checkRessourceExistence_spec. }
    apply check_if_safe; intros Hl.
    - eapply safe_mono; [by apply (checkLocationRules_spec fs m)|].
      intros x. cbv beta. destruct (x.1 =? 0); [|done]. intros []. by apply Hend'.
    - apply Hend'; [done|]. intros l El. unfold has_location in Hl. by rewrite El in Hl. }
  assert (forall r, routing m r -> safe (check_if (req_type r =? REQ_TYPE_DIR) (checkDirRessource h) r
    (fun r => check_if (has_location r) checkLocationRules r (fun r =>
    check_if (req_type r =? REQ_TYPE_CGI) checkCGIRules r (fun r =>
    checkRessourceExistence fs r)))) (routed fs m)) as Hdir.
  { intros r Hr. apply check_if_safe; intros Ht; [|by apply Hend]. apply Z.eqb_eq in Ht.
    eapply safe_mono; [by apply (checkDirRessource_spec fs h m)|].
    intros x. cbv beta. destruct (x.1 =? 0); [by apply Hend|done]. }
  apply check_if_safe; intros Hl; [|by apply Hdir].
  eapply safe_mono; [by apply (checkRedirection_spec fs m)|].
  intros x. cbv beta. destruct (x.1 =? 0); [by apply Hdir|done].
Qed.

(** ** Properties *)

(** C24: Routing by pattern.  [getObjectMatch] returns NULL exactly when no
    pattern matches the uri, and otherwise the value of the closest matching
    entry, the first one if several are as close.  Closeness is an order of its
    own on the patterns ([closer]): seen from the end, a literal is closer than
    a star, a literal that ends later in the uri than one that ends before, then
    the longer literal, and a pattern with more tokens than one it agrees with.
    (Patterns and uri are below 2^30 bytes.) *)
Theorem getObjectMatch_correct {T} uri (map : list (str * T)) :
  short uri -> Forall (fun it => short it.1) map ->
  match getObjectMatch map uri with
  | Some v => exists front k back, map = front ++ (k, v) :: back /\ isMatch uri (tokenize k) = true /\
      (forall k' v', (k', v') ∈ front -> isMatch uri (tokenize k') = true -> closer uri k k') /\
      (forall k' v', (k', v') ∈ back -> isMatch uri (tokenize k') = true -> ~ closer uri k' k)
  | None => forall k v, (k, v) ∈ map -> isMatch uri (tokenize k) = false
  end.
Proof.
  intros Hu Hm. pose proof (getObjectMatch_spec uri map) as Hspec. unfold getObjectMatch in *.
  pose proof (best_match_selects uri map None Hu Hm ltac:(done)) as H.
  destruct (best_match uri None map) as [[k v]|]; [|done]. cbn in *.
  destruct H as [[? _]|(front & back & E & Hk & _ & Hf & Hb)]; [done|]. exists front, k, back.
  split_and!; [done|done|..]; intros k' v' Hin; [exact (Hf _ Hin)|exact (Hb _ Hin)].
Qed.

Definition demo_patterns : list (str * nat) := [(`s"*", 0%nat); (`s"*.py", 1%nat); (`s"img/*", 2%nat); (`s"img/big/*", 3%nat)].

Lemma getObjectMatch_correct_witness :
  getObjectMatch demo_patterns (`s"img/big/a.png") = Some 3%nat /\
  exists front k back, demo_patterns = front ++ (k, 3%nat) :: back /\
    isMatch (`s"img/big/a.png") (tokenize k) = true /\
    (forall k' v', (k', v') ∈ front -> isMatch (`s"img/big/a.png") (tokenize k') = true -> closer (`s"img/big/a.png") k k') /\
    (forall k' v', (k', v') ∈ back -> isMatch (`s"img/big/a.png") (tokenize k') = true -> ~ closer (`s"img/big/a.png") k' k).
Proof.
  split; [vm_compute; reflexivity|].
  apply (getObjectMatch_correct (`s"img/big/a.png") demo_patterns).
  - vm_compute. discriminate.
  - repeat constructor; vm_compute; discriminate.
Defined.

(** The last occurrence decides: a directory that appears again in the uri makes
    its location closer than the location of a directory inside it. *)
Theorem nested_location_missed :
  getObjectMatch [(`s"a/*", 1%nat); (`s"a/b/*", 2%nat)] (`s"a/b/c.html") = Some 2%nat /\
  getObjectMatch [(`s"a/*", 1%nat); (`s"a/b/*", 2%nat)] (`s"a/b/a/c.html") = Some 1%nat.
Proof. split; vm_compute; reflexivity. Qed.

(** C23: The contract of [checkRequest].  For a parsed method it never
    dereferences a null rule, never shifts by a negative amount and terminates;
    the value it returns is the status it records; and when it returns 0 the
    request is granted: the rules that apply allow the method (and the upload),
    and the resource it will use exists with the expected kind and is
    readable. *)
Theorem checkRequest_contract fs h r :
  0 <= req_method r ->
  safe (checkRequest fs h r) (fun '(res, r') =>
    rh_status (resHints r') = res /\ (res = 0 -> granted fs (req_method r) r')).
Proof.
  intros Hm. eapply safe_mono; [by apply (checkRequest_routed fs h (req_method r))|].
  by intros [res r'].
Qed.

Lemma checkRequest_contract_witness :
  safe (checkRequest demo_fs demo_host (demo_request GET (`s"a.txt") (`s".txt"))) (fun '(res, r') =>
    rh_status (resHints r') = res /\ (res = 0 -> granted demo_fs GET r')).
Proof. apply (checkRequest_contract demo_fs demo_host (demo_request GET _ _)). discriminate. Defined.

(** Redirections come first: once the request is matched to a location with a
    supported redirection status, that status and the list of targets are the
    answer, whatever the method and the file system. *)
Theorem checkRequest_redirects fs h r r1 l :
  matchRequest h r = Ret (0, r1) -> rh_locationRules (resHints r1) = Some l ->
  loc_redir l ∈ [RES_MULTIPLE_CHOICE; RES_MOVED_PERMANENTLY; RES_FOUND; RES_SEE_OTHER;
                 RES_TEMPORARY_REDIRECT; RES_PERMANENT_REDIRECT] ->
  exists r', checkRequest fs h r = Ret (loc_redir l, r') /\
    rh_status (resHints r') = loc_redir l /\
    rh_redirList (resHints r') = Some (loc_addr_redir l).
Proof.
  intros Hm Hl Hr.
  assert (loc_redir l <> 0) as Hne by (intros E; rewrite E in Hr; revert Hr;
    apply (bool_decide_unpack (0 ∉ _)); vm_compute; exact I).
  assert (existsb (Z.eqb (loc_redir l)) [RES_MULTIPLE_CHOICE; RES_MOVED_PERMANENTLY; RES_FOUND;
    RES_SEE_OTHER; RES_TEMPORARY_REDIRECT; RES_PERMANENT_REDIRECT] = true) as He.
  { apply existsb_exists. exists (loc_redir l). rewrite <- list_elem_of_In, Z.eqb_refl. done. }
  unfold checkRequest, check_if at 1. rewrite Hm. cbn [mbind outcome_bind negb Z.eqb].
  unfold has_location at 1. rewrite Hl. unfold check_if at 1, checkRedirection. rewrite Hl.
  cbn [deref mbind outcome_bind]. rewrite (proj2 (Z.eqb_neq _ _) Hne), He.
  set (r' := (set_rstatus (loc_redir l) r1) <| resHints ; rh_redirList := _ |>).
  change (rh_status (resHints r')) with (loc_redir l).
  cbn [mbind outcome_bind]. rewrite (proj2 (Z.eqb_neq _ _) Hne). by exists r'.
Qed.

Definition demo_redirection : Location :=
  Location_init <| loc_redir := 301 |> <| loc_addr_redir := [`s"http://x/"] |>.

Lemma checkRequest_redirects_witness :
  exists r', checkRequest demo_fs (Host_init <| h_locationMap := [(STAR, demo_redirection)] |>)
      (demo_request DELETE (`s"a") []) = Ret (301, r') /\
    rh_status (resHints r') = 301 /\ rh_redirList (resHints r') = Some [`s"http://x/"].
Proof.
  eapply (checkRequest_redirects _ _ _ _ demo_redirection).
  - vm_compute. reflexivity.
  - reflexivity.
  - apply (bool_decide_unpack _). vm_compute. exact I.
Defined.

(** A host with a "*" location never answers 404 for want of a match. *)
Theorem matchRequest_default h r l :
  (STAR, l) ∈ h_locationMap h ->
  safe (matchRequest h r) (fun '(res, r') => res = 0 /\ matched r').
Proof.
  intros Hl. pose proof (matchRequest_spec h r) as Hs.
  destruct (getObjectMatch_star (uri_path (rh_parsedUri (resHints r))) _ _ Hl) as [v Hv].
  unfold matchRequest, matchLocation in *. cbv zeta in *. rewrite Hv in *.
  cbn [rh_cgiRules rh_locationRules resHints upd] in *.
  destruct (matchCGIConfig _ h) as [c|].
  - destruct (extractPathInfo _ _) as [r1| | |]; [|exact Hs..]. cbn [mbind outcome_bind] in *.
    destruct (find SLASH _); simpl in *; destruct Hs as [_ [(_ & Hm & _)|[? _]]]; done.
  - destruct (str_eqb _ _); simpl in *; destruct Hs as [_ [(_ & Hm & _)|[? _]]]; done.
Qed.

Lemma matchRequest_default_witness :
  safe (matchRequest demo_host (demo_request GET (`s"zzz") [])) (fun '(res, r') => res = 0 /\ matched r').
Proof. apply (matchRequest_default demo_host _ demo_location). by left. Defined.

(** A directory of a location with [dir_listing off] and no index is not
    refused: [checkDirRessource] returns 0 and the request is granted as a
    directory whenever it is readable. *)
Theorem checkRequest_listing_off fs h r r1 l :
  matchRequest h r = Ret (0, r1) -> req_method r = GET -> req_type r1 = REQ_TYPE_DIR ->
  rh_locationRules (resHints r1) = Some l ->
  loc_redir l = 0 -> loc_default_uri l = [] -> loc_dir_listing l = false ->
  method_allowed (loc_methods l) GET = true ->
  readable fs (loc_root l ++ uri_path (rh_parsedUri (resHints r1))) Directory ->
  exists r', checkRequest fs h r = Ret (0, r') /\ req_type r' = REQ_TYPE_DIR.
Proof.
  intros Hm Hg Ht Hl Hred Hdef Hoff Hall [Hst Hacc].
  assert (req_method r1 = GET) as Hg1.
  { pose proof (matchRequest_spec h r) as Hs. rewrite Hm in Hs. destruct Hs as [Hs _].
    by rewrite <- Hg. }
  unfold checkRequest, check_if at 1. rewrite Hm. cbn [mbind outcome_bind negb Z.eqb].
  unfold check_if at 1, has_location at 1, checkRedirection. rewrite Hl.
  cbn [deref mbind outcome_bind]. rewrite Hred. cbn [Z.eqb mbind outcome_bind negb].
  unfold check_if at 1, checkDirRessource. rewrite Ht, Hl.
  cbn [deref mbind outcome_bind Z.eqb Pos.eqb REQ_TYPE_DIR]. rewrite Hdef, Hoff.
  cbn [str_eqb bool_decide negb mbind outcome_bind Z.eqb].
  change (str_eqb [] []) with true. cbn [negb mbind outcome_bind Z.eqb].
  unfold check_if at 1, has_location at 1, checkLocationRules, check_method. rewrite Hl.
  cbn [deref mbind outcome_bind]. rewrite Hg1. cbn [Z.ltb Z.compare GET mbind outcome_bind].
  rewrite Hall. cbn [negb mbind outcome_bind Z.eqb orb andb GET POST PUT].
  unfold check_if. rewrite Ht. cbn [Z.eqb Pos.eqb REQ_TYPE_DIR REQ_TYPE_CGI].
  unfold checkRessourceExistence. rewrite Ht, Hl, Hg1.
  cbn [deref mbind outcome_bind Z.eqb Pos.eqb REQ_TYPE_DIR REQ_TYPE_CGI GET POST PUT orb].
  unfold checkRessourcePath. cbn [rh_path resHints upd req_type]. rewrite Hst, Ht.
  rewrite Hacc. cbn. eexists. split; [reflexivity|]. reflexivity.
Qed.

Lemma checkRequest_listing_off_witness :
  exists r', checkRequest demo_fs demo_host (demo_request GET (`s"d/") (`s"/")) = Ret (0, r') /\
    req_type r' = REQ_TYPE_DIR.
Proof.
  eapply (checkRequest_listing_off demo_fs demo_host _ _ demo_location).
  { vm_compute. reflexivity. }
  all: try reflexivity.
  split; vm_compute; reflexivity.
Defined.

(** Configuration lookups.  After [addLocation] every given name maps to the
    location, every other name keeps its value, the pool contains the location
    and still holds no two equal ones. *)
Theorem addLocation_correct names l pool h :
  let '(pool', h') := addLocation names l pool h in
  (forall n, getLocation n h' = if bool_decide (n ∈ names) then Some l else getLocation n h) /\
  l ∈ pool' /\ (NoDup pool -> NoDup pool').
Proof.
  unfold addLocation. pose proof (pool_add_spec Location_eqb l pool Location_eqb_eq) as H.
  destruct (pool_add _ l pool) as [pool' pos]. destruct H as (Hx & Hin & Hnd). simpl in Hx, Hin, Hnd.
  subst pos. split; [|done]. intros n. apply assign_names_find.
Qed.
