(* ===== verification/Response.v ===== *)
(** * Response: building and queueing responses ([srcs/Response.cpp])

    A response is built from the [ResHints] of its request, which it holds by
    reference, and is pushed on the client's queue in portions of at most
    [BUFFER_SIZE] bytes.  The date and the file system are parameters. *)

From S2P Require Import Prelude CxxString OrdMap Format Http.
#[local] Open Scope Z_scope.

(** ** Tables *)

Definition init_mimes : list (str * str) :=
  fold_left (fun m e => om_assign lex_ltb e.1 e.2 m) [
   (`s".html", `s"text/html");
   (`s".htm", `s"text/html");
   (`s".shtml", `s"text/html");
   (`s".css", `s"text/css");
   (`s".xml", `s"text/xml");
   (`s".gif", `s"image/gif");
   (`s".jpeg", `s"image/jpeg");
   (`s".jpg", `s"image/jpeg");
   (`s".js", `s"application/javascript");
   (`s".atom", `s"application/atom+xml");
   (`s".rss", `s"application/rss+xml");
   (`s".mml", `s"text/mathml");
   (`s".txt", `s"text/plain");
   (`s".jad", `s"text/vnd.sun.j2me.app-descriptor");
   (`s".wml", `s"text/vnd.wap.wml");
   (`s".htc", `s"text/x-component");
   (`s".avif", `s"image/avif");
   (`s".png", `s"image/png");
   (`s".svg", `s"image/svg+xml");
   (`s".svgz", `s"image/svg+xml");
   (`s".tif", `s"image/tiff");
   (`s".tiff", `s"image/");
   (`s".wbmp", `s"image/vnd.wap.wbmp");
   (`s".webp", `s"image/webp");
   (`s".ico", `s"image/x-icon");
   (`s".jng", `s"image/x-jng");
   (`s".bmp", `s"image/x-ms-bmp");
   (`s".woff", `s"font/woff");
   (`s".woff2", `s"font/woff2");
   (`s".jar", `s"application/java-archive");
   (`s".war", `s"application/java-archive");
   (`s".ear", `s"application/java-archive");
   (`s".json", `s"application/json");
   (`s".hqx", `s"application/mac-binhex40");
   (`s".doc", `s"application/msword");
   (`s".pdf", `s"application/pdf");
   (`s".ps", `s"application/postscript");
   (`s".eps", `s"application/postscript");
   (`s".ai", `s"application/postscript");
   (`s".rtf", `s"application/rtf");
   (`s".m3u8", `s"application/vnd.apple.mpegurl");
   (`s".kml", `s"application/vnd.google-earth.kml+xml");
   (`s".kmz", `s"application/vnd.google-earth.kmz");
   (`s".xls", `s"application/vnd.ms-excel");
   (`s".eot", `s"application/vnd.ms-fontobject");
   (`s".ppt", `s"application/vnd.ms-powerpoint");
   (`s".odg", `s"application/vnd.oasis.opendocument.graphics");
   (`s".odp", `s"application/vnd.oasis.opendocument.presentation");
   (`s".ods", `s"application/vnd.oasis.opendocument.spreadsheet");
   (`s".odt", `s"application/vnd.oasis.opendocument.text");
   (`s".pptx", `s"application/vnd.openxmlformats-officedocument.presentationml.presentation");
   (`s".xlsx", `s"application/vnd.openxmlformats-officedocument.spreadsheetml.sheet");
   (`s".docx", `s"application/vnd.openxmlformats-officedocument.wordprocessingml.document");
   (`s".wmlc", `s"application/vnd.wap.wmlc");
   (`s".wasm", `s"application/wasm");
   (`s".7z", `s"application/x-7z-compressed");
   (`s".cco", `s"application/x-cocoa");
   (`s".jardiff", `s"application/x-java-archive-diff");
   (`s".jnlp", `s"application/x-java-jnlp-file");
   (`s".run", `s"application/x-makeself");
   (`s".pl", `s"application/x-perl");
   (`s".pm", `s"application/x-perl");
   (`s".prc", `s"application/x-pilot");
   (`s".pdb", `s"application/x-pilot");
   (`s".rar", `s"application/x-rar-compressed");
   (`s".rpm", `s"application/x-redhat-package-manager");
   (`s".sea", `s"application/x-sea");
   (`s".swf", `s"application/x-shockwave-flash");
   (`s".sit", `s"application/x-stuffit");
   (`s".tcl", `s"application/x-tcl");
   (`s".tk", `s"application/x-tcl");
   (`s".der", `s"application/x-x509-ca-cert");
   (`s".pem", `s"application/x-x509-ca-cert");
   (`s".crt", `s"application/x-x509-ca-cert");
   (`s".xpi", `s"application/x-xpinstall");
   (`s".xhtml", `s"application/xhtml+xml");
   (`s".xspf", `s"application/xspf+xml");
   (`s".zip", `s"application/zip");
   (`s".bin", `s"application/octet-stream");
   (`s".exe", `s"application/octet-stream");
   (`s".dll", `s"application/octet-stream");
   (`s".deb", `s"application/octet-stream");
   (`s".dmg", `s"application/octet-stream");
   (`s".iso", `s"application/octet-stream");
   (`s".img", `s"application/octet-stream");
   (`s".msi", `s"application/octet-stream");
   (`s".msp", `s"application/octet-stream");
   (`s".msm", `s"application/octet-stream");
   (`s".mid", `s"audio/midi");
   (`s".midi", `s"audio/midi");
   (`s".kar", `s"audio/midi");
   (`s".mp3", `s"audio/mpeg");
   (`s".ogg", `s"audio/ogg");
   (`s".m4a", `s"audio/x-m4a");
   (`s".ra", `s"audio/x-realaudio");
   (`s".3gpp", `s"video/3gpp");
   (`s".3gp", `s"video/3gpp");
   (`s".ts", `s"video/mp2t");
   (`s".mp4", `s"video/mp4");
   (`s".mpeg", `s"video/mpeg");
   (`s".mpg", `s"video/mpeg");
   (`s".mov", `s"video/quicktime");
   (`s".webm", `s"video/webm");
   (`s".flv", `s"video/x-flv");
   (`s".m4v", `s"video/x-m4v");
   (`s".mng", `s"video/x-mng");
   (`s".asx", `s"video/x-ms-asf");
   (`s".asf", `s"video/x-ms-asf");
   (`s".wmv", `s"video/x-ms-wmv");
   (`s".avi", `s"video/x-msvideo")] [].

Definition init_response : list (Z * str) := [
   (100, `s"Continue");
   (200, `s"OK");
   (201, `s"CREATED");
   (204, `s"No Content");
   (300, `s"Multiple Choices");
   (301, `s"Move Permanently");
   (302, `s"Found");
   (303, `s"See other");
   (307, `s"Temporary Redirect");
   (308, `s"Permanent Redirect");
   (400, `s"Bad Request");
   (401, `s"Unauthorized");
   (403, `s"Forbidden");
   (404, `s"Not Found");
   (405, `s"Method Not Allowed");
   (408, `s"Request Timeout");
   (413, `s"Content Too Large");
   (414, `s"URI Too Long");
   (415, `s"Unsupported Media Type");
   (417, `s"Expectation Failed");
   (500, `s"Internal Server Error");
   (501, `s"Not Implemented");
   (503, `s"Service Unavailable");
   (505, `s"HTTP Version Not Supported")].

(** [ResponseLine[status]]: a missing entry is created empty. *)
Fixpoint lookup_status (status : Z) (m : list (Z * str)) : str :=
  match m with
  | [] => []
  | (k, v) :: m => if k =? status then v else lookup_status status m
  end.
Definition ResponseLine (status : Z) : str := lookup_status status init_response.

(** The status of a head that is too large has no entry. *)
Example reason_431_missing : ResponseLine 431 = [].
Proof. reflexivity. Qed.

Definition itostr (num : Z) : str := IntToString num 10.

(** ** Responses *)

(** The classes derived from [AResponse], with the members their operations use:
    the text of a one-line response, the body of a dynamic one, the bytes the
    open stream of a file response will read. *)
Inductive AResponse : Type :=
  | SingleLineResponse (status : Z) (response : str)
  | DynamicResponse (status : Z) (body : str)
  | FileResponse (status : Z) (fstr : str).

Definition getStatus (a : AResponse) : Z :=
  match a with
  | SingleLineResponse status _ | DynamicResponse status _ | FileResponse status _ => status
  end.

(** [while (!s.empty()) { portion = s.substr(0, BUFFER_SIZE); push; erase }] *)
Fixpoint portions_loop (fuel : nat) (s : str) : list str :=
  match fuel with
  | O => []
  | S fuel =>
      if is_empty s then []
      else
        let portion := take (Z.to_nat BUFFER_SIZE) s in
        portion :: portions_loop fuel (drop (length portion) s)
  end.
Definition portions (s : str) : list str := portions_loop (length s) s.

(** The read loop of [FileResponse::writeResponse]: the stream is [good()] after
    a read that filled the buffer. *)
Fixpoint file_loop (fuel : nat) (s : str) : list str :=
  match fuel with
  | O => []
  | S fuel =>
      let outBuff := take (Z.to_nat BUFFER_SIZE) s in
      if Nat.eqb (length outBuff) 0 then []
      else outBuff ::
        (if Nat.eqb (length outBuff) (Z.to_nat BUFFER_SIZE)
         then file_loop fuel (drop (Z.to_nat BUFFER_SIZE) s) else [])
  end.
Definition file_portions (s : str) : list str := file_loop (S (length s)) s.

Definition addHeader (key value : str) (h : ResHints) : ResHints :=
  h <| rh_headers := om_assign i_less key value (rh_headers h) |>.

(** [insert] of every entry into the map it comes from. *)
Definition addHintHeaders (h : ResHints) : ResHints :=
  h <| rh_headers := fold_left (fun m e => om_update i_less e.1 (default e.2) m)
                       (rh_headers h) (rh_headers h) |>.

Definition header_field (e : str * str) : str := (e.1 ++ `s": ") ++ (e.2 ++ CRLF).
Definition cookie_field (c : str) : str := `s"Set-Cookie: " ++ (c ++ CRLF).

Definition _formatHeaders (status : Z) (h : ResHints) : str :=
  (`s"HTTP/1.1 " ++ itostr status ++ `s" " ++ ResponseLine status ++ CRLF) ++
  concat (map header_field (rh_headers h)) ++
  concat (map cookie_field (rh_cookies h)) ++ CRLF.

(** What [writeResponse] pushes on the queue. *)
Definition writeResponse (a : AResponse) (h : ResHints) : list str :=
  match a with
  | SingleLineResponse _ response => portions response
  | DynamicResponse status body =>
      portions (_formatHeaders status h) ++ (if rh_method h =? HEAD then [] else portions body)
  | FileResponse status fstr =>
      portions (_formatHeaders status h) ++ (if rh_method h =? HEAD then [] else file_portions fstr)
  end.

Definition QUOTE : str := [ascii_of_nat 34].

(** [redir[redir.size() - 1]] on an empty string is out of bounds. *)
Definition getRedirPath (redir filename : str) : outcome exn str :=
  if is_empty redir then Undef
  else if Ascii.eqb (char_at redir (length redir - 1)) "/"%char then Ret (redir ++ filename)
  else Ret redir.

(** [redirList->front()] *)
Definition redir_front (h : ResHints) : outcome exn str :=
  l ← deref (rh_redirList h);
  match l with
  | [] => Undef
  | x :: _ => Ret x
  end.

Definition status_line (h : ResHints) : str :=
  itostr (rh_status h) ++ `s" " ++ ResponseLine (rh_status h).

Definition generateSimpleRedirBody (h : ResHints) : outcome exn str :=
  let line := status_line h in
  front ← redir_front h;
  redir ← getRedirPath front (uri_filename (rh_parsedUri h));
  Ret (`s"<html><head><title> " ++ line ++ `s" </title><meta http-equiv=" ++ QUOTE ++ `s"refresh"
       ++ QUOTE ++ `s"content=" ++ QUOTE ++ `s"0; url=" ++ redir ++ QUOTE
       ++ `s"></head><body><style>"
       ++ `s"#one{color:darkred;text-align:center;font-size:300%;}"
       ++ `s"#two{text-align:center;font-size:150%;}</style>"
       ++ `s"<p id=" ++ QUOTE ++ `s"one" ++ QUOTE ++ `s">" ++ line ++ `s"</p>"
       ++ `s"<p id=" ++ QUOTE ++ `s"two" ++ QUOTE
       ++ `s"> The document can be found at <a href=" ++ QUOTE ++ redir ++ QUOTE ++ `s">"
       ++ redir ++ `s"</a></p></body></html>").

Definition generateVerboseBody (h : ResHints) : str :=
  let line := status_line h in
  `s"<html><head><title> " ++ line ++ `s" </title></head><body><style>"
  ++ `s"#one{color:darkred;text-align:center;font-size:300%;}"
  ++ `s"#two{color:brown;text-align:center;font-size:150%;}</style>"
  ++ `s"<p id=" ++ QUOTE ++ `s"one" ++ QUOTE ++ `s">" ++ line ++ `s"</p>"
  ++ `s"<p id=" ++ QUOTE ++ `s"two" ++ QUOTE ++ `s">" ++ rh_verboseError h
  ++ `s"</p></body></html>".

Fixpoint list_items (l : list str) (filename : str) : outcome exn str :=
  match l with
  | [] => Ret []
  | it :: l =>
      p ← getRedirPath it filename;
      items ← list_items l filename;
      Ret ((`s"<li><a href=" ++ QUOTE ++ p ++ QUOTE ++ `s">" ++ p ++ `s"</a></li>") ++ items)
  end.

Definition generateListBody (h : ResHints) : outcome exn str :=
  let line := status_line h in
  l ← deref (rh_redirList h);
  items ← list_items l (uri_filename (rh_parsedUri h));
  Ret (`s"<html><head><title> " ++ line ++ `s" </title></head><body><style>"
       ++ `s"#one{color:darkred;text-align:center;font-size:300%;}"
       ++ `s"#two{text-align:center;font-size:150%;}</style>"
       ++ `s"<p id=" ++ QUOTE ++ `s"one" ++ QUOTE ++ `s">" ++ line ++ `s"</p>"
       ++ `s"<p id=" ++ QUOTE ++ `s"two" ++ QUOTE ++ `s"> The document has been moved to: </p>"
       ++ `s"<ul>" ++ items ++ `s"</ul>" ++ `s"</body></html>").

(** [status % 100] of a non-negative status. *)
Definition generateRedirBody (h : ResHints) : outcome exn str :=
  let k := Z.rem (rh_status h) 100 in
  if (k =? 0) || (k =? 8) then generateListBody h else generateSimpleRedirBody h.

Definition extractDir (path : str) : str :=
  if Nat.eqb (length path) 1 then `s"root"
  else match rfind (`s"/") (take (length path - 1) path) with
       | None => path
       | Some idx => drop (idx + 1) path
       end.

Section response.
Context (fs : filesystem) (date : str).

(** [d_type] 8 is a regular file, 4 a directory. *)
Definition dir_entry (e : str * Z) : str :=
  if negb (e.2 =? 8) && negb (e.2 =? 4) then []
  else `s"<li><a href = " ++ QUOTE ++ e.1 ++ (if e.2 =? 4 then `s"/" else []) ++ QUOTE ++ `s">"
       ++ e.1 ++ `s"</a></li>".

Definition generateDirListing (h : ResHints) : outcome exn str :=
  let dir := rh_path h in
  let dir_name := extractDir dir in
  match fs_dir fs (c_str dir) with
  | None => Throw std_exception
  | Some files =>
      Ret (`s"<html><head><title> dir list </title></head><body><style>"
           ++ `s"#two{text-align:center;font-size:200%;}"
           ++ `s"#one{list-style-type:disc; line-height:150%;}</style>"
           ++ `s"<p id=" ++ QUOTE ++ `s"two" ++ QUOTE ++ `s"> Contents of " ++ dir_name ++ `s" </p>"
           ++ `s"<ul id=" ++ QUOTE ++ `s"one" ++ QUOTE ++ `s">"
           ++ concat (map dir_entry files) ++ `s"</ul></body></html>")
  end.

(** Returns the body and the hints with the entity headers. *)
Definition generateBody (h : ResHints) : outcome exn (str * ResHints) :=
  body ← (if (rh_status h =? RES_OK) && (rh_type h =? REQ_TYPE_DIR) then generateDirListing h
          else if Z.quot (rh_status h) 100 =? 3 then generateRedirBody h
          else Ret (generateVerboseBody h));
  let h := addHeader (`s"Content-Length") (itostr (zlen body)) h in
  Ret (body, addHeader (`s"Content-Type") (`s"text/html") h).

Definition addSpecificHeaders (h : ResHints) : outcome exn ResHints :=
  if Z.quot (rh_status h) 100 =? 3 then
    front ← redir_front h;
    redir ← getRedirPath front (uri_filename (rh_parsedUri h));
    Ret (addHeader (`s"Location") redir h)
  else Ret h.

Definition addUniversalHeaders (h : ResHints) : ResHints :=
  addHeader (`s"Date") date
    (addHeader (`s"Accept-Ranges") (`s"none") (addHeader (`s"Accept-Encoding") (`s"identity") h)).

Definition checkType (h : ResHints) : ResHints :=
  match om_find lex_ltb (rh_extension h) init_mimes with
  | Some type => if rh_status h <? 400 then addHeader (`s"Content-Type") type h else h
  | None => h
  end.

(** What the stream reads after [seekg(index)]. *)
Definition seek (index : Z) (s : str) : str :=
  if index <? 0 then [] else drop (Z.to_nat index) s.

Definition inspectFile (h : ResHints) : outcome exn (str * ResHints) :=
  match fs_stat fs (c_str (rh_path h)) with
  | None => Throw (domain_error (`s"Can't get stat of target file: " ++ rh_path h))
  | Some _ =>
      let length := u64 (u64 (fs_size fs (c_str (rh_path h))) - rh_index h) in
      match fs_open fs (c_str (rh_path h)) with
      | None => Throw (domain_error (`s"Could not open target file: " ++ rh_path h))
      | Some content =>
          let fstr := seek (rh_index h) content in
          let h := h <| rh_index := 0 |> in
          let h := addHeader (`s"Content-Length") (itostr length) h in
          Ret (fstr, checkType h)
      end
  end.

(** An exception leaves the headers added so far in the hints. *)
Definition genResponse (h : ResHints) : failing ResHints (AResponse * ResHints) :=
  if rh_status h =? 100 then
    Ret (SingleLineResponse (rh_status h) (`s"HTTP/1.1 100 Continue" ++ CRLF), h)
  else if is_empty (rh_path h) || ((rh_status h =? RES_OK) && (rh_type h =? REQ_TYPE_DIR)) then
    let h := addHintHeaders (addUniversalHeaders h) in
    h ← throwing h (addSpecificHeaders h);
    '(body, h) ← throwing h (generateBody h);
    Ret (DynamicResponse (rh_status h) body, h)
  else
    let h := addHintHeaders (addUniversalHeaders h) in
    '(fstr, h) ← throwing h (inspectFile h);
    Ret (FileResponse (rh_status h) fstr, h).
End response.

(** *** Examples *)
Example mime_ex : om_find lex_ltb (`s".svg") init_mimes = Some (`s"image/svg+xml").
Proof. vm_compute. reflexivity. Qed.
Example extractDir_ex :
  (extractDir (`s"/"), extractDir (`s"a/b/"), extractDir (`s"a"), extractDir (`s"ab")) =
  (`s"root", `s"b/", `s"root", `s"ab").
Proof. vm_compute. reflexivity. Qed.

(** ** Portions *)

Definition portion_ok (p : str) : Prop := p <> [] /\ zlen p <= BUFFER_SIZE.

Lemma portions_loop_spec fuel : forall s,
  (length s <= fuel)%nat -> concat (portions_loop fuel s) = s /\ Forall portion_ok (portions_loop fuel s).
Proof.
  induction fuel as [|fuel IH]; intros s Hf; cbn [portions_loop].
  { destruct s; [done|simpl in Hf; lia]. }
  destruct (is_empty s) eqn:E; [by destruct s|]. apply is_empty_false in E.
  set (p := take (Z.to_nat BUFFER_SIZE) s).
  assert (length p = Nat.min (Z.to_nat BUFFER_SIZE) (length s)) as Hp by apply length_take.
  assert (0 < length s)%nat as Hs by (destruct s; [done|simpl; lia]).
  assert (0 < length p)%nat as Hp0 by (unfold BUFFER_SIZE in *; lia).
  destruct (IH (drop (length p) s)) as [H1 H2]; [rewrite length_drop; lia|].
  cbn [concat]. rewrite H1. split.
  - unfold p. rewrite length_take. destruct (decide (Z.to_nat BUFFER_SIZE <= length s)%nat).
    + rewrite Nat.min_l by done. apply take_drop.
    + rewrite Nat.min_r by lia. rewrite firstn_all2, drop_all by lia. apply app_nil_r.
  - constructor; [|done]. split; [intros E'; rewrite E' in Hp0; simpl in Hp0; lia|].
    unfold zlen. unfold BUFFER_SIZE in *. lia.
Qed.

Lemma portions_spec s : concat (portions s) = s /\ Forall portion_ok (portions s).
Proof. by apply portions_loop_spec. Qed.

(** The file loop and the string loop cut the same portions. *)
Lemma file_loop_portions fuel : forall s,
  (length s < fuel)%nat -> file_loop fuel s = portions_loop fuel s.
Proof.
  induction fuel as [|fuel IH]; intros s Hf; [lia|]. cbn [file_loop portions_loop].
  set (p := take (Z.to_nat BUFFER_SIZE) s).
  assert (length p = Nat.min (Z.to_nat BUFFER_SIZE) (length s)) as Hp by apply length_take.
  destruct s as [|c s]; [done|]. cbn [is_empty].
  destruct (Nat.eqb_spec (length p) 0) as [E|_]; [unfold BUFFER_SIZE in *; simpl in *; lia|].
  f_equal. destruct (Nat.eqb_spec (length p) (Z.to_nat BUFFER_SIZE)) as [E|E].
  - rewrite E. apply IH. rewrite length_drop. unfold BUFFER_SIZE in *. lia.
  - assert (length p = length (c :: s)) as -> by lia. rewrite drop_all.
    by destruct fuel.
Qed.

Lemma portions_loop_fuel n m s :
  (length s <= n)%nat -> (length s <= m)%nat -> portions_loop n s = portions_loop m s.
Proof.
  revert m s. induction n as [|n IH]; intros [|m] s Hn Hm; cbn [portions_loop]; try done.
  - by destruct s; [|simpl in Hn; lia].
  - by destruct s; [|simpl in Hm; lia].
  - destruct (is_empty s) eqn:E; [done|]. f_equal.
    apply IH; rewrite length_drop, length_take; apply is_empty_false in E;
      (destruct s; [done|]; unfold BUFFER_SIZE; simpl length in *; lia).
Qed.

Lemma file_portions_eq s : file_portions s = portions s.
Proof.
  unfold file_portions. rewrite file_loop_portions by lia. by apply portions_loop_fuel; [lia|].
Qed.

(** The bytes of the body a response carries. *)
Definition body_of (a : AResponse) : str :=
  match a with
  | SingleLineResponse _ _ => []
  | DynamicResponse _ body => body
  | FileResponse _ fstr => fstr
  end.

Definition head_of (a : AResponse) (h : ResHints) : str :=
  match a with
  | SingleLineResponse _ response => response
  | _ => _formatHeaders (getStatus a) h
  end.

Lemma writeResponse_spec a h :
  concat (writeResponse a h) = head_of a h ++ (if rh_method h =? HEAD then [] else body_of a) /\
  Forall portion_ok (writeResponse a h).
Proof.
  destruct a as [s t|s b|s f]; cbn [writeResponse head_of body_of getStatus].
  - destruct (portions_spec t) as [H1 H2]. split; [|done]. rewrite H1.
    destruct (_ =? HEAD); by rewrite app_nil_r.
  - destruct (portions_spec (_formatHeaders s h)) as [H1 H2].
    destruct (portions_spec b) as [H3 H4]. rewrite concat_app, H1.
    destruct (_ =? HEAD); [cbn [concat]; by rewrite !app_nil_r|].
    rewrite H3. by rewrite Forall_app.
  - destruct (portions_spec (_formatHeaders s h)) as [H1 H2].
    destruct (portions_spec f) as [H3 H4]. rewrite concat_app, H1, file_portions_eq.
    destruct (_ =? HEAD); [cbn [concat]; by rewrite !app_nil_r|].
    rewrite H3. by rewrite Forall_app.
Qed.

(** ** Headers *)

Lemma addHeader_find k k' v h :
  om_find i_less k' (rh_headers (addHeader k v h)) =
    if key_equiv i_less k k' then Some v else om_find i_less k' (rh_headers h).
Proof.
  unfold addHeader. cbn [rh_headers upd]. unfold om_assign.
  destruct (key_equiv i_less k k') eqn:E.
  - rewrite <- (om_find_proper i_less k k' E _ _ eq_refl). by rewrite om_find_update_eq by apply _.
  - by rewrite om_find_update_ne by (apply _ || done).
Qed.

Lemma checkType_find h k :
  key_equiv i_less (`s"Content-Type") k = false ->
  om_find i_less k (rh_headers (checkType h)) = om_find i_less k (rh_headers h).
Proof.
  intros Hk. unfold checkType. destruct (om_find lex_ltb _ _) as [t|]; [|done].
  destruct (_ <? 400); [|done]. by rewrite addHeader_find, Hk.
Qed.

Lemma checkType_frame h : rh_method (checkType h) = rh_method h /\ rh_status (checkType h) = rh_status h.
Proof. unfold checkType. destruct (om_find lex_ltb _ _); [|done]. by destruct (_ <? 400). Qed.

Lemma seek_length index s :
  0 <= index <= zlen s -> zlen (seek index s) = zlen s - index.
Proof.
  intros H. unfold seek. rewrite (proj2 (Z.ltb_ge _ _)) by lia.
  unfold zlen in *. rewrite length_drop. lia.
Qed.

(** A file whose size [stat] tells is the number of bytes the stream reads. *)
Definition stable_file (fs : filesystem) (h : ResHints) : Prop :=
  forall content, fs_open fs (c_str (rh_path h)) = Some content ->
    fs_size fs (c_str (rh_path h)) = zlen content /\ 0 <= rh_index h <= zlen content /\ zlen content < npos.

Lemma inspectFile_spec fs h :
  safe (inspectFile fs h) (fun '(f, h') =>
    rh_status h' = rh_status h /\
    (stable_file fs h ->
       om_find i_less (`s"content-length") (rh_headers h') = Some (itostr (zlen f)))).
Proof.
  unfold inspectFile. destruct (fs_stat fs _); [|done].
  destruct (fs_open fs _) as [content|] eqn:E; [|done]. cbv zeta.
  match goal with |- context [checkType ?x] => set (h1 := x) end.
  cbn [safe]. split; [by destruct (checkType_frame h1)|]. intros Hst.
  destruct (Hst content E) as (Hsz & Hi & Hlen). rewrite checkType_find by done.
  unfold h1. rewrite addHeader_find.
  change (key_equiv i_less (`s"Content-Length") (`s"content-length")) with true. cbv iota.
  do 2 f_equal. rewrite seek_length by lia. rewrite Hsz. unfold u64, npos in *.
  rewrite (Z.mod_small (zlen content)) by lia. by rewrite Z.mod_small by lia.
Qed.

(** ** Redirections *)

(** A redirection has at least one target and no empty one. *)
Definition redirectable (h : ResHints) : Prop :=
  Z.quot (rh_status h) 100 = 3 ->
  exists l, rh_redirList h = Some l /\ l <> [] /\ Forall (fun x => x <> []) l.

Lemma getRedirPath_ret x f : x <> [] -> exists p, getRedirPath x f = Ret p.
Proof.
  intros Hx. unfold getRedirPath. destruct x as [|c x]; [done|]. cbn [is_empty].
  by destruct (Ascii.eqb _ _); eexists.
Qed.

Lemma list_items_ret l f : Forall (fun x => x <> []) l -> exists p, list_items l f = Ret p.
Proof.
  induction 1 as [|x l Hx _ [p IH]]; [by eexists|]. cbn [list_items].
  destruct (getRedirPath_ret x f Hx) as [q ->]. cbn [mbind outcome_bind]. rewrite IH. by eexists.
Qed.

Lemma redir_front_ret h l :
  rh_redirList h = Some l -> l <> [] -> Forall (fun x => x <> []) l ->
  exists x, redir_front h = Ret x /\ x <> [].
Proof.
  intros E Hne Hl. unfold redir_front. rewrite E. destruct l as [|x l]; [done|].
  exists x. split; [done|]. by inversion Hl.
Qed.

Lemma addSpecificHeaders_safe h :
  redirectable h -> safe (addSpecificHeaders h) (fun h' =>
    rh_status h' = rh_status h /\ rh_type h' = rh_type h /\ rh_redirList h' = rh_redirList h).
Proof.
  intros Hr. unfold addSpecificHeaders. destruct (Z.eqb_spec (Z.quot (rh_status h) 100) 3) as [E|]; [|done].
  destruct (Hr E) as (l & El & Hne & Hl). destruct (redir_front_ret h l) as (x & -> & Hx); [done..|].
  cbn [mbind outcome_bind]. by destruct (getRedirPath_ret x (uri_filename (rh_parsedUri h)) Hx) as [p ->].
Qed.

Lemma generateRedirBody_ret h l :
  rh_redirList h = Some l -> l <> [] -> Forall (fun x => x <> []) l ->
  exists body, generateRedirBody h = Ret body.
Proof.
  intros E Hne Hl. unfold generateRedirBody. destruct (_ || _).
  - unfold generateListBody. rewrite E. cbn [deref mbind outcome_bind].
    destruct (list_items_ret l (uri_filename (rh_parsedUri h)) Hl) as [p ->]. by eexists.
  - unfold generateSimpleRedirBody. destruct (redir_front_ret h l) as (x & -> & Hx); [done..|].
    cbn [mbind outcome_bind].
    destruct (getRedirPath_ret x (uri_filename (rh_parsedUri h)) Hx) as [p ->]. by eexists.
Qed.

Lemma generateBody_safe fs h :
  redirectable h -> safe (generateBody fs h) (fun _ => True).
Proof.
  intros Hr. unfold generateBody. eapply safe_bind with (P := fun _ => True); [|done].
  destruct (_ && _); [unfold generateDirListing; by destruct (fs_dir fs _)|].
  destruct (Z.eqb_spec (Z.quot (rh_status h) 100) 3) as [E|]; [|done].
  destruct (Hr E) as (l & El & Hne & Hl). by destruct (generateRedirBody_ret h l El Hne Hl) as [b ->].
Qed.

Lemma generateBody_length fs h b h' :
  generateBody fs h = Ret (b, h') ->
  om_find i_less (`s"content-length") (rh_headers h') = Some (itostr (zlen b)).
Proof.
  unfold generateBody. intros (body & _ & H)%bind_ret_inv. injection H as <- <-.
  rewrite addHeader_find.
  change (key_equiv i_less (`s"Content-Type") (`s"content-length")) with false. cbv iota.
  by rewrite addHeader_find.
Qed.

Lemma genResponse_defined fs date h :
  redirectable h -> safe (genResponse fs date h) (fun _ => True).
Proof.
  intros Hr. unfold genResponse. destruct (_ =? 100); [done|]. destruct (_ || _).
  - eapply safe_bind; [by apply safe_map_exn, addSpecificHeaders_safe|]. intros h1 (Hs & _ & Hl).
    eapply safe_bind; [apply safe_map_exn, generateBody_safe|by intros []].
    unfold redirectable in *. by rewrite Hs, Hl.
  - eapply safe_bind; [apply safe_map_exn, inspectFile_spec|by intros []].
Qed.

(** An exception leaves more headers, and nothing else. *)
Lemma genResponse_thrown fs date h e h' :
  genResponse fs date h = Throw (e, h') -> h' = h <| rh_headers := rh_headers h' |>.
Proof.
  assert (forall h1, addHintHeaders (addUniversalHeaders date h1) =
    h1 <| rh_headers := rh_headers (addHintHeaders (addUniversalHeaders date h1)) |>) as Hadd by done.
  unfold genResponse. destruct (_ =? 100); [done|]. set (h1 := addHintHeaders _) in *. destruct (_ || _).
  - destruct (addSpecificHeaders h1) as [h2|e2| |] eqn:E2; cbn [throwing map_exn mbind outcome_bind]; [|by intros [= _ <-]|done..].
    destruct (generateBody fs h2) as [[b h3]|e3| |]; cbn [throwing map_exn mbind outcome_bind]; [done| |done..].
    intros [= _ <-]. revert E2. unfold addSpecificHeaders. destruct (_ =? 3); [|by intros [= <-]].
    intros (x & _ & (y & _ & E)%bind_ret_inv)%bind_ret_inv. by injection E as <-.
  - destruct (inspectFile fs h1) as [[f h2]|e2| |]; cbn [throwing map_exn mbind outcome_bind]; [done| |done..].
    by intros [= _ <-].
Qed.

(** The status of the response is the one asked for. *)
Lemma genResponse_status fs date h a h' :
  genResponse fs date h = Ret (a, h') -> getStatus a = rh_status h.
Proof.
  unfold genResponse. destruct (rh_status h =? 100).
  { intros H. by injection H as <- _. }
  destruct (_ || _).
  - intros H. apply bind_ret_inv in H as (h1 & H1%throwing_ret & H).
    apply bind_ret_inv in H as ([b h2] & Hb%throwing_ret & H). injection H as <- _. cbn [getStatus].
    assert (rh_status h1 = rh_status h) as <-.
    { unfold addSpecificHeaders in H1. destruct (_ =? 3); [|by injection H1 as <-].
      apply bind_ret_inv in H1 as (x & _ & H1). apply bind_ret_inv in H1 as (y & _ & H1).
      by injection H1 as <-. }
    apply bind_ret_inv in Hb as (x & _ & Hb). by injection Hb as _ <-.
  - intros H. apply bind_ret_inv in H as ([f h1] & Hf%throwing_ret & H). injection H as <- _. cbn [getStatus].
    pose proof (inspectFile_spec fs (addHintHeaders (addUniversalHeaders date h))) as Hs.
    rewrite Hf in Hs. by destruct Hs as [-> _].
Qed.

Lemma genResponse_single fs date h s t h' :
  genResponse fs date h = Ret (SingleLineResponse s t, h') -> rh_status h = 100.
Proof.
  unfold genResponse. destruct (Z.eqb_spec (rh_status h) 100); [done|]. destruct (_ || _).
  - by intros (h1 & _ & ([b h2] & _ & ?)%bind_ret_inv)%bind_ret_inv.
  - by intros ([f h1] & _ & ?)%bind_ret_inv.
Qed.

Lemma genResponse_length fs date h a h' :
  genResponse fs date h = Ret (a, h') -> rh_status h <> 100 -> stable_file fs h ->
  om_find i_less (`s"Content-Length") (rh_headers h') = Some (itostr (zlen (body_of a))).
Proof.
  intros H H100 Hst. unfold genResponse in H. rewrite (proj2 (Z.eqb_neq _ _)) in H by done.
  rewrite (om_find_proper i_less (`s"Content-Length") (`s"content-length") eq_refl _ _ eq_refl).
  destruct (_ || _).
  - apply bind_ret_inv in H as (h1 & _ & H). apply bind_ret_inv in H as ([b h2] & Hb%throwing_ret & H).
    injection H as <- <-. by eapply generateBody_length.
  - apply bind_ret_inv in H as ([f h1] & Hf%throwing_ret & H). injection H as <- <-.
    pose proof (inspectFile_spec fs (addHintHeaders (addUniversalHeaders date h))) as Hs.
    rewrite Hf in Hs. destruct Hs as [_ Hs]. by apply Hs.
Qed.

(** ** Properties *)

(** [writeResponse] queues exactly the head and then the body (none for a
    HEAD request), cut in non-empty portions of at most [BUFFER_SIZE] bytes. *)
Theorem writeResponse_correct a h :
  concat (writeResponse a h) = head_of a h ++ (if rh_method h =? HEAD then [] else body_of a) /\
  Forall (fun p => p <> [] /\ zlen p <= BUFFER_SIZE) (writeResponse a h).
Proof. apply writeResponse_spec. Qed.

(** C29: Framing.  What [writeResponse] queues for a response of [genResponse] is
    the head followed by a body.  The head announces, as Content-Length, the
    exact number of bytes of that body; for a HEAD request no body follows and
    the number is that of the body another method would get.  For a file this
    takes that [stat]'s size is what the stream reads.  (The interim response,
    which has no body, is apart.) *)
Theorem genResponse_content_length fs date h a h' :
  genResponse fs date h = Ret (a, h') -> rh_status h <> 100 -> stable_file fs h ->
  exists body n,
    concat (writeResponse a h') = _formatHeaders (rh_status h) h' ++ body /\
    om_find i_less (`s"Content-Length") (rh_headers h') = Some (itostr n) /\
    if rh_method h' =? HEAD then body = [] /\ concat (writeResponse a (h' <| rh_method := GET |>)) =
      _formatHeaders (rh_status h) h' ++ body_of a /\ zlen (body_of a) = n
    else zlen body = n.
Proof.
  intros H H100 Hst. pose proof (genResponse_status _ _ _ _ _ H) as Hs.
  pose proof (genResponse_length _ _ _ _ _ H H100 Hst) as Hl.
  assert (forall h1, rh_headers h1 = rh_headers h' -> rh_cookies h1 = rh_cookies h' -> concat (writeResponse a h1) =
    _formatHeaders (rh_status h) h' ++ (if rh_method h1 =? HEAD then [] else body_of a)) as Hw.
  { intros h1 E1 E2. rewrite (proj1 (writeResponse_spec a h1)). f_equal.
    assert (head_of a h1 = _formatHeaders (getStatus a) h1) as ->.
    { destruct a; [|done..]. by destruct (genResponse_single _ _ _ _ _ _ H). }
    unfold _formatHeaders. by rewrite Hs, E1, E2. }
  eexists _, _. split; [by apply Hw|]. split; [exact Hl|]. destruct (rh_method h' =? HEAD); [|done].
  split; [done|]. split; [|done]. by rewrite (Hw (h' <| rh_method := GET |>)).
Qed.

Definition demo_hints (status : Z) (path : str) : ResHints :=
  ResHints_init <| rh_status := status |> <| rh_path := path |> <| rh_extension := `s".txt" |>.
Definition demo_files : filesystem :=
  mkFilesystem (fun _ => Some RegularFile) (fun _ _ => true) (fun _ => 5) (fun _ => Some (`s"hello"))
    (fun _ => None).

Lemma genResponse_content_length_witness :
  exists a h', genResponse demo_files (`s"now") (demo_hints 200 (`s"/f")) = Ret (a, h') /\
  exists body n,
    concat (writeResponse a h') = _formatHeaders 200 h' ++ body /\
    om_find i_less (`s"Content-Length") (rh_headers h') = Some (itostr n) /\
    if rh_method h' =? HEAD then body = [] /\ concat (writeResponse a (h' <| rh_method := GET |>)) =
      _formatHeaders 200 h' ++ body_of a /\ zlen (body_of a) = n
    else zlen body = n.
Proof.
  eexists _, _. split; [vm_compute; reflexivity|].
  eapply (genResponse_content_length demo_files (`s"now") (demo_hints 200 (`s"/f"))).
  - vm_compute. reflexivity.
  - discriminate.
  - intros content [= <-]. split; [reflexivity|]. split; [split; discriminate|reflexivity].
Defined.

(** [genResponse] has defined behaviour: if a redirection status comes with a
    non-empty list of non-empty targets, it returns a response or throws one of
    the exceptions [generateResponse] catches. *)
Theorem genResponse_safe fs date h :
  redirectable h -> safe (genResponse fs date h) (fun _ => True).
Proof. apply genResponse_defined. Qed.

Lemma genResponse_safe_witness :
  safe (genResponse demo_files (`s"now")
    ((demo_hints 301 []) <| rh_redirList := Some [`s"http://x/"] |>)) (fun _ => True).
Proof.
  apply genResponse_safe. intros _. exists [`s"http://x/"]. split; [reflexivity|].
  split; [discriminate|]. repeat constructor. discriminate.
Defined.

(** The table of MIME types maps each of its extensions to its type and
    nothing else: it is a sorted map without duplicates. *)
Theorem init_mimes_correct :
  om_sorted lex_ltb init_mimes /\ length init_mimes = 110%nat /\
  forall e v, om_find lex_ltb e init_mimes = Some v <-> (e, v) ∈ init_mimes.
Proof.
  assert (om_sorted lex_ltb init_mimes) as Hs.
  { unfold init_mimes. cbn [fold_left fst snd]. unfold om_assign.
    repeat (apply om_update_sorted; [apply _|]). constructor. }
  split; [done|]. split; [vm_compute; reflexivity|]. intros e v.
  rewrite om_find_Some by (apply _ || done). split.
  - intros (k & Hin & Hk). apply lex_equiv in Hk as ->. done.
  - intros Hin. exists e. split; [done|apply key_equiv_refl; apply _].
Qed.

(** The interim response is not terminated: what is sent for a 100 status is
    the status line alone, without the empty line that ends a head. *)
Theorem continue_unterminated fs date h :
  rh_status h = 100 ->
  exists a, genResponse fs date h = Ret (a, h) /\
    concat (writeResponse a h) = `s"HTTP/1.1 100 Continue" ++ CRLF /\
    find (CRLF ++ CRLF) (concat (writeResponse a h)) = None.
Proof.
  intros Hs. unfold genResponse. rewrite Hs. eexists. split; [reflexivity|].
  split; vm_compute; reflexivity.
Qed.

Lemma continue_unterminated_witness :
  exists a, genResponse demo_files [] (demo_hints 100 []) = Ret (a, demo_hints 100 []) /\
    concat (writeResponse a (demo_hints 100 [])) = `s"HTTP/1.1 100 Continue" ++ CRLF /\
    find (CRLF ++ CRLF) (concat (writeResponse a (demo_hints 100 []))) = None.
Proof. apply continue_unterminated. reflexivity. Defined.
