(* ===== verification/Cgi.v ===== *)
(** * Cgi: running a CGI script and reading its answer ([srcs/CGIProcess.cpp])

    The parent's side: [execCGI] (the fork's result is a parameter), [checkEnd]
    (the answer of [waitpid] and the clock are parameters), the parser of the
    script's headers and what they decide; and of the child, the environment
    [_setVariables] builds and what [_launchCGI] runs, in which directory and with
    which files as standard input and output, up to [execv]. *)

From S2P Require Import Prelude CxxString OrdMap Format Http RequestHeaders RequestUri.
#[local] Open Scope Z_scope.

Definition CGI_TIME_OUT : Z := 10000.
Definition CGI_RES_ERROR : Z := -1.
Definition CGI_RES_NONE : Z := 0.
Definition CGI_RES_DOC : Z := 1.
Definition CGI_RES_LOCAL_REDIRECT : Z := 2.
Definition CGI_RES_CLIENT_REDIRECT : Z := 3.
Definition CHILD_RUNNING : Z := 0.

Record CGIProcess := mkCGIProcess {
  cgi_line : str;
  cgi_index : Z;
  cgi_headers : list (str * str);
  cgi_fork_time : Z;
  cgi_pid : Z;
  cgi_status : Z;
}.
#[export] Instance eta_CGIProcess : Eta CGIProcess := fun p =>
  mkCGIProcess (cgi_line p) (cgi_index p) (cgi_headers p) (cgi_fork_time p) (cgi_pid p)
    (cgi_status p).

Definition CGIProcess_init : CGIProcess := mkCGIProcess [] 0 [] 0 0 0.

(** [None] is the return value 0. *)
Definition _getLine (p : CGIProcess) (buffer : str) : option (CGIProcess * str) :=
  match find CRLF buffer with
  | None => None
  | Some idx =>
      Some (p <| cgi_line := take idx buffer |> <| cgi_index := u64 (cgi_index p + Z.of_nat idx + 2) |>,
            drop (idx + 2) buffer)
  end.

(** Despite its name: false when the C strings are equal up to case. *)
Definition tolower (c : ascii) : ascii := lower_char c.
Fixpoint isLowerEqual (a b : str) : bool :=
  match a with
  | [] => negb (Ascii.eqb (tolower (char_at b 0)) (tolower NUL))
  | c :: a' =>
      if negb (Ascii.eqb c NUL) && Ascii.eqb (tolower c) (tolower (char_at b 0))
      then isLowerEqual a' (tail b)
      else negb (Ascii.eqb (tolower c) (tolower (char_at b 0)))
  end.

Definition SPACE : ascii := " "%char.

Definition _extract_header (p : CGIProcess) (h : ResHints) : Z * CGIProcess * ResHints :=
  match find [COLON] (cgi_line p) with
  | None => (500, p, h)
  | Some idx =>
      let key := take idx (cgi_line p) in
      let value := drop (idx + 1) (cgi_line p) in
      let value := drop_while (fun c => Ascii.eqb c SPACE) value in
      if negb (isLowerEqual key (`s"Set-Cookie")) then
        (0, p <| cgi_line := [] |>, h <| rh_cookies := rh_cookies h ++ [value] |>)
      else
        (0, p <| cgi_headers := om_assign i_less key value (cgi_headers p) |> <| cgi_line := [] |>, h)
  end.

Definition _retrieveHeader (key : str) (p : CGIProcess) : option str :=
  om_find i_less key (cgi_headers p).

Definition set_header (key value : str) (h : ResHints) : ResHints :=
  h <| rh_headers := om_assign i_less key value (rh_headers h) |>.

Definition on_hints (f : ResHints -> ResHints) (r : Request) : Request :=
  r <| resHints := f (resHints r) |>.

(** The last branch of [_inspectHeaders]. *)
Definition inspect_document (p : CGIProcess) (r : Request) : Z * Request :=
  let failed := match _retrieveHeader (`s"Status") p with
                | Some value => negb ((getInt value 10 (rh_status (resHints r))).1 =? 0)
                | None => false
                end in
  if failed : bool then (CGI_RES_DOC, on_hints (fun h => h <| rh_status := 500 |>) r)
  else
    (CGI_RES_DOC, on_hints (fun h =>
       let h := h <| rh_status := 200 |> in
       match _retrieveHeader (`s"Content-Type") p with
       | Some value => set_header (`s"Content-Type") value (h <| rh_hasBody := true |>)
       | None => h <| rh_hasBody := false |>
       end) r).

Definition _inspectHeaders (p : CGIProcess) (r : Request) : Z * Request :=
  match cgi_headers p with
  | [] => (CGI_RES_ERROR, r)
  | _ =>
      match _retrieveHeader (`s"Location") p with
      | Some value =>
          if str_eqb (take 7 value) (`s"http://") then
            (CGI_RES_CLIENT_REDIRECT, on_hints (fun h =>
               let h := (set_header (`s"Location") value h) <| rh_status := 302 |> in
               match _retrieveHeader (`s"Content-Type") p with
               | Some v => (set_header (`s"Content-Type") v h) <| rh_hasBody := true |>
               | None => h
               end) r)
          else if Ascii.eqb (char_at value 0) "/"%char then
            (CGI_RES_LOCAL_REDIRECT, on_hints (fun h => h <| rh_index := 0 |>) (setUri value r))
          else inspect_document p r
      | None => inspect_document p r
      end
  end.

(** The loop over the lines; [None] when out of fuel, [inr] when a line has no
    colon. *)
Fixpoint cgi_lines (fuel : nat) (p : CGIProcess) (buffer : str) (h : ResHints) :
    option (CGIProcess * ResHints + CGIProcess * ResHints) :=
  match fuel with
  | O => None
  | S fuel =>
      match _getLine p buffer with
      | None => Some (inl (p, h))
      | Some (p, buffer) =>
          if is_empty (cgi_line p) then Some (inl (p, h))
          else
            let '(e, p, h) := _extract_header p h in
            if negb (e =? 0) then Some (inr (p, h)) else cgi_lines fuel p buffer h
      end
  end.

(** [content] is what a stream opened on the output file reads. *)
Definition parse_cgi_headers (content : str) (p : CGIProcess) (r : Request) :
    option (Z * CGIProcess * Request) :=
  let buffer := take (Z.to_nat BUFFER_SIZE) content in
  x ← cgi_lines (S (length buffer)) p buffer (resHints r);
  match x with
  | inr (p, h) => Some (0, p, r <| resHints := h <| rh_status := 500 |> |>)
  | inl (p, h) =>
      let r := r <| resHints := h <| rh_index := i32 (cgi_index p) |> |> in
      let '(res, r) := _inspectHeaders p r in
      Some (res, p, r)
  end.

(** The answer of [waitpid(pid, &status, WNOHANG)].  An error (-1) does not set
    [status], which the code reads all the same: [status] is then whatever the
    variable held. *)
Inductive wait_result : Type :=
  | Running
  | Exited (code : Z)
  | Signaled
  | WaitError (status : Z).

(** The macros of [<sys/wait.h>]. *)
Definition WEXITSTATUS (status : Z) : Z := Z.shiftr (Z.land status 65280) 8.
Definition WIFSIGNALED (status : Z) : bool :=
  negb (Z.land status 127 =? 0) && negb (Z.land status 127 =? 127).

(** The return value, the process and whether the child was killed. *)
Definition checkEnd (wait : wait_result) (now : Z) (p : CGIProcess) : Z * CGIProcess * bool :=
  if cgi_pid p =? 0 then (-1, p, false)
  else
    match wait with
    | Running =>
        if CGI_TIME_OUT <? now - cgi_fork_time p then (-1, p <| cgi_pid := 0 |>, true)
        else (0, p, false)
    | Exited c => (if negb (c =? 0) then -1 else 1, p <| cgi_pid := 0 |>, false)
    | Signaled => (-1, p <| cgi_pid := 0 |>, false)
    | WaitError status =>
        (if negb (WEXITSTATUS status =? 0) || WIFSIGNALED status then -1 else 1, p <| cgi_pid := 0 |>, false)
    end.

(** The parent's side; [name] is what [generate_name] returns, [pid] what [fork]
    returned to the parent. *)
Definition execCGI (now : Z) (name : str) (pid : Z) (p : CGIProcess) (r : Request) :
    Z * CGIProcess * Request :=
  let p := p <| cgi_fork_time := now |> in
  let r := on_hints (fun h => h <| rh_path := name |>) r in
  if 0 <? pid then (0, p <| cgi_pid := pid |> <| cgi_status := CHILD_RUNNING |>, r)
  else if pid <? 0 then (1, p, r)
  else (0, p, r).

(** [setenv(name, value, 1)] and [unsetenv(name)]. *)
Abbreviation env := (gmap str str).
Definition setenv (name value : str) (e : env) : env := <[name := c_str value]> e.
Definition unsetenv (name : str) (e : env) : env := delete name e.

(** [METHOD_STR[method]] *)
Definition method_str (r : Request) : outcome exn str :=
  if req_method r <? 0 then Undef else deref (METHOD_STR !! Z.to_nat (req_method r)).

(** PATH_INFO and PATH_TRANSLATED; [cgiRules] is dereferenced only when there is
    a path info. *)
Definition set_path_info (r : Request) (e : env) : outcome exn env :=
  let u := rh_parsedUri (resHints r) in
  if negb (is_empty (uri_pathInfo u)) then
    c ← deref (rh_cgiRules (resHints r));
    Ret (setenv (`s"PATH_TRANSLATED") (cgi_root c ++ uri_pathInfo u)
           (setenv (`s"PATH_INFO") (uri_pathInfo u) e))
  else Ret (unsetenv (`s"PATH_TRANSLATED") (unsetenv (`s"PATH_INFO") e)).

Definition _setVariables (addr : str) (port : Z) (bodyFile : str) (r : Request) (e : env) :
    outcome exn env :=
  let u := rh_parsedUri (resHints r) in
  method ← method_str r;
  let e := setenv (`s"REQUEST_METHOD") method e in
  let e := setenv (`s"QUERY_STRING") (uri_query u) e in
  let e := setenv (`s"GATEWAY_INTERFACE") (`s"CGI/1.1") e in
  let e := setenv (`s"SERVER_PROTOCOL") (`s"HTTP/1.1") e in
  let e := setenv (`s"SERVER_NAME") (getHeader (`s"Host") r) e in
  let e := setenv (`s"REMOTE_ADDR") addr e in
  let e := setenv (`s"SERVER_PORT") (IntToString port 10) e in
  e ← set_path_info r e;
  let e := setenv (`s"SCRIPT_NAME") (rh_scriptPath (resHints r)) e in
  let e := if negb (str_eqb bodyFile []) && negb (str_eqb (getHeader (`s"Content-Type") r) [])
           then setenv (`s"CONTENT_TYPE") (getHeader (`s"Content-Type") r) e
           else unsetenv (`s"CONTENT_TYPE") e in
  Ret (if negb (str_eqb (getHeader (`s"Cookie") r) [])
       then setenv (`s"HTTP_COOKIE") (getHeader (`s"Cookie") r) e
       else unsetenv (`s"HTTP_COOKIE") e).

(** What [execv] is called with, in which directory, on which standard input
    and output. *)
Record exec_call := mkExec {
  ex_path : str;
  ex_argv : list str;
  ex_cwd : str;
  ex_stdin : option str;
  ex_stdout : str;
  ex_env : env;
}.

(** What the system calls of the child answer. *)
Record child_os := mkChildOs {
  ch_getcwd : str;
  ch_chdir : str -> bool;
  ch_open_read : str -> bool;
  ch_create : str -> bool;
  ch_exec : exec_call -> bool;
}.

(** The end of a child: its image is replaced, or it goes on as a copy of the
    server with [child_exit_exception] in flight ([Throw]). *)
Definition _launchCGI (os : child_os) (addr : str) (port : Z) (bodyFile : str) (r : Request) (e : env) :
    outcome exn exec_call :=
  let h := resHints r in
  rules ← deref (rh_cgiRules h);
  let body := if negb (is_empty (rh_bodyFileName h))
              then ch_getcwd os ++ erase (rh_bodyFileName h) 0 1 else [] in
  let script := ch_getcwd os ++ erase (rh_scriptPath h) 0 1 in
  let root := ch_getcwd os ++ erase (cgi_root rules) 0 1 in
  let r := r <| resHints := h <| rh_bodyFileName := body |> <| rh_scriptPath := script |> |> in
  if negb (ch_chdir os (c_str root)) then Throw child_exit_exception
  else
    let argv := (if negb (str_eqb (cgi_extension rules) (`s".out")) then [c_str (cgi_exec rules)] else [])
                ++ [c_str script] in
    if negb (is_empty body) && negb (ch_open_read os (c_str body)) then Throw child_exit_exception
    else if negb (ch_create os (c_str (rh_path h))) then Throw child_exit_exception
    else
      e ← _setVariables addr port bodyFile r e;
      path ← deref (head argv);
      let call := mkExec path argv (c_str root)
                    (if is_empty body then None else Some (c_str body)) (c_str (rh_path h)) e in
      if ch_exec os call then Ret call else Throw child_exit_exception.

(** *** Examples *)
Definition demo_cgi (content : str) : option (Z * Z * Z * list (str * str)) :=
  '(res, p, r) ← parse_cgi_headers content CGIProcess_init Request_init;
  Some (res, rh_status (resHints r), rh_index (resHints r), rh_headers (resHints r)).

Example cgi_ex1 :
  demo_cgi (crlf "Content-Type: text/html" ++ CRLF ++ `s"<p>") =
    Some (CGI_RES_DOC, 200, 27, [(`s"Content-Type", `s"text/html")]).
Proof. vm_compute. reflexivity. Qed.
Example cgi_ex2 :
  demo_cgi (crlf "Status: 404 Not Found" ++ CRLF) = Some (CGI_RES_DOC, 500, 25, []).
Proof. vm_compute. reflexivity. Qed.
Example cgi_ex3 :
  demo_cgi (crlf "location: /other" ++ CRLF) = Some (CGI_RES_LOCAL_REDIRECT, 0, 0, []).
Proof. vm_compute. reflexivity. Qed.
Example cgi_ex4 : demo_cgi (crlf "no colon" ++ CRLF) = Some (0, 500, 0, []).
Proof. vm_compute. reflexivity. Qed.

(** ** The header block of a script *)

Definition cgi_field (f : str * str) : str := f.1 ++ (COLON :: f.2) ++ CRLF.
Definition cgi_block (fields : list (str * str)) : str := concat (map cgi_field fields) ++ CRLF.

(** A field the script may send: a name without colon and line end that is not
    Set-Cookie, a value without line end that does not start with a space. *)
Definition cgi_field_ok (f : str * str) : bool :=
  no_char COLON f.1 && no_char CR f.1 && no_char CR f.2 && isLowerEqual f.1 (`s"Set-Cookie")
  && negb (match f.2 with c :: _ => Ascii.eqb c SPACE | [] => false end).

Lemma cgi_getLine p l y :
  CR ∉ l ->
  _getLine p (l ++ CRLF ++ y) =
    Some (p <| cgi_line := l |> <| cgi_index := u64 (cgi_index p + zlen l + 2) |>, y).
Proof.
  intros Hl. unfold _getLine. rewrite find_crlf by (by apply find_crlf_no_cr).
  rewrite take_app_length. do 2 f_equal. rewrite (assoc_L (++)).
  change 2%nat with (length CRLF). by rewrite <- length_app, drop_app_length.
Qed.

Definition cgi_read (f : str * str) (p : CGIProcess) : CGIProcess :=
  p <| cgi_headers := om_assign i_less f.1 f.2 (cgi_headers p) |> <| cgi_line := [] |>
    <| cgi_index := u64 (cgi_index p + zlen (cgi_field f)) |>.

Lemma cgi_field_step fuel f p h y :
  cgi_field_ok f = true ->
  cgi_lines (S fuel) p (cgi_field f ++ y) h = cgi_lines fuel (cgi_read f p) y h.
Proof.
  intros Hf. destruct f as [n v]. unfold cgi_field_ok in Hf.
  rewrite !andb_true_iff, !no_char_spec, negb_true_iff in Hf. cbn [fst snd] in Hf.
  destruct Hf as ((((Hc & Hn) & Hv) & Hk) & Hs).
  assert (cgi_field (n, v) ++ y = (n ++ COLON :: v) ++ CRLF ++ y) as ->.
  { unfold cgi_field. cbn [fst snd]. by rewrite <- !(assoc_L (++)). }
  cbn [cgi_lines]. rewrite cgi_getLine; last first.
  { rewrite elem_of_app, elem_of_cons. by intros [?|[?|?]]. }
  set (p1 := p <| cgi_line := _ |> <| cgi_index := _ |>).
  change (cgi_line p1) with (n ++ COLON :: v).
  assert (is_empty (n ++ COLON :: v) = false) as -> by (by destruct n).
  unfold _extract_header. change (cgi_line p1) with (n ++ COLON :: v).
  rewrite find_char_app by done. rewrite take_app_length, drop_app_add.
  change (drop 1 (COLON :: v)) with v.
  assert (drop_while (fun c => Ascii.eqb c SPACE) v = v) as ->.
  { destruct v as [|c v]; [done|]. cbn [drop_while]. by rewrite Hs. }
  rewrite Hk. cbn [negb Z.eqb]. f_equal. unfold cgi_read, p1. cbn.
  unfold cgi_field. cbn [fst snd]. rewrite !zlen_app. cbn [zlen].
  replace (cgi_index p + (zlen n + zlen (COLON :: v)) + 2)
    with (cgi_index p + (zlen n + (zlen (COLON :: v) + zlen CRLF))) by (change (zlen CRLF) with 2; lia).
  rewrite <- (zlen_app (COLON :: v)). done.
Qed.

Lemma cgi_block_lines fields : forall fuel p h y,
  forallb cgi_field_ok fields = true -> (length fields < fuel)%nat ->
  exists p', cgi_lines fuel p (cgi_block fields ++ y) h = Some (inl (p', h)) /\
    cgi_headers p' = fold_left (fun m f => om_assign i_less f.1 f.2 m) fields (cgi_headers p) /\
    u64 (cgi_index p') = u64 (cgi_index p + zlen (cgi_block fields)) /\ cgi_index p' = u64 (cgi_index p').
Proof.
  induction fields as [|f fields IH]; intros [|fuel] p h y Hok Hf; try (simpl in Hf; lia).
  - change (cgi_block [] ++ y) with ([] ++ CRLF ++ y). cbn [cgi_lines].
    rewrite cgi_getLine by apply not_elem_of_nil. eexists. split; [reflexivity|]. cbn.
    split; [done|]. unfold u64. rewrite !Zmod_mod. split; [|done]. f_equal. unfold zlen. simpl. lia.
  - cbn [forallb] in Hok. apply andb_true_iff in Hok as [Hf1 Hok].
    assert (cgi_block (f :: fields) ++ y = cgi_field f ++ cgi_block fields ++ y) as ->.
    { unfold cgi_block. cbn [map concat]. by rewrite <- !(assoc_L (++)). }
    rewrite cgi_field_step by done.
    destruct (IH fuel (cgi_read f p) h y Hok) as (p' & H1 & H2 & H3 & H4); [simpl in Hf; lia|].
    exists p'. split; [done|]. split; [exact H2|]. split; [|done]. rewrite H3.
    unfold cgi_read. cbn [cgi_index upd]. unfold u64. rewrite Zplus_mod_idemp_l. f_equal.
    unfold cgi_block. cbn [map concat]. rewrite !zlen_app. lia.
Qed.

(** ** The environment *)

Lemma setenv_get (n v : str) (e : env) (x : str) : setenv n v e !! x = if str_eqb n x then Some (c_str v) else e !! x.
Proof.
  unfold setenv. destruct (str_eqb n x) eqn:E.
  - apply str_eqb_eq in E as ->. apply lookup_insert_eq.
  - apply str_eqb_neq in E. by apply lookup_insert_ne.
Qed.

Lemma unsetenv_get (n : str) (e : env) (x : str) : unsetenv n e !! x = if str_eqb n x then None else e !! x.
Proof.
  unfold unsetenv. destruct (str_eqb n x) eqn:E.
  - apply str_eqb_eq in E as ->. apply lookup_delete_eq.
  - apply str_eqb_neq in E. by apply lookup_delete_ne.
Qed.

(** One step of a lookup: the names compared are literals, or are known to
    differ. *)
Ltac env_step :=
  (rewrite setenv_get || rewrite unsetenv_get);
  match goal with
  | |- context [str_eqb ?a ?b] =>
      first [ rewrite (proj2 (str_eqb_neq a b)) by congruence
            | change (str_eqb a b) with true
            | change (str_eqb a b) with false ]; cbv iota
  end.

(** The block of a script that has just ended. *)
Lemma parse_cgi_block fields body p r :
  forallb cgi_field_ok fields = true -> zlen (cgi_block fields) <= BUFFER_SIZE ->
  cgi_headers p = [] -> cgi_index p = 0 ->
  exists p', cgi_headers p' = fold_left (fun m f => om_assign i_less f.1 f.2 m) fields [] /\
    cgi_index p' = zlen (cgi_block fields) /\
    drop (Z.to_nat (cgi_index p')) (cgi_block fields ++ body) = body /\
    let '(res, r') := _inspectHeaders p' (r <| resHints ; rh_index := cgi_index p' |>) in
    parse_cgi_headers (cgi_block fields ++ body) p r = Some (res, p', r').
Proof.
  intros Hok Hlen Hp0 Hi0.
  assert (take (Z.to_nat BUFFER_SIZE) (cgi_block fields ++ body) =
          cgi_block fields ++ take (Z.to_nat BUFFER_SIZE - length (cgi_block fields)) body) as Ht.
  { apply take_app_ge. unfold zlen in Hlen. lia. }
  set (y := take _ body) in Ht. unfold parse_cgi_headers. rewrite Ht.
  destruct (cgi_block_lines fields (S (length (cgi_block fields ++ y))) p (resHints r) y Hok)
    as (p' & H1 & H2 & H3 & H4).
  { rewrite length_app. unfold cgi_block. rewrite length_app.
    assert (length fields <= length (concat (map cgi_field fields)))%nat; [|lia].
    clear. induction fields as [|f fields IH]; [simpl; lia|].
    cbn [map concat]. rewrite length_app. cbn [length]. unfold cgi_field at 1.
    rewrite !length_app. simpl. lia. }
  assert (cgi_index p' = zlen (cgi_block fields)) as Hi.
  { rewrite H4, H3. unfold u64, BUFFER_SIZE in *. rewrite Hi0.
    pose proof (zlen_nonneg (cgi_block fields)). rewrite Z.mod_small by lia. lia. }
  exists p'. split; [by rewrite H2, Hp0|]. split; [exact Hi|]. split.
  { rewrite Hi. replace (Z.to_nat (zlen (cgi_block fields))) with (length (cgi_block fields)) by (unfold zlen; lia).
    apply drop_app_length. }
  rewrite H1. cbn [mbind option_bind].
  assert (i32 (cgi_index p') = cgi_index p') as ->.
  { apply i32_id. rewrite Hi. unfold BUFFER_SIZE in Hlen. pose proof (zlen_nonneg (cgi_block fields)). lia. }
  by destruct (_inspectHeaders p' _).
Qed.

(** ** Properties *)

(** Reading a script's answer.  When the header block fits the 4000 bytes
    that are read, the parser collects exactly its fields, decides from them,
    and leaves the index of the first body byte: what the response will read
    from there is the script's body. *)
Theorem parse_cgi_headers_correct fields body r :
  forallb cgi_field_ok fields = true -> zlen (cgi_block fields) <= BUFFER_SIZE ->
  exists p', cgi_headers p' = fold_left (fun m f => om_assign i_less f.1 f.2 m) fields [] /\
    cgi_index p' = zlen (cgi_block fields) /\
    drop (Z.to_nat (cgi_index p')) (cgi_block fields ++ body) = body /\
    let '(res, r') := _inspectHeaders p' (r <| resHints ; rh_index := cgi_index p' |>) in
    parse_cgi_headers (cgi_block fields ++ body) CGIProcess_init r = Some (res, p', r').
Proof. intros Hok Hlen. by apply parse_cgi_block. Qed.

Lemma parse_cgi_headers_correct_witness :
  exists p', cgi_headers p' = [(`s"Content-Type", `s"text/html")] /\
    cgi_index p' = zlen (cgi_block [(`s"Content-Type", `s"text/html")]) /\
    drop (Z.to_nat (cgi_index p')) (cgi_block [(`s"Content-Type", `s"text/html")] ++ `s"<p>") = `s"<p>" /\
    let '(res, r') := _inspectHeaders p' (Request_init <| resHints ; rh_index := cgi_index p' |>) in
    parse_cgi_headers (cgi_block [(`s"Content-Type", `s"text/html")] ++ `s"<p>") CGIProcess_init
      Request_init = Some (res, p', r').
Proof.
  apply (parse_cgi_headers_correct [(`s"Content-Type", `s"text/html")] (`s"<p>") Request_init);
    [vm_compute; reflexivity|]. apply Z.leb_le. vm_compute. reflexivity.
Defined.

(** The script's status is lost: a document response whose Status header is a
    number [getInt] accepts gets status 200, whatever the number. *)
Theorem cgi_status_ignored p r v n :
  _retrieveHeader (`s"Status") p = Some v -> getInt v 10 (rh_status (resHints r)) = (0, n) ->
  _retrieveHeader (`s"Location") p = None ->
  exists r', _inspectHeaders p r = (CGI_RES_DOC, r') /\ rh_status (resHints r') = 200.
Proof.
  intros Hs Hn Hl. unfold _inspectHeaders. rewrite Hl.
  destruct (cgi_headers p) eqn:E.
  { unfold _retrieveHeader in Hs. rewrite E in Hs. simpl in Hs. discriminate. }
  unfold inspect_document. rewrite Hs, Hn. cbn [fst Z.eqb negb]. eexists. split; [reflexivity|].
  unfold on_hints. destruct (_retrieveHeader (`s"Content-Type") p); reflexivity.
Qed.

Lemma cgi_status_ignored_witness :
  exists r', _inspectHeaders (CGIProcess_init <| cgi_headers := [(`s"Status", `s"404")] |>) Request_init
      = (CGI_RES_DOC, r') /\ rh_status (resHints r') = 200.
Proof.
  apply (cgi_status_ignored (CGIProcess_init <| cgi_headers := [(`s"Status", `s"404")] |>)
           Request_init (`s"404") 404); vm_compute; reflexivity.
Defined.

Lemma set_path_info_spec r e c :
  rh_cgiRules (resHints r) = Some c ->
  exists e', set_path_info r e = Ret e' /\
    e' !! (`s"PATH_INFO") =
      (if is_empty (uri_pathInfo (rh_parsedUri (resHints r))) then None
       else Some (c_str (uri_pathInfo (rh_parsedUri (resHints r))))) /\
    forall x, x <> `s"PATH_INFO" -> x <> `s"PATH_TRANSLATED" -> e' !! x = e !! x.
Proof.
  intros Hc. unfold set_path_info. rewrite Hc. cbn [deref mbind outcome_bind].
  destruct (is_empty _); cbn [negb]; eexists; (split; [reflexivity|]); split.
  all: try intros x H1 H2.
  all: repeat env_step; reflexivity.
Qed.

(** The variables [_setVariables] sets or unsets. *)
Definition cgi_names : list str :=
  [`s"REQUEST_METHOD"; `s"QUERY_STRING"; `s"GATEWAY_INTERFACE"; `s"SERVER_PROTOCOL";
   `s"SERVER_NAME"; `s"REMOTE_ADDR"; `s"SERVER_PORT"; `s"PATH_INFO"; `s"PATH_TRANSLATED";
   `s"SCRIPT_NAME"; `s"CONTENT_TYPE"; `s"HTTP_COOKIE"].

Definition cgi_env_spec (r : Request) (e e' : env) : Prop :=
  let u := rh_parsedUri (resHints r) in
  e' !! (`s"REQUEST_METHOD") = c_str <$> METHOD_STR !! Z.to_nat (req_method r) /\
  e' !! (`s"QUERY_STRING") = Some (c_str (uri_query u)) /\
  e' !! (`s"SERVER_NAME") = Some (c_str (getHeader (`s"Host") r)) /\
  e' !! (`s"SCRIPT_NAME") = Some (c_str (rh_scriptPath (resHints r))) /\
  e' !! (`s"PATH_INFO") = (if is_empty (uri_pathInfo u) then None else Some (c_str (uri_pathInfo u))) /\
  forall x, x ∉ cgi_names -> e' !! x = e !! x.

Lemma setVariables_spec addr port bodyFile r e c :
  0 <= req_method r < 5 -> rh_cgiRules (resHints r) = Some c ->
  exists e', _setVariables addr port bodyFile r e = Ret e' /\ cgi_env_spec r e e'.
Proof.
  intros Hm Hc. unfold _setVariables, method_str, cgi_env_spec. rewrite (proj2 (Z.ltb_ge _ _)) by lia.
  destruct (lookup_lt_is_Some_2 METHOD_STR (Z.to_nat (req_method r))) as [method Hme];
    [change (length METHOD_STR) with 5%nat; lia|].
  rewrite Hme. cbn [deref mbind outcome_bind].
  match goal with |- context [set_path_info r ?x] =>
    destruct (set_path_info_spec r x c Hc) as (e1 & -> & Hpi & Hx) end.
  cbn [mbind outcome_bind]. eexists. split; [reflexivity|]. cbv zeta.
  destruct (negb (str_eqb bodyFile []) && _), (negb (str_eqb (getHeader (`s"Cookie") r) [])).
  all: split_and!.
  all: try (unfold cgi_names; intros x Hn; rewrite !not_elem_of_cons in Hn; destruct_and! Hn).
  all: repeat env_step; try exact Hpi; try reflexivity.
  all: rewrite Hx by (congruence || (vm_compute; discriminate)); repeat env_step; rewrite ?Hme; reflexivity.
Qed.

(** The environment of a script: the request's method and query, the host,
    the script's path, and the path info exactly when there is one; every
    variable outside the list -- CONTENT_LENGTH is one -- is the server's own. *)
Theorem setVariables_correct addr port bodyFile r e c :
  0 <= req_method r < 5 -> rh_cgiRules (resHints r) = Some c ->
  exists e', _setVariables addr port bodyFile r e = Ret e' /\ cgi_env_spec r e e'.
Proof. apply setVariables_spec. Qed.

Definition demo_cgi_rules : CGIConfig := mkCGIConfig (`s"/usr/bin/php") (`s"./cgi/") 3 (`s".php").
Definition demo_cgi_request : Request :=
  Request_init <| req_method := POST |>
    <| resHints := ResHints_init <| rh_cgiRules := Some demo_cgi_rules |>
         <| rh_scriptPath := `s"./cgi/a.php" |> <| rh_path := `s"./tmp/_1" |>
         <| rh_bodyFileName := `s"./tmp/demo_0" |> |>.

Lemma setVariables_correct_witness :
  exists e', _setVariables (`s"1.2.3.4") 80 (`s"./tmp/demo_0") demo_cgi_request ∅ = Ret e' /\
    cgi_env_spec demo_cgi_request ∅ e'.
Proof.
  apply (setVariables_correct _ _ _ demo_cgi_request ∅ demo_cgi_rules); [|reflexivity].
  split; [discriminate|reflexivity].
Defined.

(** How a script is started.  With a script path relative to the server's
    directory ("./..."), a child that gets its files runs in the CGI root, is
    given the absolute path of the script (after the interpreter, unless the
    extension is ".out"), reads the uploaded body if there is one and writes to
    the file the server will read the answer from; no variable tells it the
    length of the body.  Otherwise it goes on with [child_exit_exception]. *)
Theorem launchCGI_correct os addr port bodyFile r e c script :
  0 <= req_method r < 5 -> rh_cgiRules (resHints r) = Some c ->
  rh_scriptPath (resHints r) = "."%char :: script ->
  match _launchCGI os addr port bodyFile r e with
  | Ret x =>
      ex_argv x = (if str_eqb (cgi_extension c) (`s".out") then [] else [c_str (cgi_exec c)])
                  ++ [c_str (ch_getcwd os ++ script)] /\
      head (ex_argv x) = Some (ex_path x) /\
      ex_cwd x = c_str (ch_getcwd os ++ erase (cgi_root c) 0 1) /\ ch_chdir os (ex_cwd x) = true /\
      ex_stdout x = c_str (rh_path (resHints r)) /\ ch_create os (ex_stdout x) = true /\
      (rh_bodyFileName (resHints r) = [] -> ex_stdin x = None) /\
      (forall f, ex_stdin x = Some f -> ch_open_read os f = true) /\
      ex_env x !! (`s"CONTENT_LENGTH") = e !! (`s"CONTENT_LENGTH")
  | Throw x => x = child_exit_exception
  | _ => False
  end.
Proof.
  intros Hm Hc Hs. unfold _launchCGI. rewrite Hc, Hs. cbn [deref mbind outcome_bind]. cbv zeta.
  change (erase ("."%char :: script) 0 1) with script.
  set (body := if negb (is_empty _) then _ else _). set (r2 := r <| resHints := _ |>).
  destruct (ch_chdir os _) eqn:E1; cbn [negb]; [|done].
  destruct (negb (is_empty body) && _) eqn:E2; [done|].
  destruct (ch_create os _) eqn:E3; cbn [negb]; [|done].
  destruct (setVariables_spec addr port bodyFile r2 e c Hm Hc) as (e' & -> & He). cbn [mbind outcome_bind].
  assert (exists path, head ((if negb (str_eqb (cgi_extension c) (`s".out")) then [c_str (cgi_exec c)] else [])
    ++ [c_str (ch_getcwd os ++ script)]) = Some path) as [path Hp] by (destruct (str_eqb _ _); by eexists).
  rewrite Hp. cbn [deref mbind outcome_bind]. destruct (ch_exec os _); [|done].
  cbn [ex_argv ex_path ex_cwd ex_stdout ex_stdin ex_env].
  split; [by destruct (str_eqb _ _)|]. split; [done|]. split; [done|]. split; [done|]. split; [done|].
  split; [done|]. split; [|split].
  - intros Hb. unfold body. by rewrite Hb.
  - intros f. destruct (is_empty body) eqn:Eb; [done|]. intros [= <-]. cbn [negb andb] in E2.
    by apply negb_false_iff in E2.
  - destruct He as (_ & _ & _ & _ & _ & Hx). apply Hx.
    apply (bool_decide_unpack (_ ∉ cgi_names)). vm_compute. exact I.
Qed.

Definition demo_child : child_os :=
  mkChildOs (`s"/srv") (fun _ => true) (fun _ => true) (fun _ => true) (fun _ => true).

Lemma launchCGI_correct_witness :
  match _launchCGI demo_child (`s"1.2.3.4") 80 (`s"./tmp/demo_0") demo_cgi_request ∅ with
  | Ret x => ex_argv x = [`s"/usr/bin/php"; `s"/srv/cgi/a.php"] /\ ex_stdin x = Some (`s"/srv/tmp/demo_0")
  | _ => False
  end /\
  match _launchCGI demo_child (`s"1.2.3.4") 80 (`s"./tmp/demo_0") demo_cgi_request ∅ with
  | Ret x => head (ex_argv x) = Some (ex_path x)
  | Throw x => x = child_exit_exception
  | _ => False
  end.
Proof.
  split; [vm_compute; split; reflexivity|].
  pose proof (launchCGI_correct demo_child (`s"1.2.3.4") 80 (`s"./tmp/demo_0") demo_cgi_request ∅
    demo_cgi_rules (`s"/cgi/a.php")) as H.
  destruct (_launchCGI _ _ _ _ _ _) as [x|x| |].
  - apply H; [split; [discriminate|reflexivity]|reflexivity|reflexivity].
  - apply H; [split; [discriminate|reflexivity]|reflexivity|reflexivity].
  - apply H; [split; [discriminate|reflexivity]|reflexivity|reflexivity].
  - apply H; [split; [discriminate|reflexivity]|reflexivity|reflexivity].
Defined.
