(* ===== verification/Client.v ===== *)
(** * Client: one connection ([srcs/Client.cpp], [includes/Client.hpp])

    A [Client] owns the request being read, the response being sent, the queue
    of output buffers, the stream of an uploaded body and the CGI process.  The
    operating system's answers during one event are a parameter ([os_answers]);
    the actions the code takes outside its own state are logged in order in
    [cl_log].  The client's end of [ListenServer::bindClient] is here too. *)

From S2P Require Import Prelude CxxString OrdMap Format Http RequestHeaders RequestBody RequestUri Host Response Cgi.
#[local] Open Scope Z_scope.

Definition CLIENT_TIME_OUT : Z := 10000.
Definition HEADER_STATUS_ONGOING : Z := 0.
Definition HEADER_STATUS_READY : Z := 1.
Definition HEADER_STATUS_DONE : Z := 2.
Definition BODY_STATUS_NONE : Z := 0.
Definition BODY_STATUS_ONGOING : Z := 1.
Definition BODY_STATUS_DONE : Z := 2.
Definition CLIENT_MODE_READ : Z := 0.
Definition CLIENT_MODE_WRITE : Z := 1.
Definition CLIENT_MODE_ERROR : Z := 2.
(** Actions on the rest of the world. *)
Inductive event : Type :=
  | EvUnlink (path : str)
  | EvTruncate (path : str)
  | EvWrite (bytes : str)
  | EvFork (pid : Z)
  | EvKill (pid : Z)
  | EvBind (hostname : str)
  | EvUnbind
  | EvClose.

Record Client := mkClient {
  cl_hostMap : list (str * Host);
  cl_host : option Host;
  cl_request : option Request;
  cl_response : option AResponse;
  cl_lastInteraction : Z;
  cl_headerStatus : Z;
  cl_bodyStatus : Z;
  cl_mode : Z;
  cl_buffer : str;
  cl_bodyFileName : str;
  cl_bodyStream : option ofstream;
  cl_outBuffers : list str;
  cl_cgiProcess : option CGIProcess;
  cl_terminated : bool;
  cl_log : list event;
}.
#[export] Instance eta_Client : Eta Client := fun c =>
  mkClient (cl_hostMap c) (cl_host c) (cl_request c) (cl_response c) (cl_lastInteraction c)
    (cl_headerStatus c) (cl_bodyStatus c) (cl_mode c) (cl_buffer c) (cl_bodyFileName c)
    (cl_bodyStream c) (cl_outBuffers c) (cl_cgiProcess c) (cl_terminated c) (cl_log c).

(** [Client::Client(socket, listenServer)]; the map is the listening server's. *)
Definition Client_init (now : Z) (hostMap : list (str * Host)) : Client :=
  mkClient hostMap None None None now HEADER_STATUS_ONGOING BODY_STATUS_NONE CLIENT_MODE_READ
    [] [] None [] None false [].

(** What the operating system answers during one event: the result of [read]
    ([None] is an error, the empty string the end of the connection), of
    [write], of [waitpid] and of [fork] (in the parent); the clock in
    milliseconds, the formatted date, the name [generate_name] builds from the
    clock; the file system and the files an [ofstream] can create. *)
Record os_answers := mkOs {
  os_read : option str;
  os_write : Z;
  os_wait : wait_result;
  os_fork : Z;
  os_now : Z;
  os_date : str;
  os_name : option str -> str;
  os_fs : filesystem;
  os_can_create : str -> bool;
}.

Definition log (e : event) (c : Client) : Client := c <| cl_log := cl_log c ++ [e] |>.
Definition set_request (r : Request) (c : Client) : Client := c <| cl_request := Some r |>.
Definition the_request (c : Client) : Request := default Request_init (cl_request c).

(** ** Client.cpp *)

(** [getRequest] allocates the request the first time. *)
Definition getRequest (now : Z) (c : Client) : Client :=
  match cl_request c with
  | Some _ => c
  | None => c <| cl_lastInteraction := now |> <| cl_request := Some Request_init |>
  end.

(** [ListenServer::bindClient]: the host of that name, or the first one. *)
Definition bindClient (hostName : str) (c : Client) : failing Client Client :=
  host ← deref (match om_find lex_ltb hostName (cl_hostMap c) with
                | Some h => Some h
                | None => snd <$> head (cl_hostMap c)
                end);
  Ret (log (EvBind hostName) (c <| cl_host := Some host |>)).

Definition setHost (hostname : str) (c : Client) : failing Client Client :=
  match cl_host c with
  | Some h => if checkServerName hostname h then Ret c else bindClient hostname (log EvUnbind c)
  | None => bindClient hostname c
  end.

Definition setBodyFile (os : os_answers) (path : str) (c : Client) : Client :=
  let r := the_request c in
  let c := set_request (r <| resHints ; rh_bodyFileName := path |>) c in
  if negb (str_eqb path []) then
    let c := c <| cl_bodyStream := Some (mkOfstream [] (os_can_create os (c_str path))) |>
               <| cl_bodyFileName := path |> in
    if os_can_create os (c_str path) then log (EvTruncate (c_str path)) c else c
  else c <| cl_bodyStream := None |> <| cl_bodyFileName := [] |>.

Definition deleteBodyStream (c : Client) : Client :=
  match cl_bodyStream c with
  | None => c
  | Some _ =>
      let c := c <| cl_bodyStream := None |> in
      match cl_request c with
      | Some r =>
          if rh_unlink (resHints r) || (300 <=? rh_status (resHints r))
          then log (EvUnlink (c_str (cl_bodyFileName c))) c else c
      | None => c
      end
  end.

(** The destructor of [CGIProcess] unlinks the current path of the hints. *)
Definition deleteCGIProcess (c : Client) : Client :=
  match cl_cgiProcess c with
  | None => c
  | Some _ =>
      (log (EvUnlink (c_str (rh_path (resHints (the_request c))))) c) <| cl_cgiProcess := None |>
  end.

Definition clearResponse (c : Client) : Client := c <| cl_response := None |>.

Definition clear (c : Client) : Client :=
  let c := deleteCGIProcess (deleteBodyStream c) in
  let c := clearResponse (c <| cl_request := None |>) in
  c <| cl_bodyFileName := [] |> <| cl_bodyStatus := BODY_STATUS_NONE |>
    <| cl_headerStatus := HEADER_STATUS_ONGOING |>.

Definition terminate (c : Client) : Client :=
  let c := match cl_cgiProcess c with
           | Some p => if 0 <? cgi_pid p then log (EvKill (cgi_pid p)) c else c
           | None => c
           end in
  let c := clear c in
  let c := match cl_host c with Some _ => log EvUnbind c | None => c end in
  (log EvClose c) <| cl_terminated := true |>.

Definition parseRequest (now : Z) (bufferIn : str) (c : Client) : failing Client (Z * Client) :=
  let c := getRequest now c in
  let c := c <| cl_buffer := cl_buffer c ++ bufferIn |> in
  if cl_headerStatus c <? HEADER_STATUS_READY then
    '(res, r, rest) ← throwing c (parseHeaders (the_request c) (cl_buffer c));
    let c := (set_request r c) <| cl_buffer := rest |> in
    Ret (res, if res <? 0 then c <| cl_headerStatus := HEADER_STATUS_READY |> else c)
  else if (cl_headerStatus c =? HEADER_STATUS_DONE) && (cl_bodyStatus c =? ONGOING) then
    '(res, r, rest, f) ← fueled (parseInput (the_request c) (cl_buffer c) (cl_bodyStream c));
    let c := (set_request r c) <| cl_buffer := rest |> <| cl_bodyStream := f |> in
    Ret (res, if res <? 0 then c <| cl_bodyStatus := BODY_STATUS_DONE |> else c)
  else Ret (0, c).
