(* ===== verification/Control.v ===== *)
(** * Control: what an event does to a client ([srcs/IControl.cpp])

    The handlers of [IControl] on one client: the head of a request, its body,
    the response, the script, and [handleClientEvent], which is what one [epoll]
    event does.  [ControlFacts] states and proves their properties. *)

From S2P Require Import Prelude CxxString OrdMap Format Http RequestHeaders RequestBody RequestUri Host Response Cgi Client.
#[local] Open Scope Z_scope.

Definition SITUATION_CLOSE : Z := -1.
Definition SITUATION_KEEP_ALIVE : Z := 1.
Definition SITUATION_CONTINUE : Z := 2.

(** ** IControl.cpp: the request *)

(** [if ((res = f(s))) return (res); k(s)] *)
Definition andthen {E S} (f k : S -> outcome E (Z * S)) (s : S) : outcome E (Z * S) :=
  '(res, s) ← f s;
  if negb (res =? 0) then Ret (res, s) else k s.

Definition on_request (f : Request -> outcome exn (Z * Request)) (c : Client) : failing Client (Z * Client) :=
  '(res, r) ← throwing c (f (the_request c));
  Ret (res, set_request r c).

Definition set_verbose (v : str) (r : Request) : Request := r <| resHints ; rh_verboseError := v |>.

Definition checkForbiddenHeaders (r : Request) : Z * Request :=
  let not_implemented r := (RES_NOT_IMPLEMENTED, set_rstatus RES_NOT_IMPLEMENTED r) in
  if negb (str_eqb (getHeader (`s"accept-ranges") r) []) then
    not_implemented (set_verbose (`s"accept-range header not implemented") r)
  else if checkHeader (`s"content-encoding") r
          && negb (str_eqb (getHeader (`s"content-encoding") r) (`s"identity")) then
    (RES_UNSUPPORTED_MEDIA_TYPE, set_rstatus RES_UNSUPPORTED_MEDIA_TYPE r)
  else if checkHeader (`s"transfer-encoding") r
          && negb (str_eqb (getHeader (`s"transfer-encoding") r) (`s"chunked")) then
    not_implemented (set_verbose (`s"chunked is the only value supported for transfer-encoding") r)
  else (0, r).

Definition assignHost (c : Client) : failing Client (Z * Client) :=
  let r := the_request c in
  if negb (checkHeader (`s"host") r) then
    Ret (RES_BAD_REQUEST,
         set_request (set_rstatus RES_BAD_REQUEST
                        (set_verbose (`s"request must include an host header") r)) c)
  else
    c ← setHost (getHeader (`s"host") r) c;
    Ret (0, c).

Definition is_chunked (r : Request) : bool :=
  str_eqb (getHeader (`s"transfer-encoding") r) (`s"chunked").

(** The second half of [checkBodyLength]. *)
Definition start_body (bodyLength : Z) (host : Host) (c : Client) : Client :=
  let r := the_request c in
  if (0 <? bodyLength) || is_chunked r then
    let r := if is_chunked r then setChunked true r else r in
    set_request (setBodyMaxSize (h_body_max_size host) r)
      (c <| cl_bodyStatus := BODY_STATUS_ONGOING |>)
  else c.

(** The return value of [getInt] is ignored. *)
Definition checkBodyLength (c : Client) : failing Client (Z * Client) :=
  let r := the_request c in
  if checkHeader (`s"content-length") r then
    let bodyLength := (getInt (getHeader (`s"content-length") r) 10 (-1)).2 in
    host ← deref (cl_host c);
    if h_body_max_size host <? bodyLength then
      Ret (RES_REQUEST_ENTITY_TOO_LARGE,
           set_request (set_rstatus RES_REQUEST_ENTITY_TOO_LARGE r) c)
    else
      let c := if 0 <? bodyLength then set_request (setContentLength bodyLength r) c else c in
      Ret (0, start_body bodyLength host c)
  else if is_chunked r then
    host ← deref (cl_host c);
    Ret (0, start_body (-1) host c)
  else Ret (0, c).

Definition checkContinue (c : Client) : Z * Client :=
  let r := the_request c in
  let expect := getHeader (`s"expect") r in
  if str_eqb expect (`s"100-continue") then
    if cl_bodyStatus c =? BODY_STATUS_NONE then
      (RES_BAD_REQUEST,
       set_request (removeHeader (`s"expect")
         (set_verbose (`s"Expect continue without entity") (set_rstatus RES_BAD_REQUEST r))) c)
    else (RES_CONTINUE, c)
  else if negb (str_eqb expect []) then
    (RES_EXPECTATION_FAILED,
     set_request (removeHeader (`s"expect") (set_rstatus RES_EXPECTATION_FAILED r)) c)
  else (0, c).

Inductive fileSituation : Type := FILE_DONT_EXIT | FILE_EXIST | FILE_IS_NOT_REG.

Definition checkFileExist (fs : filesystem) (path : str) : fileSituation :=
  match fs_stat fs path with
  | None => FILE_DONT_EXIT
  | Some RegularFile => FILE_EXIST
  | Some _ => FILE_IS_NOT_REG
  end.

Section event.
Context (os : os_answers).

(** The end of [defineBodyParsing]. *)
Definition copy_content_type (c : Client) : Client :=
  let r := the_request c in
  if checkHeader (`s"content-type") r then
    set_request (on_hints (set_header (`s"content-type") (getHeader (`s"content-type") r)) r) c
  else c.

Definition upload_file (file : str) (exists_already : bool) (status : Z) (c : Client) : Client :=
  let c := set_request (on_hints (fun h => h <| rh_alreadyExist := exists_already |>
                                             <| rh_status := status |> <| rh_path := file |>)
                          (the_request c)) c in
  let c := setBodyFile os file c in
  set_request (on_hints (fun h => h <| rh_unlink := false |>) (the_request c)) c.

Definition defineBodyParsing (c : Client) : failing Client (Z * Client) :=
  let r := the_request c in
  if req_type r =? REQ_TYPE_CGI then
    c ← (if negb (cl_bodyStatus c =? BODY_STATUS_NONE) then
           host ← deref (cl_host c);
           name ← deref (head (h_server_names host));
           Ret (setBodyFile os (os_name os (Some name)) c)
         else Ret (setBodyFile os [] c));
    let c := set_request (on_hints (fun h => h <| rh_unlink := true |>) (the_request c)) c in
    Ret (0, copy_content_type c)
  else if (req_type r =? REQ_TYPE_STATIC) && ((req_method r =? POST) || (req_method r =? PUT)) then
    location ← deref (rh_locationRules (resHints r));
    let filePath := (if negb (str_eqb (loc_upload_root location) [])
                     then loc_upload_root location else loc_root location)
                    ++ uri_path (rh_parsedUri (resHints r)) in
    match checkFileExist (os_fs os) (c_str filePath) with
    | FILE_DONT_EXIT => Ret (0, copy_content_type (upload_file filePath false RES_CREATED c))
    | FILE_EXIST =>
        if negb (fs_access (os_fs os) (c_str filePath) W_OK) then
          Ret (RES_FORBIDDEN, set_request (set_rstatus RES_FORBIDDEN r) c)
        else Ret (0, copy_content_type (upload_file filePath true RES_OK c))
    | FILE_IS_NOT_REG => Ret (RES_FORBIDDEN, set_request (set_rstatus RES_FORBIDDEN r) c)
    end
  else Ret (0, copy_content_type (setBodyFile os [] c)).

Definition generateContinueResponse (c : Client) : Client :=
  let a := SingleLineResponse RES_CONTINUE (`s"HTTP/1.1 100 Continue" ++ CRLF) in
  c <| cl_response := Some a |>
    <| cl_outBuffers := cl_outBuffers c ++ writeResponse a (resHints (the_request c)) |>
    <| cl_mode := CLIENT_MODE_WRITE |>.

Definition no_cgi_redir (c : Client) : bool := rh_cgiRedir (resHints (the_request c)) =? CGI_RES_NONE.

(** The end of [handleRequestHeaders]; the value of [defineBodyParsing] is
    ignored. *)
Definition accept_request (res : Z) (c : Client) : failing Client (Z * Client) :=
  '(_, c) ← (if no_cgi_redir c then defineBodyParsing c else Ret (0, c));
  let c := c <| cl_headerStatus := HEADER_STATUS_DONE |> in
  if res =? RES_CONTINUE then Ret (0, generateContinueResponse c) else Ret (res, c).

Definition handleRequestHeaders : Client -> failing Client (Z * Client) :=
  andthen assignHost (
  andthen (on_request (fun r => fueled (parseURI r))) (
  andthen (on_request (fun r => Ret (checkForbiddenHeaders r))) (
  andthen (fun c => if no_cgi_redir c then checkBodyLength c else Ret (0, c)) (
  andthen (fun c => host ← deref (cl_host c);
                    on_request (checkRequest (os_fs os) host) c) (fun c =>
  let '(res, c) := checkContinue c in
  if negb (res =? 0) && negb (res =? RES_CONTINUE) then Ret (res, c)
  else accept_request res c))))).

Definition handleDeleteMethod (c : Client) : Client :=
  log (EvUnlink (c_str (rh_path (resHints (the_request c))))) c.

Definition handleRequestBodyDone (c : Client) : Z * Client :=
  let r := the_request c in
  if req_type r =? REQ_TYPE_STATIC then
    if (req_method r =? POST) || (req_method r =? PUT) then
      (if 0 <? getBodySize r then rh_status (resHints r) else RES_NO_CONTENT, c)
    else if req_method r =? DELETE then
      let c := handleDeleteMethod c in
      (RES_NO_CONTENT, set_request (on_hints (fun h => h <| rh_path := [] |>) r) c)
    else (RES_OK, c)
  else (RES_OK, c).

(** ** IControl.cpp: the response *)
Section errors.
Context (default_error_pages : str).

Definition fillErrorPage (host : option Host) (h : ResHints) : ResHints :=
  if ((400 <? rh_status h) && (rh_status h <? 418)) || (rh_status h =? 505) then
    let dir := match host with Some host => h_dir_errors host | None => default_error_pages end in
    set_header (`s"content-type") (`s"text/html")
      (h <| rh_path := dir ++ IntToString (rh_status h) 10 ++ `s".html" |> <| rh_unlink := false |>)
  else h.

Definition fillAdditionnalHeaders (r : Request) : Request :=
  let connection :=
    if (200 <=? rh_status (resHints r)) && (rh_status (resHints r) <? 300) then
      if checkHeader (`s"connection") r then getHeader (`s"connection") r else `s"keep-alive"
    else `s"close" in
  on_hints (set_header (`s"connection") connection) r.

(** The list of the methods both rules allow. *)
Fixpoint allows_loop (i : Z) (names : list str) (locMethod cgiMethod : Z) (allows : str) : str :=
  match names with
  | [] => allows
  | name :: names =>
      allows_loop (i + 1) names locMethod cgiMethod
        (if method_allowed locMethod i && method_allowed cgiMethod i
         then allows ++ (if is_empty allows then [] else `s",") ++ name else allows)
  end.

Definition fillVerboseError (h : ResHints) : ResHints :=
  if rh_status h =? RES_METHOD_NOT_ALLOWED then
    let locMethod := match rh_locationRules h with Some l => loc_methods l | None => INT32_MAX end in
    let cgiMethod := match rh_cgiRules h with Some g => cgi_methods g | None => INT32_MAX end in
    set_header (`s"Allow") (allows_loop 0 METHOD_STR locMethod cgiMethod []) h
  else if rh_status h =? RES_INTERNAL_ERROR then
    h <| rh_unlink := false |> <| rh_path := [] |> <| rh_verboseError := `s"Internal error" |>
  else if rh_status h =? RES_SERVICE_UNAVAILABLE then
    h <| rh_unlink := false |> <| rh_path := [] |>
      <| rh_verboseError := `s"Service temporarly unavailable." |>
  else if rh_status h =? RES_BAD_REQUEST then h <| rh_path := [] |> <| rh_unlink := false |>
  else h.

Definition fillResponse (host : option Host) (r : Request) : Request :=
  let r := on_hints (fillErrorPage host) r in
  let r := fillAdditionnalHeaders r in
  let r := on_hints fillVerboseError r in
  on_hints (fun h => h <| rh_type := req_type r |>
                       <| rh_extension := uri_extension (rh_parsedUri h) |>
                       <| rh_method := req_method r |>) r.

(** The retry after an exception has a status of 500; [generateResponse]
    shows that it is the last one. *)
Fixpoint generateResponse_ (fuel : nat) (status : Z) (c : Client) : failing Client (Z * Client) :=
  match fuel with
  | O => Diverge
  | S fuel =>
      let c := getRequest (os_now os) c in
      match cl_response c with
      | Some _ => Ret (0, c)
      | None =>
          let r := the_request c in
          let r := if negb (status =? 0) then set_rstatus status r else r in
          let r := fillResponse (cl_host c) r in
          match genResponse (os_fs os) (os_date os) (resHints r) with
          | Ret (a, h) =>
              let c := set_request (r <| resHints := h |>) c in
              Ret (0, c <| cl_outBuffers := cl_outBuffers c ++ writeResponse a h |>
                        <| cl_response := Some a |> <| cl_mode := CLIENT_MODE_WRITE |>)
          | Throw (_, h) =>
              let c := clearResponse (set_request (r <| resHints := h |>) c) in
              if rh_status h =? RES_INTERNAL_ERROR then Ret (-1, c)
              else generateResponse_ fuel RES_INTERNAL_ERROR c
          | Undef => Undef
          | Diverge => Diverge
          end
      end
  end.

Definition generateResponse (c : Client) (status : Z) : failing Client (Z * Client) :=
  generateResponse_ 2 status c.

Definition generateCGIProcess (c : Client) : Z * Client :=
  let '(e, p, r) := execCGI (os_now os) (os_name os None) (os_fork os) CGIProcess_init (the_request c) in
  let c := (set_request r c) <| cl_cgiProcess := Some p |> in
  if negb (e =? 0) then (RES_INTERNAL_ERROR, deleteCGIProcess c)
  else (0, (log (EvFork (os_fork os)) c) <| cl_mode := CLIENT_MODE_WRITE |>).

Definition handleClientResponse (c : Client) (response : Z) : failing Client (Z * Client) :=
  let c := getRequest (os_now os) c in
  if negb (req_type (the_request c) =? REQ_TYPE_CGI) || negb (response =? RES_OK) then
    generateResponse c response
  else
    let '(e, c) := generateCGIProcess c in
    if negb (e =? 0) then generateResponse c RES_INTERNAL_ERROR else Ret (0, c).

(** [incoming] is what [read] returned, or nothing to read. *)
Definition handleClientIn (c : Client) (incoming : bool) : failing Client (Z * Client) :=
  match (if incoming then os_read os else Some []) with
  | None => Ret (-1, c)
  | Some input =>
      if incoming && is_empty input then Ret (-1, c)
      else
        '(res, c) ← parseRequest (os_now os) input c;
        if res <? 0 then
          let body_done (x : Z * Client) :=
            let '(res, c) := x in
            if (res <=? 0) && negb (cl_bodyStatus c =? BODY_STATUS_ONGOING)
            then Ret (handleRequestBodyDone c) else Ret (res, c) in
          if cl_headerStatus c =? HEADER_STATUS_READY then
            '(res, c) ← handleRequestHeaders (c <| cl_bodyStatus := BODY_STATUS_NONE |>);
            if negb (res =? 0) then Ret (res, c)
            else if negb (cl_bodyStatus c =? BODY_STATUS_NONE) then
              x ← parseRequest (os_now os) [] c; body_done x
            else body_done (res, c)
          else body_done (res, c)
        else Ret (res, c)
  end.

(** What is left to do once the queue is empty.  ([headers["connection"]] also
    inserts an empty value when there is none; the request is then deleted.) *)
Definition response_sent (c : Client) : failing Client (Z * Client) :=
  let c := getRequest (os_now os) c in
  let r := the_request c in
  let connection := default [] (om_find i_less (`s"connection") (rh_headers (resHints r))) in
  is_continue ← (if str_eqb (getHeader (`s"expect") r) (`s"100-continue") then
                   a ← deref (cl_response c);
                   Ret (getStatus a =? RES_CONTINUE)
                 else Ret false);
  if is_continue : bool then Ret (SITUATION_CONTINUE, set_request (removeHeader (`s"expect") r) c)
  else Ret (if str_eqb connection (`s"close") then SITUATION_CLOSE else SITUATION_KEEP_ALIVE, c).

Definition handleClientOut (c : Client) : failing Client (Z * Client) :=
  match cl_outBuffers c with
  | [] => response_sent c
  | b :: rest =>
      if os_write os <? 0 then Ret (SITUATION_CLOSE, c)
      else
        let c := (log (EvWrite (take (Z.to_nat (os_write os)) b)) c) <| cl_outBuffers := rest |> in
        match rest with
        | [] => response_sent c
        | _ => Ret (0, c)
        end
  end.

Definition handleCGIProcess (c : Client) : failing Client (Z * Client) :=
  p ← deref (cl_cgiProcess c);
  let '(res, p', killed) := checkEnd (os_wait os) (os_now os) p in
  let c := c <| cl_cgiProcess := Some p' |> in
  let c := if killed : bool then log (EvKill (cgi_pid p)) c else c in
  if res =? 0 then Ret (0, c)
  else if res <? 0 then generateResponse (deleteCGIProcess c) RES_SERVICE_UNAVAILABLE
  else
    let r := the_request c in
    let content := default [] (fs_open (os_fs os) (c_str (rh_path (resHints r)))) in
    '(res, p, r) ← fueled (parse_cgi_headers content p' r);
    let r := on_hints (fun h => h <| rh_cgiRedir := res |>) r in
    let c := (set_request r c) <| cl_cgiProcess := Some p |> in
    if res =? CGI_RES_ERROR then generateResponse (deleteCGIProcess c) RES_SERVICE_UNAVAILABLE
    else if (res =? CGI_RES_DOC) || (res =? CGI_RES_CLIENT_REDIRECT) then
      '(res, c) ← generateResponse c 0;
      Ret (res, deleteCGIProcess c)
    else if res =? CGI_RES_LOCAL_REDIRECT then
      '(res, c) ← handleRequestHeaders (deleteCGIProcess c);
      if negb (res =? 0) || negb (req_type (the_request c) =? REQ_TYPE_CGI) then
        generateResponse c res
      else
        let '(e, c) := generateCGIProcess c in
        if negb (e =? 0) then generateResponse (deleteCGIProcess c) RES_INTERNAL_ERROR
        else Ret (0, c)
    else Ret (res, deleteCGIProcess c).

(** After the last byte of a response. *)
Definition after_response (res : Z) (c : Client) : failing Client (Z * Client) :=
  if res =? SITUATION_KEEP_ALIVE then
    '(res, c) ← handleClientIn ((clear c) <| cl_mode := CLIENT_MODE_READ |>) false;
    if 0 <? res then handleClientResponse c res else Ret (res, c)
  else if res =? SITUATION_CONTINUE then
    Ret (0, (clearResponse c) <| cl_mode := CLIENT_MODE_READ |>)
  else Ret (0, terminate c).

Definition handleClientEvent (hup ein eout : bool) (c : Client) : failing Client (Z * Client) :=
  if hup || (cl_mode c =? CLIENT_MODE_ERROR) then Ret (0, terminate c)
  else if ein && ((cl_mode c =? CLIENT_MODE_READ) || negb (cl_bodyStatus c =? BODY_STATUS_ONGOING)) then
    '(res, c) ← handleClientIn c true;
    if 0 <? res then handleClientResponse c res
    else if res <? 0 then Ret (-1, c) else Ret (0, c)
  else if eout && (cl_mode c =? CLIENT_MODE_WRITE) then
    '(res, c) ← (match cl_cgiProcess c with Some _ => handleCGIProcess c | None => Ret (0, c) end);
    if negb (res =? 0) then Ret (-1, c)
    else
      match cl_response c with
      | None => Ret (0, c)
      | Some _ =>
          '(res, c) ← handleClientOut c;
          if negb (res =? 0) then after_response res c else Ret (0, c)
      end
  else Ret (0, c).

(** The client's turn in [handleEpoll]. *)
Definition client_event (hup ein eout : bool) (c : Client) : failing Client Client :=
  '(res, c) ← handleClientEvent hup ein eout c;
  Ret (if res <? 0 then terminate c else c).

(** One client of the loop of [checkTO]. *)
Definition check_timeout (c : Client) : failing Client Client :=
  if (cl_mode c =? CLIENT_MODE_READ) && (CLIENT_TIME_OUT <? os_now os - cl_lastInteraction c) then
    match cl_request c with
    | None => Ret (terminate c)
    | Some r =>
        let c := c <| cl_mode := CLIENT_MODE_WRITE |> in
        let r := (_fillError 408 [] (setStatus COMPLETE r)).2 in
        '(_, c) ← generateResponse (set_request r c) 408;
        Ret c
    end
  else Ret c.
End errors.
End event.

(** *** Examples *)
Definition demo_server : Host :=
  demo_host <| h_server_names := [`s"demo"] |> <| h_dir_errors := `s"/err/" |>.
Definition demo_os (input : str) : os_answers :=
  mkOs (Some input) 1000000 Running 7 0 (`s"now") (fun _ => `s"./tmp/_1")
    (mkFilesystem (fs_stat demo_fs) (fs_access demo_fs) (fun _ => 5)
       (fun p => if str_eqb p (`s"/www/a.txt") then Some (`s"hello") else None) (fun _ => None))
    (fun _ => true).
Definition demo_client : Client := Client_init 0 [(`s"demo", demo_server)].

(** A request is read and answered, and the connection stays. *)
Definition demo_session : failing Client Client :=
  c ← client_event (demo_os (crlf "GET /a.txt HTTP/1.1" ++ crlf "Host: demo" ++ CRLF)) [] false true false demo_client;
  c ← client_event (demo_os []) [] false false true c;
  client_event (demo_os []) [] false false true c.

Example session_ex :
  match demo_session with
  | Ret c => (cl_mode c, cl_response c, cl_outBuffers c, length (cl_log c), cl_terminated c) =
             (CLIENT_MODE_READ, None, [], 3%nat, false)
  | _ => False
  end.
Proof. vm_compute. reflexivity. Qed.

Example session_bytes :
  match demo_session with
  | Ret c => match cl_log c with
             | [EvBind _; EvWrite head; EvWrite body] =>
                 (take 15 head, body) = (`s"HTTP/1.1 200 OK", `s"hello")
             | _ => False
             end
  | _ => False
  end.
Proof. vm_compute. reflexivity. Qed.
