(* ===== verification/ControlFacts.v ===== *)
(** * ControlFacts: properties of the event handlers

    The invariant of a client over its events, what [generateResponse] leaves,
    which requests [handleRequestHeaders] accepts, uploads, the sending of the
    queue, the script that is never answered, and what separates two requests of
    one connection. *)

From S2P Require Import Prelude CxxString OrdMap Format Http RequestHeaders RequestBody RequestUri Host Response Cgi Client Control.
#[local] Open Scope Z_scope.

(** ** The response, the queue and the mode *)

(** The part of a client the sending of a response is about. *)
Definition io (c : Client) : option AResponse * list str * Z :=
  (cl_response c, cl_outBuffers c, cl_mode c).

(** Nothing is queued without a response, and a response is being written. *)
Definition io_inv (c : Client) : Prop :=
  (cl_response c = None -> cl_outBuffers c = []) /\
  (cl_response c <> None -> cl_mode c = CLIENT_MODE_WRITE).

Lemma io_inv_frame c c' : io c' = io c -> io_inv c -> io_inv c'.
Proof. unfold io, io_inv. by intros [= -> -> ->]. Qed.

(** [keeps_io m c]: if [m] returns, it left the response, the queue and the mode
    of [c] alone. *)
Definition keeps_io (m : failing Client (Z * Client)) (c : Client) : Prop :=
  post m (fun x => io x.2 = io c).

Lemma io_getRequest now c : io (getRequest now c) = io c.
Proof. unfold getRequest. by destruct (cl_request c). Qed.

Lemma io_deleteCGIProcess c : io (deleteCGIProcess c) = io c.
Proof. unfold deleteCGIProcess. by destruct (cl_cgiProcess c). Qed.

Lemma io_deleteBodyStream c : io (deleteBodyStream c) = io c.
Proof.
  unfold deleteBodyStream. destruct (cl_bodyStream c); [|done]. cbv zeta.
  cbn [cl_request upd]. destruct (cl_request c) as [r|]; [|done]. by destruct (_ || _).
Qed.

Lemma io_setBodyFile os p c : io (setBodyFile os p c) = io c.
Proof.
  unfold setBodyFile. destruct (negb _); [|done]. by destruct (os_can_create os _).
Qed.

Lemma io_copy_content_type c : io (copy_content_type c) = io c.
Proof. unfold copy_content_type. by destruct (checkHeader _ _). Qed.

Lemma parseRequest_io now s c : keeps_io (parseRequest now s c) c.
Proof.
  unfold parseRequest, keeps_io. cbv zeta. rewrite <- (io_getRequest now c).
  set (c0 := getRequest now c). destruct (_ <? _).
  - apply post_bind_any. intros [[res r] rest]. cbn [post snd]. by destruct (res <? 0).
  - destruct (_ && _); [|done]. apply post_bind_any. intros [[[res r] rest] f].
    cbn [post snd]. by destruct (res <? 0).
Qed.

Lemma on_request_io f c : keeps_io (on_request f c) c.
Proof. apply post_bind_any. by intros [res r]. Qed.

Lemma bindClient_io h c : post (bindClient h c) (fun c' => io c' = io c).
Proof. by apply post_bind_any. Qed.

Lemma assignHost_io c : keeps_io (assignHost c) c.
Proof.
  unfold assignHost, keeps_io. destruct (negb _); [done|].
  apply post_bind with (P := fun c' => io c' = io c); [|done].
  unfold setHost. destruct (cl_host c) as [h|]; [|apply bindClient_io].
  destruct (checkServerName _ h); [done|]. apply (bindClient_io _ (log EvUnbind c)).
Qed.

Lemma start_body_io n h c : io (start_body n h c) = io c.
Proof. unfold start_body. by destruct (_ || _). Qed.

Lemma checkBodyLength_io c : keeps_io (checkBodyLength c) c.
Proof.
  unfold checkBodyLength, keeps_io. destruct (checkHeader _ _).
  - apply post_bind_any. intros h. destruct (_ <? _); [done|]. cbn [post snd].
    rewrite start_body_io. by destruct (0 <? _).
  - destruct (is_chunked _); [|done]. apply post_bind_any. intros h. apply start_body_io.
Qed.

Lemma checkContinue_io c : io (checkContinue c).2 = io c.
Proof.
  unfold checkContinue. destruct (str_eqb _ _); [by destruct (_ =? _)|]. by destruct (negb _).
Qed.

Lemma defineBodyParsing_io os c : keeps_io (defineBodyParsing os c) c.
Proof.
  unfold defineBodyParsing, keeps_io. destruct (_ =? REQ_TYPE_CGI).
  - apply post_bind with (P := fun c' => io c' = io c).
    + destruct (negb _); [|apply io_setBodyFile]. apply post_bind_any. intros h.
      apply post_bind_any. intros n. apply io_setBodyFile.
    + intros c' Hc'. cbn [post snd]. by rewrite io_copy_content_type.
  - destruct (_ && _).
    + apply post_bind_any. intros l.
      assert (forall f b s, io (copy_content_type (upload_file os f b s c)) = io c) as Hu.
      { intros f b s. rewrite io_copy_content_type. unfold upload_file. cbv zeta.
        match goal with |- io (set_request _ (setBodyFile _ _ ?x)) = _ =>
          transitivity (io (setBodyFile os f x)); [done|by rewrite io_setBodyFile] end. }
      destruct (checkFileExist _ _); [apply Hu|destruct (negb _); [done|apply Hu]|done].
    + cbn [post snd]. by rewrite io_copy_content_type, io_setBodyFile.
Qed.

Lemma handleRequestBodyDone_io c : io (handleRequestBodyDone c).2 = io c.
Proof.
  unfold handleRequestBodyDone. destruct (_ =? REQ_TYPE_STATIC); [|done].
  destruct (_ || _); [done|]. by destruct (_ =? DELETE).
Qed.

(** [keeps_inv m c]: [m] preserves the invariant. *)
Definition keeps_inv (m : failing Client (Z * Client)) (c : Client) : Prop :=
  io_inv c -> post m (fun x => io_inv x.2).

Lemma keeps_io_inv m c : keeps_io m c -> keeps_inv m c.
Proof. intros H Hi. eapply post_mono; [exact H|]. intros x Hx. exact (io_inv_frame _ _ Hx Hi). Qed.

Lemma andthen_inv (f k : Client -> failing Client (Z * Client)) c :
  keeps_inv (f c) c -> (forall c', keeps_inv (k c') c') -> keeps_inv (andthen f k c) c.
Proof.
  intros Hf Hk Hi. unfold andthen. eapply post_bind; [by apply Hf|]. intros [res c'] Hc'.
  destruct (negb _); [done|]. by apply Hk.
Qed.

Lemma accept_request_inv os res c : keeps_inv (accept_request os res c) c.
Proof.
  intros Hi. unfold accept_request. apply post_bind with (P := fun x => io x.2 = io c).
  - destruct (no_cgi_redir c); [apply defineBodyParsing_io|done].
  - intros [e c'] Hc'. cbn [snd] in Hc'. destruct (res =? RES_CONTINUE).
    + split; [done|]. done.
    + eapply io_inv_frame; [exact Hc'|exact Hi].
Qed.

Lemma handleRequestHeaders_inv os c : keeps_inv (handleRequestHeaders os c) c.
Proof.
  unfold handleRequestHeaders.
  apply andthen_inv; [apply keeps_io_inv, assignHost_io|]. clear c. intros c.
  apply andthen_inv; [apply keeps_io_inv, on_request_io|]. clear c. intros c.
  apply andthen_inv; [apply keeps_io_inv, on_request_io|]. clear c. intros c.
  apply andthen_inv; [|clear c; intros c].
  { destruct (no_cgi_redir c); [apply keeps_io_inv, checkBodyLength_io|by intros Hi]. }
  apply andthen_inv; [|clear c; intros c].
  { apply keeps_io_inv. apply post_bind_any. intros h. apply on_request_io. }
  pose proof (checkContinue_io c) as Hc. destruct (checkContinue c) as [res c']. cbn [snd] in Hc.
  intros Hi. assert (io_inv c') as Hi' by (by eapply io_inv_frame).
  destruct (_ && _); [done|]. by apply accept_request_inv.
Qed.

Section invariants.
Context (os : os_answers) (dep : str).

Lemma generateResponse_inv fuel status c :
  keeps_inv (generateResponse_ os dep fuel status c) c.
Proof.
  revert status c. induction fuel as [|fuel IH]; intros status c Hi; [done|].
  cbn [generateResponse_]. cbv zeta.
  assert (io_inv (getRequest (os_now os) c)) as Hi' by (eapply io_inv_frame; [apply io_getRequest|done]).
  set (c0 := getRequest (os_now os) c) in *.
  destruct (cl_response c0) as [a|] eqn:E; [exact Hi'|].
  destruct (genResponse _ _ _) as [[a h]|[e h]| |]; [|cbv zeta|done|done].
  - split; [done|]. done.
  - set (c1 := clearResponse _).
    assert (io_inv c1) as Hi1. { split; [intros _; by apply Hi'|done]. }
    destruct (rh_status _ =? RES_INTERNAL_ERROR); [exact Hi1|by apply IH].
Qed.

Lemma generateCGIProcess_inv c : io_inv c -> io_inv (generateCGIProcess os c).2.
Proof.
  unfold generateCGIProcess. intros Hi. destruct (execCGI _ _ _ _ _) as [[e p] r].
  destruct (negb (e =? 0)); cbn [snd].
  - eapply io_inv_frame; [apply io_deleteCGIProcess|]. by apply Hi.
  - destruct Hi as [H1 H2]. by split.
Qed.

Lemma handleClientResponse_inv c n : keeps_inv (handleClientResponse os dep c n) c.
Proof.
  intros Hi. unfold handleClientResponse. cbv zeta.
  assert (io_inv (getRequest (os_now os) c)) as Hi' by (eapply io_inv_frame; [apply io_getRequest|done]).
  destruct (_ || _); [by apply generateResponse_inv|].
  pose proof (generateCGIProcess_inv _ Hi') as Hg.
  destruct (generateCGIProcess _ _) as [e c']. cbn [snd] in Hg.
  destruct (negb _); [by apply generateResponse_inv|done].
Qed.

Lemma handleClientIn_inv incoming c : keeps_inv (handleClientIn os c incoming) c.
Proof.
  intros Hi. unfold handleClientIn. destruct (if incoming then _ else _) as [s|]; [|exact Hi].
  destruct (_ && _); [exact Hi|].
  eapply post_bind; [apply (keeps_io_inv _ _ (parseRequest_io _ _ _)); done|].
  intros [res c1] H1. cbn [snd] in H1. destruct (res <? 0); [|exact H1]. cbv zeta.
  assert (forall x : Z * Client, io_inv x.2 -> post (let '(res, c) := x in
    if (res <=? 0) && negb (cl_bodyStatus c =? BODY_STATUS_ONGOING)
    then Ret (handleRequestBodyDone c) else Ret (E:=exn * Client) (res, c)) (fun x => io_inv x.2)) as Hd.
  { intros [res' c'] Hc'. destruct (_ && _); [|exact Hc'].
    eapply io_inv_frame; [apply handleRequestBodyDone_io|exact Hc']. }
  destruct (_ =? HEADER_STATUS_READY); [|by apply (Hd (res, c1))].
  eapply post_bind; [by apply handleRequestHeaders_inv|].
  intros [res2 c2] H2. cbn [snd] in H2. destruct (negb _); [exact H2|].
  destruct (negb _); [|by apply (Hd (res2, c2))].
  eapply post_bind; [apply (keeps_io_inv _ _ (parseRequest_io _ _ _)); done|]. intros x Hx. by apply Hd.
Qed.

(** After [handleClientOut]: the response goes on, or the queue is empty. *)
Lemma handleClientOut_spec c a :
  cl_response c = Some a -> cl_mode c = CLIENT_MODE_WRITE ->
  post (handleClientOut os c) (fun '(res, c') =>
    io_inv c' /\ (res = SITUATION_CLOSE \/ res = 0 \/ cl_outBuffers c' = [])).
Proof.
  intros Ha Hm.
  assert (forall c', cl_response c' = Some a -> cl_mode c' = CLIENT_MODE_WRITE -> cl_outBuffers c' = [] ->
    post (response_sent os c') (fun '(res, c') =>
      io_inv c' /\ (res = SITUATION_CLOSE \/ res = 0 \/ cl_outBuffers c' = []))) as Hs.
  { clear c Ha Hm. intros c Ha Hm Ho. unfold response_sent. cbv zeta.
    set (c0 := getRequest (os_now os) c).
    assert (io c0 = io c) as Hc0 by apply io_getRequest. unfold io in Hc0. injection Hc0 as H1 H2 H3.
    apply post_bind_any. intros [|].
    - split; [|right; right; by rewrite <- Ho, <- H2]. split; cbn; congruence.
    - split; [|right; right; by rewrite <- Ho, <- H2]. split; congruence. }
  unfold handleClientOut. destruct (cl_outBuffers c) as [|b rest] eqn:Ho; [by apply Hs|].
  destruct (_ <? 0); [split; [split; congruence|by left]|].
  destruct rest as [|b' rest]; [by apply Hs|].
  split; [|by right; left]. split; cbn; congruence.
Qed.

Definition live (c : Client) : Prop := cl_terminated c = true \/ io_inv c.

Lemma io_inv_clear c : cl_outBuffers c = [] -> io_inv ((clear c) <| cl_mode := CLIENT_MODE_READ |>).
Proof.
  intros Ho. split; [|done]. intros _. cbn. rewrite <- Ho.
  assert (io (deleteCGIProcess (deleteBodyStream c)) = io c) as H
    by (by rewrite io_deleteCGIProcess, io_deleteBodyStream).
  unfold io in H. by injection H.
Qed.

Lemma after_response_inv res c :
  io_inv c -> cl_outBuffers c = [] \/ res = SITUATION_CLOSE ->
  post (after_response os dep res c) (fun x => live x.2).
Proof.
  intros Hi Ho. unfold after_response. destruct (Z.eqb_spec res SITUATION_KEEP_ALIVE) as [->|_].
  - destruct Ho as [Ho|]; [|done].
    eapply post_bind; [by apply handleClientIn_inv, io_inv_clear|].
    intros [n c1] H1. cbn [snd] in H1. destruct (0 <? n); [|by right].
    eapply post_mono; [by apply handleClientResponse_inv|]. intros x Hx. by right.
  - destruct (Z.eqb_spec res SITUATION_CONTINUE) as [->|_].
    + destruct Ho as [Ho|]; [|done]. right. split; [intros _; exact Ho|done].
    + by left.
Qed.

Lemma handleCGIProcess_inv c : keeps_inv (handleCGIProcess os dep c) c.
Proof.
  intros Hi. unfold handleCGIProcess. apply post_bind_any. intros p.
  destruct (checkEnd _ _ p) as [[res p'] killed].
  set (c0 := if killed : bool then _ else _).
  assert (io c0 = io c) as H0 by (unfold c0; by destruct killed).
  assert (io_inv c0) as Hi0 by exact (io_inv_frame _ _ H0 Hi).
  assert (forall c', io_inv c' -> io_inv (deleteCGIProcess c')) as Hd.
  { intros c' Hc'. eapply io_inv_frame; [apply io_deleteCGIProcess|exact Hc']. }
  destruct (res =? 0); [exact Hi0|].
  destruct (res <? 0); [by apply generateResponse_inv; apply Hd|].
  apply post_bind_any. intros [[n p2] r]. cbv zeta.
  set (c1 := (set_request _ c0) <| cl_cgiProcess := _ |>).
  assert (io_inv c1) as Hi1 by exact (io_inv_frame c0 c1 eq_refl Hi0).
  destruct (n =? CGI_RES_ERROR); [by apply generateResponse_inv; apply Hd|].
  destruct (_ || _).
  { eapply post_bind; [by apply generateResponse_inv|]. intros [e c2] H2. by apply Hd. }
  destruct (n =? CGI_RES_LOCAL_REDIRECT); [|by apply Hd].
  eapply post_bind; [by apply handleRequestHeaders_inv; apply Hd|].
  intros [e c2] H2. cbn [snd] in H2. destruct (_ || _); [by apply generateResponse_inv|].
  pose proof (generateCGIProcess_inv c2 H2) as Hg.
  destruct (generateCGIProcess os c2) as [e' c3]. cbn [snd] in Hg.
  destruct (negb _); [by apply generateResponse_inv; apply Hd|exact Hg].
Qed.

Lemma client_event_inv hup ein eout c :
  io_inv c -> post (client_event os dep hup ein eout c) live.
Proof.
  intros Hi. unfold client_event.
  apply post_bind with (P := fun x => live x.2); last first.
  { intros [res c'] Hc'. cbn [post snd] in *. destruct (res <? 0); [by left|done]. }
  unfold handleClientEvent. destruct (_ || _); [by left|]. destruct (ein && _).
  { eapply post_bind; [by apply handleClientIn_inv|]. intros [res c1] H1. cbn [snd] in H1.
    destruct (0 <? res); [eapply post_mono; [by apply handleClientResponse_inv|]; intros x Hx; by right|].
    destruct (res <? 0); by right. }
  destruct (eout && _); [|by right].
  apply post_bind with (P := fun x => io_inv x.2).
  { destruct (cl_cgiProcess c); [by apply handleCGIProcess_inv|exact Hi]. }
  intros [res c1] H1. cbn [snd] in H1. destruct (negb _); [by right|].
  destruct (cl_response c1) as [a|] eqn:Ea; [|by right].
  eapply post_bind; [apply (handleClientOut_spec c1 a Ea)|].
  { apply H1. by rewrite Ea. }
  intros [n c2] [H2 Hn]. destruct (Z.eqb_spec n 0) as [->|Hne]; [by right|].
  apply after_response_inv; [done|]. destruct Hn as [?|[?|?]]; [by right|done|by left].
Qed.

Lemma check_timeout_inv c : io_inv c -> post (check_timeout os dep c) live.
Proof.
  intros Hi. unfold check_timeout. destruct (_ && _) eqn:E; [|by right].
  apply andb_true_iff in E as [Hm _]. apply Z.eqb_eq in Hm.
  assert (cl_response c = None) as Hr.
  { destruct (cl_response c) as [a|] eqn:Ea; [|done]. destruct Hi as [_ Hi].
    rewrite Ea in Hi. rewrite Hi in Hm by done. done. }
  destruct (cl_request c) as [r|]; [|by left]. cbv zeta.
  eapply post_bind.
  { apply generateResponse_inv. split; cbn; [intros _; by apply Hi|by rewrite Hr]. }
  intros [e c'] Hc'. by right.
Qed.
End invariants.

(** ** One client over time *)

(** A live client's events and timeouts, with whatever the operating system
    answers each time. *)
Inductive client_step (dep : str) : Client -> Client -> Prop :=
  | step_event os hup ein eout c c' :
      cl_terminated c = false -> client_event os dep hup ein eout c = Ret c' -> client_step dep c c'
  | step_timeout os c c' :
      cl_terminated c = false -> check_timeout os dep c = Ret c' -> client_step dep c c'.

Definition reachable (dep : str) (now : Z) (hostMap : list (str * Host)) : Client -> Prop :=
  rtc (client_step dep) (Client_init now hostMap).

(** ** [generateResponse] *)

Lemma fillErrorPage_frame dep host h :
  rh_status (fillErrorPage dep host h) = rh_status h /\
  rh_redirList (fillErrorPage dep host h) = rh_redirList h.
Proof. unfold fillErrorPage. by destruct (_ || _). Qed.

Lemma fillVerboseError_frame h :
  rh_status (fillVerboseError h) = rh_status h /\ rh_redirList (fillVerboseError h) = rh_redirList h.
Proof. unfold fillVerboseError. by repeat case_match. Qed.

Lemma fillResponse_frame dep host r :
  rh_status (resHints (fillResponse dep host r)) = rh_status (resHints r) /\
  rh_redirList (resHints (fillResponse dep host r)) = rh_redirList (resHints r).
Proof.
  unfold fillResponse. cbv zeta.
  set (r2 := fillAdditionnalHeaders (on_hints (fillErrorPage dep host) r)).
  assert (rh_status (resHints r2) = rh_status (resHints r) /\
          rh_redirList (resHints r2) = rh_redirList (resHints r)) as [<- <-].
  { apply fillErrorPage_frame. }
  apply fillVerboseError_frame.
Qed.

(** A response of status 500 is built in memory: it cannot fail. *)
Lemma genResponse_500 fs date h :
  rh_status h = RES_INTERNAL_ERROR -> rh_path h = [] -> exists a h', genResponse fs date h = Ret (a, h').
Proof.
  intros Hs Hp. unfold genResponse. rewrite Hs, Hp.
  cbn [Z.eqb Pos.eqb RES_INTERNAL_ERROR is_empty orb].
  set (h1 := addHintHeaders _). assert (rh_status h1 = RES_INTERNAL_ERROR) as H1 by done.
  unfold addSpecificHeaders. rewrite H1. change (Z.quot RES_INTERNAL_ERROR 100 =? 3) with false.
  cbn [throwing map_exn mbind outcome_bind]. unfold generateBody. rewrite H1.
  change (Z.quot RES_INTERNAL_ERROR 100 =? 3) with false.
  cbn [RES_INTERNAL_ERROR RES_OK Z.eqb Pos.eqb andb mbind outcome_bind]. by do 2 eexists.
Qed.

Lemma fillResponse_500 dep host r :
  rh_status (resHints r) = RES_INTERNAL_ERROR ->
  rh_path (resHints (fillResponse dep host r)) = [].
Proof.
  intros Hs. unfold fillResponse. cbv zeta.
  set (r2 := fillAdditionnalHeaders (on_hints (fillErrorPage dep host) r)).
  assert (rh_status (resHints r2) = RES_INTERNAL_ERROR) as H2.
  { rewrite <- Hs. apply fillErrorPage_frame. }
  change (rh_path (fillVerboseError (resHints r2)) = []). unfold fillVerboseError. by rewrite H2.
Qed.

(** What [generateResponse] leaves: a response of status [status], being
    written, and its bytes at the end of the queue. *)
Definition answered (status : Z) (queue : list str) (c : Client) : Prop :=
  exists a h, cl_response c = Some a /\ cl_mode c = CLIENT_MODE_WRITE /\ getStatus a = status /\
    cl_outBuffers c = queue ++ writeResponse a h.

Lemma getRequest_the now c :
  io (getRequest now c) = io c /\ the_request (getRequest now c) = the_request c.
Proof. unfold getRequest, the_request. destruct (cl_request c) as [r|] eqn:E; [by rewrite E|done]. Qed.

(** One round, from a client without response. *)
Definition filled (os : os_answers) (dep : str) (c : Client) (status : Z) : Request :=
  fillResponse dep (cl_host (getRequest (os_now os) c))
    (if negb (status =? 0) then set_rstatus status (the_request c) else the_request c).

Lemma filled_status os dep c status :
  rh_status (resHints (filled os dep c status)) =
    if status =? 0 then rh_status (resHints (the_request c)) else status.
Proof.
  unfold filled. rewrite (proj1 (fillResponse_frame dep _ _)). by destruct (status =? 0).
Qed.

Lemma generateResponse_step os dep fuel status c :
  cl_response c = None ->
  match genResponse (os_fs os) (os_date os) (resHints (filled os dep c status)) with
  | Ret _ => exists c', generateResponse_ os dep (S fuel) status c = Ret (0, c') /\
      answered (rh_status (resHints (filled os dep c status))) (cl_outBuffers c) c'
  | Throw _ => exists c', cl_response c' = None /\ cl_outBuffers c' = cl_outBuffers c /\
      generateResponse_ os dep (S fuel) status c =
        if rh_status (resHints (filled os dep c status)) =? RES_INTERNAL_ERROR then Ret (-1, c')
        else generateResponse_ os dep fuel RES_INTERNAL_ERROR c'
  | _ => True
  end.
Proof.
  intros Hr. cbn [generateResponse_]. cbv zeta.
  destruct (getRequest_the (os_now os) c) as [Hio ->]. unfold io in Hio. injection Hio as -> Ho _.
  rewrite Hr. change (fillResponse dep _ _) with (filled os dep c status).
  destruct (genResponse _ _ _) as [[a h]|[e h]| |] eqn:Eg; [| |done|done].
  - eexists. split; [reflexivity|]. exists a, h. split; [done|]. split; [done|].
    split; [by eapply genResponse_status|]. cbn. by rewrite Ho.
  - apply genResponse_thrown in Eg. assert (rh_status h = rh_status (resHints (filled os dep c status))) as <- by by rewrite Eg.
    eexists. split; [|split; [|reflexivity]]; [done|exact Ho].
Qed.

(** With status 500 a round succeeds. *)
Lemma filled_500 os dep c status :
  rh_status (resHints (filled os dep c status)) = RES_INTERNAL_ERROR ->
  exists a h, genResponse (os_fs os) (os_date os) (resHints (filled os dep c status)) = Ret (a, h).
Proof.
  intros Hs. apply genResponse_500; [done|]. unfold filled in *. apply fillResponse_500.
  by rewrite (proj1 (fillResponse_frame dep _ _)) in Hs.
Qed.

Lemma generateResponse_500 os dep fuel c :
  cl_response c = None ->
  exists c', generateResponse_ os dep (S fuel) RES_INTERNAL_ERROR c = Ret (0, c') /\
    answered RES_INTERNAL_ERROR (cl_outBuffers c) c'.
Proof.
  intros Hr. pose proof (generateResponse_step os dep fuel RES_INTERNAL_ERROR c Hr) as H.
  destruct (filled_500 os dep c RES_INTERNAL_ERROR) as (a & h & E); [apply filled_status|].
  rewrite E, filled_status in H. exact H.
Qed.

(** ** Properties of [generateResponse] *)

Lemma generateResponse_spec os dep c status :
  let r := if status =? 0 then the_request c else set_rstatus status (the_request c) in
  cl_response c = None -> redirectable (resHints r) ->
  exists c' s, generateResponse os dep c status = Ret (0, c') /\
    answered s (cl_outBuffers c) c' /\
    (s = rh_status (resHints r) \/ s = RES_INTERNAL_ERROR).
Proof.
  intros r Hr Hred. unfold generateResponse.
  assert (rh_status (resHints (filled os dep c status)) = rh_status (resHints r)) as Hst.
  { rewrite filled_status. unfold r. by destruct (status =? 0). }
  assert (redirectable (resHints (filled os dep c status))) as Hred'.
  { unfold redirectable, filled, r in *.
    destruct (fillResponse_frame dep (cl_host (getRequest (os_now os) c))
      (if negb (status =? 0) then set_rstatus status (the_request c) else the_request c)) as [-> ->].
    by destruct (status =? 0). }
  pose proof (genResponse_defined (os_fs os) (os_date os) _ Hred') as Hs.
  pose proof (generateResponse_step os dep 1 status c Hr) as H.
  destruct (genResponse _ _ _) as [[a h]|e| |] eqn:Eg; [| |done|done].
  - destruct H as (c' & H1 & H2). exists c', (rh_status (resHints r)).
    split; [done|]. split; [by rewrite <- Hst|by left].
  - destruct H as (c' & Hc' & Ho & ->).
    destruct (Z.eqb_spec (rh_status (resHints (filled os dep c status))) RES_INTERNAL_ERROR) as [E|_].
    + apply filled_500 in E as (a & h & E). by rewrite E in Eg.
    + destruct (generateResponse_500 os dep 0 c' Hc') as (c2 & -> & H2). rewrite Ho in H2.
      exists c2, RES_INTERNAL_ERROR. split; [done|]. split; [done|by right].
Qed.

(** C21: Every request is answered.  Without a pending response, and if a
    redirection status has its targets, [generateResponse] never fails: it
    returns 0 and leaves a response of the status asked for (or of the recorded
    status, for 0), or the 500 that replaces a response that cannot be built,
    with its bytes at the end of the queue and the client in write mode. *)
Theorem generateResponse_answers os dep c status :
  let r := if status =? 0 then the_request c else set_rstatus status (the_request c) in
  cl_response c = None -> redirectable (resHints r) ->
  exists c' s, generateResponse os dep c status = Ret (0, c') /\
    answered s (cl_outBuffers c) c' /\
    (s = rh_status (resHints r) \/ s = RES_INTERNAL_ERROR).
Proof. apply generateResponse_spec. Qed.

Lemma generateResponse_answers_witness :
  exists c' s, generateResponse (demo_os []) [] demo_client 404 = Ret (0, c') /\
    answered s [] c' /\ (s = 404 \/ s = RES_INTERNAL_ERROR).
Proof.
  apply (generateResponse_answers (demo_os []) [] demo_client 404); [reflexivity|].
  intros H. vm_compute in H. discriminate.
Defined.

Lemma generateResponse_held os dep c status a :
  cl_response c = Some a -> generateResponse os dep c status = Ret (0, getRequest (os_now os) c).
Proof.
  intros Ha. destruct (getRequest_the (os_now os) c) as [Hio _].
  unfold generateResponse. cbn [generateResponse_]. cbv zeta. unfold io in Hio.
  injection Hio as -> _ _. by rewrite Ha.
Qed.

(** A pending response is never replaced: [generateResponse] then returns 0
    and leaves the client, its queue included, as it is, whatever the status.
    After the interim response of [Expect: 100-continue] is queued, the
    response to a request whose body was already there is lost this way. *)
Theorem generateResponse_pending os dep c status a :
  cl_response c = Some a ->
  generateResponse os dep c status = Ret (0, getRequest (os_now os) c) /\
  io (getRequest (os_now os) c) = io c.
Proof.
  intros Ha. destruct (getRequest_the (os_now os) c) as [Hio _]. split; [|done].
  by eapply generateResponse_held.
Qed.

Lemma generateResponse_pending_witness :
  generateResponse (demo_os []) [] (generateContinueResponse demo_client) 201 =
    Ret (0, getRequest 0 (generateContinueResponse demo_client)) /\
  io (getRequest 0 (generateContinueResponse demo_client)) = io (generateContinueResponse demo_client).
Proof. eapply (generateResponse_pending (demo_os []) []). reflexivity. Defined.

(** ** The client's invariant *)

(** C20: Over any sequence of events and timeouts, whatever the operating system
    answers, a connected client has nothing queued without a response, and a
    client that has a response is in write mode. *)
Theorem reachable_inv dep now hostMap c :
  reachable dep now hostMap c ->
  cl_terminated c = true \/
  (cl_response c = None -> cl_outBuffers c = []) /\
  (cl_response c <> None -> cl_mode c = CLIENT_MODE_WRITE).
Proof.
  change (reachable dep now hostMap c -> live c).
  apply (rtc_ind_r live); [by right|].
  intros c1 c2 _ Hs H1. destruct Hs as [os hup ein eout c1 c2 Ht E|os c1 c2 Ht E];
    (destruct H1 as [?|Hi]; [congruence|]).
  - exact (post_elim _ _ _ (client_event_inv os dep hup ein eout c1 Hi) E).
  - exact (post_elim _ _ _ (check_timeout_inv os dep c1 Hi) E).
Qed.

(** What [client_event] returns, for closed runs. *)
Definition run_or {E A} (d : A) (m : outcome E A) : A := match m with Ret a => a | _ => d end.
Definition demo_request_bytes : str := crlf "GET /a.txt HTTP/1.1" ++ crlf "Host: demo" ++ CRLF.
Definition demo_reading : Client :=
  run_or demo_client (client_event (demo_os demo_request_bytes) [] false true false demo_client).

Lemma reachable_inv_witness :
  cl_response demo_reading <> None /\
  (cl_terminated demo_reading = true \/
   (cl_response demo_reading = None -> cl_outBuffers demo_reading = []) /\
   (cl_response demo_reading <> None -> cl_mode demo_reading = CLIENT_MODE_WRITE)).
Proof.
  split; [vm_compute; discriminate|].
  apply (reachable_inv [] 0 [(`s"demo", demo_server)]).
  apply rtc_once, (step_event [] (demo_os demo_request_bytes) false true false); vm_compute; reflexivity.
Defined.

(** ** Which requests are accepted *)

Lemma andthen_zero {X S} (f k : S -> outcome X (Z * S)) s (P Q : S -> Prop) :
  post (f s) (fun x => x.1 = 0 -> P x.2) ->
  (forall s', P s' -> post (k s') (fun x => x.1 = 0 -> Q x.2)) ->
  post (andthen f k s) (fun x => x.1 = 0 -> Q x.2).
Proof.
  intros Hf Hk. unfold andthen. eapply post_bind; [exact Hf|]. intros [res s'] H. cbn [fst snd] in H.
  destruct (Z.eqb_spec res 0) as [E|E]; [by apply Hk, H|]. cbn. done.
Qed.

Lemma parseURI_frame r :
  post (fueled (E:=exn) (parseURI r)) (fun x => _headers x.2 = _headers r /\ req_method x.2 = req_method r).
Proof.
  unfold parseURI. set (u := _ <| uri_pathInfo := [] |>). destruct (pruneScheme _) as [e q].
  destruct (negb (e =? 0)); [done|]. cbv zeta. destruct (extractPath _) as [path query].
  destruct (checkPath path) as [[e' path']|]; [|done]. cbn [mbind option_bind].
  destruct (negb (e' =? 0)); [done|]. by destruct (prunePercent _).
Qed.

(** The headers of a request that [checkForbiddenHeaders] and [assignHost] let
    pass. *)
Definition headers_allowed (r : Request) : Prop :=
  checkHeader (`s"host") r = true /\
  getHeader (`s"accept-ranges") r = [] /\
  (checkHeader (`s"content-encoding") r = true -> getHeader (`s"content-encoding") r = `s"identity") /\
  (checkHeader (`s"transfer-encoding") r = true -> getHeader (`s"transfer-encoding") r = `s"chunked").

Lemma checkForbiddenHeaders_allowed r :
  (checkForbiddenHeaders r).1 = 0 -> checkHeader (`s"host") r = true ->
  headers_allowed r /\ (checkForbiddenHeaders r).2 = r.
Proof.
  unfold checkForbiddenHeaders, headers_allowed. cbv zeta.
  destruct (str_eqb (getHeader (`s"accept-ranges") r) []) eqn:E1; cbn [negb]; [|done].
  apply str_eqb_eq in E1.
  destruct (checkHeader (`s"content-encoding") r) eqn:E2; cbn [andb];
    [destruct (str_eqb (getHeader (`s"content-encoding") r) (`s"identity")) eqn:E3; cbn [negb]; [|done]|];
    (destruct (checkHeader (`s"transfer-encoding") r) eqn:E4; cbn [andb];
    [destruct (str_eqb (getHeader (`s"transfer-encoding") r) (`s"chunked")) eqn:E5; cbn [negb]; [|done]|]);
    intros _ Hh; repeat match goal with H : str_eqb _ _ = true |- _ => apply str_eqb_eq in H end;
    split_and!; intros; congruence || done.
Qed.

(** What the body parsing keeps of the request. *)
Definition rules (c : Client) : Z * Z * option Location * option CGIConfig :=
  let r := the_request c in
  (req_type r, req_method r, rh_locationRules (resHints r), rh_cgiRules (resHints r)).

Lemma rules_setBodyFile os p c : rules (setBodyFile os p c) = rules c.
Proof. unfold setBodyFile. destruct (negb _); [|done]. by destruct (os_can_create os _). Qed.

Lemma rules_copy_content_type c : rules (copy_content_type c) = rules c.
Proof. unfold copy_content_type. by destruct (checkHeader _ _). Qed.

Lemma rules_upload_file os f b s c : rules (upload_file os f b s c) = rules c.
Proof.
  unfold upload_file. cbv zeta.
  match goal with |- rules (set_request _ (setBodyFile _ _ ?x)) = _ =>
    transitivity (rules (setBodyFile os f x)); [done|by rewrite rules_setBodyFile] end.
Qed.

Lemma defineBodyParsing_rules os c : post (defineBodyParsing os c) (fun x => rules x.2 = rules c).
Proof.
  unfold defineBodyParsing. destruct (_ =? REQ_TYPE_CGI).
  - apply post_bind with (P := fun c' => rules c' = rules c).
    + destruct (negb _); [|apply rules_setBodyFile]. apply post_bind_any. intros h.
      apply post_bind_any. intros n. apply rules_setBodyFile.
    + intros c' Hc'. cbn [post snd]. by rewrite rules_copy_content_type.
  - destruct (_ && _).
    + apply post_bind_any. intros l. destruct (checkFileExist _ _).
      * cbn [post snd]. by rewrite rules_copy_content_type, rules_upload_file.
      * destruct (negb _); [done|]. cbn [post snd]. by rewrite rules_copy_content_type, rules_upload_file.
      * done.
    + cbn [post snd]. by rewrite rules_copy_content_type, rules_setBodyFile.
Qed.

Lemma checkBodyLength_frame c :
  post (checkBodyLength c) (fun x => req_method (the_request x.2) = req_method (the_request c)).
Proof.
  assert (forall n h c, req_method (the_request (start_body n h c)) = req_method (the_request c)) as Hs.
  { intros n h c0. unfold start_body. destruct (_ || _); [|done]. cbv zeta. cbn.
    by destruct (is_chunked (the_request c0)). }
  unfold checkBodyLength. destruct (checkHeader _ _).
  - apply post_bind_any. intros h. destruct (_ <? _); [done|]. cbn [post snd]. rewrite Hs.
    by destruct (0 <? _).
  - destruct (is_chunked _); [|done]. apply post_bind_any. intros h. apply Hs.
Qed.

Lemma checkContinue_frame c :
  (checkContinue c).1 = 0 \/ (checkContinue c).1 = RES_CONTINUE ->
  rules (checkContinue c).2 = rules c.
Proof.
  unfold checkContinue. destruct (str_eqb _ (`s"100-continue")).
  - destruct (_ =? BODY_STATUS_NONE); [|done]. by intros [H|H].
  - destruct (negb _); [|done]. by intros [H|H].
Qed.

Lemma assignHost_named c : post (assignHost c) (fun x => x.1 = 0 ->
  the_request x.2 = the_request c /\ checkHeader (`s"host") (the_request c) = true).
Proof.
  unfold assignHost. destruct (checkHeader _ _) eqn:Eh; cbn [negb]; [|done].
  assert (forall h c, post (bindClient h c) (fun c' => the_request c' = the_request c)) as Hb
    by (intros h c0; by apply post_bind_any).
  apply post_bind with (P := fun c' => the_request c' = the_request c).
  - unfold setHost. destruct (cl_host c) as [h|]; [|apply Hb].
    destruct (checkServerName _ h); [done|]. apply (Hb _ (log EvUnbind c)).
  - done.
Qed.

(** The end of [handleRequestHeaders], for a request that was granted. *)
Lemma accept_granted os c m :
  granted (os_fs os) m (the_request c) ->
  post (let '(res, c) := checkContinue c in
        if negb (res =? 0) && negb (res =? RES_CONTINUE) then Ret (res, c) else accept_request os res c)
    (fun x => x.1 = 0 -> cl_headerStatus x.2 = HEADER_STATUS_DONE /\
       exists r, granted (os_fs os) m r /\
         rules x.2 = (req_type r, req_method r, rh_locationRules (resHints r), rh_cgiRules (resHints r))).
Proof.
  intros Hg. pose proof (checkContinue_frame c) as Hcc.
  destruct (checkContinue c) as [res c6]. cbn [fst snd] in Hcc.
  destruct (negb (res =? 0) && negb (res =? RES_CONTINUE)) eqn:Er.
  { cbn [post fst]. intros ->. done. }
  apply andb_false_iff in Er. rewrite !negb_false_iff, !Z.eqb_eq in Er.
  unfold accept_request. apply post_bind with (P := fun x => rules x.2 = rules c6).
  { destruct (no_cgi_redir c6); [apply defineBodyParsing_rules|done]. }
  intros [e c7] Hr. cbn [snd] in Hr.
  assert (rules c7 = rules c) as Hr5 by (rewrite Hr; by apply Hcc).
  destruct (res =? RES_CONTINUE); cbn [post fst snd]; intros _;
    (split; [done|]; exists (the_request c); split; [done|exact Hr5]).
Qed.

(** C22: What [handleRequestHeaders] accepts.  When it returns 0 for a parsed
    method, the request named a host, asked for no feature the server lacks, and
    [checkRequest] granted the resource under the rules that stay with the
    request; the client's head is done. *)
Theorem handleRequestHeaders_gate os c :
  0 <= req_method (the_request c) ->
  post (handleRequestHeaders os c) (fun '(res, c') => res = 0 ->
    cl_headerStatus c' = HEADER_STATUS_DONE /\ headers_allowed (the_request c) /\
    exists r, granted (os_fs os) (req_method (the_request c)) r /\
      rules c' = (req_type r, req_method r, rh_locationRules (resHints r), rh_cgiRules (resHints r))).
Proof.
  intros Hm. set (m := req_method (the_request c)) in *. set (H := _headers (the_request c)).
  assert (forall r, _headers r = H -> headers_allowed r -> headers_allowed (the_request c)) as Hall.
  { intros r Hr. unfold headers_allowed, checkHeader, getHeader. by rewrite Hr. }
  set (same := fun c' => _headers (the_request c') = H /\ req_method (the_request c') = m).
  set (Q := fun c' => cl_headerStatus c' = HEADER_STATUS_DONE /\ headers_allowed (the_request c) /\
    exists r, granted (os_fs os) m r /\
      rules c' = (req_type r, req_method r, rh_locationRules (resHints r), rh_cgiRules (resHints r))).
  eapply post_mono with (P := fun x => x.1 = 0 -> Q x.2); [|by intros []].
  unfold handleRequestHeaders.
  apply andthen_zero with (P := fun c' => same c' /\ checkHeader (`s"host") (the_request c) = true).
  { eapply post_mono; [apply assignHost_named|]. intros x Hx H0. destruct (Hx H0) as [E Hn].
    split; [|done]. unfold same. by rewrite E. }
  intros c1 [[Hh1 Hm1] Hhost].
  apply andthen_zero with (P := same).
  { unfold on_request. eapply post_bind; [apply post_map_exn, (parseURI_frame (the_request c1))|].
    intros [res r] [E1 E2] _. unfold same. cbn in *. by rewrite E1, E2. }
  intros c2 [Hh2 Hm2].
  apply andthen_zero with (P := fun c' => req_method (the_request c') = m /\ headers_allowed (the_request c)).
  { unfold on_request. cbn [throwing map_exn mbind outcome_bind].
    pose proof (checkForbiddenHeaders_allowed (the_request c2)) as Hf.
    destruct (checkForbiddenHeaders _) as [res r]. cbn [fst snd post] in *. intros ->.
    destruct Hf as [Hf ->]; [done| |].
    - revert Hhost. unfold checkHeader. by rewrite Hh2.
    - split; [done|]. by apply (Hall (the_request c2)). }
  intros c3 [Hm3 Hok].
  apply andthen_zero with (P := fun c' => req_method (the_request c') = m).
  { destruct (no_cgi_redir c3); [|intros _; exact Hm3].
    eapply post_mono; [apply checkBodyLength_frame|]. intros x E _. by rewrite E. }
  intros c4 Hm4.
  apply andthen_zero with (P := fun c' => granted (os_fs os) m (the_request c')).
  { apply post_bind_any. intros h. unfold on_request.
    pose proof (checkRequest_routed (os_fs os) h m (the_request c4) Hm Hm4) as Hc.
    destruct (checkRequest _ _ _) as [[res r]| | |]; try done.
    cbn [throwing map_exn mbind outcome_bind post fst snd safe] in *. by apply Hc. }
  intros c5 Hg. eapply post_mono; [by apply (accept_granted os c5 m)|].
  intros x Hx H0. destruct (Hx H0) as [H1 H2]. by split.
Qed.

Definition demo_head : Client :=
  (run_or (0, demo_client) (parseRequest 0 demo_request_bytes demo_client)).2.

Lemma handleRequestHeaders_gate_witness :
  (run_or (1, demo_client) (handleRequestHeaders (demo_os []) demo_head)).1 = 0 /\
  post (handleRequestHeaders (demo_os []) demo_head) (fun '(res, c') => res = 0 ->
    cl_headerStatus c' = HEADER_STATUS_DONE /\ headers_allowed (the_request demo_head) /\
    exists r, granted (os_fs (demo_os [])) (req_method (the_request demo_head)) r /\
      rules c' = (req_type r, req_method r, rh_locationRules (resHints r), rh_cgiRules (resHints r))).
Proof.
  split; [vm_compute; reflexivity|].
  apply handleRequestHeaders_gate. vm_compute. discriminate.
Defined.

(** Without a Host header the head is refused with 400, before anything of
    the request is looked at: no host is bound and nothing is touched outside
    the client. *)
Theorem missing_host os c :
  checkHeader (`s"host") (the_request c) = false ->
  exists c', handleRequestHeaders os c = Ret (RES_BAD_REQUEST, c') /\
    rh_status (resHints (the_request c')) = RES_BAD_REQUEST /\
    cl_host c' = cl_host c /\ cl_log c' = cl_log c /\ cl_bodyStatus c' = cl_bodyStatus c.
Proof.
  intros Hh. unfold handleRequestHeaders, andthen at 1, assignHost. rewrite Hh. by eexists.
Qed.

Lemma missing_host_witness :
  exists c', handleRequestHeaders (demo_os []) demo_client = Ret (RES_BAD_REQUEST, c') /\
    rh_status (resHints (the_request c')) = RES_BAD_REQUEST /\
    cl_host c' = cl_host demo_client /\ cl_log c' = cl_log demo_client /\
    cl_bodyStatus c' = cl_bodyStatus demo_client.
Proof. apply missing_host. vm_compute. reflexivity. Defined.

(** A Content-Length that is not a positive number is not an error: if
    [getInt] leaves a value that is not positive -- it keeps the initial -1 on
    text that is no number -- a request without chunked body is accepted as one
    without body, the client being left as it is. *)
Theorem invalid_content_length c host :
  cl_host c = Some host -> 0 <= h_body_max_size host -> is_chunked (the_request c) = false ->
  checkHeader (`s"content-length") (the_request c) = true ->
  (getInt (getHeader (`s"content-length") (the_request c)) 10 (-1)).2 <= 0 ->
  checkBodyLength c = Ret (0, c).
Proof.
  intros Hh Hmax Hc Hl Hn. unfold checkBodyLength. rewrite Hl, Hh. cbn [deref mbind outcome_bind]. cbv zeta.
  rewrite (proj2 (Z.ltb_ge _ _)) by lia. rewrite (proj2 (Z.ltb_ge 0 _)) by done.
  unfold start_body. rewrite Hc. by rewrite (proj2 (Z.ltb_ge 0 _)).
Qed.

Definition demo_length (v : string) : Client :=
  set_request (Request_init <| _headers := [(`s"Content-Length", lit v)] |>)
    (demo_client <| cl_host := Some demo_server |>).

Lemma invalid_content_length_witness :
  checkBodyLength (demo_length "12abc") = Ret (0, demo_length "12abc").
Proof. apply (invalid_content_length _ demo_server); vm_compute; congruence. Defined.

(** The body limit.  A Content-Length above the host's maximum is refused with
    413; any other positive one starts a body of exactly that length and of that
    maximum. *)
Theorem checkBodyLength_limit c host n :
  cl_host c = Some host ->
  checkHeader (`s"content-length") (the_request c) = true ->
  (getInt (getHeader (`s"content-length") (the_request c)) 10 (-1)).2 = n -> 0 < n ->
  exists c', checkBodyLength c =
      Ret (if h_body_max_size host <? n then RES_REQUEST_ENTITY_TOO_LARGE else 0, c') /\
    if h_body_max_size host <? n
    then rh_status (resHints (the_request c')) = RES_REQUEST_ENTITY_TOO_LARGE /\
         cl_bodyStatus c' = cl_bodyStatus c
    else cl_bodyStatus c' = BODY_STATUS_ONGOING /\ _content_length (the_request c') = n /\
         _body_max_size (the_request c') = h_body_max_size host.
Proof.
  intros Hh Hl <- Hn. unfold checkBodyLength. rewrite Hl, Hh. cbn [deref mbind outcome_bind]. cbv zeta.
  set (n := (getInt _ 10 (-1)).2) in *. destruct (h_body_max_size host <? n) eqn:E; [by eexists|].
  rewrite (proj2 (Z.ltb_lt 0 n)) by done. eexists. split; [reflexivity|]. unfold start_body.
  rewrite (proj2 (Z.ltb_lt 0 n)) by done. cbn [orb]. cbv zeta. cbn.
  by destruct (is_chunked _).
Qed.

Lemma checkBodyLength_limit_witness :
  exists c', checkBodyLength (demo_length "42") =
      Ret (if h_body_max_size demo_server <? 42 then RES_REQUEST_ENTITY_TOO_LARGE else 0, c') /\
    if h_body_max_size demo_server <? 42
    then rh_status (resHints (the_request c')) = RES_REQUEST_ENTITY_TOO_LARGE /\
         cl_bodyStatus c' = cl_bodyStatus (demo_length "42")
    else cl_bodyStatus c' = BODY_STATUS_ONGOING /\ _content_length (the_request c') = 42 /\
         _body_max_size (the_request c') = h_body_max_size demo_server.
Proof. apply (checkBodyLength_limit (demo_length "42") demo_server 42); vm_compute; reflexivity. Defined.

(** ** Uploads *)

Lemma handleRequestBodyDone_upload c :
  req_type (the_request c) = REQ_TYPE_STATIC ->
  req_method (the_request c) = POST \/ req_method (the_request c) = PUT ->
  (handleRequestBodyDone c).1 =
    if 0 <? getBodySize (the_request c) then rh_status (resHints (the_request c)) else RES_NO_CONTENT.
Proof. intros Ht Hm. unfold handleRequestBodyDone. rewrite Ht. by destruct Hm as [-> | ->]. Qed.

(** An upload without body.  A POST or PUT on an existing writable file that
    announces no body truncates the file when the head is read, and is answered
    204. *)
Theorem bodyless_upload_truncates os c r l :
  let file := (if negb (str_eqb (loc_upload_root l) []) then loc_upload_root l else loc_root l)
              ++ uri_path (rh_parsedUri (resHints r)) in
  cl_request c = Some r -> req_type r = REQ_TYPE_STATIC ->
  req_method r = POST \/ req_method r = PUT -> rh_locationRules (resHints r) = Some l ->
  getBodySize r <= 0 -> file <> [] ->
  fs_stat (os_fs os) (c_str file) = Some RegularFile -> fs_access (os_fs os) (c_str file) W_OK = true ->
  os_can_create os (c_str file) = true ->
  exists c', defineBodyParsing os c = Ret (0, c') /\
    cl_log c' = cl_log c ++ [EvTruncate (c_str file)] /\
    (handleRequestBodyDone c').1 = RES_NO_CONTENT.
Proof.
  intros file Hr Ht Hm Hl Hb Hne Hst Hacc Hcr. unfold defineBodyParsing.
  assert (the_request c = r) as -> by (unfold the_request; by rewrite Hr).
  rewrite Ht, Hl. cbn [Z.eqb Pos.eqb REQ_TYPE_CGI REQ_TYPE_STATIC andb].
  assert ((req_method r =? POST) || (req_method r =? PUT) = true) as Hpp
    by (destruct Hm as [-> | ->]; done).
  rewrite Hpp. cbn [deref mbind outcome_bind]. fold file. unfold checkFileExist.
  rewrite Hst, Hacc. cbn [negb]. eexists. split; [reflexivity|].
  set (c2 := upload_file _ _ _ _ _).
  assert (cl_log (copy_content_type c2) = cl_log c2) as ->
    by (unfold copy_content_type; by destruct (checkHeader _ _)).
  assert (rules c2 = rules c) as Hrules by apply rules_upload_file.
  rewrite <- rules_copy_content_type in Hrules.
  assert (getBodySize (the_request (copy_content_type c2)) = getBodySize (the_request c2)) as Hb2
    by (unfold copy_content_type; by destruct (checkHeader _ _)).
  assert (cl_log c2 = cl_log c ++ [EvTruncate (c_str file)] /\ getBodySize (the_request c2) = getBodySize r) as [-> Hb3].
  { unfold c2, upload_file, setBodyFile. cbv zeta.
    rewrite (proj2 (str_eqb_neq file [])) by done. cbn [negb]. rewrite Hcr.
    split; [done|]. unfold the_request. rewrite Hr. done. }
  split; [done|]. unfold rules in Hrules. injection Hrules as E1 E2 _ _.
  assert (the_request c = r) as Hc by (unfold the_request; by rewrite Hr).
  rewrite Hc in *. rewrite handleRequestBodyDone_upload by congruence.
  by rewrite Hb2, Hb3, (proj2 (Z.ltb_ge _ _)).
Qed.

Definition demo_upload (method : Z) (path : str) : Client :=
  set_request ((demo_request method path []) <| req_type := REQ_TYPE_STATIC |>
    <| resHints ; rh_locationRules := Some demo_location |>) demo_client.

Lemma bodyless_upload_truncates_witness :
  exists c', defineBodyParsing (demo_os []) (demo_upload POST (`s"a.txt")) = Ret (0, c') /\
    cl_log c' = [EvTruncate (`s"/www/a.txt")] /\ (handleRequestBodyDone c').1 = RES_NO_CONTENT.
Proof.
  apply (bodyless_upload_truncates (demo_os []) (demo_upload POST (`s"a.txt"))
    (the_request (demo_upload POST (`s"a.txt"))) demo_location);
    first [reflexivity | vm_compute; reflexivity | vm_compute; discriminate | left; reflexivity].
Defined.

(** A refused upload is accepted.  Where the target is a directory, or a file
    that may not be written, [defineBodyParsing] returns 403 and opens no file,
    but the head is accepted all the same: a request without body is answered
    204. *)
Theorem refused_upload_accepted os c r l res :
  let file := (if negb (str_eqb (loc_upload_root l) []) then loc_upload_root l else loc_root l)
              ++ uri_path (rh_parsedUri (resHints r)) in
  cl_request c = Some r -> req_type r = REQ_TYPE_STATIC ->
  req_method r = POST \/ req_method r = PUT -> rh_locationRules (resHints r) = Some l ->
  rh_cgiRedir (resHints r) = CGI_RES_NONE -> getBodySize r <= 0 -> res <> RES_CONTINUE ->
  checkFileExist (os_fs os) (c_str file) = FILE_IS_NOT_REG \/
  checkFileExist (os_fs os) (c_str file) = FILE_EXIST /\ fs_access (os_fs os) (c_str file) W_OK = false ->
  exists c', (exists c1, defineBodyParsing os c = Ret (RES_FORBIDDEN, c1)) /\
    accept_request os res c = Ret (res, c') /\
    cl_log c' = cl_log c /\ cl_bodyStream c' = cl_bodyStream c /\
    cl_headerStatus c' = HEADER_STATUS_DONE /\ (handleRequestBodyDone c').1 = RES_NO_CONTENT.
Proof.
  intros file Hr Ht Hm Hl Hcgi Hb Hres Hf.
  assert (the_request c = r) as Hc by (unfold the_request; by rewrite Hr).
  assert (defineBodyParsing os c = Ret (RES_FORBIDDEN, set_request (set_rstatus RES_FORBIDDEN r) c)) as Hd.
  { unfold defineBodyParsing. rewrite Hc, Ht, Hl. cbn [Z.eqb Pos.eqb REQ_TYPE_CGI REQ_TYPE_STATIC andb].
    assert ((req_method r =? POST) || (req_method r =? PUT) = true) as ->
      by (destruct Hm as [-> | ->]; done).
    cbn [deref mbind outcome_bind]. fold file.
    by destruct Hf as [-> | [-> ->]]. }
  unfold accept_request, no_cgi_redir. rewrite Hc, Hcgi, Hd. cbn [Z.eqb CGI_RES_NONE mbind outcome_bind].
  rewrite (proj2 (Z.eqb_neq _ _)) by done. eexists. split; [by eexists|]. split; [reflexivity|].
  split; [done|]. split; [done|]. split; [done|].
  rewrite handleRequestBodyDone_upload by done.
  change (getBodySize _) with (getBodySize r). by rewrite (proj2 (Z.ltb_ge _ _)).
Qed.

Lemma refused_upload_accepted_witness :
  exists c', (exists c1, defineBodyParsing (demo_os []) (demo_upload PUT (`s"d/")) = Ret (RES_FORBIDDEN, c1)) /\
    accept_request (demo_os []) 0 (demo_upload PUT (`s"d/")) = Ret (0, c') /\
    cl_log c' = [] /\ cl_bodyStream c' = None /\
    cl_headerStatus c' = HEADER_STATUS_DONE /\ (handleRequestBodyDone c').1 = RES_NO_CONTENT.
Proof.
  apply (refused_upload_accepted (demo_os []) (demo_upload PUT (`s"d/"))
    (the_request (demo_upload PUT (`s"d/"))) demo_location 0);
    first [reflexivity | vm_compute; reflexivity | vm_compute; discriminate | right; reflexivity | discriminate
          | left; vm_compute; reflexivity].
Defined.

(** ** Sending *)

(** Writable events one after the other. *)
Fixpoint drain (dep : str) (oss : list os_answers) (c : Client) : failing Client Client :=
  match oss with
  | [] => Ret c
  | os :: oss => c ← client_event os dep false false true c; drain dep oss c
  end.

(** A writable event while more than one buffer is queued. *)
Lemma write_event os dep c a b rest :
  cl_response c = Some a -> cl_mode c = CLIENT_MODE_WRITE -> cl_cgiProcess c = None ->
  cl_outBuffers c = b :: rest -> rest <> [] -> 0 <= os_write os ->
  client_event os dep false false true c =
    Ret ((log (EvWrite (take (Z.to_nat (os_write os)) b)) c) <| cl_outBuffers := rest |>).
Proof.
  intros Ha Hm Hg Ho Hne Hw. unfold client_event, handleClientEvent. rewrite Hm, Hg.
  cbn [orb andb Z.eqb Pos.eqb CLIENT_MODE_WRITE CLIENT_MODE_ERROR mbind outcome_bind negb].
  rewrite Ha. unfold handleClientOut. rewrite Ho, (proj2 (Z.ltb_ge _ _)) by done.
  destruct rest as [|b' rest]; [done|]. by cbn [mbind outcome_bind negb Z.eqb Z.ltb Z.compare].
Qed.

(** Delivery.  While the socket takes each buffer whole, one writable event
    sends exactly one buffer, in the order of the queue, and nothing else
    changes. *)
Theorem drain_delivers dep a rest :
  rest <> [] -> forall bs oss c,
  cl_response c = Some a -> cl_mode c = CLIENT_MODE_WRITE -> cl_cgiProcess c = None ->
  cl_outBuffers c = bs ++ rest -> Forall2 (fun os b => os_write os = zlen b) oss bs ->
  drain dep oss c = Ret (c <| cl_log := cl_log c ++ map EvWrite bs |> <| cl_outBuffers := rest |>).
Proof.
  intros Hne bs. induction bs as [|b bs IH]; intros oss c Ha Hm Hg Ho Hw; inversion Hw as [|os ? oss' ? Hw1 Hws]; subst.
  - cbn [drain map]. change (cl_outBuffers c = rest) in Ho. rewrite app_nil_r, <- Ho. by destruct c.
  - cbn [drain]. erewrite write_event; [|eassumption..| |]; cycle 1.
    { by destruct bs. }
    { rewrite Hw1. apply zlen_nonneg. }
    rewrite Hw1. unfold zlen. rewrite Nat2Z.id, firstn_all. cbn [mbind outcome_bind].
    rewrite IH; [|done..]. cbn. by rewrite <- (assoc_L (++)).
Qed.

Definition demo_sending (queue : list str) : Client :=
  demo_client <| cl_response := Some (DynamicResponse 200 []) |> <| cl_mode := CLIENT_MODE_WRITE |>
    <| cl_outBuffers := queue |>.
Definition demo_write (n : Z) : os_answers :=
  mkOs None n Running 0 0 [] (fun _ => []) demo_fs (fun _ => false).

Lemma drain_delivers_witness :
  drain [] [demo_write 2; demo_write 1] (demo_sending [`s"ab"; `s"c"; `s"d"]) =
    Ret ((demo_sending [`s"ab"; `s"c"; `s"d"]) <| cl_log := map EvWrite [`s"ab"; `s"c"] |>
           <| cl_outBuffers := [`s"d"] |>).
Proof.
  apply (drain_delivers [] (DynamicResponse 200 []) [`s"d"]) with (bs := [`s"ab"; `s"c"]);
    try reflexivity; [discriminate|]. repeat constructor.
Defined.

(** A short write loses bytes.  When [write] takes only a part of the front
    buffer, that part is all that is ever sent of it: the buffer leaves the
    queue. *)
Theorem short_write_loses os dep c a b rest :
  cl_response c = Some a -> cl_mode c = CLIENT_MODE_WRITE -> cl_cgiProcess c = None ->
  cl_outBuffers c = b :: rest -> rest <> [] -> 0 <= os_write os < zlen b ->
  exists c' sent, client_event os dep false false true c = Ret c' /\
    cl_log c' = cl_log c ++ [EvWrite sent] /\ cl_outBuffers c' = rest /\
    zlen sent < zlen b /\ sent <> b.
Proof.
  intros Ha Hm Hg Ho Hne [Hw Hlt]. eexists _, (take (Z.to_nat (os_write os)) b).
  split; [by eapply write_event|]. split; [done|]. split; [done|].
  assert (zlen (take (Z.to_nat (os_write os)) b) < zlen b) as H.
  { unfold zlen in *. rewrite length_take. lia. }
  split; [done|]. intros E. rewrite E in H. lia.
Qed.

Lemma short_write_loses_witness :
  exists c' sent, client_event (demo_write 1) [] false false true (demo_sending [`s"ab"; `s"c"]) = Ret c' /\
    cl_log c' = [EvWrite sent] /\ cl_outBuffers c' = [`s"c"] /\
    zlen sent < zlen (`s"ab") /\ sent <> `s"ab".
Proof.
  apply (short_write_loses (demo_write 1) [] (demo_sending [`s"ab"; `s"c"]) (DynamicResponse 200 []));
    try reflexivity; [discriminate|]. split; [discriminate|reflexivity].
Defined.

(** After the last buffer the connection stays exactly when the response did
    not say [close], except after the interim response to [Expect], which ends
    the interim response only. *)
Theorem last_buffer os c a b r :
  cl_request c = Some r -> cl_response c = Some a -> cl_outBuffers c = [b] -> 0 <= os_write os ->
  exists c', let interim := str_eqb (getHeader (`s"expect") r) (`s"100-continue")
                            && (getStatus a =? RES_CONTINUE) in
    handleClientOut os c =
      Ret (if interim then SITUATION_CONTINUE
           else if bool_decide (om_find i_less (`s"connection") (rh_headers (resHints r)) = Some (`s"close"))
                then SITUATION_CLOSE else SITUATION_KEEP_ALIVE, c') /\
    cl_outBuffers c' = [] /\
    the_request c' = (if interim then removeHeader (`s"expect") r else r).
Proof.
  intros Hr Ha Ho Hw. unfold handleClientOut. rewrite Ho, (proj2 (Z.ltb_ge _ _)) by done.
  set (c1 := (log _ c) <| cl_outBuffers := [] |>). unfold response_sent, getRequest.
  change (cl_request c1) with (cl_request c). rewrite Hr. cbv zeta.
  assert (the_request c1 = r) as Hr1 by (unfold the_request, c1; cbn; by rewrite Hr).
  change (cl_response c1) with (cl_response c). rewrite Hr1, Ha. cbn [deref mbind outcome_bind].
  assert (str_eqb (default [] (om_find i_less (`s"connection") (rh_headers (resHints r)))) (`s"close") =
    bool_decide (om_find i_less (`s"connection") (rh_headers (resHints r)) = Some (`s"close"))) as ->.
  { destruct (om_find i_less _ _) as [v|]; cbn [default]; [|by rewrite bool_decide_eq_false_2].
    change (id v) with v. apply eq_true_iff_eq. rewrite str_eqb_eq, bool_decide_eq_true. split; [by intros ->|by intros [= ->]]. }
  destruct (str_eqb (getHeader _ r) (`s"100-continue")); cbn [mbind outcome_bind andb];
    [destruct (getStatus a =? RES_CONTINUE)|]; eexists; (split; [reflexivity|]); done.
Qed.

Lemma last_buffer_witness :
  exists c', handleClientOut (demo_write 1) (set_request Request_init (demo_sending [`s"a"])) =
    Ret (SITUATION_KEEP_ALIVE, c') /\ cl_outBuffers c' = [] /\ the_request c' = Request_init.
Proof.
  apply (last_buffer (demo_write 1) (set_request Request_init (demo_sending [`s"a"]))
    (DynamicResponse 200 []) (`s"a") Request_init); try reflexivity. discriminate.
Defined.

(** ** A script whose head has a line without colon *)

(** Nothing left to do, and nothing to wait for. *)
Definition stuck (c : Client) : Prop :=
  cl_response c = None /\ cl_cgiProcess c = None /\ cl_mode c = CLIENT_MODE_WRITE /\
  cl_headerStatus c = HEADER_STATUS_DONE /\ cl_bodyStatus c <> BODY_STATUS_ONGOING /\
  cl_terminated c = false /\ is_Some (cl_request c).

(** The peer keeps the connection open: no hang-up, no error and no end of file. *)
Definition connected (hup : bool) (os : os_answers) : Prop :=
  hup = false /\ exists s, os_read os = Some s /\ s <> [].

Lemma parseRequest_stuck now s c :
  stuck c -> parseRequest now s c = Ret (0, c <| cl_buffer := cl_buffer c ++ s |>).
Proof.
  intros (Hr & Hg & Hm & Hh & Hb & Ht & [r Hq]). unfold parseRequest, getRequest. rewrite Hq. cbv zeta.
  set (c1 := c <| cl_buffer := _ |>). change (cl_headerStatus c1) with (cl_headerStatus c).
  change (cl_bodyStatus c1) with (cl_bodyStatus c). rewrite Hh.
  change (HEADER_STATUS_DONE <? HEADER_STATUS_READY) with false. cbv iota.
  by rewrite (proj2 (Z.eqb_neq (cl_bodyStatus c) ONGOING)).
Qed.

Lemma stuck_event os dep hup ein eout c :
  stuck c -> connected hup os ->
  exists c', client_event os dep hup ein eout c = Ret c' /\ stuck c' /\ cl_log c' = cl_log c.
Proof.
  intros Hs [-> (s & Hrd & Hne)]. pose proof Hs as (Hr & Hg & Hm & Hh & Hb & Ht & Hq).
  unfold client_event, handleClientEvent. rewrite Hm.
  cbn [orb Z.eqb Pos.eqb CLIENT_MODE_WRITE CLIENT_MODE_ERROR CLIENT_MODE_READ].
  rewrite (proj2 (Z.eqb_neq (cl_bodyStatus c) BODY_STATUS_ONGOING)) by done. cbn [negb]. destruct ein; cbn [andb].
  - unfold handleClientIn. rewrite Hrd. assert (is_empty s = false) as -> by (by destruct s).
    cbn [andb]. rewrite parseRequest_stuck by done. cbn [mbind outcome_bind Z.ltb Z.compare].
    by eexists.
  - destruct eout; cbn [andb]; [|by eexists].
    rewrite Hg. cbn [mbind outcome_bind negb Z.eqb]. rewrite Hr. cbn [mbind outcome_bind Z.ltb Z.compare].
    by eexists.
Qed.

(** A run in which the peer stays connected. *)
Inductive waits (dep : str) : Client -> Client -> Prop :=
  | waits_event os hup ein eout c c' :
      connected hup os -> client_event os dep hup ein eout c = Ret c' -> waits dep c c'
  | waits_timeout os c c' : check_timeout os dep c = Ret c' -> waits dep c c'.

Lemma stuck_waits dep c c' : waits dep c c' -> stuck c -> stuck c' /\ cl_log c' = cl_log c.
Proof.
  intros [os hup ein eout c1 c2 Hc E|os c1 c2 E] Hs.
  - destruct (stuck_event os dep hup ein eout c1 Hs Hc) as (c3 & E' & H). rewrite E in E'.
    injection E' as ->. done.
  - pose proof Hs as (_ & _ & Hm & _). unfold check_timeout in E. rewrite Hm in E.
    cbn [Z.eqb andb CLIENT_MODE_WRITE CLIENT_MODE_READ] in E. by injection E as ->.
Qed.

(** C40: A script that ends well but whose head has a line without colon is never
    answered.  [parseHeaders] then returns 0, which the caller takes for "not
    finished": the process is deleted and no response generated; from then on,
    whatever events and timeouts come while the peer stays connected, the client
    sends nothing and stays connected. *)
Theorem malformed_cgi_hangs os dep c p r p' r' c' :
  cl_cgiProcess c = Some p -> cl_request c = Some r -> cl_response c = None ->
  cl_mode c = CLIENT_MODE_WRITE -> cl_headerStatus c = HEADER_STATUS_DONE ->
  cl_bodyStatus c <> BODY_STATUS_ONGOING -> cl_terminated c = false ->
  cgi_pid p <> 0 -> os_wait os = Exited 0 ->
  parse_cgi_headers (default [] (fs_open (os_fs os) (c_str (rh_path (resHints r))))) (p <| cgi_pid := 0 |>) r
    = Some (0, p', r') ->
  client_event os dep false false true c = Ret c' ->
  forall c'', rtc (waits dep) c' c'' ->
    cl_response c'' = None /\ cl_terminated c'' = false /\ cl_log c'' = cl_log c'.
Proof.
  intros Hp Hr Ha Hm Hh Hb Ht Hpid Hw Hparse E.
  assert (stuck c') as Hs.
  { revert E. unfold client_event, handleClientEvent. rewrite Hm, Hp.
    cbn [orb andb Z.eqb Pos.eqb CLIENT_MODE_WRITE CLIENT_MODE_ERROR].
    unfold handleCGIProcess. rewrite Hp. cbn [deref mbind outcome_bind]. unfold checkEnd.
    rewrite (proj2 (Z.eqb_neq _ _)) by done. rewrite Hw. cbn [negb Z.eqb Z.ltb Z.compare].
    set (c1 := c <| cl_cgiProcess := _ |>).
    assert (the_request c1 = r) as -> by (unfold the_request, c1; cbn; by rewrite Hr).
    cbv zeta. rewrite Hparse. cbn [fueled mbind outcome_bind Z.eqb CGI_RES_ERROR CGI_RES_DOC
      CGI_RES_CLIENT_REDIRECT CGI_RES_LOCAL_REDIRECT orb].
    set (c2 := deleteCGIProcess _). change (cl_response c2) with (cl_response c). rewrite Ha.
    cbn [negb mbind outcome_bind Z.eqb Z.ltb Z.compare]. intros E. injection E as <-.
    split; [exact Ha|]. split; [done|]. split; [exact Hm|]. split; [exact Hh|]. split; [exact Hb|].
    split; [exact Ht|]. by eexists. }
  intros c'' Hrun.
  assert (stuck c'' /\ cl_log c'' = cl_log c') as [(H1 & _ & _ & _ & _ & H2 & _) H3]; [|done].
  clear -Hs Hrun. revert Hs. induction Hrun as [|x y z Hxy _ IH]; intros Hs; [done|].
  destruct (stuck_waits _ _ _ Hxy Hs) as [Hy <-]. by apply IH.
Qed.

Definition demo_script_client : Client :=
  set_request (Request_init <| resHints ; rh_path := `s"/tmp/out" |>)
    (demo_client <| cl_mode := CLIENT_MODE_WRITE |> <| cl_headerStatus := HEADER_STATUS_DONE |>
       <| cl_cgiProcess := Some (CGIProcess_init <| cgi_pid := 7 |>) |>).
Definition demo_script_os : os_answers :=
  mkOs (Some (`s"x")) 0 (Exited 0) 0 0 [] (fun _ => [])
    (mkFilesystem (fun _ => None) (fun _ _ => false) (fun _ => 0)
       (fun _ => Some (crlf "no colon" ++ CRLF)) (fun _ => None)) (fun _ => false).

Lemma malformed_cgi_hangs_witness :
  exists c', client_event demo_script_os [] false false true demo_script_client = Ret c' /\
    forall c'', rtc (waits []) c' c'' ->
      cl_response c'' = None /\ cl_terminated c'' = false /\ cl_log c'' = cl_log c'.
Proof.
  eexists. split; [vm_compute; reflexivity|].
  eapply (malformed_cgi_hangs demo_script_os [] demo_script_client);
    first [reflexivity | vm_compute; reflexivity | vm_compute; discriminate].
Defined.

(** ** Between two requests *)

Lemma deleteBodyStream_frame c :
  cl_bodyStream (deleteBodyStream c) = None /\ cl_buffer (deleteBodyStream c) = cl_buffer c.
Proof.
  unfold deleteBodyStream. destruct (cl_bodyStream c) as [f|] eqn:E; [|done]. cbv zeta.
  cbn [cl_request upd]. destruct (cl_request c) as [r|]; [|done]. by destruct (_ || _).
Qed.

Lemma deleteCGIProcess_frame c :
  cl_bodyStream (deleteCGIProcess c) = cl_bodyStream c /\ cl_buffer (deleteCGIProcess c) = cl_buffer c.
Proof. unfold deleteCGIProcess. by destruct (cl_cgiProcess c). Qed.

Lemma clear_fields c :
  cl_request (clear c) = None /\ cl_headerStatus (clear c) = HEADER_STATUS_ONGOING /\
  cl_bodyStatus (clear c) = BODY_STATUS_NONE /\ cl_bodyStream (clear c) = None /\
  cl_buffer (clear c) = cl_buffer c.
Proof.
  destruct (deleteBodyStream_frame c) as [H1 H2].
  destruct (deleteCGIProcess_frame (deleteBodyStream c)) as [H3 H4].
  split; [done|]. split; [done|]. split; [done|].
  change (cl_bodyStream (deleteCGIProcess (deleteBodyStream c)) = None /\
          cl_buffer (deleteCGIProcess (deleteBodyStream c)) = cl_buffer c). by rewrite H3, H4.
Qed.

(** What is visible of the parsing of a request. *)
Definition parse_view (m : failing Client (Z * Client)) :=
  '(res, c) ← map_exn fst m;
  Ret (E:=exn) (res, cl_request c, cl_buffer c, cl_headerStatus c, cl_bodyStatus c, cl_bodyStream c).

Lemma parseRequest_fresh now s c :
  cl_request c = None -> cl_headerStatus c = HEADER_STATUS_ONGOING ->
  parse_view (parseRequest now s c) =
    '(res, r, rest) ← parseHeaders Request_init (cl_buffer c ++ s);
    Ret (res, Some r, rest, if res <? 0 then HEADER_STATUS_READY else HEADER_STATUS_ONGOING,
         cl_bodyStatus c, cl_bodyStream c).
Proof.
  intros H1 H2. unfold parseRequest, getRequest. rewrite H1. cbv zeta.
  set (c3 := _ <| cl_buffer := _ |>).
  change (the_request c3) with Request_init. change (cl_buffer c3) with (cl_buffer c ++ s).
  change (cl_headerStatus c3) with (cl_headerStatus c). rewrite H2.
  change (HEADER_STATUS_ONGOING <? HEADER_STATUS_READY) with true. cbv iota.
  destruct (parseHeaders Request_init _) as [[[res r] rest]|e| |]; [|done..].
  unfold parse_view. cbn [throwing map_exn mbind outcome_bind].
  destruct (res <? 0); [done|]. by rewrite <- H2.
Qed.

(** Requests on one connection are independent.  After [clear], what is parsed
    next depends only on the bytes left in the buffer and the new ones: two
    clients with the same buffer, whatever they were asked and answered before,
    give the same result, the same request and the same rest. *)
Theorem clear_isolates now s c1 c2 :
  cl_buffer c1 = cl_buffer c2 ->
  parse_view (parseRequest now s (clear c1)) = parse_view (parseRequest now s (clear c2)).
Proof.
  intros Hb. destruct (clear_fields c1) as (H1 & H2 & H3 & H4 & H5).
  destruct (clear_fields c2) as (G1 & G2 & G3 & G4 & G5).
  rewrite !parseRequest_fresh by done. by rewrite H3, H4, H5, G3, G4, G5, Hb.
Qed.

Lemma clear_isolates_witness :
  parse_view (parseRequest 0 (`s"GET") (clear demo_reading)) =
  parse_view (parseRequest 0 (`s"GET") (clear demo_client)).
Proof. apply (clear_isolates 0 (`s"GET") demo_reading demo_client). vm_compute. reflexivity. Defined.

Lemma generateResponse_error os dep c status :
  cl_response c = None -> status <> 0 -> Z.quot status 100 <> 3 ->
  exists c' s, generateResponse os dep c status = Ret (0, c') /\
    answered s (cl_outBuffers c) c' /\ (s = status \/ s = RES_INTERNAL_ERROR).
Proof.
  intros Hr H0 H3. destruct (generateResponse_spec os dep c status) as (c' & s & H1 & H2 & H); [done| |].
  - rewrite (proj2 (Z.eqb_neq _ _)) by done. intros E. by cbn in E.
  - exists c', s. rewrite (proj2 (Z.eqb_neq _ _)) in H by done. done.
Qed.

(** The clock starts with a request, and what arrives for it does not set it again. *)
Lemma parseRequest_clock now s c :
  post (parseRequest now s c) (fun x =>
    cl_lastInteraction x.2 = match cl_request c with Some _ => cl_lastInteraction c | None => now end).
Proof.
  unfold parseRequest. cbv zeta.
  assert (cl_lastInteraction (getRequest now c) = match cl_request c with Some _ => cl_lastInteraction c | None => now end) as <-
    by (unfold getRequest; by destruct (cl_request c)).
  set (c0 := getRequest now c). destruct (_ <? _).
  - apply post_bind_any. intros [[res r] rest]. cbn [post snd]. by destruct (res <? 0).
  - destruct (_ && _); [|done]. apply post_bind_any. intros [[[res r] rest] f]. cbn [post snd]. by destruct (res <? 0).
Qed.

(** C30: Time-outs.  The clock of a client ([_lastInteraction]) is set when it
    connects and when a request of it begins; bytes that arrive later for the
    same request do not set it.  [checkTO] leaves alone a client that is not
    being read or whose clock is at most ten seconds old.  Otherwise it closes
    one that has no request, and answers 408 -- or the 500 that replaces a
    response that cannot be built -- to one that has, whether it is silent or
    still sending.  (The client has no response yet, as [reachable_inv] gives for
    one that is being read.) *)
Theorem check_timeout_correct os dep c :
  let idle := (cl_mode c =? CLIENT_MODE_READ) && (CLIENT_TIME_OUT <? os_now os - cl_lastInteraction c) in
  cl_response c = None ->
  (exists c', check_timeout os dep c = Ret c' /\
    if idle then
      match cl_request c with
      | None => cl_terminated c' = true /\ last (cl_log c') = Some EvClose
      | Some _ => exists s, answered s (cl_outBuffers c) c' /\ (s = 408 \/ s = RES_INTERNAL_ERROR)
      end
    else c' = c) /\
  forall now s, post (parseRequest now s c) (fun x =>
    cl_lastInteraction x.2 = match cl_request c with Some _ => cl_lastInteraction c | None => now end).
Proof.
  intros idle Hr. split; [|intros now s; apply parseRequest_clock].
  unfold check_timeout. fold idle. destruct idle; [|by eexists].
  destruct (cl_request c) as [r|]; [|by eexists; split; [reflexivity|split; [done|apply last_snoc]]].
  cbv zeta. set (c1 := set_request _ _).
  destruct (generateResponse_error os dep c1 408) as (c' & s & -> & H1 & H2); [exact Hr|done..|].
  exists c'. split; [done|]. by exists s.
Qed.

(** Half a head, and eleven seconds. *)
Definition demo_slow : Client := (run_or (0, demo_client) (parseRequest 0 (`s"GET /a.txt HT") demo_client)).2.
Definition demo_late : os_answers := mkOs (Some []) 1000000 Running 7 11000 (`s"now") (fun _ => []) (os_fs (demo_os [])) (fun _ => true).

Lemma check_timeout_correct_witness :
  (exists c', check_timeout demo_late [] demo_slow = Ret c' /\
    exists s, answered s (cl_outBuffers demo_slow) c' /\ (s = 408 \/ s = RES_INTERNAL_ERROR)) /\
  forall now s, post (parseRequest now s demo_slow) (fun x => cl_lastInteraction x.2 = cl_lastInteraction demo_slow).
Proof. apply (check_timeout_correct demo_late [] demo_slow). vm_compute. reflexivity. Defined.

(** A local redirection of a script to a static resource is answered with
    status 0.  The head of the new target is handled with result 0, which
    [generateResponse] takes for "the status already recorded": if none was
    recorded, the response's status is the initial 0. *)
Theorem local_redirect_status os dep c r p p' r1 c1 :
  cl_cgiProcess c = Some p -> cl_request c = Some r -> cl_response c = None ->
  cgi_pid p <> 0 -> os_wait os = Exited 0 ->
  parse_cgi_headers (default [] (fs_open (os_fs os) (c_str (rh_path (resHints r))))) (p <| cgi_pid := 0 |>) r
    = Some (CGI_RES_LOCAL_REDIRECT, p', r1) ->
  handleRequestHeaders os (deleteCGIProcess
    ((set_request (on_hints (fun h => h <| rh_cgiRedir := CGI_RES_LOCAL_REDIRECT |>) r1) c)
       <| cl_cgiProcess := Some p' |>)) = Ret (0, c1) ->
  cl_response c1 = None ->
  req_type (the_request c1) <> REQ_TYPE_CGI -> rh_status (resHints (the_request c1)) = 0 ->
  exists c' s, handleCGIProcess os dep c = Ret (0, c') /\ answered s (cl_outBuffers c1) c' /\
    (s = 0 \/ s = RES_INTERNAL_ERROR).
Proof.
  intros Hp Hr Ha Hpid Hw Hparse Hh Hr1 Ht Hs. unfold handleCGIProcess. rewrite Hp.
  cbn [deref mbind outcome_bind]. unfold checkEnd. rewrite (proj2 (Z.eqb_neq _ _)) by done.
  rewrite Hw. cbn [negb Z.eqb Z.ltb Z.compare]. set (c0 := c <| cl_cgiProcess := _ |>).
  assert (the_request c0 = r) as -> by (unfold the_request, c0; cbn; by rewrite Hr).
  cbv zeta. rewrite Hparse. cbn [fueled mbind outcome_bind]. cbn [CGI_RES_LOCAL_REDIRECT CGI_RES_ERROR
    CGI_RES_DOC CGI_RES_CLIENT_REDIRECT Z.eqb Pos.eqb orb].
  match goal with |- context [handleRequestHeaders os ?x] =>
    change (handleRequestHeaders os x) with (handleRequestHeaders os (deleteCGIProcess
      ((set_request (on_hints (fun h => h <| rh_cgiRedir := CGI_RES_LOCAL_REDIRECT |>) r1) c)
         <| cl_cgiProcess := Some p' |>))) end.
  rewrite Hh. cbn [mbind outcome_bind negb Z.eqb]. rewrite (proj2 (Z.eqb_neq _ _)) by done. cbn [negb orb].
  destruct (generateResponse_spec os dep c1 0) as (c' & s & H1 & H2 & H3); [done| |].
  { unfold redirectable. cbn [Z.eqb]. rewrite Hs. done. }
  exists c', s. split; [done|]. split; [done|]. cbn [Z.eqb] in H3. by rewrite Hs in H3.
Qed.

Definition demo_redirect_os : os_answers :=
  mkOs None 1000 (Exited 0) 0 0 (`s"now") (fun _ => [])
    (mkFilesystem (fs_stat demo_fs) (fs_access demo_fs) (fun _ => 5)
       (fun p => if str_eqb p (`s"/tmp/out") then Some (crlf "Location: /a.txt" ++ CRLF)
                 else Some (`s"hello")) (fun _ => None)) (fun _ => false).
Definition demo_redirect_client : Client :=
  set_request (Request_init <| _headers := [(`s"Host", `s"demo")] |> <| req_method := GET |>
                 <| resHints ; rh_path := `s"/tmp/out" |>)
    (demo_client <| cl_host := Some demo_server |>
       <| cl_mode := CLIENT_MODE_WRITE |> <| cl_headerStatus := HEADER_STATUS_DONE |>
       <| cl_cgiProcess := Some (CGIProcess_init <| cgi_pid := 7 |>) |>).

Definition demo_redirect_parsed : Z * CGIProcess * Request :=
  default (0, CGIProcess_init, Request_init)
    (parse_cgi_headers (crlf "Location: /a.txt" ++ CRLF) CGIProcess_init (the_request demo_redirect_client)).
Definition demo_redirect_head : Client :=
  (run_or (1, demo_client) (handleRequestHeaders demo_redirect_os (deleteCGIProcess
    ((set_request (on_hints (fun h => h <| rh_cgiRedir := CGI_RES_LOCAL_REDIRECT |>) demo_redirect_parsed.2)
        demo_redirect_client) <| cl_cgiProcess := Some demo_redirect_parsed.1.2 |>)))).2.

Lemma local_redirect_status_witness :
  take 13 (concat (cl_outBuffers (run_or (0, demo_client)
    (handleCGIProcess demo_redirect_os [] demo_redirect_client)).2)) = `s"HTTP/1.1 0 " ++ CRLF /\
  exists c' s, handleCGIProcess demo_redirect_os [] demo_redirect_client = Ret (0, c') /\
    answered s (cl_outBuffers demo_redirect_head) c' /\ (s = 0 \/ s = RES_INTERNAL_ERROR).
Proof.
  split; [vm_compute; reflexivity|].
  apply (local_redirect_status demo_redirect_os [] demo_redirect_client
    (the_request demo_redirect_client) (CGIProcess_init <| cgi_pid := 7 |>) demo_redirect_parsed.1.2
    demo_redirect_parsed.2 demo_redirect_head);
    first [vm_compute; reflexivity | vm_compute; discriminate].
Defined.
