(* ===== verification/Session.v ===== *)
(** * Session: a connection from end to end

    The parts of the server composed on one client: whatever way the bytes of
    a sequence of requests for files are cut into reads, and however reads and
    writes alternate, the client is sent the files, each in a response of known
    bytes, in the order of the requests.  The sequences here are of GET and HEAD
    requests without body, for files of locations without redirection; the
    other paths of the handlers have their theorems in [ControlFacts]. *)

From S2P Require Import Prelude CxxString OrdMap Format Http RequestHeaders RequestBody RequestUri Host Response Cgi Client Control ControlFacts.
#[local] Open Scope Z_scope.

(** ** Requests and their answers *)

(** A request for a file: method, directories and name, query, header fields;
    and the content of the file. *)
Record exchange := mkExchange {
  ex_method : str;
  ex_dirs : list str;
  ex_query : option str;
  ex_fields : list (str * str);
  ex_content : str;
}.

Definition ex_path (e : exchange) : str := join (ex_dirs e).
Definition ex_uri (e : exchange) : str := SLASH ++ ex_path e ++ with_query (ex_query e).
Definition ex_bytes (e : exchange) : str := render_request (ex_method e) (ex_uri e) (ex_fields e).
Definition ex_head (e : exchange) : Request := add_fields Request_init (ex_fields e).
Definition ex_name (e : exchange) : str := getHeader (`s"host") (ex_head e).
Definition ex_parsed (e : exchange) : URI := plain_uri (ex_dirs e) (default [] (ex_query e)).
Definition ex_code (e : exchange) : Z := getMethodIndex (ex_method e).

Definition ex_connection (e : exchange) : str :=
  if checkHeader (`s"connection") (ex_head e) then getHeader (`s"connection") (ex_head e) else `s"keep-alive".
Definition closes (e : exchange) : bool := str_eqb (ex_connection e) (`s"close").

(** A head that the header parser, the uri parser and the header checks accept. *)
Record head_ok (e : exchange) : Prop := {
  ok_word : ex_method e ∈ METHOD_STR;
  ok_dirs : plain_dirs (ex_dirs e);
  ok_query : Forall (fun c => c ∉ default [] (ex_query e)) (`s":@%");
  ok_uri : uri_ok (ex_uri e) = true;
  ok_fields : forallb field_ok (ex_fields e) = true;
  ok_size : zlen (ex_bytes e) <= BUFFER_SIZE;
  ok_headers : headers_allowed (ex_head e);
  ok_expect : getHeader (`s"expect") (ex_head e) = [];
}.

(** A request without body. *)
Record bodiless (e : exchange) : Prop := {
  bl_head :> head_ok e;
  bl_length : checkHeader (`s"content-length") (ex_head e) = false;
  bl_encoding : checkHeader (`s"transfer-encoding") (ex_head e) = false;
}.

(** A GET or HEAD request without body. *)
Record exchange_ok (e : exchange) : Prop := {
  ok_bodiless :> bodiless e;
  ok_method : ex_method e ∈ [`s"GET"; `s"HEAD"];
}.

Lemma ok_head e : exchange_ok e -> head_ok e.
Proof. intros []. by apply bl_head. Qed.

(** The host serves the file of that path, with the content of the exchange. *)
Definition serves (fs : filesystem) (h : Host) (e : exchange) : Prop :=
  matchCGIConfig (ex_path e) h = None /\
  exists l, matchLocation (ex_path e) h = Some l /\ loc_redir l = 0 /\
    method_allowed (loc_methods l) (ex_code e) = true /\
    readable fs (loc_root l ++ ex_path e) RegularFile /\
    fs_open fs (c_str (loc_root l ++ ex_path e)) = Some (ex_content e) /\
    fs_size fs (c_str (loc_root l ++ ex_path e)) = zlen (ex_content e) /\ zlen (ex_content e) < npos.

(** The type of the response: that of the file's extension, and without one
    the type the request gave for itself. *)
Definition ex_type (e : exchange) : list (str * str) :=
  let given := checkHeader (`s"content-type") (ex_head e) in
  match om_find lex_ltb (uri_extension (ex_parsed e)) init_mimes with
  | Some t => [(if given then `s"content-type" else `s"Content-Type", t)]
  | None => if given then [(`s"content-type", getHeader (`s"content-type") (ex_head e))] else []
  end.

Definition ok_fields_of (date : str) (e : exchange) : list (str * str) :=
  [(`s"Accept-Encoding", `s"identity"); (`s"Accept-Ranges", `s"none");
   (`s"connection", ex_connection e); (`s"Content-Length", itostr (zlen (ex_content e)))]
  ++ ex_type e ++ [(`s"Date", date)].

(** The bytes on the wire. *)
Definition wire (status : Z) (fields : list (str * str)) (body : str) : str :=
  `s"HTTP/1.1 " ++ itostr status ++ `s" " ++ ResponseLine status ++ CRLF ++
  concat (map header_field fields) ++ CRLF ++ body.
Definition file_response (status : Z) (date : str) (e : exchange) : str :=
  wire status (ok_fields_of date e) (if ex_code e =? HEAD then [] else ex_content e).
Definition ok_response : str -> exchange -> str := file_response RES_OK.

Example ok_response_line date e :
  take 17 (ok_response date e) = `s"HTTP/1.1 200 OK" ++ CRLF.
Proof. reflexivity. Qed.

(** The host [ListenServer::bindClient] and [Client::setHost] choose. *)
Definition host_for (name : str) (hostMap : list (str * Host)) (current : option Host) : option Host :=
  let lookup := match om_find lex_ltb name hostMap with
                | Some h => Some h
                | None => snd <$> head hostMap
                end in
  match current with
  | Some h => if checkServerName name h then Some h else lookup
  | None => lookup
  end.

(** The exchanges one after the other, each by the host its name selects. *)
Fixpoint all_served (fs : filesystem) (hostMap : list (str * Host)) (current : option Host)
    (es : list exchange) : Prop :=
  match es with
  | [] => True
  | e :: es =>
      exists h, host_for (ex_name e) hostMap current = Some h /\ serves fs h e /\
        all_served fs hostMap (Some h) es
  end.

(** What was written on the socket, of a log. *)
Definition sent (l : list event) : str :=
  concat (map (fun e => match e with EvWrite s => s | _ => [] end) l).

(** Nothing outside the connection was touched. *)
Definition harmless (e : event) : bool :=
  match e with
  | EvWrite _ | EvBind _ | EvUnbind | EvClose => true
  | EvUnlink _ | EvTruncate _ | EvFork _ | EvKill _ => false
  end.

(** ** Routing *)

Lemma plain_extension v q : plain_dirs v -> uri_extension (plain_uri v q) <> SLASH.
Proof.
  intros Hv. destruct (join_file v Hv) as (ds & f & -> & Hf & _).
  apply plain_spec in Hf as (_ & _ & _ & Hs & _).
  unfold plain_uri. rewrite last_last. cbn [uri_extension].
  destruct (rfind (`s".") f) as [k|]; [|done]. intros E.
  assert ("/"%char ∈ drop k f) as Hin by (rewrite E; by left).
  by apply (rfind_suffix_no_char _ _ k) in Hin.
Qed.

Lemma ex_code_cases e : exchange_ok e -> ex_code e = GET \/ ex_code e = HEAD.
Proof.
  intros He. pose proof (ok_method e He) as H. unfold ex_code.
  rewrite !elem_of_cons, elem_of_nil in H. destruct H as [->|[->|[]]]; [by left|by right].
Qed.

(** What [matchRequest] makes of a request for a file. *)
Definition static_request (l : Location) (r : Request) : Request :=
  (r <| resHints ; rh_locationRules := Some l |> <| resHints ; rh_cgiRules := None |>)
    <| req_type := REQ_TYPE_STATIC |>.

Lemma matchRequest_static h e l r :
  plain_dirs (ex_dirs e) -> matchCGIConfig (ex_path e) h = None -> matchLocation (ex_path e) h = Some l ->
  rh_parsedUri (resHints r) = ex_parsed e -> matchRequest h r = Ret (0, static_request l r).
Proof.
  intros He Hc Hl Hu. assert (uri_path (rh_parsedUri (resHints r)) = ex_path e) as Hp by (by rewrite Hu).
  unfold matchRequest. rewrite Hp, Hc, Hl. cbv zeta.
  set (r0 := (r <| resHints ; rh_locationRules := Some l |>) <| resHints ; rh_cgiRules := None |>).
  change (rh_cgiRules (resHints r0)) with (@None CGIConfig).
  change (rh_locationRules (resHints r0)) with (Some l). cbv iota.
  change (rh_parsedUri (resHints r0)) with (rh_parsedUri (resHints r)). rewrite Hu.
  by rewrite (proj2 (str_eqb_neq _ SLASH)) by (by apply plain_extension).
Qed.

(** A path of a location without redirection: its rules are checked, and then
    what the path names. *)
Lemma checkRequest_located fs h e l r :
  plain_dirs (ex_dirs e) -> matchCGIConfig (ex_path e) h = None -> matchLocation (ex_path e) h = Some l ->
  loc_redir l = 0 -> rh_parsedUri (resHints r) = ex_parsed e ->
  checkRequest fs h r =
    ('(res, r) ← checkLocationRules (static_request l r);
     if negb (res =? 0) then Ret (res, r)
     else check_if (req_type r =? REQ_TYPE_CGI) checkCGIRules r (checkRessourceExistence fs)).
Proof.
  intros He Hc Hl Hr Hu. set (r1 := static_request l r).
  assert (rh_locationRules (resHints r1) = Some l) as Hl1 by done.
  unfold checkRequest, check_if at 1. rewrite (matchRequest_static h e l r) by done. fold r1.
  cbn [mbind outcome_bind negb Z.eqb].
  unfold check_if at 1, has_location at 1, checkRedirection. rewrite Hl1.
  cbn [deref mbind outcome_bind]. rewrite Hr. cbn [Z.eqb mbind outcome_bind negb].
  unfold check_if at 1. change (req_type r1 =? REQ_TYPE_DIR) with false. cbv iota.
  unfold check_if at 1, has_location at 1. by rewrite Hl1.
Qed.

Lemma checkLocationRules_static l m r :
  req_method r = m -> 0 <= m ->
  checkLocationRules (static_request l r) =
    if negb (method_allowed (loc_methods l) m)
    then Ret (RES_METHOD_NOT_ALLOWED, set_rstatus RES_METHOD_NOT_ALLOWED (static_request l r))
    else if is_upload m && negb (loc_upload l)
    then Ret (RES_FORBIDDEN, set_rstatus RES_FORBIDDEN (static_request l r))
    else Ret (0, static_request l r).
Proof.
  intros Hm H0. set (r1 := static_request l r). assert (rh_locationRules (resHints r1) = Some l) as Hl1 by done.
  assert (req_method r1 = m) as Hm1 by exact Hm.
  unfold checkLocationRules, check_method. rewrite Hl1, Hm1. cbn [deref mbind outcome_bind].
  rewrite (proj2 (Z.ltb_ge _ _)) by done. cbn [mbind outcome_bind].
  change (req_type r1 =? REQ_TYPE_STATIC) with true. by rewrite andb_true_r.
Qed.

(** A location whose rules allow the request. *)
Lemma checkRequest_static fs h e l r :
  plain_dirs (ex_dirs e) -> matchCGIConfig (ex_path e) h = None -> matchLocation (ex_path e) h = Some l ->
  loc_redir l = 0 -> 0 <= ex_code e -> method_allowed (loc_methods l) (ex_code e) = true ->
  is_upload (ex_code e) && negb (loc_upload l) = false ->
  rh_parsedUri (resHints r) = ex_parsed e -> req_method r = ex_code e ->
  checkRequest fs h r = checkRessourceExistence fs (static_request l r).
Proof.
  intros He Hc Hl Hr H0 Ha Hup Hu Hm. rewrite (checkRequest_located fs h e l r) by done.
  rewrite (checkLocationRules_static l (ex_code e)), Ha, Hup by done. reflexivity.
Qed.

(** The request [checkRequest] leaves for a file. *)
Definition file_request (l : Location) (r : Request) : Request :=
  set_rstatus 0 ((static_request l r) <| resHints ; rh_path := loc_root l ++ uri_path (rh_parsedUri (resHints r)) |>).

(** A file that is there. *)
Lemma checkRequest_present fs h e l r :
  plain_dirs (ex_dirs e) -> matchCGIConfig (ex_path e) h = None -> matchLocation (ex_path e) h = Some l ->
  loc_redir l = 0 -> 0 <= ex_code e -> method_allowed (loc_methods l) (ex_code e) = true ->
  is_upload (ex_code e) = false -> readable fs (loc_root l ++ ex_path e) RegularFile ->
  rh_parsedUri (resHints r) = ex_parsed e -> req_method r = ex_code e ->
  checkRequest fs h r = Ret (0, file_request l r).
Proof.
  intros He Hc Hl Hr H0 Ha Hup [Hst Hacc] Hu Hm.
  rewrite (checkRequest_static fs h e l r) by first [done|by rewrite Hup].
  set (r1 := static_request l r). assert (rh_locationRules (resHints r1) = Some l) as Hl1 by done.
  assert (req_method r1 = ex_code e) as Hm1 by exact Hm.
  unfold checkRessourceExistence. change (req_type r1 =? REQ_TYPE_CGI) with false. cbv iota.
  rewrite Hl1. cbn [deref mbind outcome_bind]. rewrite Hm1. fold (is_upload (ex_code e)). rewrite Hup.
  change (rh_parsedUri (resHints r1)) with (rh_parsedUri (resHints r)).
  assert (uri_path (rh_parsedUri (resHints r)) = ex_path e) as Hp by (by rewrite Hu). rewrite Hp.
  unfold checkRessourcePath. cbn [rh_path resHints upd req_type]. rewrite Hst, Hacc.
  unfold file_request. rewrite Hp. reflexivity.
Qed.

Lemma exchange_code e : exchange_ok e -> 0 <= ex_code e /\ is_upload (ex_code e) = false.
Proof. intros He. by destruct (ex_code_cases e He) as [-> | ->]. Qed.

Lemma checkRequest_file fs h e r :
  exchange_ok e -> serves fs h e ->
  rh_parsedUri (resHints r) = ex_parsed e -> req_method r = ex_code e ->
  exists l, matchLocation (ex_path e) h = Some l /\
    fs_stat fs (c_str (loc_root l ++ ex_path e)) = Some RegularFile /\
    fs_open fs (c_str (loc_root l ++ ex_path e)) = Some (ex_content e) /\
    fs_size fs (c_str (loc_root l ++ ex_path e)) = zlen (ex_content e) /\ zlen (ex_content e) < npos /\
    checkRequest fs h r = Ret (0, file_request l r).
Proof.
  intros He (Hc & l & Hl & Hr & Ha & Hrd & Ho & Hsz & Hn) Hu Hm. destruct (exchange_code e He) as [H0 Hup].
  exists l. split; [done|]. split; [apply Hrd|]. do 3 (split; [done|]).
  apply (checkRequest_present fs h e l r); try done. apply (ok_head e He).
Qed.

(** ** The head of a request *)

Lemma andthen_pass {E S} (f k : S -> outcome E (Z * S)) s s' :
  f s = Ret (0, s') -> andthen f k s = k s'.
Proof. intros H. unfold andthen. by rewrite H. Qed.

Lemma assignHost_served c e h :
  checkHeader (`s"host") (the_request c) = true ->
  getHeader (`s"host") (the_request c) = ex_name e ->
  host_for (ex_name e) (cl_hostMap c) (cl_host c) = Some h ->
  exists l, assignHost c = Ret (0, c <| cl_host := Some h |> <| cl_log := cl_log c ++ l |>) /\
    Forall harmless l /\ sent l = [].
Proof.
  intros Hc Hg Hh. unfold assignHost. rewrite Hc, Hg. cbn [negb]. unfold host_for in Hh.
  assert (forall c0, cl_hostMap c0 = cl_hostMap c ->
    (match om_find lex_ltb (ex_name e) (cl_hostMap c) with
     | Some h => Some h | None => snd <$> head (cl_hostMap c) end) = Some h ->
    bindClient (ex_name e) c0 =
      Ret (log (EvBind (ex_name e)) (c0 <| cl_host := Some h |>))) as Hb.
  { intros c0 Hm H. unfold bindClient. by rewrite Hm, H. }
  unfold setHost. destruct (cl_host c) as [h0|] eqn:Ec.
  - destruct (checkServerName (ex_name e) h0).
    + injection Hh as <-. exists []. cbn [mbind outcome_bind].
      split; [|done]. do 2 f_equal. rewrite app_nil_r. destruct c. cbn in Ec. by subst.
    + rewrite Hb by done. exists [EvUnbind; EvBind (ex_name e)]. cbn [mbind outcome_bind].
      split; [|split; [by repeat constructor|done]]. unfold log. cbn.
      by rewrite <- (assoc_L (++)).
  - rewrite Hb by done. exists [EvBind (ex_name e)]. split; [done|].
    split; [by repeat constructor|done].
Qed.

(** The hints of an accepted request. *)
Definition accepted_hints (l : Location) (e : exchange) : ResHints :=
  ResHints_init <| rh_parsedUri := ex_parsed e |> <| rh_locationRules := Some l |>
    <| rh_path := loc_root l ++ ex_path e |>
    <| rh_headers := if checkHeader (`s"content-type") (ex_head e)
                     then [(`s"content-type", getHeader (`s"content-type") (ex_head e))] else [] |>.

(** The request after its head was read: what the handlers may rely on. *)
Definition read_as (e : exchange) (r : Request) : Prop :=
  _headers r = _headers (ex_head e) /\ req_method r = ex_code e.

Lemma read_as_header e r k : read_as e r ->
  getHeader k r = getHeader k (ex_head e) /\ checkHeader k r = checkHeader k (ex_head e).
Proof. intros [H _]. unfold getHeader, checkHeader. by rewrite H. Qed.

Lemma checkForbiddenHeaders_pass r : headers_allowed r -> checkForbiddenHeaders r = (0, r).
Proof.
  intros (_ & H1 & H2 & H3). unfold checkForbiddenHeaders. cbv zeta. rewrite H1. cbn [negb str_eqb].
  change (str_eqb [] []) with true. cbn [negb].
  destruct (checkHeader (`s"content-encoding") r); [rewrite (H2 eq_refl)|];
    (destruct (checkHeader (`s"transfer-encoding") r); [rewrite (H3 eq_refl)|]); done.
Qed.

Lemma missing_is_empty k r : checkHeader k r = false -> getHeader k r = [].
Proof. unfold checkHeader, getHeader. by destruct (om_find _ _ _). Qed.

Lemma checkBodyLength_pass c :
  checkHeader (`s"content-length") (the_request c) = false ->
  checkHeader (`s"transfer-encoding") (the_request c) = false -> checkBodyLength c = Ret (0, c).
Proof.
  intros H1 H2. unfold checkBodyLength, is_chunked. by rewrite H1, (missing_is_empty _ _ H2).
Qed.

Lemma set_request_twice r r' c : set_request r (set_request r' c) = set_request r c.
Proof. done. Qed.

(** The request as it is when the head has been accepted. *)
Definition accepted_request (l : Location) (e : exchange) (r : Request) : Request :=
  (r <| resHints := accepted_hints l e |>) <| req_type := REQ_TYPE_STATIC |>.

(** The end of [handleRequestHeaders] on a request for a file. *)
Lemma accept_file os l e r c :
  is_upload (ex_code e) = false -> read_as e r -> resHints r = ResHints_init ->
  cl_request c = Some (file_request l (set_parsedUri (ex_parsed e) r)) ->
  accept_request os 0 c =
    Ret (0, c <| cl_request := Some (accepted_request l e r) |> <| cl_bodyStream := None |>
              <| cl_bodyFileName := [] |> <| cl_headerStatus := HEADER_STATUS_DONE |>).
Proof.
  intros Hup Hr Hi Hc. set (r2 := file_request l _) in Hc.
  assert (the_request c = r2) as Hc' by (unfold the_request; by rewrite Hc).
  assert (resHints r2 = (accepted_hints l e) <| rh_headers := [] |>) as Hh.
  { unfold r2, file_request, set_parsedUri. cbn. rewrite Hi. reflexivity. }
  unfold accept_request, no_cgi_redir. rewrite Hc', Hh.
  change (_ =? CGI_RES_NONE) with true. cbv iota.
  unfold defineBodyParsing. rewrite Hc'. change (req_type r2) with REQ_TYPE_STATIC.
  change (req_method r2) with (req_method r). rewrite (proj2 Hr). fold (is_upload (ex_code e)). rewrite Hup.
  change (REQ_TYPE_STATIC =? REQ_TYPE_CGI) with false. rewrite andb_false_r. cbv iota.
  cbn [mbind outcome_bind]. change (0 =? RES_CONTINUE) with false. cbv iota.
  do 2 f_equal. unfold setBodyFile. change (str_eqb [] []) with true. cbn [negb]. cbv iota.
  rewrite Hc'. unfold copy_content_type. set (r3 := r2 <| resHints ; rh_bodyFileName := [] |>).
  set (c3 := (set_request r3 c) <| cl_bodyStream := None |> <| cl_bodyFileName := [] |>).
  change (the_request c3) with r3.
  assert (read_as e r3) as Hr3 by exact Hr. destruct (read_as_header e r3 (`s"content-type") Hr3) as [-> ->].
  assert (forall v, on_hints (set_header (`s"content-type") v) r3 = 
    (r <| resHints := (accepted_hints l e) <| rh_headers := [(`s"content-type", v)] |> |>)
      <| req_type := REQ_TYPE_STATIC |>) as Hset.
  { intros v. unfold on_hints, r3. cbn [resHints upd]. unfold set_header. cbn [rh_headers upd]. rewrite Hh. reflexivity. }
  unfold accepted_request. destruct (checkHeader (`s"content-type") (ex_head e)) eqn:Ect.
  - rewrite Hset. unfold accepted_hints. rewrite Ect. reflexivity.
  - assert (r3 = (r <| resHints := accepted_hints l e |>) <| req_type := REQ_TYPE_STATIC |>) as <-; [|reflexivity].
    unfold r3. unfold accepted_hints. rewrite Ect. destruct r; cbn in Hi. subst. reflexivity.
Qed.

Lemma headers_allowed_same r r' : _headers r = _headers r' -> headers_allowed r -> headers_allowed r'.
Proof. intros E. unfold headers_allowed, checkHeader, getHeader. by rewrite E. Qed.

(** The client [handleRequestHeaders] leaves, field by field. *)
Definition headed (c c' : Client) (h : Host) (r : Request) (binds : list event) : Prop :=
  cl_hostMap c' = cl_hostMap c /\ cl_host c' = Some h /\ cl_request c' = Some r /\
  cl_response c' = cl_response c /\ cl_mode c' = cl_mode c /\
  cl_headerStatus c' = HEADER_STATUS_DONE /\ cl_bodyStatus c' = cl_bodyStatus c /\
  cl_buffer c' = cl_buffer c /\ cl_outBuffers c' = cl_outBuffers c /\
  cl_cgiProcess c' = cl_cgiProcess c /\ cl_bodyStream c' = None /\
  cl_terminated c' = cl_terminated c /\ cl_log c' = cl_log c ++ binds.

Lemma headed_update c h r binds :
  headed c (c <| cl_host := Some h |> <| cl_log := cl_log c ++ binds |> <| cl_request := Some r |>
              <| cl_bodyStream := None |> <| cl_bodyFileName := [] |>
              <| cl_headerStatus := HEADER_STATUS_DONE |>) h r binds.
Proof. by unfold headed. Qed.

(** The client bound to its host. *)
Definition bound (h : Host) (binds : list event) (c : Client) : Client :=
  c <| cl_host := Some h |> <| cl_log := cl_log c ++ binds |>.

(** The end of [handleRequestHeaders]: the host judges the request. *)
Definition host_judges (os : os_answers) : Client -> failing Client (Z * Client) :=
  andthen (fun c => host ← deref (cl_host c); on_request (checkRequest (os_fs os) host) c) (fun c =>
  let '(res, c) := checkContinue c in
  if negb (res =? 0) && negb (res =? RES_CONTINUE) then Ret (res, c) else accept_request os res c).

Lemma host_allows os c e h r :
  head_ok e -> cl_host c = Some h -> checkRequest (os_fs os) h (the_request c) = Ret (0, r) -> read_as e r ->
  host_judges os c = accept_request os 0 (set_request r c).
Proof.
  intros He Hh Hc Hr. unfold host_judges. erewrite andthen_pass; last first.
  { rewrite Hh. cbn [deref mbind outcome_bind]. unfold on_request. rewrite Hc. reflexivity. }
  assert (checkContinue (set_request r c) = (0, set_request r c)) as ->; [|done].
  unfold checkContinue. change (the_request (set_request r c)) with r.
  destruct (read_as_header e r (`s"expect") Hr) as [-> _]. by rewrite (ok_expect e He).
Qed.

Lemma host_refuses os c h s r :
  cl_host c = Some h -> checkRequest (os_fs os) h (the_request c) = Ret (s, r) -> s <> 0 ->
  host_judges os c = Ret (s, set_request r c).
Proof.
  intros Hh Hc Hs. unfold host_judges, andthen. rewrite Hh. cbn [deref mbind outcome_bind].
  unfold on_request. rewrite Hc. cbn [throwing map_exn mbind outcome_bind]. by rewrite (proj2 (Z.eqb_neq s 0) Hs).
Qed.

(** The checks before those of the body and the host let a well-formed head pass. *)
Lemma headers_front os c e r h :
  head_ok e -> read_as e r -> _uri r = ex_uri e -> resHints r = ResHints_init ->
  cl_request c = Some r -> host_for (ex_name e) (cl_hostMap c) (cl_host c) = Some h ->
  exists binds, Forall harmless binds /\ sent binds = [] /\
    handleRequestHeaders os c =
      andthen checkBodyLength (host_judges os) (set_request (set_parsedUri (ex_parsed e) r) (bound h binds c)).
Proof.
  intros He Hr Hu Hi Hc Hh. assert (the_request c = r) as Hc' by (unfold the_request; by rewrite Hc).
  assert (headers_allowed r) as Hall
    by (eapply headers_allowed_same; [by symmetry; apply Hr|apply (ok_headers e He)]).
  destruct (assignHost_served c e h) as (binds & Ha & Hhl & Hsl); [rewrite Hc'; apply Hall| |done|].
  { rewrite Hc'. by destruct (read_as_header e r (`s"host") Hr) as [-> _]. }
  fold (bound h binds c) in Ha. exists binds. split; [done|]. split; [done|].
  set (r1 := set_parsedUri (ex_parsed e) r). set (c1 := bound h binds c) in *.
  assert (the_request c1 = r) as Hr1 by exact Hc'.
  unfold handleRequestHeaders. erewrite andthen_pass by exact Ha.
  erewrite andthen_pass; last first.
  { unfold on_request. rewrite Hr1, (parseURI_clean (ex_dirs e) (ex_query e)); [reflexivity|by apply He..|exact Hu]. }
  erewrite andthen_pass; last first.
  { unfold on_request. change (the_request (set_request _ c1)) with r1.
    rewrite checkForbiddenHeaders_pass by exact Hall. reflexivity. }
  fold (ex_parsed e). fold r1. change (set_request r1 (set_request r1 c1)) with (set_request r1 c1).
  unfold andthen at 1 3. change (no_cgi_redir (set_request r1 c1)) with (rh_cgiRedir (resHints r) =? CGI_RES_NONE).
  rewrite Hi. reflexivity.
Qed.

(** The same for a request without body. *)
Lemma headers_judged os c e r h :
  bodiless e -> read_as e r -> _uri r = ex_uri e -> resHints r = ResHints_init ->
  cl_request c = Some r -> host_for (ex_name e) (cl_hostMap c) (cl_host c) = Some h ->
  exists binds, Forall harmless binds /\ sent binds = [] /\
    handleRequestHeaders os c = host_judges os (set_request (set_parsedUri (ex_parsed e) r) (bound h binds c)).
Proof.
  intros He Hr Hu Hi Hc Hh. destruct (headers_front os c e r h (bl_head e He) Hr Hu Hi Hc Hh) as (binds & H1 & H2 & H3).
  exists binds. split; [done|]. split; [done|]. rewrite H3. set (r1 := set_parsedUri (ex_parsed e) r).
  assert (read_as e r1) as Hr1 by exact Hr. apply andthen_pass. apply checkBodyLength_pass;
    change (the_request (set_request r1 (bound h binds c))) with r1;
    rewrite (proj2 (read_as_header e r1 _ Hr1)); apply He.
Qed.

Lemma headers_accepted os c e r r' h :
  bodiless e -> read_as e r -> _uri r = ex_uri e -> resHints r = ResHints_init ->
  cl_request c = Some r -> host_for (ex_name e) (cl_hostMap c) (cl_host c) = Some h ->
  checkRequest (os_fs os) h (set_parsedUri (ex_parsed e) r) = Ret (0, r') -> read_as e r' ->
  exists binds, Forall harmless binds /\ sent binds = [] /\
    handleRequestHeaders os c = accept_request os 0 (set_request r' (bound h binds c)).
Proof.
  intros He Hr Hu Hi Hc Hh Hch Hr'. destruct (headers_judged os c e r h He Hr Hu Hi Hc Hh) as (binds & H1 & H2 & ->).
  exists binds. split; [done|]. split; [done|].
  exact (host_allows os (set_request (set_parsedUri (ex_parsed e) r) (bound h binds c)) e h r' (bl_head e He) eq_refl Hch Hr').
Qed.

Lemma handleRequestHeaders_file os c e r h :
  exchange_ok e -> read_as e r -> _uri r = ex_uri e -> resHints r = ResHints_init ->
  cl_request c = Some r -> cl_bodyStatus c = BODY_STATUS_NONE ->
  host_for (ex_name e) (cl_hostMap c) (cl_host c) = Some h -> serves (os_fs os) h e ->
  exists l binds c',
    handleRequestHeaders os c = Ret (0, c') /\ headed c c' h (accepted_request l e r) binds /\
    Forall harmless binds /\ sent binds = [] /\
    fs_stat (os_fs os) (c_str (loc_root l ++ ex_path e)) = Some RegularFile /\
    fs_open (os_fs os) (c_str (loc_root l ++ ex_path e)) = Some (ex_content e) /\
    fs_size (os_fs os) (c_str (loc_root l ++ ex_path e)) = zlen (ex_content e) /\
    zlen (ex_content e) < npos.
Proof.
  intros He Hr Hu Hi Hc Hb Hh Hs. set (r1 := set_parsedUri (ex_parsed e) r).
  destruct (checkRequest_file (os_fs os) h e r1 He Hs) as (l & Hl & H1 & H2 & H3 & H4 & Hcheck);
    [done|apply Hr|].
  destruct (headers_accepted os c e r (file_request l r1) h (ok_bodiless e He) Hr Hu Hi Hc Hh Hcheck Hr) as (binds & Hb1 & Hb2 & ->).
  exists l, binds. rewrite (accept_file os l e r (set_request (file_request l r1) (bound h binds c)) (proj2 (exchange_code e He)) Hr Hi eq_refl).
  eexists. split; [reflexivity|]. split; [apply headed_update|]. by split_and!.
Qed.

(** ** The response *)

(** The headers of a response that a file answers, from those of the hints; [t]
    is the type of the extension. *)
Definition built_as (t : option str) (date len : str) (m : list (str * str)) : list (str * str) :=
  let m := om_assign i_less (`s"Date") date
    (om_assign i_less (`s"Accept-Ranges") (`s"none")
      (om_assign i_less (`s"Accept-Encoding") (`s"identity") m)) in
  let m := om_assign i_less (`s"Content-Length") len
    (fold_left (fun m e => om_update i_less e.1 (default e.2) m) m m) in
  match t with
  | Some t => om_assign i_less (`s"Content-Type") t m
  | None => m
  end.
Definition built (date len extension : str) : list (str * str) -> list (str * str) :=
  built_as (om_find lex_ltb extension init_mimes) date len.

Definition given_type (e : exchange) : list (str * str) :=
  if checkHeader (`s"content-type") (ex_head e)
  then [(`s"content-type", getHeader (`s"content-type") (ex_head e))] else [].

Lemma built_typed name t date len conn v :
  name = `s"content-type" \/ name = `s"Content-Type" ->
  built_as t date len (om_assign i_less (`s"connection") conn [(name, v)]) =
  [(`s"Accept-Encoding", `s"identity"); (`s"Accept-Ranges", `s"none"); (`s"connection", conn);
   (`s"Content-Length", len); (name, default v t); (`s"Date", date)].
Proof. intros [-> | ->]; destruct t; vm_compute; reflexivity. Qed.

Lemma built_untyped t date len conn :
  built_as t date len (om_assign i_less (`s"connection") conn []) =
  [(`s"Accept-Encoding", `s"identity"); (`s"Accept-Ranges", `s"none"); (`s"connection", conn);
   (`s"Content-Length", len)] ++ match t with Some t => [(`s"Content-Type", t)] | None => [] end ++ [(`s"Date", date)].
Proof. destruct t; vm_compute; reflexivity. Qed.

Lemma built_file date e :
  built date (itostr (zlen (ex_content e))) (uri_extension (ex_parsed e))
    (om_assign i_less (`s"connection") (ex_connection e) (given_type e)) = ok_fields_of date e.
Proof.
  unfold built, ok_fields_of, ex_type, given_type. destruct (checkHeader _ _).
  - rewrite built_typed by (by left). by destruct (om_find _ _ _).
  - rewrite built_untyped. by destruct (om_find _ _ _).
Qed.

(** A request whose answer is the file of that path. *)
Record ready (path : str) (e : exchange) (r : Request) : Prop := {
  rq_read : read_as e r;
  rq_type : req_type r = REQ_TYPE_STATIC;
  rq_uri : rh_parsedUri (resHints r) = ex_parsed e;
  rq_headers : rh_headers (resHints r) = given_type e;
  rq_cookies : rh_cookies (resHints r) = [];
  rq_index : rh_index (resHints r) = 0;
  rq_path : rh_path (resHints r) = path;
}.

Lemma on_hints_id f r : f (resHints r) = resHints r -> on_hints f r = r.
Proof. unfold on_hints. intros ->. by destruct r. Qed.

(** What [fillResponse] makes of a request without error. *)
Definition described (conn : str) (r : Request) : Request :=
  let r := on_hints (set_header (`s"connection") conn) r in
  on_hints (fun h => h <| rh_type := req_type r |> <| rh_extension := uri_extension (rh_parsedUri h) |>
                       <| rh_method := req_method r |>) r.

Lemma fillResponse_quiet dep host status e r :
  read_as e r -> 200 <= status < 400 ->
  fillResponse dep host (set_rstatus status r) =
    described (if status <? 300 then ex_connection e else `s"close") (set_rstatus status r).
Proof.
  intros Hr Hs. set (r0 := set_rstatus status r).
  assert (read_as e r0) as Hr0 by exact Hr.
  assert (rh_status (resHints r0) = status) as Hs0 by done.
  assert (fillErrorPage dep host (resHints r0) = resHints r0) as He.
  { unfold fillErrorPage. rewrite Hs0, (proj2 (Z.ltb_ge 400 status)), (proj2 (Z.eqb_neq status 505)) by lia. done. }
  unfold fillResponse. rewrite (on_hints_id _ _ He). unfold fillAdditionnalHeaders.
  rewrite Hs0, (proj2 (Z.leb_le _ _)) by lia. cbn [andb].
  destruct (read_as_header e r0 (`s"connection") Hr0) as [-> ->]. fold (ex_connection e).
  set (r1 := on_hints (set_header _ _) r0).
  assert (fillVerboseError (resHints r1) = resHints r1) as Hv.
  { unfold fillVerboseError. change (rh_status (resHints r1)) with status.
    unfold RES_METHOD_NOT_ALLOWED, RES_INTERNAL_ERROR, RES_SERVICE_UNAVAILABLE, RES_BAD_REQUEST.
    by rewrite !(proj2 (Z.eqb_neq status _)) by lia. }
  cbv zeta. by rewrite (on_hints_id _ _ Hv).
Qed.

(** The same for a successful one, field by field. *)
Lemma fillResponse_plain dep host status e r :
  read_as e r -> 200 <= status < 300 ->
  let r' := fillResponse dep host (set_rstatus status r) in
  let h := resHints r in let h' := resHints r' in
  (rh_headers h' = om_assign i_less (`s"connection") (ex_connection e) (rh_headers h) /\
   rh_method h' = ex_code e /\ rh_cookies h' = rh_cookies h /\ rh_status h' = status) /\
  (rh_extension h' = uri_extension (rh_parsedUri h) /\ rh_path h' = rh_path h /\ rh_index h' = rh_index h /\
   rh_type h' = req_type r) /\ rh_unlink h' = rh_unlink h /\ read_as e r'.
Proof.
  intros Hr Hs. cbv zeta. rewrite (fillResponse_quiet dep host status e r Hr), (proj2 (Z.ltb_lt _ _)) by lia.
  split; [split_and!; [done|exact (proj2 Hr)|done|done]|]. split; [by split_and!|]. by split.
Qed.

Lemma join_nonempty v : plain_dirs v -> is_empty (join v) = false.
Proof.
  intros Hv. destruct (join_file v Hv) as (ds & f & _ & Hf & -> & _).
  apply is_empty_false. intros [_ ?]%app_eq_nil. by apply plain_spec in Hf as [? _].
Qed.

Lemma addHeader_frame k v h :
  let h' := addHeader k v (h <| rh_index := 0 |>) in
  rh_headers h' = om_assign i_less k v (rh_headers h) /\ rh_method h' = rh_method h /\
  rh_cookies h' = rh_cookies h /\ rh_status h' = rh_status h /\ rh_extension h' = rh_extension h /\
  rh_unlink h' = rh_unlink h /\ rh_path h' = rh_path h.
Proof. done. Qed.

Lemma addHintHeaders_frame date h :
  let h' := addHintHeaders (addUniversalHeaders date h) in
  let m := om_assign i_less (`s"Date") date
    (om_assign i_less (`s"Accept-Ranges") (`s"none")
      (om_assign i_less (`s"Accept-Encoding") (`s"identity") (rh_headers h))) in
  rh_headers h' = fold_left (fun m e => om_update i_less e.1 (default e.2) m) m m /\
  rh_method h' = rh_method h /\ rh_cookies h' = rh_cookies h /\ rh_status h' = rh_status h /\
  rh_extension h' = rh_extension h /\ rh_path h' = rh_path h /\ rh_index h' = rh_index h /\
  rh_unlink h' = rh_unlink h.
Proof. done. Qed.

(** The type of a page: that of its extension, unless it is about an error. *)
Definition page_type (h : ResHints) : option str :=
  if rh_status h <? 400 then om_find lex_ltb (rh_extension h) init_mimes else None.

Lemma checkType_keeps h :
  rh_unlink (checkType h) = rh_unlink h /\ rh_cookies (checkType h) = rh_cookies h /\
  rh_path (checkType h) = rh_path h /\
  rh_headers (checkType h) =
    match page_type h with Some t => om_assign i_less (`s"Content-Type") t (rh_headers h) | None => rh_headers h end.
Proof. unfold checkType, page_type. destruct (om_find _ _ _), (rh_status h <? 400); done. Qed.

(** The file is there, with that content. *)
Definition has_file (fs : filesystem) (path content : str) : Prop :=
  fs_stat fs (c_str path) = Some RegularFile /\ fs_open fs (c_str path) = Some content /\
  fs_size fs (c_str path) = zlen content /\ zlen content < npos.
Definition holds (fs : filesystem) (path : str) (e : exchange) : Prop := has_file fs path (ex_content e).

(** A file answers, from the index on. *)
Lemma genResponse_plain fs date content hf :
  rh_status hf <> 100 -> is_empty (rh_path hf) = false -> (rh_status hf = RES_OK -> rh_type hf <> REQ_TYPE_DIR) ->
  0 <= rh_index hf <= zlen content -> has_file fs (rh_path hf) content ->
  exists h, genResponse fs date hf = Ret (FileResponse (rh_status hf) (seek (rh_index hf) content), h) /\
    rh_headers h = built_as (page_type hf) date (itostr (zlen content - rh_index hf)) (rh_headers hf) /\
    rh_method h = rh_method hf /\ rh_cookies h = rh_cookies hf /\
    rh_unlink h = rh_unlink hf /\ rh_status h = rh_status hf /\ rh_path h = rh_path hf.
Proof.
  intros Hst Hne Htype Hidx (H1 & H2 & H3 & H4).
  destruct (addHintHeaders_frame date hf) as (Eh & Em & Ec & Es & Ex & Ep & Ei & Eu).
  assert ((rh_status hf =? RES_OK) && (rh_type hf =? REQ_TYPE_DIR) = false) as Hdir.
  { destruct (Z.eqb_spec (rh_status hf) RES_OK); [|done]. apply Z.eqb_neq. auto. }
  unfold genResponse. rewrite Hne, (proj2 (Z.eqb_neq (rh_status hf) 100)), Hdir by done. cbn [orb].
  set (h := addHintHeaders _) in *. clearbody h.
  unfold inspectFile. rewrite Ep, Ei, H1, H2, H3. cbv zeta.
  assert (u64 (u64 (zlen content) - rh_index hf) = zlen content - rh_index hf) as ->.
  { pose proof (zlen_nonneg content). unfold u64, npos in *. by rewrite (Z.mod_small (zlen _)), Z.mod_small by lia. }
  cbn [throwing map_exn mbind outcome_bind].
  destruct (addHeader_frame (`s"Content-Length") (itostr (zlen content - rh_index hf)) h) as (Fh & Fm & Fc & Fs & Fx & Fu & Fp).
  set (h2 := addHeader _ _ _) in *. clearbody h2. rewrite Es in *.
  exists (checkType h2). destruct (checkType_frame h2) as [Gm Gs], (checkType_keeps h2) as (Gu & Gc & Gp & Gh).
  assert (page_type h2 = page_type hf) as Ht by (unfold page_type; by rewrite Fs, Fx, Ex).
  rewrite Gm, Gs, Gc, Gu, Gp, Gh, Ht, Fh, Fm, Fc, Fs, Fu, Fp, Em, Ec, Eh, Eu, Ep.
  split; [reflexivity|]. split; [reflexivity|]. by split_and!.
Qed.

Lemma getRequest_some now c r : cl_request c = Some r -> getRequest now c = c.
Proof. intros H. unfold getRequest. by rewrite H. Qed.

(** The head of a response without cookies. *)
Lemma formatHeaders_plain status h body :
  rh_cookies h = [] -> _formatHeaders status h ++ body = wire status (rh_headers h) body.
Proof.
  intros Hc. unfold _formatHeaders, wire. rewrite Hc. cbn [map concat]. rewrite app_nil_l.
  by rewrite <- !(assoc_L (++)).
Qed.

(** A response is generated from a file, for the hints [r0] of the request. *)
Lemma generate_page os dep c status0 r r0 content :
  fillResponse dep (cl_host c) (if negb (status0 =? 0) then set_rstatus status0 r else r) = r0 ->
  rh_status (resHints r0) <> 100 -> is_empty (rh_path (resHints r0)) = false ->
  (rh_status (resHints r0) = RES_OK -> rh_type (resHints r0) <> REQ_TYPE_DIR) -> rh_cookies (resHints r0) = [] ->
  0 <= rh_index (resHints r0) <= zlen content -> has_file (os_fs os) (rh_path (resHints r0)) content ->
  cl_request c = Some r -> cl_response c = None -> cl_outBuffers c = [] ->
  let rest := seek (rh_index (resHints r0)) content in
  let fields := built_as (page_type (resHints r0)) (os_date os)
    (itostr (zlen content - rh_index (resHints r0))) (rh_headers (resHints r0)) in
  let status := rh_status (resHints r0) in
  exists h bs,
    generateResponse os dep c status0 =
      Ret (0, c <| cl_request := Some (r0 <| resHints := h |>) |> <| cl_outBuffers := bs |>
                <| cl_response := Some (FileResponse status rest) |> <| cl_mode := CLIENT_MODE_WRITE |>) /\
    rh_headers h = fields /\
    concat bs = wire status fields (if rh_method (resHints r0) =? HEAD then [] else rest) /\ Forall portion_ok bs /\
    rh_unlink h = rh_unlink (resHints r0) /\ rh_status h = status /\ rh_path h = rh_path (resHints r0).
Proof.
  intros Hfill Hst Hne Ht Hck Hi Hf Hc Ha Ho rest fields status.
  assert (the_request c = r) as Hc' by (unfold the_request; by rewrite Hc).
  unfold generateResponse. cbn [generateResponse_]. rewrite (getRequest_some _ _ _ Hc), Ha, Hc'. cbv zeta.
  rewrite Hfill. clear Hfill.
  destruct (genResponse_plain (os_fs os) (os_date os) content (resHints r0))
    as (h & -> & G1 & G2 & G3 & G4 & G5 & G6); [done..|].
  fold rest fields status in G1, G5 |- *. rewrite Hck in G3.
  destruct (writeResponse_spec (FileResponse status rest) h) as [Hw Hp].
  exists h, (writeResponse (FileResponse status rest) h).
  split.
  { match goal with |- context [cl_outBuffers ?x ++ _] => change (cl_outBuffers x) with (cl_outBuffers c) end.
    by rewrite Ho. }
  split; [exact G1|]. split; [|by split_and!].
  rewrite Hw, G2. cbn [head_of body_of getStatus]. by rewrite (formatHeaders_plain _ _ _ G3), G1.
Qed.

(** For a successful request: for the status given, or for the one of the hints. *)
Lemma generate_file os dep c status0 status e r content :
  read_as e r -> 200 <= status < 300 -> set_rstatus status r = (if negb (status0 =? 0) then set_rstatus status0 r else r) ->
  is_empty (rh_path (resHints r)) = false -> req_type r <> REQ_TYPE_DIR -> rh_cookies (resHints r) = [] ->
  0 <= rh_index (resHints r) <= zlen content -> has_file (os_fs os) (rh_path (resHints r)) content ->
  cl_request c = Some r -> cl_response c = None -> cl_outBuffers c = [] ->
  let rest := seek (rh_index (resHints r)) content in
  let fields := built (os_date os) (itostr (zlen content - rh_index (resHints r)))
    (uri_extension (rh_parsedUri (resHints r))) (om_assign i_less (`s"connection") (ex_connection e) (rh_headers (resHints r))) in
  exists r' bs,
    generateResponse os dep c status0 =
      Ret (0, c <| cl_request := Some r' |> <| cl_outBuffers := bs |>
                <| cl_response := Some (FileResponse status rest) |> <| cl_mode := CLIENT_MODE_WRITE |>) /\
    read_as e r' /\ rh_headers (resHints r') = fields /\
    concat bs = wire status fields (if ex_code e =? HEAD then [] else rest) /\ Forall portion_ok bs /\
    rh_unlink (resHints r') = rh_unlink (resHints r) /\ rh_status (resHints r') = status /\
    rh_path (resHints r') = rh_path (resHints r).
Proof.
  intros Hr Hst Hset Hne Ht Hck Hi Hf Hc Ha Ho rest fields.
  destruct (fillResponse_plain dep (cl_host c) status e r Hr Hst) as ((F1 & F2 & F3 & F4) & (F5 & F6 & F7 & F8) & F9 & F10).
  rewrite Hset in *. set (r0 := fillResponse _ _ _) in *.
  destruct (generate_page os dep c status0 r r0 content eq_refl) as (h & bs & G1 & G2 & G3 & G4 & G5 & G6 & G7);
    rewrite ?F3, ?F4, ?F6, ?F7, ?F8; try done; [lia|].
  assert (page_type (resHints r0) = om_find lex_ltb (uri_extension (rh_parsedUri (resHints r))) init_mimes) as Ep
    by (unfold page_type; rewrite F4, F5, (proj2 (Z.ltb_lt _ _)) by lia; done).
  rewrite Ep, F1, F2, F4, F7 in G3. rewrite F4, F7 in G1. rewrite Ep, F1, F7 in G2. rewrite F4 in G6. fold rest in G1, G3.
  exists (r0 <| resHints := h |>), bs. split; [exact G1|]. split; [exact F10|]. split; [exact G2|].
  split; [exact G3|]. split; [exact G4|]. split; [by rewrite <- F9|]. split; [done|by rewrite <- F6].
Qed.

Lemma om_find_connection date e :
  om_find i_less (`s"connection") (ok_fields_of date e) = Some (ex_connection e).
Proof. reflexivity. Qed.

Lemma respond_file os dep c path status e r :
  ready path e r -> 200 <= status < 300 -> is_empty path = false -> holds (os_fs os) path e ->
  cl_request c = Some r -> cl_response c = None -> cl_outBuffers c = [] ->
  exists r' bs,
    handleClientResponse os dep c status =
      Ret (0, c <| cl_request := Some r' |> <| cl_outBuffers := bs |>
                <| cl_response := Some (FileResponse status (ex_content e)) |>
                <| cl_mode := CLIENT_MODE_WRITE |>) /\
    read_as e r' /\ om_find i_less (`s"connection") (rh_headers (resHints r')) = Some (ex_connection e) /\
    concat bs = file_response status (os_date os) e /\ Forall portion_ok bs /\
    rh_unlink (resHints r') = rh_unlink (resHints r) /\ rh_status (resHints r') = status.
Proof.
  intros [Hr Ht Hu Hh Hck Hi Hp] Hst Hne Hf Hc Ha Ho.
  assert (the_request c = r) as Hc' by (unfold the_request; by rewrite Hc).
  unfold handleClientResponse. rewrite (getRequest_some _ _ _ Hc), Hc', Ht.
  cbn [negb Z.eqb Pos.eqb REQ_TYPE_STATIC REQ_TYPE_CGI orb].
  destruct (generate_file os dep c status status e r (ex_content e) Hr Hst)
    as (r' & bs & H1 & H2 & H3 & H4 & H5 & H6 & H7 & _); try done.
  { by rewrite (proj2 (Z.eqb_neq status 0)) by lia. }
  { by rewrite Hp. }
  { by rewrite Ht. }
  { rewrite Hi. pose proof (zlen_nonneg (ex_content e)). lia. }
  { by rewrite Hp. }
  rewrite Hi, Z.sub_0_r, Hu, Hh, built_file in *. change (seek 0 (ex_content e)) with (ex_content e) in *.
  exists r', bs. rewrite H3, om_find_connection. by split_and!.
Qed.

Lemma accepted_ready l e r :
  read_as e r -> ready (loc_root l ++ ex_path e) e (accepted_request l e r).
Proof. intros Hr. by split. Qed.

Lemma path_nonempty root e : plain_dirs (ex_dirs e) -> is_empty (root ++ ex_path e) = false.
Proof.
  intros He. apply is_empty_false. intros [_ Hp]%app_eq_nil. pose proof (join_nonempty _ He) as Hj.
  unfold ex_path in Hp. by rewrite Hp in Hj.
Qed.

(** ** The states of a session *)

(** Reading: [p] is what arrived of the next requests and was not answered. *)
Record reading (p : str) (c : Client) : Prop := {
  rd_mode : cl_mode c = CLIENT_MODE_READ;
  rd_header : cl_headerStatus c = HEADER_STATUS_ONGOING;
  rd_body : cl_bodyStatus c = BODY_STATUS_NONE;
  rd_response : cl_response c = None;
  rd_queue : cl_outBuffers c = [];
  rd_cgi : cl_cgiProcess c = None;
  rd_stream : cl_bodyStream c = None;
  rd_live : cl_terminated c = false;
  rd_status : _status (the_request c) <> TERM;
  rd_parse : forall b, parseHeaders Request_init (p ++ b) = parseHeaders (the_request c) (cl_buffer c ++ b);
}.

(** The hosts a client knows, and its own. *)
Definition seat (c : Client) : list (str * Host) * option Host := (cl_hostMap c, cl_host c).

(** Closing the stream of a body leaves the file alone. *)
Definition keeps_file (c : Client) : Prop :=
  cl_bodyStream c = None \/
  exists r, cl_request c = Some r /\ rh_unlink (resHints r) = false /\ rh_status (resHints r) < 300.

(** Writing a response; [p] is what arrived after the request, and [close] says
    whether the connection ends with it. *)
Record draining (close : bool) (p : str) (c : Client) : Prop := {
  sd_mode : cl_mode c = CLIENT_MODE_WRITE;
  sd_response : exists a, cl_response c = Some a /\ getStatus a <> RES_CONTINUE;
  sd_cgi : cl_cgiProcess c = None;
  sd_stream : keeps_file c;
  sd_live : cl_terminated c = false;
  sd_buffer : cl_buffer c = p;
  sd_portions : Forall portion_ok (cl_outBuffers c);
  sd_request : exists r conn, cl_request c = Some r /\
    om_find i_less (`s"connection") (rh_headers (resHints r)) = Some conn /\ close = str_eqb conn (`s"close");
}.

(** Sending the response to [e], which had a complete head. *)
Record sending (e : exchange) (p : str) (c : Client) : Prop := {
  sd_draining :> draining (closes e) p c;
  sd_header : cl_headerStatus c = HEADER_STATUS_DONE;
  sd_body : cl_bodyStatus c <> BODY_STATUS_ONGOING;
}.

(** No request of the list has arrived completely. *)
Definition waiting (p : str) (todo : list exchange) : Prop :=
  match todo with [] => p = [] | e :: _ => exists q, q <> [] /\ ex_bytes e = p ++ q end.

Definition requests (es : list exchange) : str := concat (map ex_bytes es).

Lemma arrived_cases p todo :
  p `prefix_of` requests todo ->
  waiting p todo \/
  exists e todo' rest, todo = e :: todo' /\ p = ex_bytes e ++ rest /\ rest `prefix_of` requests todo'.
Proof.
  destruct todo as [|e todo]; [intros Hp%prefix_nil_inv; by left|].
  unfold requests. cbn [map concat]. intros [k Hk].
  apply app_eq_inv in Hk as [(x & Ha & Hb)|(x & -> & Hb)].
  - destruct (decide (x = [])) as [->|Hx]; [|left; by exists x].
    right. rewrite app_nil_r in Ha. exists e, todo, []. rewrite app_nil_r. split; [done|]. split; [done|].
    apply prefix_nil.
  - right. exists e, todo, x. split; [done|]. split; [done|]. by exists k.
Qed.

(** The parser on what waits, and on a request that has arrived. *)
Lemma parse_rendered e rest :
  head_ok e ->
  exists r, parseHeaders Request_init (ex_bytes e ++ rest) = Ret (-1, r, rest) /\
    read_as e r /\ _uri r = ex_uri e /\ resHints r = ResHints_init /\
    unread r.
Proof.
  intros He. destruct (parseHeaders_rendered (ex_method e) (ex_uri e) (ex_fields e) rest)
    as (r & H1 & H2 & H3 & H4 & H5 & H6); [apply He..|].
  exists r. split; [done|]. split; [by split|]. by split_and!.
Qed.

Lemma parse_partial e p q :
  head_ok e -> ex_bytes e = p ++ q -> q <> [] -> exists r, parseHeaders Request_init p = Ret (0, r, []).
Proof.
  intros He E Hq. destruct (parse_rendered e [] He) as (r & Hr & _). rewrite app_nil_r in Hr.
  pose proof (ok_size e He) as Hs. rewrite E in Hr, Hs. rewrite zlen_app in Hs.
  pose proof (zlen_nonneg q). by apply (parseHeaders_prefix p q r); [lia|..].
Qed.

Lemma parse_waiting p todo :
  Forall exchange_ok todo -> waiting p todo ->
  exists r, parseHeaders Request_init p = Ret (0, r, []).
Proof.
  intros Ht Hp. destruct todo as [|e todo].
  - cbn [waiting] in Hp. subst p. eexists. reflexivity.
  - destruct Hp as (q & Hq & E). apply Forall_inv in Ht.
    exact (parse_partial e p q (ok_head e Ht) E Hq).
Qed.

Section session.
Context (os : os_answers) (dep : str).

Lemma parseRequest_reading p s c z r y :
  reading p c -> parseHeaders Request_init (p ++ s) = Ret (z, r, y) ->
  exists t, parseRequest (os_now os) s c =
    Ret (z, (c <| cl_lastInteraction := t |> <| cl_request := Some r |> <| cl_buffer := y |>)
              <| cl_headerStatus := if z <? 0 then HEADER_STATUS_READY else HEADER_STATUS_ONGOING |>).
Proof.
  intros Hc Hp. rewrite (rd_parse _ _ Hc) in Hp. pose proof (rd_header _ _ Hc) as Hh.
  exists (match cl_request c with Some _ => cl_lastInteraction c | None => os_now os end).
  unfold parseRequest. cbv zeta.
  assert (getRequest (os_now os) c =
    c <| cl_lastInteraction := match cl_request c with Some _ => cl_lastInteraction c | None => os_now os end |>
      <| cl_request := Some (the_request c) |>) as ->.
  { unfold getRequest, the_request. destruct (cl_request c) as [r0|] eqn:E; [|done]. destruct c; cbn in E; by subst. }
  set (c1 := (_ <| cl_request := Some (the_request c) |>) <| cl_buffer := _ |>).
  change (cl_headerStatus c1) with (cl_headerStatus c). rewrite Hh.
  change (HEADER_STATUS_ONGOING <? HEADER_STATUS_READY) with true. cbv iota.
  change (the_request c1) with (the_request c). change (cl_buffer c1) with (cl_buffer c ++ s).
  rewrite Hp. cbn [throwing map_exn mbind outcome_bind]. destruct (z <? 0); [done|].
  do 2 f_equal. destruct c; cbn in Hh. by subst.
Qed.

(** What [handleClientIn] gets: the bytes that were read, if any. *)
Definition input_of (incoming : bool) : option str := if incoming then os_read os else Some [].

Lemma handleClientIn_input c incoming s :
  input_of incoming = Some s -> (incoming = true -> s <> []) ->
  handleClientIn os c incoming =
    ('(res, c) ← parseRequest (os_now os) s c;
     if res <? 0 then
       let body_done (x : Z * Client) :=
         let '(res, c) := x in
         if (res <=? 0) && negb (cl_bodyStatus c =? BODY_STATUS_ONGOING)
         then Ret (handleRequestBodyDone c) else Ret (res, c) in
       if cl_headerStatus c =? HEADER_STATUS_READY then
         '(res, c) ← handleRequestHeaders os (c <| cl_bodyStatus := BODY_STATUS_NONE |>);
         if negb (res =? 0) then Ret (res, c)
         else if negb (cl_bodyStatus c =? BODY_STATUS_NONE) then
           x ← parseRequest (os_now os) [] c; body_done x
         else body_done (res, c)
       else body_done (res, c)
     else Ret (res, c)).
Proof.
  intros Hi Hne. unfold handleClientIn. fold (input_of incoming). rewrite Hi.
  destruct incoming; [|done]. by rewrite (proj2 (is_empty_false s) (Hne eq_refl)).
Qed.

(** Nothing complete yet: the client goes on reading. *)
Lemma read_partial p s c incoming r :
  reading p c -> input_of incoming = Some s -> (incoming = true -> s <> []) ->
  parseHeaders Request_init (p ++ s) = Ret (0, r, []) ->
  exists c', handleClientIn os c incoming = Ret (0, c') /\ reading (p ++ s) c' /\
    cl_log c' = cl_log c /\ seat c' = seat c.
Proof.
  intros Hc Hi Hne Hr. rewrite (handleClientIn_input c incoming s Hi Hne).
  destruct (parseRequest_reading p s c 0 r [] Hc Hr) as [t ->].
  cbn [mbind outcome_bind]. change (0 <? 0) with false. cbv iota.
  eexists. split; [reflexivity|]. split; [|done].
  rewrite (rd_parse _ _ Hc) in Hr.
  destruct Hc as [H3 H4 H5 H6 H7 H8 H9 H10 H11 H12]. split; try done.
  - by destruct (parseHeaders_split _ _ _ _ [] H11 Hr) as (_ & ? & _).
  - intros b. rewrite <- (assoc_L (++)), H12, (assoc_L (++)).
    by destruct (parseHeaders_split _ _ _ _ b H11 Hr) as (_ & _ & ->).
Qed.

(** The client whose head has just been read. *)
Record head_read (e : exchange) (rest : str) (c c1 : Client) (r : Request) : Prop := {
  hr_request : cl_request c1 = Some r;
  hr_read : read_as e r;
  hr_uri : _uri r = ex_uri e;
  hr_hints : resHints r = ResHints_init;
  hr_body : unread r;
  hr_seat : cl_hostMap c1 = cl_hostMap c /\ cl_host c1 = cl_host c;
  hr_idle : cl_mode c1 = CLIENT_MODE_READ /\ cl_bodyStatus c1 = BODY_STATUS_NONE /\ cl_response c1 = None /\
            cl_outBuffers c1 = [] /\ cl_cgiProcess c1 = None /\ cl_bodyStream c1 = None;
  hr_live : cl_terminated c1 = false;
  hr_buffer : cl_buffer c1 = rest;
  hr_log : cl_log c1 = cl_log c;
}.

Lemma read_to_headers p s c incoming e rest :
  reading p c -> input_of incoming = Some s -> (incoming = true -> s <> []) ->
  head_ok e -> p ++ s = ex_bytes e ++ rest ->
  exists r c1, head_read e rest c c1 r /\
    handleClientIn os c incoming =
      (let body_done (x : Z * Client) :=
         let '(res, c) := x in
         if (res <=? 0) && negb (cl_bodyStatus c =? BODY_STATUS_ONGOING)
         then Ret (handleRequestBodyDone c) else Ret (res, c) in
       '(res, c) ← handleRequestHeaders os c1;
       if negb (res =? 0) then Ret (res, c)
       else if negb (cl_bodyStatus c =? BODY_STATUS_NONE) then
         x ← parseRequest (os_now os) [] c; body_done x
       else body_done (res, c)).
Proof.
  intros Hc Hi Hne He E. rewrite (handleClientIn_input c incoming s Hi Hne).
  destruct (parse_rendered e rest He) as (r & Hr & Hr1 & Hr2 & Hr3 & Hr4). rewrite <- E in Hr.
  destruct (parseRequest_reading p s c (-1) r rest Hc Hr) as [t ->].
  cbn [mbind outcome_bind]. change (-1 <? 0) with true. cbv iota zeta.
  destruct Hc as [H3 H4 H5 H6 H7 H8 H9 H10 H11 H12].
  match goal with |- context [handleRequestHeaders os (?x <| cl_bodyStatus := _ |>)] => set (c0 := x) end.
  change (cl_headerStatus c0 =? HEADER_STATUS_READY) with true. cbv iota.
  exists r, (c0 <| cl_bodyStatus := BODY_STATUS_NONE |>). split; [|reflexivity].
  split; first [exact Hr1|exact Hr2|exact Hr3|exact Hr4|by split_and!|done].
Qed.

(** A request has arrived: it is answered. *)
Lemma read_complete p s c incoming e rest h :
  reading p c -> input_of incoming = Some s -> (incoming = true -> s <> []) ->
  exchange_ok e -> p ++ s = ex_bytes e ++ rest ->
  host_for (ex_name e) (cl_hostMap c) (cl_host c) = Some h -> serves (os_fs os) h e ->
  exists c1 c2 binds, handleClientIn os c incoming = Ret (RES_OK, c1) /\
    handleClientResponse os dep c1 RES_OK = Ret (0, c2) /\
    sending e rest c2 /\ concat (cl_outBuffers c2) = ok_response (os_date os) e /\ seat c2 = (cl_hostMap c, Some h) /\
    cl_log c2 = cl_log c ++ binds /\ Forall harmless binds /\ sent binds = [].
Proof.
  intros Hc Hi Hne He E Hh Hs.
  destruct (read_to_headers p s c incoming e rest Hc Hi Hne (ok_head e He) E)
    as (r & c1 & [Q1 Hr1 Q2 Q3 _ [Q4 Q5] (Q6 & Q7 & Q8 & Q9 & Q10 & Q11) Q12 Q13 Q14] & ->).
  rewrite <- Q4, <- Q5 in Hh.
  destruct (handleRequestHeaders_file os c1 e r h He Hr1 Q2 Q3 Q1 Q7 Hh Hs)
    as (l & binds & c2 & -> & Hd & Hb1 & Hb2 & F1 & F2 & F3 & F4).
  destruct Hd as (D1 & D2 & D3 & D4 & D5 & D6 & D7 & D8 & D9 & D10 & D11 & D12 & D13).
  cbv zeta. cbn [mbind outcome_bind]. change (negb (0 =? 0)) with false. cbv iota. rewrite D7, Q7.
  change (negb (BODY_STATUS_NONE =? BODY_STATUS_NONE)) with false.
  change ((0 <=? 0) && negb (BODY_STATUS_NONE =? BODY_STATUS_ONGOING)) with true. cbv iota.
  assert (handleRequestBodyDone c2 = (RES_OK, c2)) as ->.
  { unfold handleRequestBodyDone, the_request. rewrite D3. cbn [from_option id].
    change (req_type (accepted_request l e r)) with REQ_TYPE_STATIC.
    change (req_method (accepted_request l e r)) with (req_method r). rewrite (proj2 Hr1).
    by destruct (ex_code_cases e He) as [-> | ->]. }
  destruct (respond_file os dep c2 _ RES_OK e _ (accepted_ready l e r Hr1)) as (r' & bs & G & G1 & G2 & G3 & G4 & _);
    [done|apply path_nonempty, (ok_head e He)|by split_and!|congruence..|].
  exists c2. eexists. exists binds. split; [reflexivity|]. split; [exact G|].
  split.
  { split; [split; try (cbn; congruence); [by eexists|by left|by exists r', (ex_connection e)]|cbn; congruence|cbn; by rewrite D7, Q7]. }
  split; [done|]. split; [unfold seat; cbn; by rewrite D1, D2, Q4|].
  split; [cbn; by rewrite D13, Q14|done].
Qed.

(** Bytes that arrive while a response is sent are kept for later. *)
Lemma read_ahead e p s c :
  sending e p c -> input_of true = Some s -> s <> [] ->
  handleClientIn os c true = Ret (0, c <| cl_buffer := p ++ s |>).
Proof.
  intros [[H3 H6 H7 H8 H9 H10 H11 (r & conn & Hr & _)] H4 H5] Hi Hne.
  rewrite (handleClientIn_input c true s) by done.
  unfold parseRequest. rewrite (getRequest_some _ _ _ Hr), H10. cbv zeta.
  set (c1 := c <| cl_buffer := p ++ s |>).
  change (cl_headerStatus c1) with (cl_headerStatus c). rewrite H4.
  change (cl_bodyStatus c1) with (cl_bodyStatus c).
  by rewrite (proj2 (Z.eqb_neq (cl_bodyStatus c) ONGOING) H5).
Qed.

Lemma sending_buffer e p p' c : sending e p c -> sending e p' (c <| cl_buffer := p' |>).
Proof. intros [[] ? ?]. by repeat split. Qed.

(** One buffer is written. *)
Lemma draining_next close p c b rest :
  draining close p c -> cl_outBuffers c = b :: rest ->
  draining close p ((log (EvWrite b) c) <| cl_outBuffers := rest |>) /\ zlen b <= BUFFER_SIZE.
Proof.
  intros [] Ho. rewrite Ho in sd_portions0. inversion sd_portions0 as [|? ? [_ Hb] Hr]; subst.
  split; [by split|done].
Qed.

Lemma clear_plain c :
  keeps_file c -> cl_cgiProcess c = None ->
  clear c = c <| cl_bodyStream := None |> <| cl_request := None |> <| cl_response := None |>
              <| cl_bodyFileName := [] |> <| cl_bodyStatus := BODY_STATUS_NONE |>
              <| cl_headerStatus := HEADER_STATUS_ONGOING |>.
Proof.
  intros H1 H2. unfold clear.
  assert (deleteBodyStream c = c <| cl_bodyStream := None |>) as ->.
  { unfold deleteBodyStream. destruct (cl_bodyStream c) eqn:E; [|by destruct c; cbn in E; subst].
    destruct H1 as [?|(r & Hr & Hu & Hs)]; [congruence|].
    change (cl_request (c <| cl_bodyStream := None |>)) with (cl_request c).
    by rewrite Hr, Hu, (proj2 (Z.leb_gt _ _) Hs). }
  unfold deleteCGIProcess. change (cl_cgiProcess (c <| cl_bodyStream := None |>)) with (cl_cgiProcess c).
  by rewrite H2.
Qed.

(** Between two requests. *)
Lemma clear_reading close p c :
  draining close p c -> cl_outBuffers c = [] ->
  reading p ((clear c) <| cl_mode := CLIENT_MODE_READ |>) /\
  cl_log ((clear c) <| cl_mode := CLIENT_MODE_READ |>) = cl_log c /\
  seat ((clear c) <| cl_mode := CLIENT_MODE_READ |>) = seat c.
Proof.
  intros [H3 H6 H7 H8 H9 H10 H11 _] Ho. rewrite clear_plain by done.
  split; [|done]. split; try done. intros b. rewrite <- H10. reflexivity.
Qed.

Lemma terminate_plain c :
  keeps_file c -> cl_cgiProcess c = None ->
  exists new, cl_terminated (terminate c) = true /\ cl_log (terminate c) = cl_log c ++ new /\
    Forall harmless new /\ sent new = [] /\ cl_outBuffers (terminate c) = cl_outBuffers c.
Proof.
  intros H1 H2. unfold terminate. rewrite H2, clear_plain by done.
  set (c0 := _ <| cl_headerStatus := HEADER_STATUS_ONGOING |>).
  change (cl_host c0) with (cl_host c). destruct (cl_host c) as [h|].
  - exists [EvUnbind; EvClose]. split; [done|]. split; [|split; [by repeat constructor|by split]].
    change (cl_log (_ <| cl_terminated := true |>)) with ((cl_log c ++ [EvUnbind]) ++ [EvClose]).
    by rewrite <- (assoc_L (++)).
  - exists [EvClose]. split; [done|]. split; [done|]. split; [by repeat constructor|by split].
Qed.

(** The end of a response. *)
Lemma response_sent_plain close p c :
  draining close p c ->
  response_sent os c = Ret (if close then SITUATION_CLOSE else SITUATION_KEEP_ALIVE, c).
Proof.
  intros [H3 (a & Ha & Hs) H7 H8 H9 H10 H11 (r & conn & Hr & Hcon & ->)].
  assert (the_request c = r) as Hr' by (unfold the_request; by rewrite Hr).
  unfold response_sent. rewrite (getRequest_some _ _ _ Hr), Hr', Hcon, Ha. cbv zeta.
  cbn [deref mbind outcome_bind]. rewrite (proj2 (Z.eqb_neq _ _) Hs).
  destruct (str_eqb (getHeader _ _) _); cbn [mbind outcome_bind from_option]; reflexivity.
Qed.

(** One buffer goes out; after the last one the response ends. *)
Lemma draining_event close p c b rest :
  draining close p c -> cl_outBuffers c = b :: rest -> BUFFER_SIZE <= os_write os ->
  let c1 := (log (EvWrite b) c) <| cl_outBuffers := rest |> in
  draining close p c1 /\
  client_event os dep false false true c =
    match rest with
    | [] => '(res, c) ← after_response os dep (if close then SITUATION_CLOSE else SITUATION_KEEP_ALIVE) c1;
            Ret (if res <? 0 then terminate c else c)
    | _ => Ret c1
    end.
Proof.
  intros Hc Eq Hok c1. destruct (draining_next close p c b rest Hc Eq) as [Hc1 Hb]. fold c1 in Hc1. split; [done|].
  assert (handleClientOut os c = match rest with [] => response_sent os c1 | _ => Ret (0, c1) end) as Hout.
  { unfold handleClientOut. rewrite Eq. unfold BUFFER_SIZE, zlen in *.
    rewrite (proj2 (Z.ltb_ge _ _)) by lia. cbv zeta. rewrite firstn_all2 by lia. done. }
  unfold client_event, handleClientEvent. rewrite (sd_mode _ _ _ Hc), (sd_cgi _ _ _ Hc).
  cbn [orb andb Z.eqb Pos.eqb CLIENT_MODE_WRITE CLIENT_MODE_ERROR mbind outcome_bind negb].
  destruct (sd_response _ _ _ Hc) as (a & -> & _). rewrite Hout. clear Hout. clearbody c1.
  destruct rest as [|b' rest]; [|done].
  rewrite (response_sent_plain close p c1 Hc1). cbn [mbind outcome_bind].
  by destruct close.
Qed.

(** [handleClientIn] and what its caller does with a positive result. *)
Lemma dispatch p s c incoming todo :
  reading p c -> input_of incoming = Some s -> (incoming = true -> s <> []) ->
  Forall exchange_ok todo -> all_served (os_fs os) (cl_hostMap c) (cl_host c) todo ->
  p ++ s `prefix_of` requests todo ->
  exists n c1 c2 new, handleClientIn os c incoming = Ret (n, c1) /\ 0 <= n /\
    (if 0 <? n then handleClientResponse os dep c1 n else Ret (n, c1)) = Ret (0, c2) /\
    cl_log c2 = cl_log c ++ new /\ Forall harmless new /\ sent new = [] /\
    ((reading (p ++ s) c2 /\ waiting (p ++ s) todo /\ seat c2 = seat c) \/
     exists e todo' rest, todo = e :: todo' /\ p ++ s = ex_bytes e ++ rest /\
       sending e rest c2 /\ seat c2 = (cl_hostMap c, host_for (ex_name e) (cl_hostMap c) (cl_host c)) /\
       concat (cl_outBuffers c2) = ok_response (os_date os) e).
Proof.
  intros Hc Hi Hne Ht Hs Hp. destruct (arrived_cases _ _ Hp) as [Hw|(e & todo' & rest & -> & E & _)].
  - destruct (parse_waiting _ _ Ht Hw) as [r Hr].
    destruct (read_partial p s c incoming r Hc Hi Hne Hr) as (c' & H1 & H2 & H3 & H4).
    exists 0, c', c', []. rewrite app_nil_r. split_and!; try done. by left.
  - apply Forall_inv in Ht. destruct Hs as (h & Hh & Hs & _).
    destruct (read_complete p s c incoming e rest h Hc Hi Hne Ht E Hh Hs)
      as (c1 & c2 & binds & H1 & H2 & H3 & H4 & H5 & H6 & H7 & H8).
    exists RES_OK, c1, c2, binds. split_and!; try done. right. exists e, todo', rest.
    rewrite Hh. by split_and!.
Qed.
End session.

(** ** The whole session *)

(** One turn of the client in the event loop: which events [epoll] reports, and
    what the operating system answers. *)
Record wakeup := mkWakeup { w_in : bool; w_out : bool; w_os : os_answers }.

Definition arrives (w : wakeup) : str := if w_in w then default [] (os_read (w_os w)) else [].
Definition arrived (ws : list wakeup) : str := concat (map arrives ws).

(** The peer stays connected, and the socket takes what one write offers. *)
Definition wakeup_ok (w : wakeup) : Prop :=
  if w_in w then exists s, os_read (w_os w) = Some s /\ s <> [] else BUFFER_SIZE <= os_write (w_os w).

(** The turns of a client, until it is closed. *)
Fixpoint play (dep : str) (ws : list wakeup) (c : Client) : failing Client Client :=
  match ws with
  | [] => Ret c
  | w :: ws =>
      if cl_terminated c then Ret c
      else c ← client_event (w_os w) dep false (w_in w) (w_out w) c; play dep ws c
  end.

Lemma play_app dep ws ws' c :
  play dep (ws ++ ws') c = (c ← play dep ws c; play dep ws' c).
Proof.
  revert c. induction ws as [|w ws IH]; intros c; [done|]. cbn [app play].
  destruct (cl_terminated c) eqn:Et.
  - cbn [mbind outcome_bind]. destruct ws'; [done|]. cbn [play]. by rewrite Et.
  - destruct (client_event _ _ _ _ _ c); cbn [mbind outcome_bind]; [apply IH|done..].
Qed.

Lemma wakeup_input w :
  wakeup_ok w -> w_in w = true ->
  input_of (w_os w) true = Some (arrives w) /\ arrives w <> [].
Proof.
  unfold wakeup_ok, arrives, input_of. intros H E. rewrite E in *. destruct H as (s & -> & Hs). done.
Qed.

(** Bytes that neither complete a head nor show that they are none. *)
Definition undecided (b : str) : Prop :=
  forall x y, b = x ++ y -> exists r, parseHeaders Request_init x = Ret (0, r, []).

Lemma undecided_head e b q : head_ok e -> ex_bytes e = b ++ q -> q <> [] -> undecided b.
Proof.
  intros He E Hq x y ->. apply (parse_partial e x (y ++ q) He); [by rewrite (assoc_L (++))|].
  by intros [_ ?]%app_eq_nil.
Qed.

(** After none of the turns the bytes read so far are decided. *)
Definition unsettled (s : str) (ws : list wakeup) : Prop :=
  forall ws1 ws2, ws = ws1 ++ ws2 -> exists r, parseHeaders Request_init (s ++ arrived ws1) = Ret (0, r, []).

Lemma unsettled_cons s w ws : unsettled s (w :: ws) -> unsettled (s ++ arrives w) ws.
Proof.
  intros H ws1 ws2 ->. destruct (H (w :: ws1) ws2 eq_refl) as [r Hr]. exists r.
  rewrite <- (assoc_L (++)). exact Hr.
Qed.

Lemma undecided_unsettled s ws : undecided (s ++ arrived ws) -> unsettled s ws.
Proof.
  intros H ws1 ws2 ->. apply (H _ (arrived ws2)). unfold arrived.
  by rewrite map_app, concat_app, (assoc_L (++)).
Qed.

(** The reads of such bytes. *)
Lemma read_undecided dep ws : forall s c,
  reading s c -> Forall wakeup_ok ws -> unsettled s ws ->
  exists c', play dep ws c = Ret c' /\ reading (s ++ arrived ws) c' /\ cl_log c' = cl_log c /\ seat c' = seat c.
Proof.
  induction ws as [|w ws IH]; intros s c Hc Hw Hu.
  { exists c. change (arrived []) with (@nil ascii). by rewrite app_nil_r. }
  apply Forall_cons in Hw as [Hw1 Hw]. cbn [play]. rewrite (rd_live _ _ Hc).
  destruct (unsettled_cons _ _ _ Hu [] ws eq_refl) as [r Hr]. change (arrived []) with (@nil ascii) in Hr.
  rewrite app_nil_r in Hr. apply unsettled_cons in Hu.
  change (arrived (w :: ws)) with (arrives w ++ arrived ws). rewrite (assoc_L (++)).
  assert (exists c1, client_event (w_os w) dep false (w_in w) (w_out w) c = Ret c1 /\ reading (s ++ arrives w) c1 /\
    cl_log c1 = cl_log c /\ seat c1 = seat c) as (c1 & -> & Hc1 & Hl1 & Hs1).
  { unfold client_event, handleClientEvent. rewrite (rd_mode _ _ Hc). destruct (w_in w) eqn:Ein.
    - destruct (wakeup_input w Hw1 Ein) as [Hi Hne].
      destruct (read_partial (w_os w) s (arrives w) c true r Hc Hi (fun _ => Hne) Hr) as (c1 & -> & H1 & H2 & H3).
      by exists c1.
    - assert (arrives w = []) as -> by (unfold arrives; by rewrite Ein). rewrite app_nil_r. exists c.
      split; [|done]. by destruct (w_out w). }
  cbn [mbind outcome_bind]. destruct (IH (s ++ arrives w) c1 Hc1 Hw Hu) as (c2 & H1 & H2 & H3 & H4).
  exists c2. split; [done|]. split; [done|]. split; congruence.
Qed.

(** The reads of an incomplete head. *)
Lemma read_head dep e q ws s c :
  head_ok e -> reading s c -> Forall wakeup_ok ws -> ex_bytes e = s ++ arrived ws ++ q -> q <> [] ->
  exists c', play dep ws c = Ret c' /\ reading (s ++ arrived ws) c' /\ cl_log c' = cl_log c /\ seat c' = seat c.
Proof.
  intros He Hc Hw E Hq. apply read_undecided; [done|done|]. rewrite (assoc_L (++)) in E.
  by eapply undecided_unsettled, undecided_head.
Qed.

(** The end of the response: the connection is closed, or free for the next
    request, the begin of which may have arrived. *)
Definition over (close : bool) (p : str) (c : Client) : Prop := if close then cl_terminated c = true else reading p c.

Lemma undecided_nil : undecided [].
Proof. intros x y [-> _]%eq_sym%app_eq_nil. by exists Request_init. Qed.

Lemma response_over close p os dep c :
  close = true \/ undecided p -> draining close p c -> cl_outBuffers c = [] ->
  exists c' new, after_response os dep (if close then SITUATION_CLOSE else SITUATION_KEEP_ALIVE) c = Ret (0, c') /\
    cl_log c' = cl_log c ++ new /\ Forall harmless new /\ sent new = [] /\ over close p c'.
Proof.
  intros Hp Hc Hq. unfold after_response, over. destruct close; [|destruct Hp as [?|Hp]; [done|]].
  - destruct (terminate_plain c (sd_stream _ _ _ Hc) (sd_cgi _ _ _ Hc)) as (new & H1 & H2 & H3 & H4 & _).
    by exists (terminate c), new.
  - change (SITUATION_KEEP_ALIVE =? SITUATION_KEEP_ALIVE) with true. cbv iota.
    destruct (clear_reading false p c Hc Hq) as (Hrd & Hlog & _).
    set (c1 := (clear c) <| cl_mode := CLIENT_MODE_READ |>) in *. clearbody c1.
    destruct (Hp p []) as [r Hr]; [by rewrite app_nil_r|].
    destruct (read_partial os p [] c1 false r Hrd eq_refl) as (c2 & -> & H1 & H2 & _); [done|by rewrite app_nil_r|].
    rewrite app_nil_r in H1. exists c2, []. rewrite app_nil_r. split; [done|]. split; [congruence|]. by split_and!.
Qed.

(** Writable turns send the whole response; a stored file stays. *)
Lemma response_drain close p dep bs : forall f c,
  close = true \/ undecided p -> draining close p c -> cl_outBuffers c = bs -> bs <> [] ->
  (forall i : nat, w_in (f i) = false /\ w_out (f i) = true /\ wakeup_ok (f i)) ->
  exists c' new, play dep (map f (seq 0 (length bs))) c = Ret c' /\ cl_log c' = cl_log c ++ new /\
    Forall harmless new /\ sent new = concat bs /\ over close p c'.
Proof.
  induction bs as [|b bs IH]; intros f c Hp Hc Hq Hne Hf; [done|].
  destruct (Hf 0%nat) as (Hin & Hout & Hok). unfold wakeup_ok in Hok. rewrite Hin in Hok.
  destruct (draining_event (w_os (f 0%nat)) dep close p c b bs Hc Hq Hok) as [Hc1 Hev].
  cbn [length seq map play]. rewrite (sd_live _ _ _ Hc), Hin, Hout, Hev. clear Hev.
  set (c1 := (log (EvWrite b) c) <| cl_outBuffers := bs |>) in *.
  assert (cl_outBuffers c1 = bs) as Hq1 by done. assert (cl_log c1 = cl_log c ++ [EvWrite b]) as Hl1 by done.
  clearbody c1. destruct bs as [|b' bs].
  - destruct (response_over close p (w_os (f 0%nat)) dep c1 Hp Hc1 Hq1) as (c2 & new & -> & H1 & H2 & H3 & H4).
    cbn [mbind outcome_bind]. change (0 <? 0) with false. cbv iota. cbn [seq map length play].
    exists c2, (EvWrite b :: new). split; [done|]. split; [rewrite H1, Hl1; by rewrite <- (assoc_L (++))|].
    split; [by constructor|]. split; [|done]. change (sent (EvWrite b :: new)) with (b ++ sent new). by rewrite H3.
  - cbn [mbind outcome_bind].
    destruct (IH (fun i => f (S i)) c1 Hp Hc1 Hq1) as (c2 & new & H0 & H1 & H2 & H3 & H4); [done|by intros i|].
    rewrite <- seq_shift, map_map. exists c2, (EvWrite b :: new). split; [exact H0|].
    split; [rewrite H1, Hl1; by rewrite <- (assoc_L (++))|]. split; [by constructor|]. split; [|done].
    change (sent (EvWrite b :: new)) with (b ++ sent new). by rewrite H3.
Qed.
Lemma requests_app a b : requests (a ++ b) = requests a ++ requests b.
Proof. unfold requests. by rewrite map_app, concat_app. Qed.

Lemma requests_cons e es : requests (e :: es) = ex_bytes e ++ requests es.
Proof. done. Qed.

Lemma sent_app a b : sent (a ++ b) = sent a ++ sent b.
Proof. unfold sent. by rewrite map_app, concat_app. Qed.

Section progress.
Context (dep : str) (es : list exchange) (A : os_answers -> Prop).

(** The response to [e], on the date of one of the turns. *)
Definition answers (e : exchange) (resp : str) : Prop := exists os, A os /\ resp = ok_response (os_date os) e.

(** The hosts serve the exchanges, whatever the turn. *)
Definition seated (c : Client) (todo : list exchange) : Prop :=
  forall os, A os -> all_served (os_fs os) (cl_hostMap c) (cl_host c) todo.

Lemma seated_same c c' todo : seat c' = seat c -> seated c todo -> seated c' todo.
Proof. unfold seated, seat. by intros [= -> ->]. Qed.

Lemma seated_next c c' e todo :
  seat c' = (cl_hostMap c, host_for (ex_name e) (cl_hostMap c) (cl_host c)) ->
  seated c (e :: todo) -> seated c' todo.
Proof.
  unfold seated, seat. intros [= -> ->] H os Hos. destruct (H os Hos) as (h & -> & _ & Hs). exact Hs.
Qed.

(** How far a session is, after [recv] was received and [out] was sent; [t]
    counts the responses to come, the current one included. *)
Inductive progress (recv out : str) (c : Client) : nat -> Prop :=
  | at_reading done todo resps p :
      es = done ++ todo -> recv = requests done ++ p -> Forall2 answers done resps ->
      out = concat resps -> Forall (fun e => closes e = false) done ->
      reading p c -> seated c todo -> waiting p todo -> progress recv out c (length todo)
  | at_sending done e todo resps p :
      es = done ++ e :: todo -> recv = requests (done ++ [e]) ++ p -> Forall2 answers (done ++ [e]) resps ->
      out ++ concat (cl_outBuffers c) = concat resps -> Forall (fun e => closes e = false) done ->
      sending e p c -> seated c todo -> cl_outBuffers c <> [] ->
      progress recv out c (S (length todo))
  | at_closed done e todo resps :
      es = done ++ e :: todo -> Forall2 answers (done ++ [e]) resps ->
      out = concat resps -> Forall (fun e => closes e = false) done -> closes e = true ->
      cl_outBuffers c = [] -> cl_terminated c = true -> progress recv out c 0.

Context (es_ok : Forall exchange_ok es).

Lemma ok_response_nonempty d e : ok_response d e <> [].
Proof. done. Qed.

(** After [dispatch]. *)
Lemma dispatch_progress os done todo resps p c s incoming out :
  es = done ++ todo -> Forall2 answers done resps -> out = concat resps ->
  Forall (fun e => closes e = false) done ->
  reading p c -> seated c todo -> input_of os incoming = Some s -> (incoming = true -> s <> []) ->
  A os ->
  requests done ++ p ++ s `prefix_of` requests es ->
  exists n c1 c2 new, handleClientIn os c incoming = Ret (n, c1) /\ 0 <= n /\
    (if 0 <? n then handleClientResponse os dep c1 n else Ret (n, c1)) = Ret (0, c2) /\
    cl_log c2 = cl_log c ++ new /\ Forall harmless new /\ sent new = [] /\
    exists t, progress (requests done ++ p ++ s) out c2 t /\ (t <= length todo)%nat.
Proof.
  intros E Hr Ho Hk Hc Hst Hi Hne Hos Hp.
  rewrite E, requests_app in Hp. apply prefix_app_inv in Hp.
  assert (Forall exchange_ok todo) as Ht by (rewrite E in es_ok; by apply Forall_app in es_ok as [_ ?]).
  destruct (dispatch os dep p s c incoming todo Hc Hi Hne Ht (Hst os Hos) Hp)
    as (n & c1 & c2 & new & H1 & H2 & H3 & H4 & H5 & H6 & H7).
  exists n, c1, c2, new. do 6 (split; [done|]).
  destruct H7 as [(Hr' & Hw & Hseat)|(e & todo' & rest & -> & Ep & Hsd & Hseat & Hq)].
  - exists (length todo). split; [|done]. eapply at_reading; try done. by eapply seated_same.
  - exists (S (length todo')). split; [|done].
    eapply (at_sending _ _ _ done e todo' (resps ++ [ok_response (os_date os) e]) rest).
    + done.
    + rewrite Ep, requests_app, requests_cons. change (requests []) with (@nil ascii).
      by rewrite app_nil_r, (assoc_L (++)).
    + apply Forall2_app; [done|]. constructor; [by eexists|constructor].
    + rewrite Hq, Ho, concat_app. cbn [concat]. by rewrite app_nil_r.
    + done.
    + done.
    + by eapply seated_next.
    + intros Hn. rewrite Hn in Hq. done.
Qed.

(** What a turn of the client does to the session. *)
Definition turn_ok (w : wakeup) (recv out : str) (c : Client) (t : nat) : Prop :=
  exists c' new t', client_event (w_os w) dep false (w_in w) (w_out w) c = Ret c' /\
    cl_log c' = cl_log c ++ new /\ Forall harmless new /\
    progress (recv ++ arrives w) (out ++ sent new) c' t' /\
    (w_in w = false -> w_out w = true -> cl_outBuffers c <> [] ->
       (t' < t)%nat \/ t' = t /\ (length (cl_outBuffers c') < length (cl_outBuffers c))%nat).

Lemma turn_idle w recv out c t :
  client_event (w_os w) dep false (w_in w) (w_out w) c = Ret c -> arrives w = [] ->
  progress recv out c t -> cl_outBuffers c = [] \/ w_out w = false -> turn_ok w recv out c t.
Proof.
  intros H Ha Hp Hq. exists c, [], t. rewrite Ha, !app_nil_r. split_and!; try done.
  intros _ Ho Hne. destruct Hq; congruence.
Qed.

(** A turn while the client reads. *)
Lemma turn_reading w done todo resps p c :
  es = done ++ todo -> Forall2 answers done resps -> Forall (fun e => closes e = false) done ->
  reading p c -> seated c todo -> waiting p todo ->
  wakeup_ok w -> A (w_os w) ->
  (requests done ++ p) ++ arrives w `prefix_of` requests es ->
  turn_ok w (requests done ++ p) (concat resps) c (length todo).
Proof.
  intros E Hr Hk Hc Hst Hw Hok Hos Hp. pose proof (rd_mode _ _ Hc) as Hm.
  destruct (w_in w) eqn:Ein.
  - destruct (wakeup_input w Hok Ein) as [Hi Hne]. rewrite <- (assoc_L (++)) in Hp.
    destruct (dispatch_progress _ done todo resps p c (arrives w) true _ E Hr eq_refl Hk Hc Hst Hi (fun _ => Hne) Hos Hp)
      as (n & c1 & c2 & new & H1 & H2 & H3 & H4 & H5 & H6 & t & H7 & _).
    exists c2, new, t. rewrite H6, app_nil_r, <- (assoc_L (++)). split_and!; try done; [|by intros ?; congruence].
    unfold client_event, handleClientEvent. rewrite Hm, Ein, H1. cbn [orb andb Z.eqb CLIENT_MODE_READ CLIENT_MODE_ERROR mbind outcome_bind].
    destruct (0 <? n) eqn:E0; [by rewrite H3|].
    apply Z.ltb_ge in E0. assert (n = 0) as -> by lia. cbn [Z.ltb Z.compare].
    injection H3 as ->. reflexivity.
  - apply turn_idle; [|unfold arrives; by rewrite Ein|by eapply at_reading|left; by eapply rd_queue].
    unfold client_event, handleClientEvent. rewrite Hm, Ein. cbn [orb andb Z.eqb CLIENT_MODE_READ CLIENT_MODE_ERROR CLIENT_MODE_WRITE].
    by rewrite andb_false_r.
Qed.

(** A turn while a response is sent: reading ahead. *)
Lemma turn_ahead w done e todo resps p out c :
  es = done ++ e :: todo -> Forall2 answers (done ++ [e]) resps ->
  out ++ concat (cl_outBuffers c) = concat resps -> Forall (fun e => closes e = false) done ->
  sending e p c -> seated c todo -> cl_outBuffers c <> [] ->
  wakeup_ok w -> w_in w = true -> turn_ok w (requests (done ++ [e]) ++ p) out c (S (length todo)).
Proof.
  intros E Hr Ho Hk Hc Hst Hq Hok Ein. destruct (wakeup_input w Hok Ein) as [Hi Hne].
  exists (c <| cl_buffer := p ++ arrives w |>), [], (S (length todo)). split.
  - unfold client_event, handleClientEvent. rewrite (sd_mode _ _ _ Hc), (proj2 (Z.eqb_neq _ _) (sd_body _ _ _ Hc)), Ein.
    rewrite (read_ahead _ e p (arrives w) c Hc Hi Hne). reflexivity.
  - split; [by rewrite app_nil_r|]. split; [done|]. change (sent []) with (@nil ascii). rewrite app_nil_r.
    split; [|by intros ?; congruence].
    eapply at_sending; [exact E| |exact Hr|exact Ho|exact Hk| |exact Hst|exact Hq]; [by rewrite <- (assoc_L (++))|].
    by eapply sending_buffer.
Qed.

(** The last byte of a response, then what comes next. *)
Lemma response_ends w done e todo resps p c :
  es = done ++ e :: todo -> Forall2 answers (done ++ [e]) resps ->
  Forall (fun e => closes e = false) done ->
  sending e p c -> seated c todo -> cl_outBuffers c = [] ->
  A (w_os w) ->
  requests (done ++ [e]) ++ p `prefix_of` requests es ->
  exists c' new,
    after_response (w_os w) dep (if closes e then SITUATION_CLOSE else SITUATION_KEEP_ALIVE) c = Ret (0, c') /\
    cl_log c' = cl_log c ++ new /\ Forall harmless new /\ sent new = [] /\
    exists t, progress (requests (done ++ [e]) ++ p) (concat resps) c' t /\ (t <= length todo)%nat.
Proof.
  intros E Hr Hk Hc Hst Hq Hos Hp. unfold after_response. destruct (closes e) eqn:Ecl.
  - change (SITUATION_CLOSE =? SITUATION_KEEP_ALIVE) with false.
    change (SITUATION_CLOSE =? SITUATION_CONTINUE) with false. cbv iota.
    destruct (terminate_plain c (sd_stream _ _ _ Hc) (sd_cgi _ _ _ Hc)) as (new & H1 & H2 & H3 & H4 & H5).
    exists (terminate c), new. split_and!; try done. exists 0%nat. split; [|lia].
    eapply at_closed; try done. by rewrite H5.
  - change (SITUATION_KEEP_ALIVE =? SITUATION_KEEP_ALIVE) with true. cbv iota.
    destruct (clear_reading _ p c Hc Hq) as (Hrd & Hlog & Hseat).
    set (c1 := (clear c) <| cl_mode := CLIENT_MODE_READ |>) in *. clearbody c1. rewrite <- Hlog.
    apply (seated_same _ _ _ Hseat) in Hst.
    assert (es = (done ++ [e]) ++ todo) as E' by (by rewrite <- (assoc_L (++))).
    assert (Forall (fun e => closes e = false) (done ++ [e])) as Hk'.
    { apply Forall_app. split; [done|]. by constructor. }
    assert (requests (done ++ [e]) ++ p ++ [] `prefix_of` requests es) as Hp' by (by rewrite app_nil_r).
    destruct (dispatch_progress (w_os w) (done ++ [e]) todo resps p c1 [] false _ E' Hr eq_refl Hk' Hrd Hst eq_refl)
      as (n & c2 & c3 & new & H1 & H2 & H3 & H4 & H5 & H6 & t & H7 & H8); [done..|].
    exists c3, new. rewrite H1. cbn [mbind outcome_bind]. rewrite app_nil_r in H7. split_and!; try done.
    by exists t.
Qed.

(** A turn while a response is sent: one buffer goes out. *)
Lemma turn_write w done e todo resps p out c :
  es = done ++ e :: todo -> Forall2 answers (done ++ [e]) resps ->
  out ++ concat (cl_outBuffers c) = concat resps -> Forall (fun e => closes e = false) done ->
  sending e p c -> seated c todo -> cl_outBuffers c <> [] ->
  wakeup_ok w -> w_in w = false -> w_out w = true ->
  A (w_os w) ->
  requests (done ++ [e]) ++ p `prefix_of` requests es ->
  turn_ok w (requests (done ++ [e]) ++ p) out c (S (length todo)).
Proof.
  intros E Hr Ho Hk Hc Hst Hq Hok Ein Eout Hos Hp.
  unfold wakeup_ok in Hok. rewrite Ein in Hok.
  destruct (cl_outBuffers c) as [|b rest] eqn:Eq; [done|].
  assert (exchange_ok e) as He.
  { rewrite E in es_ok. apply Forall_app in es_ok as [_ H]. by inversion H. }
  destruct (draining_event (w_os w) dep _ p c b rest Hc Eq Hok) as [Hd1 Hev].
  assert (sending e p ((log (EvWrite b) c) <| cl_outBuffers := rest |>)) as Hc1 by (split; [exact Hd1|apply Hc..]).
  set (c1 := (log (EvWrite b) c) <| cl_outBuffers := rest |>) in *.
  assert (seated c1 todo) as Hst1 by exact Hst.
  assert (cl_outBuffers c1 = rest) as Hq1 by done.
  assert (cl_log c1 = cl_log c ++ [EvWrite b]) as Hl1 by done.
  assert (arrives w = []) as Ha by (unfold arrives; by rewrite Ein).
  unfold turn_ok. rewrite Ein, Eout, Hev, Ha. clear Hev. clearbody c1.
  destruct rest as [|b' rest].
  - cbv zeta.
    destruct (response_ends w done e todo resps p c1 E Hr Hk Hc1 Hst1 Hq1 Hos Hp)
      as (c' & new & H1 & H2 & H3 & H4 & t & H5 & H6).
    rewrite H1. exists c', (EvWrite b :: new), t. split; [done|].
    split; [rewrite H2, Hl1; by rewrite <- (assoc_L (++))|]. split; [by constructor|].
    rewrite app_nil_r. change (sent (EvWrite b :: new)) with (b ++ sent new). rewrite H4.
    cbn [concat] in Ho. rewrite Ho. split; [done|]. intros _ _ _. left. lia.
  - exists c1, [EvWrite b], (S (length todo)).
    split; [done|]. split; [done|]. split; [by constructor|]. rewrite app_nil_r.
    change (sent [EvWrite b]) with (b ++ []). rewrite app_nil_r.
    split; [|intros _ _ _; right; rewrite Hq1, Eq; simpl; split; [done|lia]].
    eapply at_sending; [exact E|reflexivity|exact Hr| |exact Hk|exact Hc1|exact Hst1|by rewrite Hq1].
    rewrite Hq1, <- (assoc_L (++)). exact Ho.
Qed.

Lemma turn_progress w recv out c t :
  progress recv out c t -> cl_terminated c = false ->
  wakeup_ok w -> A (w_os w) ->
  recv ++ arrives w `prefix_of` requests es -> turn_ok w recv out c t.
Proof.
  intros [done todo resps p E -> Hr -> Hk Hc Hst Hw|done e todo resps p E -> Hr Ho Hk Hc Hst Hq|done e todo resps E Hr Ho Hk He Hq Ht]
    Hlive Hok Hos Hp; [by eapply turn_reading| |congruence].
  destruct (w_in w) eqn:Ein; [by eapply turn_ahead|].
  assert (arrives w = []) as Ha by (unfold arrives; by rewrite Ein).
  destruct (w_out w) eqn:Eout.
  - eapply turn_write; try done. by rewrite Ha, app_nil_r in Hp.
  - apply turn_idle; [|done|by eapply at_sending|by right].
    unfold client_event, handleClientEvent. rewrite (sd_mode _ _ _ Hc), Ein, Eout. reflexivity.
Qed.
End progress.

(** A run of turns. *)
Section run.
Context (dep : str) (es : list exchange) (A : os_answers -> Prop).
Context (es_ok : Forall exchange_ok es).

(** What every turn of the run may assume of its surroundings. *)
Definition served_turn (w : wakeup) : Prop :=
  wakeup_ok w /\ A (w_os w).

Lemma play_progress ws : forall recv out c t,
  progress es A recv out c t -> Forall served_turn ws ->
  recv ++ arrived ws `prefix_of` requests es ->
  exists c' new recv' t', play dep ws c = Ret c' /\ cl_log c' = cl_log c ++ new /\ Forall harmless new /\
    progress es A recv' (out ++ sent new) c' t' /\
    (cl_terminated c' = false -> recv' = recv ++ arrived ws).
Proof.
  induction ws as [|w ws IH]; intros recv out c t Hp Hws Hr.
  - exists c, [], recv, t. rewrite !app_nil_r. by split_and!.
  - cbn [play]. destruct (cl_terminated c) eqn:Et.
    { exists c, [], recv, t. rewrite !app_nil_r. split_and!; congruence || done. }
    apply Forall_cons in Hws as [(Hok & Hos) Hws].
    change (arrived (w :: ws)) with (arrives w ++ arrived ws) in Hr |- *. rewrite (assoc_L (++)) in Hr |- *.
    destruct (turn_progress dep es A es_ok w recv out c t Hp Et Hok Hos)
      as (c1 & new1 & t1 & H1 & H2 & H3 & H4 & _); [by eapply prefix_app_l|].
    rewrite H1. cbn [mbind outcome_bind].
    destruct (IH _ _ c1 t1 H4 Hws Hr) as (c' & new & recv' & t' & G1 & G2 & G3 & G4 & G5).
    exists c', (new1 ++ new), recv', t'. split; [done|].
    split; [by rewrite G2, H2, (assoc_L (++))|]. split; [by apply Forall_app|].
    split; [|done]. by rewrite sent_app, (assoc_L (++)).
Qed.

(** A turn in which the socket is writable. *)
Definition writable (w : wakeup) : Prop := w_in w = false /\ w_out w = true /\ served_turn w.

(** Nothing is left to do: everything was answered, or the connection closed. *)
Definition finished (out : str) (c : Client) : Prop :=
  exists done resps, done `prefix_of` es /\ Forall2 (answers A) done resps /\ out = concat resps /\
    cl_outBuffers c = [] /\
    if cl_terminated c then exists d e, done = d ++ [e] /\ closes e = true else done = es.

Lemma waiting_all p todo : waiting p todo -> p = requests todo -> todo = [].
Proof.
  destruct todo as [|e todo]; [done|]. intros (q & Hq & E) ->. exfalso.
  rewrite requests_cons in E. apply (f_equal length) in E. rewrite !length_app in E.
  destruct q; [done|]. simpl in E. lia.
Qed.

Lemma finished_empty out c t :
  progress es A (requests es) out c t -> cl_outBuffers c = [] -> finished out c.
Proof.
  intros [past todo resps p E Er Hr Ho Hcl Hrd _ Hw|past e todo resps p E Er Hr Ho Hcl Hsd _ Hne
    |past e todo resps E Hr Ho Hcl He _ Ht] Hq; [|done|].
  - assert (todo = []) as ->.
    { eapply waiting_all; [exact Hw|]. rewrite E, requests_app in Er. by apply app_inv_head in Er. }
    rewrite app_nil_r in E. exists past, resps. rewrite (rd_live _ _ Hrd), E. by split_and!.
  - exists (past ++ [e]), resps. rewrite Ht. split_and!; try done; [|by exists past, e].
    rewrite E. exists todo. by rewrite <- (assoc_L (++)).
Qed.

Lemma drain_progress t : forall k c out (f : nat -> wakeup),
  progress es A (requests es) out c t -> (length (cl_outBuffers c) <= k)%nat ->
  (forall i, writable (f i)) ->
  exists n c' new, play dep (map f (seq 0 n)) c = Ret c' /\ cl_log c' = cl_log c ++ new /\
    Forall harmless new /\ finished (out ++ sent new) c'.
Proof.
  induction t as [t IHt] using lt_wf_ind. induction k as [|k IHk]; intros c out f Hp Hk Hf.
  - exists 0%nat, c, []. rewrite !app_nil_r. split_and!; try done. eapply finished_empty; [exact Hp|].
    by destruct (cl_outBuffers c); [|simpl in Hk; lia].
  - destruct (decide (cl_outBuffers c = [])) as [Hq|Hq].
    { exists 0%nat, c, []. rewrite !app_nil_r. split_and!; try done. by eapply finished_empty. }
    destruct (Hf 0%nat) as (Hin & Hout & Hok & Hos).
    assert (arrives (f 0%nat) = []) as Ha by (unfold arrives; by rewrite Hin).
    assert (cl_terminated c = false) as Et.
    { destruct Hp as [? ? ? ? ? ? ? ? ? Hrd|? ? ? ? ? ? ? ? ? ? Hsd|]; [apply Hrd|exact (sd_live _ _ _ Hsd)|congruence]. }
    destruct (turn_progress dep es A es_ok (f 0%nat) _ out c t Hp Et Hok Hos)
      as (c1 & new1 & t1 & H1 & H2 & H3 & H4 & H5); [by rewrite Ha, app_nil_r|].
    rewrite Ha, app_nil_r in H4.
    assert (exists n c' new, play dep (map (fun i => f (S i)) (seq 0 n)) c1 = Ret c' /\
      cl_log c' = cl_log c1 ++ new /\ Forall harmless new /\ finished ((out ++ sent new1) ++ sent new) c')
      as (n & c' & new & G1 & G2 & G3 & G4).
    { destruct (H5 Hin Hout Hq) as [Hlt|[-> Hlt]].
      - by eapply IHt.
      - apply IHk; [done|lia|done]. }
    exists (S n), c', (new1 ++ new). cbn [seq map]. rewrite <- seq_shift, map_map. cbn [play].
    rewrite Et, H1. cbn [mbind outcome_bind]. split; [done|].
    split; [by rewrite G2, H2, (assoc_L (++))|]. split; [by apply Forall_app|].
    by rewrite sent_app, (assoc_L (++)).
Qed.
End run.

(** ** Properties *)

(** A client between two requests: new, or kept alive with nothing pending. *)
Record idle (c : Client) : Prop := {
  idle_mode : cl_mode c = CLIENT_MODE_READ;
  idle_header : cl_headerStatus c = HEADER_STATUS_ONGOING;
  idle_body : cl_bodyStatus c = BODY_STATUS_NONE;
  idle_request : the_request c = Request_init;
  idle_response : cl_response c = None;
  idle_buffers : cl_buffer c = [] /\ cl_outBuffers c = [];
  idle_cgi : cl_cgiProcess c = None;
  idle_stream : cl_bodyStream c = None;
  idle_live : cl_terminated c = false;
}.

Lemma Client_init_idle now hm : idle (Client_init now hm).
Proof. by split. Qed.

Lemma idle_reading c : idle c -> reading [] c.
Proof.
  intros [H1 H2 H3 H4 H5 [H6 H7] H8 H9 H10]. split; try done; [by rewrite H4|].
  intros b. by rewrite H4, H6.
Qed.

Lemma waiting_nil es : waiting [] es.
Proof. destruct es as [|e es]; [done|]. exists (ex_bytes e). split; [|done]. unfold ex_bytes, render_request. intros H.
  apply app_eq_nil in H as [H _]. apply app_eq_nil in H as [_ H]. done. Qed.

Lemma idle_progress es A c :
  idle c -> seated A c es -> progress es A [] [] c (length es).
Proof.
  intros Hc Hs. eapply (at_reading _ _ _ _ _ [] es [] []); try done; [by apply idle_reading|apply waiting_nil].
Qed.

(** The answers of the system in a run. *)
Definition os_of (ws : list wakeup) (os : os_answers) : Prop := exists w, w ∈ ws /\ os = w_os w.

(** The surroundings of a run: the peer stays, and the files are there. *)
Definition surroundings (c : Client) (es : list exchange) (w : wakeup) : Prop :=
  wakeup_ok w /\ all_served (os_fs (w_os w)) (cl_hostMap c) (cl_host c) es.

(** A session whose connection is open. *)
Lemma progress_open es A recv out c t : progress es A recv out c t -> cl_terminated c = false ->
  exists past todo resps p, es = past ++ todo /\ recv = requests past ++ p /\ Forall2 (answers A) past resps /\
    out ++ concat (cl_outBuffers c) = concat resps /\ Forall (fun e => closes e = false) (removelast past) /\
    (cl_outBuffers c = [] -> waiting p todo).
Proof.
  intros [past todo resps p E Er Ha Ho Hk Hrd _ Hw
    |past e todo resps p E Er Ha Ho Hk Hsd _ Hne|past e todo resps E Ha Ho Hk He Hq Ht] Hl; [| |congruence].
  - exists past, todo, resps, p. rewrite (rd_queue _ _ Hrd), app_nil_r. split_and!; try done.
    apply Forall_forall. intros e He. rewrite Forall_forall in Hk. apply Hk.
    destruct (decide (past = [])) as [->|Hp]; [done|]. rewrite (app_removelast_last e Hp).
    apply elem_of_app. by left.
  - exists (past ++ [e]), todo, resps, p. rewrite removelast_last.
    split_and!; try done. by rewrite E, <- (assoc_L (++)).
Qed.

Lemma progress_closed es A recv out c t : progress es A recv out c t -> cl_terminated c = true ->
  exists past e todo resps, es = past ++ e :: todo /\ Forall2 (answers A) (past ++ [e]) resps /\
    out = concat resps /\ Forall (fun e => closes e = false) past /\ closes e = true /\ cl_outBuffers c = [] /\
    t = 0%nat.
Proof.
  intros [? ? ? ? ? ? ? ? ? Hrd|? ? ? ? ? ? ? ? ? ? Hsd|past e todo resps] Ht.
  - pose proof (rd_live _ _ Hrd). congruence.
  - pose proof (sd_live _ _ _ Hsd). congruence.
  - by exists past, e, todo, resps.
Qed.

(** C3: A connection from end to end. Whatever way the bytes of well-formed GET
    and HEAD requests (a head within one buffer, a plain path and query, no Expect
    header, no feature the server lacks), for files the host serves, are cut into
    reads, and however reads and writes alternate, an idle client never fails
    (while the peer stays connected and the socket takes what one write offers);
    it has sent, or has queued, exactly the responses to the first of these
    requests, in their order and with the bytes of [ok_response]; all but the last
    of these keep the connection; it touched nothing but its connection. If the
    connection was closed, the last answered request asked for it and its response
    was sent to the end; else, once the queue is empty, what arrived is the
    answered requests and an incomplete one. *)
Theorem session_correct dep es ws c :
  idle c -> Forall exchange_ok es -> Forall (surroundings c es) ws ->
  arrived ws `prefix_of` requests es ->
  exists c' new past todo resps,
    play dep ws c = Ret c' /\ cl_log c' = cl_log c ++ new /\ Forall harmless new /\
    es = past ++ todo /\ Forall2 (answers (os_of ws)) past resps /\
    sent new ++ concat (cl_outBuffers c') = concat resps /\
    Forall (fun e => closes e = false) (removelast past) /\
    if cl_terminated c' then cl_outBuffers c' = [] /\ exists d e, past = d ++ [e] /\ closes e = true
    else exists p, arrived ws = requests past ++ p /\ (cl_outBuffers c' = [] -> waiting p todo).
Proof.
  intros Hc Hes Hws Hr. rewrite Forall_forall in Hws.
  destruct (play_progress dep es (os_of ws) Hes ws [] [] c (length es))
    as (c' & new & recv & t & H1 & H2 & H3 & H4 & H5); [|apply Forall_forall|done|].
  { apply idle_progress; [done|]. intros os (w & Hw & ->). by apply Hws. }
  { intros w Hw. split; [by apply Hws|by exists w]. }
  exists c', new. rewrite app_nil_l in H4. change ([] ++ arrived ws) with (arrived ws) in H5.
  destruct (cl_terminated c') eqn:Et.
  - destruct (progress_closed _ _ _ _ _ _ H4 Et) as (past & e & todo & resps & E & Ha & Ho & Hk & He & Hq & _).
    exists (past ++ [e]), todo, resps. rewrite Hq, removelast_last, app_nil_r.
    split_and!; try done; [by rewrite E, <- (assoc_L (++))|by exists past, e].
  - destruct (progress_open _ _ _ _ _ _ H4 Et) as (past & todo & resps & p & E & Er & Ha & Ho & Hk & Hw).
    exists past, todo, resps. rewrite (H5 eq_refl) in Er. split_and!; try done. by exists p.
Qed.


Definition demo_get : exchange :=
  mkExchange (`s"GET") [`s"a.txt"] None [(`s"Host", `s"demo")] (`s"hello").
Definition demo_head_close : exchange :=
  mkExchange (`s"HEAD") [`s"a.txt"] (Some (`s"x=1")) [(`s"host", `s"other"); (`s"Connection", `s"close")] (`s"hello").
Definition demo_exchanges : list exchange := [demo_get; demo_head_close].
Definition demo_writable : wakeup := mkWakeup false true (demo_os []).

(** The two requests in three reads, the first response in between. *)
Definition demo_wakeups : list wakeup :=
  let s := requests demo_exchanges in
  [mkWakeup true true (demo_os (take 10 s)); demo_writable;
   mkWakeup true false (demo_os (take 40 (drop 10 s))); demo_writable;
   mkWakeup true true (demo_os (drop 50 s))].

Example session_ex2 : run_or [] (c ← play [] (demo_wakeups ++ [demo_writable; demo_writable]) demo_client; Ret (cl_log c)) =
  [EvBind (`s"demo"); EvWrite (take 147 (ok_response (`s"now") demo_get)); EvWrite (`s"hello");
   EvUnbind; EvBind (`s"other"); EvWrite (ok_response (`s"now") demo_head_close); EvUnbind; EvClose].
Proof. vm_compute. reflexivity. Qed.

(** The conditions on a concrete head. *)
Ltac check_head :=
  first [vm_compute; reflexivity
    | vm_compute; discriminate
    | apply (bool_decide_unpack _); vm_compute; exact I
    | split; [discriminate|repeat constructor]
    | split_and!; first [vm_compute; reflexivity | vm_compute; discriminate]].

Lemma demo_exchanges_ok : Forall exchange_ok demo_exchanges.
Proof.
  repeat apply Forall_cons_2; [| |apply Forall_nil_2]; (split; [split; [split|..]|]);
    check_head.
Qed.

Lemma demo_surroundings i s :
  match s with [] => i = false | _ => i = true end ->
  surroundings demo_client demo_exchanges (mkWakeup i true (demo_os s)).
Proof.
  intros Hs. split.
  - destruct s as [|c s]; subst i; [vm_compute; discriminate|]. by exists (c :: s).
  - exists demo_server. split; [vm_compute; reflexivity|].
    assert (forall e, ex_path e = `s"a.txt" -> ex_content e = `s"hello" -> ex_code e = GET \/ ex_code e = HEAD ->
      serves (os_fs (demo_os s)) demo_server e) as H.
    { intros e Hp Hc Hm. unfold serves. rewrite Hp, Hc. split; [vm_compute; reflexivity|].
      exists demo_location. split; [vm_compute; reflexivity|]. split; [reflexivity|].
      split; [by destruct Hm as [-> | ->]|].
      split; [split; vm_compute; reflexivity|]. repeat split; vm_compute; reflexivity. }
    split; [apply H; [reflexivity|reflexivity|by left]|]. exists demo_server.
    split; [vm_compute; reflexivity|]. split; [apply H; [reflexivity|reflexivity|by right]|exact I].
Qed.

Lemma demo_wakeups_surroundings : Forall (surroundings demo_client demo_exchanges) demo_wakeups.
Proof.
  unfold demo_wakeups. cbv zeta. repeat apply Forall_cons_2; [..|apply Forall_nil_2];
    apply demo_surroundings; vm_compute; reflexivity.
Qed.

Lemma session_correct_witness :
  let es := demo_exchanges in let ws := demo_wakeups in let c := demo_client in
  exists c' new past todo resps,
    play [] ws c = Ret c' /\ cl_log c' = cl_log c ++ new /\ Forall harmless new /\
    es = past ++ todo /\ Forall2 (answers (os_of ws)) past resps /\
    sent new ++ concat (cl_outBuffers c') = concat resps /\
    Forall (fun e => closes e = false) (removelast past) /\
    if cl_terminated c' then cl_outBuffers c' = [] /\ exists d e, past = d ++ [e] /\ closes e = true
    else exists p, arrived ws = requests past ++ p /\ (cl_outBuffers c' = [] -> waiting p todo).
Proof.
  apply (session_correct [] demo_exchanges demo_wakeups demo_client).
  - apply Client_init_idle.
  - apply demo_exchanges_ok.
  - apply demo_wakeups_surroundings.
  - exists []. vm_compute. reflexivity.
Defined.

