(* ===== verification/Upload.v ===== *)
(** * Upload: a file sent to the server

    The parts of the server composed on one client, as in [Session], for the
    requests that store a file: POST and PUT to a location that allows uploads,
    with a Content-Length or in chunks; the proofs use the interface [Transfer]
    and not the coding.  Whatever way head and body are cut into reads, the
    stream of the target file receives the body, no more and no less, and the
    answer tells whether the file was created or replaced. *)

From S2P Require Import Prelude CxxString OrdMap Format Http RequestHeaders RequestBody Transfer RequestUri Host Response Cgi Client Control ControlFacts Session.
#[local] Open Scope Z_scope.

(** ** The request and its target *)

(** The content of the exchange is the body of the request, in the coding [k]. *)
Record upload_ok (k : coding) (e : exchange) : Prop := {
  up_head :> head_ok e;
  up_method : ex_method e ∈ [`s"POST"; `s"PUT"];
  up_coding : match k with
              | Sized => checkHeader (`s"transfer-encoding") (ex_head e) = false /\
                         getHeader (`s"content-length") (ex_head e) = itostr (zlen (ex_content e))
              | Chunked _ => checkHeader (`s"content-length") (ex_head e) = false /\
                             getHeader (`s"transfer-encoding") (ex_head e) = `s"chunked"
              end;
  up_carries : carries k (ex_content e);
  up_body : 0 < zlen (ex_content e);
  up_size : zlen (coded k (ex_content e)) <= INT32_MAX;
}.

(** The bytes of the body. *)
Definition up_coded (k : coding) (e : exchange) : str := coded k (ex_content e).

Definition target (l : Location) (e : exchange) : str :=
  (if negb (str_eqb (loc_upload_root l) []) then loc_upload_root l else loc_root l) ++ ex_path e.

(** The host takes the upload, at that location. *)
Definition takes (k : coding) (h : Host) (l : Location) (e : exchange) : Prop :=
  matchCGIConfig (ex_path e) h = None /\ matchLocation (ex_path e) h = Some l /\ loc_redir l = 0 /\
  method_allowed (loc_methods l) (ex_code e) = true /\ loc_upload l = true /\
  zlen (up_coded k e) <= h_body_max_size h.

(** The directory of the target is there, and the file may be written; [there]
    says whether it already exists. *)
Definition room (there : bool) (l : Location) (e : exchange) (os : os_answers) : Prop :=
  let dir := (if negb (str_eqb (loc_upload_root l) []) then loc_upload_root l else loc_root l)
             ++ uri_root (ex_parsed e) in
  fs_stat (os_fs os) (c_str dir) = Some Directory /\ os_can_create os (c_str (target l e)) = true /\
  if there then fs_stat (os_fs os) (c_str (target l e)) = Some RegularFile /\
                fs_access (os_fs os) (c_str (target l e)) W_OK = true
  else fs_stat (os_fs os) (c_str (target l e)) = None.

Definition up_status (there : bool) : Z := if there then RES_OK else RES_CREATED.

Lemma up_code_cases k e : upload_ok k e -> ex_code e = POST \/ ex_code e = PUT.
Proof.
  intros He. pose proof (up_method k e He) as H. unfold ex_code.
  rewrite !elem_of_cons, elem_of_nil in H. destruct H as [->|[->|[]]]; [by left|by right].
Qed.

Lemma up_code k e : upload_ok k e -> 0 <= ex_code e /\ ((ex_code e =? POST) || (ex_code e =? PUT)) = true.
Proof. intros He. by destruct (up_code_cases k e He) as [-> | ->]. Qed.

(** ** The head *)

(** The request [checkRequest] leaves. *)
Definition upload_request (l : Location) (r : Request) : Request := set_rstatus 0 (static_request l r).

Lemma checkRequest_upload os h l k there e r :
  upload_ok k e -> takes k h l e -> room there l e os ->
  rh_parsedUri (resHints r) = ex_parsed e -> req_method r = ex_code e ->
  checkRequest (os_fs os) h r = Ret (0, upload_request l r).
Proof.
  intros He (Hc & Hl & Hr & Ha & Hup & _) (Hd & _) Hu Hm. destruct (up_code k e He) as [H0 Hpp].
  rewrite (checkRequest_static (os_fs os) h e l r)
    by first [done|apply (up_head k e He)|by rewrite Hup, andb_false_r].
  set (r1 := static_request l r). assert (rh_locationRules (resHints r1) = Some l) as Hl1 by done.
  assert (req_method r1 = ex_code e) as Hm1 by exact Hm.
  unfold checkRessourceExistence. change (req_type r1 =? REQ_TYPE_CGI) with false. cbv iota.
  rewrite Hl1. cbn [deref mbind outcome_bind]. rewrite Hm1, Hpp. cbv iota.
  change (rh_parsedUri (resHints r1)) with (rh_parsedUri (resHints r)). rewrite Hu.
  unfold checkRessourcePath. cbv zeta in Hd. rewrite Hd. reflexivity.
Qed.

(** The length the header gives. *)
Lemma length_given e n : getHeader (`s"content-length") (ex_head e) = itostr n -> 0 <= n <= INT32_MAX ->
  checkHeader (`s"content-length") (ex_head e) = true /\
  (getInt (getHeader (`s"content-length") (ex_head e)) 10 (-1)).2 = n.
Proof.
  intros E Hb. rewrite E. unfold itostr in *.
  destruct (IntToString_spec 10 n) as (Hne & _); [by left|lia|].
  rewrite getInt_print by (by left || lia). split; [|done].
  destruct (checkHeader (`s"content-length") (ex_head e)) eqn:Ec; [done|].
  apply missing_is_empty in Ec. rewrite E in Ec. by rewrite Ec in Hne.
Qed.

(** What [checkBodyLength] makes of the request. *)
Definition accepted_body (k : coding) (h : Host) (e : exchange) : Request -> Request :=
  begun k (zlen (ex_content e)) (h_body_max_size h).

Lemma accepted_body_head k h e r :
  resHints (accepted_body k h e r) = resHints r /\ (read_as e r -> read_as e (accepted_body k h e r)).
Proof. by destruct k. Qed.

Lemma checkBodyLength_upload c h k e :
  upload_ok k e -> read_as e (the_request c) -> cl_host c = Some h -> zlen (up_coded k e) <= h_body_max_size h ->
  checkBodyLength c =
    Ret (0, set_request (accepted_body k h e (the_request c)) (c <| cl_bodyStatus := BODY_STATUS_ONGOING |>)).
Proof.
  intros He Hr Hh Hm. pose proof (up_body k e He) as Hb. pose proof (up_size k e He) as Hs.
  pose proof (up_coding k e He) as Hk. unfold checkBodyLength, start_body, is_chunked.
  destruct (read_as_header e _ (`s"content-length") Hr) as [-> ->].
  destruct k as [|ch]; destruct Hk as [H1 H2].
  - unfold up_coded in Hm. cbn [coded] in Hm, Hs.
    destruct (length_given e (zlen (ex_content e)) H2) as [-> ->]; [lia|].
    rewrite Hh. cbn [deref mbind outcome_bind]. rewrite (proj2 (Z.ltb_ge _ _)) by done.
    rewrite (proj2 (Z.ltb_lt _ _)) by lia.
    change (the_request (set_request ?r c)) with r. set (r1 := setContentLength _ _).
    assert (read_as e r1) as Hr1 by exact Hr.
    destruct (read_as_header e r1 (`s"transfer-encoding") Hr1) as [-> _].
    rewrite (missing_is_empty _ _ H1). reflexivity.
  - rewrite H1. destruct (read_as_header e _ (`s"transfer-encoding") Hr) as [-> _]. rewrite H2, Hh. reflexivity.
Qed.

(** The request when its body begins. *)
Record storing (there : bool) (l : Location) (e : exchange) (r : Request) : Prop := {
  st_ready : ready (target l e) e r;
  st_status : rh_status (resHints r) = up_status there;
  st_unlink : rh_unlink (resHints r) = false;
}.

(** The hints after [upload_file] and [copy_content_type]. *)
Lemma upload_file_storing os there l e r c :
  ready [] e (r <| resHints ; rh_path := [] |> <| resHints ; rh_headers := given_type e |>) ->
  rh_headers (resHints r) = [] -> is_empty (target l e) = false ->
  os_can_create os (c_str (target l e)) = true -> cl_request c = Some r ->
  exists r', copy_content_type (upload_file os (target l e) there (up_status there) c) =
      log (EvTruncate (c_str (target l e)))
        (c <| cl_request := Some r' |> <| cl_bodyStream := Some (mkOfstream [] true) |>
           <| cl_bodyFileName := target l e |>) /\
    storing there l e r' /\ parser_view r' = parser_view r.
Proof.
  intros [H1 H2 H3 _ H5 H6 _] Hh Hne Hcan Hc.
  assert (the_request c = r) as Hr by (unfold the_request; by rewrite Hc).
  unfold upload_file, setBodyFile. rewrite Hr.
  assert (str_eqb (target l e) [] = false) as -> by (by destruct (target l e)). cbn [negb]. rewrite Hcan.
  set (r3 := on_hints _ r). set (c3 := set_request _ _).
  set (r4 := r3 <| resHints ; rh_bodyFileName := target l e |>).
  set (r5 := on_hints (fun h => h <| rh_unlink := false |>) r4).
  assert (the_request c3 = r5) as Hr3 by done.
  unfold copy_content_type. rewrite Hr3. assert (read_as e r5) as Hr5 by exact H1.
  destruct (read_as_header e r5 (`s"content-type") Hr5) as [-> ->].
  destruct (checkHeader (`s"content-type") (ex_head e)) eqn:Ect.
  - eexists. split; [reflexivity|]. split; [|done]. split; [|done|done].
    split; [exact H1|exact H2|exact H3| |exact H5|exact H6|done].
    unfold given_type. rewrite Ect. unfold on_hints. cbn [resHints upd]. unfold set_header. cbn [rh_headers upd].
    change (rh_headers (resHints r5)) with (rh_headers (resHints r)). by rewrite Hh.
  - exists r5. split; [reflexivity|]. split; [|done]. split; [|done|done].
    split; [exact H1|exact H2|exact H3| |exact H5|exact H6|done]. unfold given_type. by rewrite Ect.
Qed.

Lemma accept_upload os there h l k e r c :
  upload_ok k e -> takes k h l e -> room there l e os ->
  read_as e r -> resHints r = ResHints_init <| rh_parsedUri := ex_parsed e |> ->
  cl_request c = Some (upload_request l r) ->
  exists r', accept_request os 0 c =
      Ret (0, (log (EvTruncate (c_str (target l e)))
        (c <| cl_request := Some r' |> <| cl_bodyStream := Some (mkOfstream [] true) |>
           <| cl_bodyFileName := target l e |>)) <| cl_headerStatus := HEADER_STATUS_DONE |>) /\
    storing there l e r' /\ parser_view r' = parser_view r.
Proof.
  intros He Ht Hroom Hr Hi Hc. set (r2 := upload_request l r) in Hc.
  assert (the_request c = r2) as Hc' by (unfold the_request; by rewrite Hc).
  unfold accept_request, no_cgi_redir. rewrite Hc'.
  change (rh_cgiRedir (resHints r2)) with (rh_cgiRedir (resHints r)). rewrite Hi.
  change (_ =? CGI_RES_NONE) with true. cbv iota.
  unfold defineBodyParsing. rewrite Hc'. change (req_type r2) with REQ_TYPE_STATIC.
  change (req_method r2) with (req_method r). rewrite (proj2 Hr), (proj2 (up_code k e He)).
  change (REQ_TYPE_STATIC =? REQ_TYPE_CGI) with false. cbn [Z.eqb REQ_TYPE_STATIC Pos.eqb andb]. cbv iota.
  change (rh_locationRules (resHints r2)) with (Some l). cbn [deref mbind outcome_bind].
  change (rh_parsedUri (resHints r2)) with (rh_parsedUri (resHints r)).
  assert (uri_path (rh_parsedUri (resHints r)) = ex_path e) as -> by (by rewrite Hi).
  fold (target l e). destruct Hroom as (_ & Hcan & Hroom).
  destruct (upload_file_storing os there l e r2 c) as (r' & E & H1 & H2).
  { split; [exact Hr|done| |done| | |done];
      change (rh_parsedUri (resHints r) = ex_parsed e) || change (rh_cookies (resHints r) = [])
      || change (rh_index (resHints r) = 0); by rewrite Hi. }
  { change (rh_headers (resHints r) = []). by rewrite Hi. }
  { apply path_nonempty, (up_head k e He). }
  { exact Hcan. }
  { exact Hc. }
  exists r'. split; [|by split]. unfold checkFileExist.
  destruct there.
  - destruct Hroom as [-> ->]. cbn [negb mbind outcome_bind]. change RES_OK with (up_status true). rewrite E.
    reflexivity.
  - rewrite Hroom. cbn [mbind outcome_bind]. change RES_CREATED with (up_status false). rewrite E. reflexivity.
Qed.

(** The client [handleRequestHeaders] leaves. *)
Record taken (h : Host) (l : Location) (e : exchange) (binds : list event) (c c' : Client) : Prop := {
  tk_map : cl_hostMap c' = cl_hostMap c;
  tk_response : cl_response c' = cl_response c;
  tk_mode : cl_mode c' = cl_mode c;
  tk_header : cl_headerStatus c' = HEADER_STATUS_DONE;
  tk_body : cl_bodyStatus c' = BODY_STATUS_ONGOING;
  tk_buffer : cl_buffer c' = cl_buffer c;
  tk_queue : cl_outBuffers c' = cl_outBuffers c;
  tk_cgi : cl_cgiProcess c' = cl_cgiProcess c;
  tk_stream : cl_bodyStream c' = Some (mkOfstream [] true);
  tk_name : cl_bodyFileName c' = target l e;
  tk_live : cl_terminated c' = cl_terminated c;
  tk_log : cl_log c' = cl_log c ++ binds ++ [EvTruncate (c_str (target l e))];
}.

Lemma taken_update h l e binds c r1 r2 :
  taken h l e binds c
    ((log (EvTruncate (c_str (target l e)))
      ((set_request r1 ((c <| cl_host := Some h |> <| cl_log := cl_log c ++ binds |>)
          <| cl_bodyStatus := BODY_STATUS_ONGOING |>))
        <| cl_request := Some r2 |> <| cl_bodyStream := Some (mkOfstream [] true) |>
        <| cl_bodyFileName := target l e |>)) <| cl_headerStatus := HEADER_STATUS_DONE |>).
Proof. split; try done. cbn. by rewrite <- (assoc_L (++)). Qed.

Lemma handleRequestHeaders_upload os there h l k e r c :
  upload_ok k e -> takes k h l e -> room there l e os ->
  read_as e r -> _uri r = ex_uri e -> resHints r = ResHints_init -> unread r ->
  cl_request c = Some r -> host_for (ex_name e) (cl_hostMap c) (cl_host c) = Some h ->
  exists r' binds c', handleRequestHeaders os c = Ret (0, c') /\ taken h l e binds c c' /\
    cl_request c' = Some r' /\ storing there l e r' /\ pending k (ex_content e) [] (up_coded k e) r' /\
    Forall harmless binds /\ sent binds = [].
Proof.
  intros He Ht Hroom Hr Hu Hi Hun Hc Hh. set (r1 := set_parsedUri (ex_parsed e) r).
  destruct (headers_front os c e r h (up_head k e He) Hr Hu Hi Hc Hh) as (binds & Hb1 & Hb2 & ->). fold r1.
  erewrite andthen_pass; last first.
  { apply (checkBodyLength_upload _ h k e); [done|exact Hr|done|apply Ht]. }
  change (the_request (set_request r1 _)) with r1. set (r2 := accepted_body k h e r1).
  destruct (accepted_body_head k h e r1) as [Hh2 Hr2]. fold r2 in Hh2, Hr2. specialize (Hr2 Hr).
  set (c1 := set_request r2 _).
  assert (resHints r2 = ResHints_init <| rh_parsedUri := ex_parsed e |>) as Hi2.
  { rewrite Hh2. change (resHints r1) with ((resHints r) <| rh_parsedUri := ex_parsed e |>). by rewrite Hi. }
  rewrite (host_allows os c1 e h (upload_request l r2) (up_head k e He)); [|done| |exact Hr2].
  2: { change (the_request c1) with r2. apply (checkRequest_upload os h l k there e); try done; [by rewrite Hi2|apply Hr2]. }
  set (c2 := set_request (upload_request l r2) c1).
  destruct (accept_upload os there h l k e r2 c2) as (r' & -> & H1 & H2); [done..|].
  exists r', binds. eexists. split; [reflexivity|]. split; [exact (taken_update h l e binds c r2 r')|].
  split; [done|]. split; [done|]. split; [|done].
  apply (pending_start k _ (h_body_max_size h) r' r1); [apply He|apply He| |exact Hun|exact H2].
  pose proof (up_size k e He) as Hs. destruct Ht as (_ & _ & _ & _ & _ & Hm). unfold up_coded in Hm. lia.
Qed.

(** ** The body *)

Lemma storing_view there l e r r' : rules_view r' = rules_view r -> storing there l e r -> storing there l e r'.
Proof.
  unfold rules_view. intros [= E1 E2 E3 E4 _ _] [[[H1 H2] H3 H4 H5 H6 H7 H8] H9 H10].
  repeat (split; try congruence).
Qed.

Section body.
Context (there : bool) (l : Location) (k : coding) (e : exchange).

(** The interface of the coding, once for all proofs. *)
Lemma body_transfer : upload_ok k e -> Transfer (ex_content e) (up_coded k e) (pending k (ex_content e)).
Proof. intros He. apply pending_transfer; apply He. Qed.

(** [d] is in the file, [buf] in the buffer, and [q] is still to be stored. *)
Record receiving (d q buf : str) (c : Client) : Prop := {
  rv_mode : cl_mode c = CLIENT_MODE_READ;
  rv_header : cl_headerStatus c = HEADER_STATUS_DONE;
  rv_body : cl_bodyStatus c = BODY_STATUS_ONGOING;
  rv_response : cl_response c = None;
  rv_queue : cl_outBuffers c = [];
  rv_cgi : cl_cgiProcess c = None;
  rv_live : cl_terminated c = false;
  rv_buffer : cl_buffer c = buf;
  rv_stream : cl_bodyStream c = Some (mkOfstream d true);
  rv_name : cl_bodyFileName c = target l e;
  rv_request : exists r, cl_request c = Some r /\ storing there l e r /\ pending k (ex_content e) d q r;
}.

(** The whole body is in the file, which is closed; [rest] came after it. *)
Record received (rest : str) (c : Client) : Prop := {
  rd'_mode : cl_mode c = CLIENT_MODE_READ;
  rd'_header : cl_headerStatus c = HEADER_STATUS_DONE;
  rd'_body : cl_bodyStatus c = BODY_STATUS_DONE;
  rd'_response : cl_response c = None;
  rd'_queue : cl_outBuffers c = [];
  rd'_cgi : cl_cgiProcess c = None;
  rd'_live : cl_terminated c = false;
  rd'_buffer : cl_buffer c = rest;
  rd'_stream : cl_bodyStream c = Some (mkOfstream (ex_content e) false);
  rd'_name : cl_bodyFileName c = target l e;
  rd'_request : exists r, cl_request c = Some r /\ storing there l e r /\ 0 < getBodySize r;
}.

(** What a read brings of what is still [todo]: a part, [q] missing; or all of
    it, and then [rest]. *)
Inductive ending := More (q : str) | Last (rest : str).
Definition brings (f : ending) (s todo : str) : Prop :=
  match f with
  | More q => todo = s ++ q /\ q <> []
  | Last rest => s = todo ++ rest /\ zlen (up_coded k e) + zlen rest <= INT32_MAX
  end.
Definition code_of (f : ending) : Z := match f with More _ => 0 | Last _ => up_status there end.

Lemma parse_body f now d todo buf s c :
  upload_ok k e -> receiving d todo buf c -> todo <> [] -> brings f (buf ++ s) todo ->
  exists c', parseRequest now s c = Ret (match f with More _ => 0 | Last _ => -1 end, c') /\ cl_log c' = cl_log c /\
    match f with More q => exists d', receiving d' q [] c' | Last rest => received rest c' end.
Proof.
  intros He [H1 H2 H3 H4 H5 H6 H7 H8 H9 H10 (r & Hr & Hst & Hp)] Hne Hf. pose proof (body_transfer He) as HT.
  unfold parseRequest. rewrite (getRequest_some _ _ _ Hr). cbv zeta. set (c1 := c <| cl_buffer := _ |>).
  change (cl_headerStatus c1) with (cl_headerStatus c). rewrite H2.
  change (HEADER_STATUS_DONE <? HEADER_STATUS_READY) with false. cbv iota.
  change (cl_bodyStatus c1) with (cl_bodyStatus c). rewrite H3.
  change ((HEADER_STATUS_DONE =? HEADER_STATUS_DONE) && (BODY_STATUS_ONGOING =? ONGOING)) with true. cbv iota.
  assert (the_request c1 = r) as -> by (unfold the_request; change (cl_request c1) with (cl_request c); by rewrite Hr).
  change (cl_bodyStream c1) with (cl_bodyStream c). rewrite H9.
  change (cl_buffer c1) with (cl_buffer c ++ s). rewrite H8. clear H8.
  destruct f as [q|rest]; destruct Hf as [E Hq].
  - assert (exists r' d', parseInput r (buf ++ s) (Some (mkOfstream d true)) = Some (0, r', [], Some (mkOfstream d' true)) /\
      pending k (ex_content e) d' q r' /\ rules_view r' = rules_view r) as (r' & d' & -> & Hp' & Hv).
    { rewrite E in Hp. destruct (decide (buf ++ s = [])) as [E0|Hb].
      - rewrite E0 in *. exists r, d. by rewrite parseInput_nil.
      - by apply tr_step. }
    cbn [fueled mbind outcome_bind]. change (0 <? 0) with false. cbv iota.
    eexists. split; [reflexivity|]. split; [done|]. exists d'. split; try done. exists r'.
    split; [done|]. split; [by eapply storing_view|done].
  - destruct (tr_end d todo rest r Hp Hne Hq) as (r' & Hpi & Hv & Hpos). rewrite E, Hpi.
    cbn [fueled mbind outcome_bind]. change (-1 <? 0) with true. cbv iota.
    eexists. split; [reflexivity|]. split; [done|]. split; try done. exists r'.
    split; [done|]. split; [by eapply storing_view|done].
Qed.

(** What [handleClientIn] makes of the end of the body. *)
Lemma body_done rest c :
  upload_ok k e -> received rest c -> handleRequestBodyDone c = (up_status there, c).
Proof.
  intros He [_ _ _ _ _ _ _ _ _ _ (r & Hr & [[Hra Ht _ _ _ _ _] Hs _] & Hpos)].
  unfold handleRequestBodyDone, the_request. rewrite Hr. cbn [from_option id].
  rewrite Ht, (proj2 Hra), (proj2 (up_code k e He)).
  change (REQ_TYPE_STATIC =? REQ_TYPE_STATIC) with true. cbv iota. by rewrite (proj2 (Z.ltb_lt _ _)), Hs by lia.
Qed.

(** The file is stored and the answer queued. *)
Record answered (date rest : str) (c : Client) : Prop := {
  an_sending : sending e rest c;
  an_response : cl_response c = Some (FileResponse (up_status there) (ex_content e));
  an_queue : concat (cl_outBuffers c) = file_response (up_status there) date e;
  an_stream : cl_bodyStream c = Some (mkOfstream (ex_content e) false);
  an_name : cl_bodyFileName c = target l e;
}.

Lemma received_answered os dep rest c :
  upload_ok k e -> received rest c -> holds (os_fs os) (target l e) e ->
  exists c', handleClientResponse os dep c (up_status there) = Ret (0, c') /\
    answered (os_date os) rest c' /\ cl_log c' = cl_log c.
Proof.
  intros He [H1 H2 H3 H4 H5 H6 H7 H8 H9 H10 (r & Hr & [Hrd _ Hun] & _)] Hh.
  destruct (respond_file os dep c _ (up_status there) e r Hrd) as (r' & bs & G & G1 & G2 & G3 & G4 & G5 & G6);
    [by destruct there|apply path_nonempty, (up_head k e He)|done..|].
  eexists. split; [exact G|]. split; [|done]. split; try done.
  split; [split; try done; [eexists; split; [reflexivity|by destruct there]| |by exists r', (ex_connection e)]|done|cbn; by rewrite H3].
  right. exists r'. split; [done|]. split; [congruence|]. rewrite G6. by destruct there.
Qed.

(** ** The turns *)
Context (h : Host) (log0 : list event).

(** The log once the file was opened. *)
Definition opened (c : Client) : Prop :=
  exists binds, cl_log c = log0 ++ binds ++ [EvTruncate (c_str (target l e))] /\
    Forall harmless binds /\ sent binds = [].

Lemma opened_same c c' : cl_log c' = cl_log c -> opened c -> opened c'.
Proof. unfold opened. by intros ->. Qed.

(** [todo] is still to arrive. *)
Inductive upto (todo : str) (c : Client) : Prop :=
  | at_head s q :
      ex_bytes e = s ++ q -> q <> [] -> todo = q ++ up_coded k e -> reading s c -> cl_log c = log0 ->
      host_for (ex_name e) (cl_hostMap c) (cl_host c) = Some h -> upto todo c
  | at_body d :
      todo <> [] -> (length todo <= length (up_coded k e))%nat -> receiving d todo [] c -> opened c -> upto todo c.

Definition reached (f : ending) (c : Client) : Prop :=
  match f with More q => upto q c | Last rest => received rest c /\ opened c end.

(** The head is complete: the file is opened and the body begins. *)
Lemma head_complete f os s s1 x c :
  upload_ok k e -> takes k h l e -> room there l e os ->
  reading s c -> cl_log c = log0 -> host_for (ex_name e) (cl_hostMap c) (cl_host c) = Some h ->
  os_read os = Some s1 -> s1 <> [] -> s ++ s1 = ex_bytes e ++ x -> brings f x (up_coded k e) ->
  exists c', handleClientIn os c true = Ret (code_of f, c') /\ reached f c'.
Proof.
  intros He Ht Hroom Hrd Hlog Hh Hi Hne E Hf.
  destruct (read_to_headers os s s1 c true e x Hrd Hi (fun _ => Hne) (up_head k e He) E)
    as (r & c1 & [Q1 Hr1 Q2 Q3 Hun [Q4 Q5] (Q6 & Q7 & Q8 & Q9 & Q10 & Q11) Q12 Q13 Q14] & ->).
  rewrite <- Q4, <- Q5 in Hh.
  destruct (handleRequestHeaders_upload os there h l k e r c1 He Ht Hroom Hr1 Q2 Q3 Hun Q1 Hh)
    as (r' & binds & c2 & -> & Hd & D1 & D2 & D3 & D4 & D5).
  destruct Hd as [F1 F2 F3 F4 F5 F6 F7 F8 F9 F10 F11 F12].
  cbv zeta. cbn [mbind outcome_bind]. change (negb (0 =? 0)) with false. cbv iota. rewrite F5.
  change (negb (BODY_STATUS_ONGOING =? BODY_STATUS_NONE)) with true. cbv iota.
  assert (receiving [] (up_coded k e) x c2) as Hrv by (split; try congruence; by exists r').
  destruct (parse_body f (os_now os) [] (up_coded k e) x [] c2 He Hrv) as (c3 & -> & Hl3 & Hc3).
  { apply coded_nonempty, He. }
  { by rewrite app_nil_r. }
  cbn [mbind outcome_bind]. assert (opened c3) as Ho by (exists binds; split_and!; [congruence|done..]).
  exists c3. destruct f as [q|rest].
  - destruct Hc3 as [d' Hc3]. destruct Hf as [Ex Hq]. rewrite (rv_body _ _ _ _ Hc3). split; [done|].
    apply (at_body _ _ d'); try done. rewrite Ex, length_app. lia.
  - rewrite (rd'_body _ _ Hc3), (body_done rest c3 He Hc3). done.
Qed.

Lemma upload_read f os s1 todo c :
  upload_ok k e -> takes k h l e -> upto todo c -> os_read os = Some s1 -> s1 <> [] ->
  brings f s1 todo -> ((length todo <= length (up_coded k e))%nat \/ room there l e os) ->
  exists c', handleClientIn os c true = Ret (code_of f, c') /\ reached f c'.
Proof.
  intros He Ht Hc Hi Hne Hf Hroom.
  destruct Hc as [s q Ex Hq -> Hrd Hlog Hh|d Htd Hlen Hrv Ho].
  - assert (room there l e os) as Hr.
    { destruct Hroom as [H|]; [|done]. rewrite length_app in H. destruct q; [done|]. cbn in H. lia. }
    destruct f as [q2|rest]; destruct Hf as [E Hf].
    + apply app_eq_inv in E as [(y & -> & E)|(x & -> & E)].
      * destruct (decide (y = [])) as [->|Hy].
        { rewrite app_nil_r in Ex. apply (head_complete (More q2) os s s1 [] c); try done; by rewrite ?app_nil_r. }
        rewrite (assoc_L (++)) in Ex.
        destruct (parse_partial e (s ++ s1) y (up_head k e He) Ex Hy) as [r Hp].
        destruct (read_partial os s s1 c true r Hrd Hi (fun _ => Hne) Hp) as (c' & G1 & G2 & G3 & G4).
        exists c'. split; [done|]. injection G4 as G4 G5.
        apply (at_head _ _ (s ++ s1) y); try done; congruence.
      * apply (head_complete (More q2) os s (q ++ x) x c); try done. by rewrite Ex, (assoc_L (++)).
    + apply (head_complete (Last rest) os s s1 (up_coded k e ++ rest) c); try done.
      by rewrite E, Ex, <- !(assoc_L (++)).
  - rewrite (handleClientIn_input os c true s1 Hi (fun _ => Hne)).
    destruct (parse_body f (os_now os) d todo [] s1 c He Hrv Htd Hf) as (c' & -> & G1 & G2).
    cbn [mbind outcome_bind]. exists c'. pose proof (opened_same _ _ G1 Ho) as Ho'.
    destruct f as [q|rest].
    + change (0 <? 0) with false. cbv iota. split; [done|]. destruct G2 as [d' G2]. destruct Hf as [-> Hq].
      rewrite length_app in Hlen. apply (at_body _ _ d'); try done. lia.
    + change (-1 <? 0) with true. cbv iota zeta. rewrite (rd'_header _ _ G2).
      change (HEADER_STATUS_DONE =? HEADER_STATUS_READY) with false. cbv iota.
      by rewrite (rd'_body _ _ G2), (body_done rest c' He G2).
Qed.

Lemma upto_reading todo c : upto todo c -> cl_mode c = CLIENT_MODE_READ /\ cl_terminated c = false.
Proof. by destruct 1 as [? ? ? ? ? [] ? ?|? ? ? [] ?]. Qed.

(** A turn in which not everything arrives. *)
Lemma upload_turn dep w q todo c :
  upload_ok k e -> takes k h l e -> upto todo c -> wakeup_ok w -> brings (More q) (arrives w) todo ->
  (w_in w = true -> (length todo <= length (up_coded k e))%nat \/ room there l e (w_os w)) ->
  exists c', client_event (w_os w) dep false (w_in w) (w_out w) c = Ret c' /\ upto q c'.
Proof.
  intros He Ht Hc Hw Hf Hroom. destruct (upto_reading _ _ Hc) as [Hm _].
  unfold client_event, handleClientEvent. rewrite Hm. destruct (w_in w) eqn:Ein.
  - destruct (wakeup_input w Hw Ein) as [Hi Hne].
    destruct (upload_read (More q) (w_os w) (arrives w) todo c He Ht Hc Hi Hne Hf (Hroom eq_refl)) as (c' & -> & H).
    by exists c'.
  - assert (arrives w = []) as E by (unfold arrives; by rewrite Ein). destruct Hf as [Hf _]. rewrite E in Hf.
    cbn [app] in Hf. subst q. exists c. split; [|done]. by destruct (w_out w).
Qed.

(** The turn with the last byte. *)
Lemma upload_last dep w rest todo c :
  upload_ok k e -> takes k h l e -> upto todo c -> wakeup_ok w -> w_in w = true ->
  brings (Last rest) (arrives w) todo ->
  ((length todo <= length (up_coded k e))%nat \/ room there l e (w_os w)) -> holds (os_fs (w_os w)) (target l e) e ->
  exists c', client_event (w_os w) dep false (w_in w) (w_out w) c = Ret c' /\
    answered (os_date (w_os w)) rest c' /\ opened c'.
Proof.
  intros He Ht Hc Hw Ein Hf Hroom Hh. destruct (upto_reading _ _ Hc) as [Hm _].
  destruct (wakeup_input w Hw Ein) as [Hi Hne].
  destruct (upload_read (Last rest) (w_os w) (arrives w) todo c He Ht Hc Hi Hne Hf Hroom) as (c1 & H1 & Hr & Hs).
  destruct (received_answered (w_os w) dep rest c1 He Hr Hh) as (c2 & H2 & Ha & Hl).
  exists c2. unfold client_event, handleClientEvent. rewrite Hm, Ein.
  change (false || (CLIENT_MODE_READ =? CLIENT_MODE_ERROR)) with false.
  change (CLIENT_MODE_READ =? CLIENT_MODE_READ) with true. cbn [orb andb]. rewrite H1. cbn [mbind outcome_bind code_of].
  assert ((0 <? up_status there) = true) as -> by (by destruct there). rewrite H2. cbn [mbind outcome_bind].
  split; [done|]. split; [done|]. by eapply opened_same.
Qed.

(** While the head is incomplete -- more than the body is [todo] --, the
    directory and the file are as [room] says. *)
Fixpoint room_until (todo : str) (ws : list wakeup) : Prop :=
  match ws with
  | [] => True
  | w :: ws =>
      (w_in w = true -> (length todo <= length (up_coded k e))%nat \/ room there l e (w_os w)) /\
      room_until (drop (length (arrives w)) todo) ws
  end.

Lemma upload_play dep ws w q rest : forall todo c,
  upload_ok k e -> takes k h l e -> upto todo c -> Forall wakeup_ok (ws ++ [w]) -> w_in w = true ->
  todo = arrived ws ++ q -> q <> [] -> brings (Last rest) (arrives w) q ->
  room_until todo (ws ++ [w]) -> holds (os_fs (w_os w)) (target l e) e ->
  exists c', play dep (ws ++ [w]) c = Ret c' /\ answered (os_date (w_os w)) rest c' /\ opened c'.
Proof.
  induction ws as [|w1 ws IH]; intros todo c He Ht Hc Hw Ein E Hq Hf Hroom Hh;
    destruct (upto_reading _ _ Hc) as [_ Hlive];
    cbn [app play]; rewrite Hlive; apply Forall_cons in Hw as [Hw1 Hw]; destruct Hroom as [Hr1 Hroom].
  - cbn in E. subst q.
    destruct (upload_last dep w rest todo c He Ht Hc Hw1 Ein Hf (Hr1 Ein) Hh) as (c' & -> & Ha & Hs).
    by exists c'.
  - change (arrived (w1 :: ws)) with (arrives w1 ++ arrived ws) in E. rewrite <- (assoc_L (++)) in E.
    assert (brings (More (arrived ws ++ q)) (arrives w1) todo) as Hb by (split; [done|by intros [_ ?]%app_eq_nil]).
    destruct (upload_turn dep w1 _ todo c He Ht Hc Hw1 Hb Hr1) as (c1 & -> & Hc1). cbn [mbind outcome_bind].
    rewrite E, drop_app_length in Hroom. by apply (IH (arrived ws ++ q)).
Qed.

End body.

(** ** Theorems *)

(** C4: An upload from end to end. An idle client sends a well-formed POST or PUT
    request without Expect header, with a body that is not empty, cut into reads
    in any way: in one piece with its Content-Length, or in chunks without CRLF in
    them (one with it is refused, [chunked_crlf_rejected]). The host takes it: a
    location without script and redirection allows method and upload, the coded
    body is within its limit and, with what follows it, below 2^31 bytes, the
    directory is there, the file can be written. Then, with the last byte, the
    stream of the target file holds exactly the content and is closed, nothing
    else outside the connection was done; the answer, 201 or 200 as the file was
    created or replaced, is queued, with the file as its content. Once the socket
    has taken it, the file is still there, and the connection is closed if the
    request asked for that, else free for the next request, to which what came
    after the body belongs (unless it completes or spoils a head by itself). *)
Theorem upload_correct dep there l k h e ws w q rest c :
  idle c -> upload_ok k e -> host_for (ex_name e) (cl_hostMap c) (cl_host c) = Some h -> takes k h l e ->
  Forall wakeup_ok (ws ++ [w]) -> w_in w = true ->
  ex_bytes e ++ up_coded k e = arrived ws ++ q -> q <> [] -> arrives w = q ++ rest ->
  zlen (up_coded k e) + zlen rest <= INT32_MAX -> closes e = true \/ undecided rest ->
  room_until there l k e (ex_bytes e ++ up_coded k e) (ws ++ [w]) -> holds (os_fs (w_os w)) (target l e) e ->
  exists c1 binds,
    play dep (ws ++ [w]) c = Ret c1 /\
    cl_log c1 = cl_log c ++ binds ++ [EvTruncate (c_str (target l e))] /\ Forall harmless binds /\ sent binds = [] /\
    cl_bodyFileName c1 = target l e /\ cl_bodyStream c1 = Some (mkOfstream (ex_content e) false) /\
    concat (cl_outBuffers c1) = file_response (up_status there) (os_date (w_os w)) e /\
    forall f, (forall i : nat, w_in (f i) = false /\ w_out (f i) = true /\ wakeup_ok (f i)) ->
      exists n c2 new, play dep (map f (seq 0 n)) c1 = Ret c2 /\ cl_log c2 = cl_log c1 ++ new /\
        Forall harmless new /\ sent new = file_response (up_status there) (os_date (w_os w)) e /\
        if closes e then cl_terminated c2 = true else reading rest c2.
Proof.
  intros Hc He Hh Ht Hw Ein E Hq Hx Hlen Hrest Hroom Hs.
  assert (upto there l k e h (cl_log c) (ex_bytes e ++ up_coded k e) c) as Hu.
  { apply (at_head _ _ _ _ _ _ _ _ [] (ex_bytes e)); try done; [|by apply idle_reading].
    by unfold ex_bytes, render_request; destruct (ex_method e). }
  destruct (upload_play there l k e h (cl_log c) dep ws w q rest _ c He Ht Hu Hw Ein E Hq (conj Hx Hlen) Hroom Hs)
    as (c1 & H1 & [Ha Hr Hqu Hst Hn] & binds & H2 & H3 & H4).
  exists c1, binds. split_and!; try done. intros f Hf.
  destruct (response_drain _ rest dep (cl_outBuffers c1) f c1 Hrest Ha eq_refl) as (c2 & new & G1 & G2 & G3 & G4 & G5); [|done|].
  { intros E0. rewrite E0 in Hqu. by destruct there. }
  exists (length (cl_outBuffers c1)), c2, new. rewrite <- Hqu. by split_and!.
Qed.

Definition demo_upload : exchange :=
  mkExchange (`s"POST") [`s"a.txt"] None [(`s"Host", `s"demo"); (`s"Content-Length", `s"5")] (`s"hello").
Definition demo_chunks : list str := [`s"he"; `s"llo"].
Definition demo_chunked : exchange :=
  mkExchange (`s"POST") [`s"a.txt"] None [(`s"Host", `s"demo"); (`s"Transfer-Encoding", `s"chunked")] (`s"hello").
Definition demo_up_location : Location :=
  Location_init <| loc_root := `s"/www/" |> <| loc_methods := Z.shiftl 1 POST |>
    <| loc_upload := true |> <| loc_upload_root := `s"/up/" |>.
Definition demo_up_server : Host :=
  demo_server <| h_locationMap := [(STAR, demo_up_location)] |> <| h_body_max_size := 100 |>.
Definition demo_up_client : Client := Client_init 0 [(`s"demo", demo_up_server)].

(** The file system before and after the upload. *)
Definition demo_up_os (after : bool) (input : str) : os_answers :=
  mkOs (Some input) 1000000 Running 7 0 (`s"now") (fun _ => `s"./tmp/_1")
    (mkFilesystem (fun p => if str_eqb p (`s"/up//") then Some Directory
                            else if after && str_eqb p (`s"/up/a.txt") then Some RegularFile else None)
       (fun _ _ => true) (fun _ => 5) (fun p => if after then Some (`s"hello") else None) (fun _ => None))
    (fun _ => true).

(** The head in two reads, with the begin of the body in the second one, and the
    rest with [after] behind it. *)
Definition demo_up_wakeups (k : coding) (e : exchange) : list wakeup :=
  let s := ex_bytes e in
  [mkWakeup true true (demo_up_os false (take 10 s));
   mkWakeup true false (demo_up_os false (drop 10 s ++ take 2 (up_coded k e)))].
Definition demo_up_last (k : coding) (e : exchange) (after : str) : wakeup :=
  mkWakeup true true (demo_up_os true (drop 2 (up_coded k e) ++ after)).

Example upload_ex (k := Sized) (e := demo_upload) :
  run_or [] (c ← play [] (demo_up_wakeups k e ++ [demo_up_last k e []]) demo_up_client; Ret (cl_log c)) =
  [EvBind (`s"demo"); EvTruncate (`s"/up/a.txt")].
Proof. vm_compute. reflexivity. Qed.

(** The empty line that ends a chunked body is left to the next request. *)
Example upload_chunked_ex (k := Chunked demo_chunks) (e := demo_chunked) :
  run_or ([], []) (c ← play [] (demo_up_wakeups k e ++ [demo_up_last k e CRLF]) demo_up_client; Ret (cl_log c, cl_buffer c)) =
  ([EvBind (`s"demo"); EvTruncate (`s"/up/a.txt")], CRLF).
Proof. vm_compute. reflexivity. Qed.

Lemma demo_upload_ok : upload_ok Sized demo_upload.
Proof. split; [split|..]; check_head. Qed.

Lemma demo_chunked_ok : upload_ok (Chunked demo_chunks) demo_chunked.
Proof. split; [split|..]; check_head. Qed.

Lemma undecided_crlf : undecided CRLF.
Proof.
  intros x y E. destruct x as [|a [|b x]]; [by exists Request_init| |].
  - injection E as <- _. by eexists.
  - injection E as <- <- E. symmetry in E. apply app_eq_nil in E as [-> _]. by eexists.
Qed.

Lemma upload_correct_witness :
  let k := Chunked demo_chunks in let e := demo_chunked in let w := demo_up_last k e CRLF in
  exists c1 binds,
    play [] (demo_up_wakeups k e ++ [w]) demo_up_client = Ret c1 /\
    cl_log c1 = cl_log demo_up_client ++ binds ++ [EvTruncate (c_str (target demo_up_location e))] /\
    Forall harmless binds /\ sent binds = [] /\
    cl_bodyFileName c1 = target demo_up_location e /\
    cl_bodyStream c1 = Some (mkOfstream (ex_content e) false) /\
    concat (cl_outBuffers c1) = file_response (up_status false) (os_date (w_os w)) e /\
    forall f, (forall i : nat, w_in (f i) = false /\ w_out (f i) = true /\ wakeup_ok (f i)) ->
      exists n c2 new, play [] (map f (seq 0 n)) c1 = Ret c2 /\ cl_log c2 = cl_log c1 ++ new /\
        Forall harmless new /\ sent new = file_response (up_status false) (os_date (w_os w)) e /\
        if closes e then cl_terminated c2 = true else reading CRLF c2.
Proof.
  apply (upload_correct [] false demo_up_location (Chunked demo_chunks) demo_up_server demo_chunked
    (demo_up_wakeups (Chunked demo_chunks) demo_chunked) (demo_up_last (Chunked demo_chunks) demo_chunked CRLF)
    (drop 2 (up_coded (Chunked demo_chunks) demo_chunked)) CRLF demo_up_client).
  - apply Client_init_idle.
  - exact demo_chunked_ok.
  - vm_compute. reflexivity.
  - split_and!; first [vm_compute; reflexivity | vm_compute; discriminate].
  - repeat apply Forall_cons_2; [..|apply Forall_nil_2]; eexists; (split; [reflexivity|discriminate]).
  - reflexivity.
  - vm_compute. reflexivity.
  - vm_compute. discriminate.
  - reflexivity.
  - vm_compute. discriminate.
  - right. exact undecided_crlf.
  - split; [intros _; right; split_and!; vm_compute; reflexivity|].
    split; [intros _; right; split_and!; vm_compute; reflexivity|].
    split; [|exact I]. intros _. left. apply Nat.leb_le. vm_compute. reflexivity.
  - split_and!; vm_compute; reflexivity.
Defined.
