(* ===== verification/Script.v ===== *)
(** * Script: a request for a script

    The parts of the server composed on one client, as in [Session], for the
    requests a script answers: the head is read, the script is started, nothing
    is sent while it runs, and when it has ended its document is the answer,
    under the headers the server makes of the script's own. *)

From S2P Require Import Prelude CxxString OrdMap Format Http RequestHeaders RequestBody RequestUri Host Response Cgi Client Control ControlFacts Session.
#[local] Open Scope Z_scope.

(** ** The uri of a script *)

(** Cut after the extension, at position [k]. *)
Definition split_uri (ext : str) (k : nat) (u : URI) : URI :=
  let cut := (k + length ext)%nat in
  let path := take cut (uri_path u) in
  let u := u <| uri_pathInfo := drop cut (uri_path u) |> <| uri_path := path |> in
  let u := match rfind SLASH path with
           | None => u <| uri_filename := path |> <| uri_root := SLASH |>
           | Some idx => u <| uri_root := take (idx + 1) path |> <| uri_filename := drop (idx + 1) path |>
           end in
  u <| uri_extension := ext |>.

Lemma split_uri_fields ext k u :
  let cut := (k + length ext)%nat in
  uri_path (split_uri ext k u) = take cut (uri_path u) /\
  uri_pathInfo (split_uri ext k u) = drop cut (uri_path u) /\ uri_extension (split_uri ext k u) = ext.
Proof. unfold split_uri. cbv zeta. by destruct (rfind SLASH _). Qed.

Lemma extractPathInfo_found ext r k :
  let path := uri_path (rh_parsedUri (resHints r)) in
  rfind ext path = Some k -> zlen path < npos ->
  extractPathInfo ext r = Ret (set_parsedUri (split_uri ext k (rh_parsedUri (resHints r))) r).
Proof.
  intros path Hk Hn. unfold extractPathInfo. fold path. rewrite Hk.
  apply rfind_Some, occurs_bound in Hk. cbn [pos_z]. unfold u64.
  rewrite Z.mod_small by (unfold npos, zlen in *; lia).
  rewrite (proj2 (Z.ltb_ge _ _)) by (unfold zlen; lia).
  replace (Z.to_nat (Z.of_nat k + zlen ext)) with (k + length ext)%nat by (unfold zlen; lia).
  unfold split_uri. fold path. by destruct (rfind SLASH _).
Qed.

(** A turn that queues an answer and begins to send it, and the writable turns
    that send the rest. *)
Lemma queued_turns dep close x f c c1 :
  client_event (w_os x) dep false false true c = client_event (w_os x) dep false false true c1 ->
  cl_terminated c = false -> draining close [] c1 -> concat (cl_outBuffers c1) <> [] ->
  w_in x = false -> w_out x = true -> wakeup_ok x ->
  (forall i : nat, w_in (f i) = false /\ w_out (f i) = true /\ wakeup_ok (f i)) ->
  exists n c' new, play dep (x :: map f (seq 0 n)) c = Ret c' /\ cl_log c' = cl_log c1 ++ new /\
    Forall harmless new /\ sent new = concat (cl_outBuffers c1) /\ over close [] c'.
Proof.
  intros H1 Hlive Hd Hresp Hin Hout Hok Hfi. set (f' i := match i with O => x | S i => f i end).
  assert (cl_outBuffers c1 <> []) as Hq by (intros E; by rewrite E in Hresp).
  destruct (response_drain close [] dep (cl_outBuffers c1) f' c1 (or_intror undecided_nil) Hd eq_refl Hq)
    as (c2 & new & G1 & G2 & G3 & G4 & G5).
  { intros [|i]; [by split_and!|apply Hfi]. }
  destruct (length (cl_outBuffers c1)) as [|n] eqn:En; [by destruct (cl_outBuffers c1)|].
  exists n, c2, new. cbn [seq map play] in G1. rewrite <- seq_shift, map_map in G1.
  change (map (fun i => f' (S i)) (seq 0 n)) with (map f (seq 0 n)) in G1. change (f' 0%nat) with x in G1.
  cbn [play]. rewrite Hlive. rewrite (sd_live _ _ _ Hd) in G1. rewrite Hin, Hout in *. rewrite H1.
  by split_and!.
Qed.

(** ** The head *)
Section script.
Context (h : Host) (g : CGIConfig) (k : nat) (e : exchange).

Definition sc_uri : URI := split_uri (cgi_extension g) k (ex_parsed e).

(** The location whose rules apply too: that of the script when there is a
    path info. *)
Definition sc_location : option Location :=
  match find SLASH (uri_pathInfo sc_uri) with
  | Some _ => matchLocation (uri_path sc_uri) h
  | None => matchLocation (ex_path e) h
  end.

(** The path selects a script, and its location lets the request through. *)
Record selects : Prop := {
  sl_match : matchCGIConfig (ex_path e) h = Some g;
  sl_found : rfind (cgi_extension g) (ex_path e) = Some k;
  sl_location : match sc_location with
                | Some l => loc_redir l = 0 /\ method_allowed (loc_methods l) (ex_code e) = true
                | None => True
                end;
}.

Definition sc_path : str := cgi_root g ++ uri_path sc_uri.

(** The host runs a script for that path. *)
Record runs (fs : filesystem) : Prop := {
  rn_selects : selects;
  rn_methods : method_allowed (cgi_methods g) (ex_code e) = true;
  rn_script : readable fs sc_path RegularFile;
}.

(** The request of a script whose output is at that path. *)
Record scripting (out : str) (r : Request) : Prop := {
  sg_read : read_as e r;
  sg_type : req_type r = REQ_TYPE_CGI;
  sg_uri : rh_parsedUri (resHints r) = sc_uri;
  sg_headers : rh_headers (resHints r) = given_type e;
  sg_cookies : rh_cookies (resHints r) = [];
  sg_index : rh_index (resHints r) = 0;
  sg_redir : rh_cgiRedir (resHints r) = CGI_RES_NONE;
  sg_path : rh_path (resHints r) = out;
}.

(** What [matchRequest] makes of it. *)
Definition script_request (r : Request) : Request :=
  let r := (r <| resHints ; rh_locationRules := matchLocation (ex_path e) h |> <| resHints ; rh_cgiRules := Some g |>)
             <| req_type := REQ_TYPE_CGI |> in
  set_parsedUri sc_uri r <| resHints ; rh_locationRules := sc_location |>.

Lemma matchRequest_script r :
  selects -> zlen (ex_path e) < npos -> rh_parsedUri (resHints r) = ex_parsed e ->
  matchRequest h r = Ret (0, script_request r).
Proof.
  intros [Hm Hf _] Hn Hu. assert (uri_path (rh_parsedUri (resHints r)) = ex_path e) as Hp by (by rewrite Hu).
  unfold matchRequest. rewrite Hp, Hm. cbv zeta.
  set (r0 := (r <| resHints ; rh_locationRules := _ |>) <| resHints ; rh_cgiRules := Some g |>).
  change (rh_cgiRules (resHints r0)) with (Some g). cbv iota.
  set (r1 := r0 <| req_type := REQ_TYPE_CGI |>).
  rewrite (extractPathInfo_found (cgi_extension g) r1 k);
    change (rh_parsedUri (resHints r1)) with (rh_parsedUri (resHints r)); rewrite ?Hu; [|done..].
  fold sc_uri. cbn [mbind outcome_bind]. set (r2 := set_parsedUri sc_uri r1).
  change (rh_parsedUri (resHints r2)) with sc_uri. unfold script_request, sc_location.
  destruct (find SLASH (uri_pathInfo sc_uri)); [reflexivity|].
  unfold r2, r1, r0. reflexivity.
Qed.

(** The rules of the location passed, those of the script come next. *)
Lemma checkRequest_selected fs r :
  head_ok e -> selects -> rh_parsedUri (resHints r) = ex_parsed e -> req_method r = ex_code e -> 0 <= ex_code e ->
  checkRequest fs h r = check_if true checkCGIRules (script_request r) (checkRessourceExistence fs).
Proof.
  intros He Hsel Hu Hm H0.
  assert (zlen (ex_path e) < npos) as Hn.
  { pose proof (ok_size e He) as Hs. unfold ex_bytes, render_request, ex_uri in Hs.
    rewrite !zlen_app in Hs. unfold npos, BUFFER_SIZE, zlen in *. lia. }
  set (r1 := script_request r). assert (rh_locationRules (resHints r1) = sc_location) as Hl1 by done.
  assert (req_method r1 = ex_code e) as Hm1 by exact Hm.
  assert (req_type r1 = REQ_TYPE_CGI) as Ht1 by done.
  unfold checkRequest, check_if at 1. rewrite (matchRequest_script r Hsel Hn Hu). fold r1.
  cbn [mbind outcome_bind negb Z.eqb]. clearbody r1.
  unfold has_location. rewrite Hl1. pose proof (sl_location Hsel) as Hloc. destruct sc_location as [l|].
  - destruct Hloc as [Hr Ha]. unfold check_if at 1, checkRedirection. rewrite Hl1.
    cbn [deref mbind outcome_bind]. rewrite Hr. cbn [Z.eqb mbind outcome_bind negb].
    unfold check_if at 1. rewrite Ht1. change (REQ_TYPE_CGI =? REQ_TYPE_DIR) with false. cbv iota.
    rewrite ?Hl1. unfold check_if at 1, checkLocationRules, check_method. rewrite Hl1.
    cbn [deref mbind outcome_bind]. rewrite Hm1, (proj2 (Z.ltb_ge _ _)) by done.
    cbn [mbind outcome_bind]. rewrite Ha. cbn [negb]. cbv iota. rewrite Ht1.
    change (REQ_TYPE_CGI =? REQ_TYPE_STATIC) with false. rewrite andb_false_r. cbn [andb mbind outcome_bind Z.eqb negb]. by rewrite Ht1.
  - unfold check_if at 1 2 3. rewrite Hl1, Ht1. done.
Qed.

(** What the rules and the file system make of it. *)
Definition script_status (fs : filesystem) : Z :=
  if method_allowed (cgi_methods g) (ex_code e) then checkRessourcePath fs sc_path REQ_TYPE_CGI R_OK
  else RES_METHOD_NOT_ALLOWED.

(** The request [checkRequest] leaves. *)
Definition judged_script (s : Z) (r : Request) : Request :=
  set_rstatus s ((script_request r) <| resHints ; rh_scriptPath := sc_path |>).
Definition checked_script : Request -> Request := judged_script 0.

Lemma checkRequest_judged fs r :
  head_ok e -> selects -> rh_parsedUri (resHints r) = ex_parsed e -> req_method r = ex_code e -> 0 <= ex_code e ->
  checkRequest fs h r = Ret (script_status fs,
    if method_allowed (cgi_methods g) (ex_code e) then judged_script (script_status fs) r
    else set_rstatus RES_METHOD_NOT_ALLOWED (script_request r)).
Proof.
  intros He Hsel Hu Hm H0. rewrite (checkRequest_selected fs r He Hsel Hu Hm H0). unfold script_status, judged_script.
  set (r1 := script_request r). assert (req_method r1 = ex_code e) as Hm1 by exact Hm.
  assert (rh_cgiRules (resHints r1) = Some g /\ req_type r1 = REQ_TYPE_CGI /\ rh_parsedUri (resHints r1) = sc_uri)
    as (Hg1 & Ht1 & Hu1) by done. clearbody r1.
  unfold check_if, checkCGIRules, check_method. rewrite Hg1, Hm1. cbn [deref mbind outcome_bind].
  rewrite (proj2 (Z.ltb_ge _ _)) by done. cbn [mbind outcome_bind].
  destruct (method_allowed _ _); cbn [negb]; cbv iota; cbn [mbind outcome_bind];
    [change (negb (0 =? 0)) with false|reflexivity]. cbv iota.
  unfold checkRessourceExistence. rewrite Ht1, Hg1, Hu1. change (REQ_TYPE_CGI =? REQ_TYPE_CGI) with true. cbv iota.
  cbn [deref mbind outcome_bind]. reflexivity.
Qed.

Lemma checkRequest_script fs r :
  exchange_ok e -> runs fs -> rh_parsedUri (resHints r) = ex_parsed e -> req_method r = ex_code e ->
  checkRequest fs h r = Ret (0, checked_script r).
Proof.
  intros He [Hsel Hmeth [Hst Hacc]] Hu Hm.
  rewrite (checkRequest_judged fs r (ok_head e He) Hsel Hu Hm) by (by destruct (ex_code_cases e He) as [-> | ->]).
  assert (script_status fs = 0) as ->; [|rewrite Hmeth; reflexivity].
  unfold script_status, checkRessourcePath. by rewrite Hmeth, Hst, Hacc.
Qed.

Lemma checked_scripting r :
  read_as e r -> resHints r = ResHints_init ->
  let r2 := checked_script (set_parsedUri (ex_parsed e) r) in
  (read_as e r2 /\ req_type r2 = REQ_TYPE_CGI /\ rh_parsedUri (resHints r2) = sc_uri) /\
  (rh_headers (resHints r2) = [] /\ rh_cookies (resHints r2) = [] /\ rh_index (resHints r2) = 0) /\
  rh_cgiRedir (resHints r2) = CGI_RES_NONE /\ rh_path (resHints r2) = [].
Proof.
  intros Hr Hi r2. split; [by split_and!|].
  assert (forall A (f : ResHints -> A), f (resHints r) = f ResHints_init) as Hf by (intros A f; by rewrite Hi).
  split; [split_and!; [exact (Hf _ rh_headers)|exact (Hf _ rh_cookies)|exact (Hf _ rh_index)]|].
  split; [exact (Hf _ rh_cgiRedir)|exact (Hf _ rh_path)].
Qed.

Lemma copy_content_type_scripting r c :
  read_as e r -> req_type r = REQ_TYPE_CGI -> rh_parsedUri (resHints r) = sc_uri ->
  rh_headers (resHints r) = [] -> rh_cookies (resHints r) = [] -> rh_index (resHints r) = 0 ->
  rh_cgiRedir (resHints r) = CGI_RES_NONE -> rh_path (resHints r) = [] -> cl_request c = Some r ->
  exists r', copy_content_type c = c <| cl_request := Some r' |> /\ scripting [] r'.
Proof.
  intros Hr Ht Hu Hh Hck Hi Hre Hp Hc. assert (the_request c = r) as Hc' by (unfold the_request; by rewrite Hc).
  unfold copy_content_type. rewrite Hc'. destruct (read_as_header e r (`s"content-type") Hr) as [-> ->].
  destruct (checkHeader (`s"content-type") (ex_head e)) eqn:Ect.
  - eexists. split; [reflexivity|]. split; try done. unfold given_type. rewrite Ect.
    unfold on_hints. cbn [resHints upd]. unfold set_header. cbn [rh_headers upd]. by rewrite Hh.
  - exists r. split; [destruct c; cbn in Hc; by subst|]. split; try done. unfold given_type. by rewrite Ect.
Qed.

(** The end of [handleRequestHeaders]. *)
Lemma accept_script os r c :
  read_as e r -> req_type r = REQ_TYPE_CGI -> rh_parsedUri (resHints r) = sc_uri ->
  rh_headers (resHints r) = [] -> rh_cookies (resHints r) = [] -> rh_index (resHints r) = 0 ->
  rh_cgiRedir (resHints r) = CGI_RES_NONE -> rh_path (resHints r) = [] ->
  cl_bodyStatus c = BODY_STATUS_NONE -> cl_request c = Some r ->
  exists r', accept_request os 0 c =
      Ret (0, c <| cl_request := Some r' |> <| cl_bodyStream := None |> <| cl_bodyFileName := [] |>
                <| cl_headerStatus := HEADER_STATUS_DONE |>) /\ scripting [] r'.
Proof.
  intros Hr Ht Hu Hh Hck Hi Hre Hp Hb Hc.
  assert (the_request c = r) as Hc' by (unfold the_request; by rewrite Hc).
  unfold accept_request, no_cgi_redir. rewrite Hc', Hre. change (CGI_RES_NONE =? CGI_RES_NONE) with true. cbv iota.
  unfold defineBodyParsing. rewrite Hc', Hb, Ht.
  change (REQ_TYPE_CGI =? REQ_TYPE_CGI) with true. change (negb (BODY_STATUS_NONE =? BODY_STATUS_NONE)) with false.
  cbv iota. cbn [mbind outcome_bind]. unfold setBodyFile. change (negb (str_eqb [] [])) with false. cbv iota.
  rewrite Hc'. set (r3 := r <| resHints ; rh_bodyFileName := [] |>).
  set (c3 := (set_request r3 c) <| cl_bodyStream := None |> <| cl_bodyFileName := [] |>).
  change (the_request c3) with r3. set (r4 := on_hints (fun h => h <| rh_unlink := true |>) r3).
  destruct (copy_content_type_scripting r4 (set_request r4 c3)) as (r' & -> & Hs); try done.
  exists r'. split; [reflexivity|exact Hs].
Qed.

Lemma handleRequestHeaders_script os r c :
  exchange_ok e -> runs (os_fs os) -> read_as e r -> _uri r = ex_uri e -> resHints r = ResHints_init ->
  cl_request c = Some r -> cl_bodyStatus c = BODY_STATUS_NONE ->
  host_for (ex_name e) (cl_hostMap c) (cl_host c) = Some h ->
  exists r' binds c', handleRequestHeaders os c = Ret (0, c') /\ headed c c' h r' binds /\ scripting [] r' /\
    Forall harmless binds /\ sent binds = [].
Proof.
  intros He Hrun Hr Hu Hi Hc Hb Hh. set (r1 := set_parsedUri (ex_parsed e) r).
  assert (checkRequest (os_fs os) h r1 = Ret (0, checked_script r1)) as Hcheck
    by (apply (checkRequest_script (os_fs os) r1 He Hrun); [done|apply (proj2 Hr)]).
  destruct (headers_accepted os c e r (checked_script r1) h (ok_bodiless e He) Hr Hu Hi Hc Hh Hcheck Hr) as (binds & Hb1 & Hb2 & ->).
  destruct (checked_scripting r Hr Hi) as ((K1 & K2 & K3) & (K4 & K5 & K6) & K7 & K8).
  destruct (accept_script os _ (set_request (checked_script r1) (bound h binds c)) K1 K2 K3 K4 K5 K6 K7 K8 Hb eq_refl)
    as (r' & -> & Hs).
  exists r', binds. eexists. split; [reflexivity|]. split; [exact (headed_update c h r' binds)|]. by split_and!.
Qed.

(** ** The script runs *)

Record running (out : str) (pid start : Z) (c : Client) : Prop := {
  ru_mode : cl_mode c = CLIENT_MODE_WRITE;
  ru_header : cl_headerStatus c = HEADER_STATUS_DONE;
  ru_body : cl_bodyStatus c = BODY_STATUS_NONE;
  ru_response : cl_response c = None;
  ru_queue : cl_outBuffers c = [];
  ru_stream : cl_bodyStream c = None;
  ru_live : cl_terminated c = false;
  ru_buffer : cl_buffer c = [];
  ru_request : exists r, cl_request c = Some r /\ scripting out r;
  ru_cgi : exists p, cl_cgiProcess c = Some p /\ (cgi_pid p = pid /\ 0 < pid) /\ cgi_fork_time p = start /\
    cgi_headers p = [] /\ cgi_index p = 0;
}.

Lemma start_script os dep r c :
  cl_request c = Some r -> scripting [] r -> 0 < os_fork os ->
  exists r' p, handleClientResponse os dep c RES_OK =
      Ret (0, (log (EvFork (os_fork os)) (c <| cl_request := Some r' |> <| cl_cgiProcess := Some p |>))
                <| cl_mode := CLIENT_MODE_WRITE |>) /\
    scripting (os_name os None) r' /\ (cgi_pid p = os_fork os /\ 0 < os_fork os) /\ cgi_fork_time p = os_now os /\
    cgi_headers p = [] /\ cgi_index p = 0.
Proof.
  intros Hc [H1 H2 H3 H4 H5 H6 H7 H8] Hpid.
  assert (the_request c = r) as Hc' by (unfold the_request; by rewrite Hc).
  unfold handleClientResponse. rewrite (getRequest_some _ _ _ Hc), Hc', H2.
  change (negb (REQ_TYPE_CGI =? REQ_TYPE_CGI) || negb (RES_OK =? RES_OK)) with false. cbv iota.
  unfold generateCGIProcess, execCGI. rewrite Hc'. cbv zeta. rewrite (proj2 (Z.ltb_lt _ _)) by done.
  change (negb (0 =? 0)) with false. cbv iota. eexists _, _. split; [reflexivity|]. by split_and!.
Qed.

(** The head is complete: the script is started. *)
Lemma read_script os dep s s1 c :
  exchange_ok e -> runs (os_fs os) -> reading s c -> os_read os = Some s1 -> s1 <> [] -> s ++ s1 = ex_bytes e ->
  host_for (ex_name e) (cl_hostMap c) (cl_host c) = Some h -> 0 < os_fork os ->
  exists c1 c2 binds, handleClientIn os c true = Ret (RES_OK, c1) /\
    handleClientResponse os dep c1 RES_OK = Ret (0, c2) /\ running (os_name os None) (os_fork os) (os_now os) c2 /\
    cl_log c2 = cl_log c ++ binds ++ [EvFork (os_fork os)] /\ Forall harmless binds /\ sent binds = [].
Proof.
  intros He Hrun Hc Hi Hne E Hh Hpid. rewrite <- (app_nil_r (ex_bytes e)) in E.
  destruct (read_to_headers os s s1 c true e [] Hc Hi (fun _ => Hne) (ok_head e He) E)
    as (r & c1 & [Q1 Hr1 Q2 Q3 _ [Q4 Q5] (Q6 & Q7 & Q8 & Q9 & Q10 & Q11) Q12 Q13 Q14] & ->).
  rewrite <- Q4, <- Q5 in Hh.
  destruct (handleRequestHeaders_script os r c1 He Hrun Hr1 Q2 Q3 Q1 Q7 Hh) as (r2 & binds & c2 & -> & Hd & Hs & Hb1 & Hb2).
  destruct Hd as (D1 & D2 & D3 & D4 & D5 & D6 & D7 & D8 & D9 & D10 & D11 & D12 & D13).
  cbv zeta. cbn [mbind outcome_bind]. change (negb (0 =? 0)) with false. cbv iota. rewrite D7, Q7.
  change (negb (BODY_STATUS_NONE =? BODY_STATUS_NONE)) with false.
  change ((0 <=? 0) && negb (BODY_STATUS_NONE =? BODY_STATUS_ONGOING)) with true. cbv iota.
  assert (handleRequestBodyDone c2 = (RES_OK, c2)) as ->.
  { unfold handleRequestBodyDone, the_request. rewrite D3. cbn [from_option id]. by rewrite (sg_type _ _ Hs). }
  destruct (start_script os dep r2 c2 D3 Hs Hpid) as (r' & p & G & G1 & G2 & G3 & G4 & G5).
  exists c2. eexists. exists binds. split; [reflexivity|]. split; [exact G|].
  split; [|split; [cbn; by rewrite D13, Q14, <- (assoc_L (++))|done]].
  split; try (cbn; congruence); [by exists r'|by exists p].
Qed.

(** A turn while it runs: nothing is sent. *)
Lemma wait_script dep w out pid start c :
  running out pid start c -> w_in w = false -> os_wait (w_os w) = Running -> os_now (w_os w) - start <= CGI_TIME_OUT ->
  exists c', client_event (w_os w) dep false (w_in w) (w_out w) c = Ret c' /\ running out pid start c' /\ cl_log c' = cl_log c.
Proof.
  intros Hc Hin Hwait Hnow. pose proof Hc as [H1 H2 H3 H4 H5 H6 H7 H8 H9 (p & Hp & Hpid & Hst & Hpr)].
  unfold client_event, handleClientEvent. rewrite H1, Hin. destruct (w_out w); [|by exists c].
  cbn [orb andb Z.eqb Pos.eqb CLIENT_MODE_WRITE CLIENT_MODE_ERROR].
  unfold handleCGIProcess. rewrite Hp. cbn [deref mbind outcome_bind]. unfold checkEnd.
  rewrite Hwait, (proj2 (Z.eqb_neq (cgi_pid p) 0)), Hst, (proj2 (Z.ltb_ge _ _)) by lia.
  cbv iota zeta. change (0 =? 0) with true. cbv iota. cbn [mbind outcome_bind negb].
  set (c1 := c <| cl_cgiProcess := Some p |>). change (cl_response c1) with (cl_response c). rewrite H4.
  change (0 <? 0) with false. cbv iota. exists c1. split; [done|]. split; [|done].
  split; try done. by exists p.
Qed.

(** ** The script has ended *)

Context (fields : list (str * str)) (v body : str).

(** The header block of a document, of that type. *)
Record document_ok : Prop := {
  dc_fields : forallb cgi_field_ok fields = true;
  dc_size : zlen (cgi_block fields) <= BUFFER_SIZE;
  dc_type : om_find i_less (`s"Content-Type") (fold_left (fun m f => om_assign i_less f.1 f.2 m) fields []) = Some v;
  dc_location : om_find i_less (`s"Location") (fold_left (fun m f => om_assign i_less f.1 f.2 m) fields []) = None;
  dc_status : om_find i_less (`s"Status") (fold_left (fun m f => om_assign i_less f.1 f.2 m) fields []) = None;
}.

(** The headers of the answer: of the script's own only the type remains, and
    that only when its extension has no type. *)
Definition script_fields (date : str) : list (str * str) :=
  [(`s"Accept-Encoding", `s"identity"); (`s"Accept-Ranges", `s"none");
   (`s"connection", ex_connection e); (`s"Content-Length", itostr (zlen body));
   (if checkHeader (`s"content-type") (ex_head e) then `s"content-type" else `s"Content-Type",
    default v (om_find lex_ltb (cgi_extension g) init_mimes));
   (`s"Date", date)].
Definition script_response (date : str) : str :=
  wire RES_OK (script_fields date) (if ex_code e =? HEAD then [] else body).

Lemma built_script date :
  built date (itostr (zlen body)) (cgi_extension g)
    (om_assign i_less (`s"connection") (ex_connection e) (om_assign i_less (`s"Content-Type") v (given_type e))) =
  script_fields date.
Proof.
  unfold built, script_fields, given_type. destruct (checkHeader _ _).
  - rewrite <- (built_typed (`s"content-type") _ date (itostr (zlen body)) (ex_connection e) v) by (by left). reflexivity.
  - rewrite <- (built_typed (`s"Content-Type") _ date (itostr (zlen body)) (ex_connection e) v) by (by right). reflexivity.
Qed.

(** What [_inspectHeaders] makes of the request. *)
Definition document_request (r : Request) : Request :=
  on_hints (fun h => set_header (`s"Content-Type") v ((h <| rh_status := 200 |>) <| rh_hasBody := true |>)) r.

Lemma inspect_script p r :
  document_ok -> cgi_headers p = fold_left (fun m f => om_assign i_less f.1 f.2 m) fields [] ->
  _inspectHeaders p r = (CGI_RES_DOC, document_request r).
Proof.
  intros [_ _ H1 H2 H3] Hp. unfold _inspectHeaders, _retrieveHeader. rewrite Hp, H2.
  destruct (fold_left _ fields []) as [|x m] eqn:E; [done|].
  unfold inspect_document, _retrieveHeader. by rewrite Hp, H3, H1.
Qed.

Lemma document_request_fields r out :
  scripting out r ->
  let r' := on_hints (fun h => h <| rh_cgiRedir := CGI_RES_DOC |>)
    (document_request (r <| resHints ; rh_index := zlen (cgi_block fields) |>)) in
  read_as e r' /\ req_type r' = REQ_TYPE_CGI /\ rh_parsedUri (resHints r') = sc_uri /\
  rh_headers (resHints r') = om_assign i_less (`s"Content-Type") v (given_type e) /\
  rh_cookies (resHints r') = [] /\ rh_index (resHints r') = zlen (cgi_block fields) /\
  rh_status (resHints r') = RES_OK /\ rh_path (resHints r') = out.
Proof.
  intros [H1 H2 H3 H4 H5 H6 H7 H8] r'. split; [exact H1|]. split; [exact H2|]. split; [exact H3|].
  split; [by rewrite <- H4|]. by split_and!.
Qed.

(** The turn that finds the script ended goes on as if the answer had been
    queued before. *)
Lemma end_script os dep out pid start c :
  exchange_ok e -> document_ok -> running out pid start c -> os_wait os = Exited 0 -> is_empty out = false ->
  has_file (os_fs os) out (cgi_block fields ++ body) ->
  exists c', client_event os dep false false true c = client_event os dep false false true c' /\
    sending e [] c' /\ concat (cl_outBuffers c') = script_response (os_date os) /\
    cl_log c' = cl_log c ++ [EvUnlink (c_str out)].
Proof.
  intros He Hd [H1 H2 H3 H4 H5 H6 H7 H8 (r & Hr & Hs) (p & Hp & Hpid & _ & Hph & Hpi)] Hwait Hne Hf.
  set (p1 := p <| cgi_pid := 0 |>).
  destruct (parse_cgi_block fields body p1 r (dc_fields Hd) (dc_size Hd) Hph Hpi) as (p2 & Q1 & Q2 & Q3 & Q4).
  rewrite (inspect_script p2 _ Hd Q1), Q2 in Q4. rewrite Q2 in Q3.
  pose proof (document_request_fields r out Hs) as (K1 & K2 & K3 & K4 & K5 & K6 & K7 & K8).
  set (r1 := document_request _) in *. set (r2 := on_hints _ r1) in *.
  set (c1 := (set_request r2 (c <| cl_cgiProcess := Some p1 |>)) <| cl_cgiProcess := Some p2 |>).
  pose proof (zlen_nonneg (cgi_block fields)) as Hb0. pose proof (zlen_nonneg body) as Hb1.
  destruct (generate_file os dep c1 0 RES_OK e r2 (cgi_block fields ++ body) K1)
    as (r3 & bs & G & G1 & G2 & G3 & G4 & G5 & G6 & G7); try done.
  { by rewrite K8. }
  { by rewrite K2. }
  { rewrite K6, zlen_app. lia. }
  { by rewrite K8. }
  rewrite K6 in G. rewrite K6, K3, K4, zlen_app in G2, G3.
  replace (zlen (cgi_block fields) + zlen body - zlen (cgi_block fields)) with (zlen body) in G2, G3 by lia.
  assert (seek (zlen (cgi_block fields)) (cgi_block fields ++ body) = body) as Hseek.
  { unfold seek. by rewrite (proj2 (Z.ltb_ge _ _)), Q3. }
  rewrite Hseek in G, G3. unfold sc_uri in G2, G3.
  rewrite (proj2 (proj2 (split_uri_fields (cgi_extension g) k (ex_parsed e)))), built_script in G2, G3.
  set (c2 := c1 <| cl_request := Some r3 |> <| cl_outBuffers := bs |>
                <| cl_response := Some (FileResponse RES_OK body) |> <| cl_mode := CLIENT_MODE_WRITE |>) in G.
  set (c3 := (log (EvUnlink (c_str out)) c2) <| cl_cgiProcess := None |>).
  assert (handleCGIProcess os dep c = Ret (0, c3)) as Hcgi.
  { unfold handleCGIProcess. rewrite Hp. cbn [deref mbind outcome_bind]. unfold checkEnd.
    rewrite (proj2 (Z.eqb_neq (cgi_pid p) 0)), Hwait by lia. change (negb (0 =? 0)) with false. cbv iota zeta.
    change (1 =? 0) with false. change (1 <? 0) with false. cbv iota. fold p1.
    assert (the_request (c <| cl_cgiProcess := Some p1 |>) = r) as ->
      by (unfold the_request; change (cl_request (c <| cl_cgiProcess := Some p1 |>)) with (cl_request c); by rewrite Hr).
    rewrite (sg_path _ _ Hs), (proj1 (proj2 Hf)). cbn [from_option id]. rewrite Q4. cbn [fueled mbind outcome_bind].
    change (CGI_RES_DOC =? CGI_RES_ERROR) with false.
    change ((CGI_RES_DOC =? CGI_RES_DOC) || (CGI_RES_DOC =? CGI_RES_CLIENT_REDIRECT)) with true. cbv iota.
    fold r2. fold c1. rewrite G. cbn [mbind outcome_bind]. do 2 f_equal.
    unfold deleteCGIProcess. change (cl_cgiProcess c2) with (Some p2). cbv iota.
    change (the_request c2) with r3. by rewrite G7, K8. }
  assert (sending e [] c3) as Hc3.
  { split; [split; try done; [by eexists|by left|]|done|cbn; by rewrite H3].
    exists r3, (ex_connection e). by rewrite G2. }
  exists c3. split; [|split; [done|split; [exact G3|done]]].
  unfold client_event, handleClientEvent. rewrite (sd_mode _ _ _ Hc3), H1, Hp, Hcgi, (sd_cgi _ _ _ Hc3).
  reflexivity.
Qed.

(** ** The turns *)

(** The script still runs, and is not late. *)
Definition waits (start : Z) (w : wakeup) : Prop :=
  w_in w = false /\ os_wait (w_os w) = Running /\ os_now (w_os w) - start <= CGI_TIME_OUT.

Lemma wait_turns dep out pid start vs : forall c,
  running out pid start c -> Forall (waits start) vs ->
  exists c', play dep vs c = Ret c' /\ running out pid start c' /\ cl_log c' = cl_log c.
Proof.
  induction vs as [|w vs IH]; intros c Hc Hvs; [by exists c|].
  apply Forall_cons in Hvs as [(Hin & Hwait & Hnow) Hvs]. cbn [play]. rewrite (ru_live _ _ _ _ Hc).
  destruct (wait_script dep w out pid start c Hc Hin Hwait Hnow) as (c1 & -> & Hc1 & Hl1). cbn [mbind outcome_bind].
  destruct (IH c1 Hc1 Hvs) as (c2 & H1 & H2 & H3). exists c2. split; [done|]. split; [done|]. congruence.
Qed.

Lemma head_turns dep ws w c :
  exchange_ok e -> reading [] c -> host_for (ex_name e) (cl_hostMap c) (cl_host c) = Some h ->
  runs (os_fs (w_os w)) -> 0 < os_fork (w_os w) ->
  Forall wakeup_ok (ws ++ [w]) -> w_in w = true -> arrived (ws ++ [w]) = ex_bytes e ->
  exists c' binds, play dep (ws ++ [w]) c = Ret c' /\
    running (os_name (w_os w) None) (os_fork (w_os w)) (os_now (w_os w)) c' /\
    cl_log c' = cl_log c ++ binds ++ [EvFork (os_fork (w_os w))] /\ Forall harmless binds /\ sent binds = [].
Proof.
  intros He Hc Hh Hrun Hpid [Hws Hw]%Forall_app Ein E. apply Forall_inv in Hw.
  destruct (wakeup_input w Hw Ein) as [Hi Hne]. unfold arrived in E. rewrite map_app, concat_app in E.
  cbn [map concat] in E. rewrite app_nil_r in E. fold (arrived ws) in E.
  destruct (read_head dep e (arrives w) ws [] c (ok_head e He) Hc Hws) as (c1 & H1 & H2 & H3 & H4); [done|done|].
  rewrite app_nil_l in H2. injection H4 as H4 H5.
  destruct (read_script (w_os w) dep (arrived ws) (arrives w) c1 He Hrun H2 Hi Hne E)
    as (c2 & c3 & binds & G1 & G2 & G3 & G4 & G5 & G6); [congruence|done|].
  exists c3, binds. rewrite play_app, H1. cbn [mbind outcome_bind play]. rewrite (rd_live _ _ H2).
  unfold client_event, handleClientEvent. rewrite (rd_mode _ _ H2), Ein.
  change (false || (CLIENT_MODE_READ =? CLIENT_MODE_ERROR)) with false.
  change (CLIENT_MODE_READ =? CLIENT_MODE_READ) with true. cbn [orb andb]. rewrite G1. cbn [mbind outcome_bind].
  change (0 <? RES_OK) with true. cbv iota. rewrite G2. cbn [mbind outcome_bind]. change (0 <? 0) with false. cbv iota.
  split; [done|]. split; [done|]. split; [congruence|]. by split.
Qed.

(** The wakeups from the one that finds the script ended. *)
Lemma end_turns dep out pid start x f c :
  exchange_ok e -> document_ok -> running out pid start c -> os_wait (w_os x) = Exited 0 -> is_empty out = false ->
  has_file (os_fs (w_os x)) out (cgi_block fields ++ body) ->
  w_in x = false -> w_out x = true -> wakeup_ok x ->
  (forall i : nat, w_in (f i) = false /\ w_out (f i) = true /\ wakeup_ok (f i)) ->
  exists n c' new, play dep (x :: map f (seq 0 n)) c = Ret c' /\
    cl_log c' = cl_log c ++ EvUnlink (c_str out) :: new /\ Forall harmless new /\
    sent new = script_response (os_date (w_os x)) /\ over (closes e) [] c'.
Proof.
  intros He Hd Hc Hwait Hne Hf Hin Hout Hok Hfi.
  destruct (end_script (w_os x) dep out pid start c He Hd Hc Hwait Hne Hf) as (c1 & H1 & H2 & H3 & H4).
  assert (concat (cl_outBuffers c1) <> []) as Hq by (by rewrite H3).
  destruct (queued_turns dep (closes e) x f c c1 H1 (ru_live _ _ _ _ Hc) H2 Hq Hin Hout Hok Hfi)
    as (n & c2 & new & G1 & G2 & G3 & G4 & G5).
  exists n, c2, new. split; [exact G1|]. split; [rewrite G2, H4; by rewrite <- (assoc_L (++))|]. by rewrite G4.
Qed.
End script.

(** ** Theorem *)

(** C5: A script from end to end. An idle client sends a well-formed GET or HEAD
    request (a head within one buffer, a plain path and query, no Expect header,
    no feature the server lacks) without body and without anything after it, cut
    into reads in any way, whose path selects a script that the rules allow; the
    peer stays connected and the socket takes what one write offers. (The body of
    a POST goes through a temporary file, which is not covered here.) With the
    last byte the script is started; while it runs and is not late nothing is
    sent; once it has ended with 0 and left a document (a header block within one
    buffer that gives a type, no location, no status and no cookie), the answer is
    exactly the body of its output under the server's headers, of its own headers
    at most the type remaining; the output file is removed, no other file is
    touched; and the connection is closed if the request asked for that, and else
    free for the next request. *)
Theorem script_correct dep h g k e fields v body ws w vs f c :
  idle c -> exchange_ok e -> host_for (ex_name e) (cl_hostMap c) (cl_host c) = Some h ->
  runs h g k e (os_fs (w_os w)) -> 0 < os_fork (w_os w) -> is_empty (os_name (w_os w) None) = false ->
  Forall wakeup_ok (ws ++ [w]) -> w_in w = true -> arrived (ws ++ [w]) = ex_bytes e ->
  Forall (waits (os_now (w_os w))) vs ->
  document_ok fields v -> os_wait (w_os (f 0%nat)) = Exited 0 ->
  has_file (os_fs (w_os (f 0%nat))) (os_name (w_os w) None) (cgi_block fields ++ body) ->
  (forall i, w_in (f i) = false /\ w_out (f i) = true /\ wakeup_ok (f i)) ->
  exists n c' binds new,
    play dep ((ws ++ [w]) ++ vs ++ map f (seq 0 n)) c = Ret c' /\
    cl_log c' = cl_log c ++ binds ++ [EvFork (os_fork (w_os w)); EvUnlink (c_str (os_name (w_os w) None))] ++ new /\
    Forall harmless binds /\ sent binds = [] /\ Forall harmless new /\
    sent new = script_response g e v body (os_date (w_os (f 0%nat))) /\
    if closes e then cl_terminated c' = true else reading [] c'.
Proof.
  intros Hc He Hh Hrun Hpid Hne Hws Ein E Hvs Hd Hwait Hf Hfi.
  destruct (head_turns h g k e dep ws w c He (idle_reading c Hc) Hh Hrun Hpid Hws Ein E)
    as (c1 & binds & H1 & H2 & H3 & H4 & H5).
  destruct (wait_turns g k e dep _ _ _ vs c1 H2 Hvs) as (c2 & G1 & G2 & G3).
  destruct (Hfi 0%nat) as (Hin & Hout & Hok).
  destruct (end_turns g k e fields v body dep _ _ _ (f 0%nat) (fun i => f (S i)) c2 He Hd G2 Hwait Hne Hf Hin Hout Hok)
    as (n & c3 & new & K1 & K2 & K3 & K4 & K5); [by intros i|].
  exists (S n), c3, binds, new. rewrite play_app, H1. cbn [mbind outcome_bind]. rewrite play_app, G1.
  cbn [mbind outcome_bind seq map]. rewrite <- seq_shift, map_map. split; [exact K1|].
  split; [|by split_and!]. rewrite K2, G3, H3. by rewrite <- !(assoc_L (++)).
Qed.

Definition demo_script : exchange :=
  mkExchange (`s"GET") [`s"b.php"] (Some (`s"x=1")) [(`s"Host", `s"demo"); (`s"Connection", `s"close")] [].
Definition demo_out : str := `s"./tmp/_1".
Definition demo_doc_fields : list (str * str) := [(`s"Content-Type", `s"text/html"); (`s"X-Powered-By", `s"x")].
Definition demo_doc : str := cgi_block demo_doc_fields ++ `s"<p>hi</p>".

(** The answers of the system: what [read] gives, and whether the script has
    ended and its output is there. *)
Definition demo_script_os (ended : bool) (input : str) : os_answers :=
  mkOs (Some input) 1000000 (if ended then Exited 0 else Running) 7 50 (`s"now") (fun _ => demo_out)
    (mkFilesystem (fun p => if ended && str_eqb p demo_out then Some RegularFile else fs_stat demo_fs p) (fs_access demo_fs)
       (fun _ => zlen demo_doc) (fun p => if ended && str_eqb p demo_out then Some demo_doc else None) (fun _ => None))
    (fun _ => true).
Definition demo_script_reads : list wakeup :=
  [mkWakeup true true (demo_script_os false (take 10 (ex_bytes demo_script)))].
Definition demo_script_last : wakeup := mkWakeup true true (demo_script_os false (drop 10 (ex_bytes demo_script))).
Definition demo_script_waits : list wakeup := [mkWakeup false true (demo_script_os false []); mkWakeup false false (demo_script_os false [])].
Definition demo_script_ended : wakeup := mkWakeup false true (demo_script_os true []).

Example script_ex : run_or []
  (c ← play [] ((demo_script_reads ++ [demo_script_last]) ++ demo_script_waits ++ [demo_script_ended; demo_script_ended]) demo_client;
   Ret (cl_log c)) =
  [EvBind (`s"demo"); EvFork 7; EvUnlink demo_out;
   EvWrite (take 141 (script_response demo_php demo_script (`s"text/html") (`s"<p>hi</p>") (`s"now")));
   EvWrite (`s"<p>hi</p>"); EvUnbind; EvClose].
Proof. vm_compute. reflexivity. Qed.

Lemma demo_script_ok : exchange_ok demo_script.
Proof.
  split; [split; [split|..]|];
    check_head.
Qed.

Lemma script_correct_witness :
  let name := os_name (w_os demo_script_last) None in let pid := os_fork (w_os demo_script_last) in
  exists n c' binds new,
    play [] ((demo_script_reads ++ [demo_script_last]) ++ demo_script_waits ++ map (fun _ => demo_script_ended) (seq 0 n))
      demo_client = Ret c' /\
    cl_log c' = cl_log demo_client ++ binds ++ [EvFork pid; EvUnlink (c_str name)] ++ new /\
    Forall harmless binds /\ sent binds = [] /\ Forall harmless new /\
    sent new = script_response demo_php demo_script (`s"text/html") (`s"<p>hi</p>") (os_date (w_os demo_script_ended)) /\
    if closes demo_script then cl_terminated c' = true else reading [] c'.
Proof.
  apply (script_correct [] demo_server demo_php 1 demo_script demo_doc_fields (`s"text/html") (`s"<p>hi</p>")
    demo_script_reads demo_script_last demo_script_waits (fun _ => demo_script_ended) demo_client).
  - apply Client_init_idle.
  - exact demo_script_ok.
  - vm_compute. reflexivity.
  - split; vm_compute; by repeat split.
  - vm_compute. reflexivity.
  - reflexivity.
  - repeat apply Forall_cons_2; [..|apply Forall_nil_2]; eexists; (split; [reflexivity|discriminate]).
  - reflexivity.
  - vm_compute. reflexivity.
  - repeat apply Forall_cons_2; [..|apply Forall_nil_2]; (split; [reflexivity|split; [reflexivity|vm_compute; discriminate]]).
  - split; first [vm_compute; reflexivity | vm_compute; discriminate].
  - reflexivity.
  - split_and!; vm_compute; reflexivity.
  - intros i. split; [reflexivity|]. split; [reflexivity|]. vm_compute. discriminate.
Defined.
