(* ===== verification/Refusal.v ===== *)
(** * Refusal: requests that the host refuses

    The parts of the server composed on one client, as in [Session], for the
    requests that no location, no rule or no file answers: the reasons of a
    refusal, the status each has, and the page of the host that is sent before
    the connection is closed. *)

From S2P Require Import Prelude CxxString OrdMap Format Http RequestHeaders RequestBody RequestUri Host Response Cgi Client Control ControlFacts Session Script.
#[local] Open Scope Z_scope.

(** ** The reasons *)

(** The methods that two masks grant, as the header names them. *)
Fixpoint comma_list (names : list str) : str :=
  match names with
  | [] => []
  | [name] => name
  | name :: names => name ++ `s"," ++ comma_list names
  end.
Definition granted_methods (a b : Z) : list str :=
  filter (fun name => method_allowed a (getMethodIndex name) && method_allowed b (getMethodIndex name)) METHOD_STR.

(** A location without redirection, and no script, is what the path selects. *)
Definition located (h : Host) (e : exchange) (l : Location) : Prop :=
  matchCGIConfig (ex_path e) h = None /\ matchLocation (ex_path e) h = Some l /\ loc_redir l = 0.

(** Why a request is refused: with which status, and which methods are named. *)
Inductive refusal (fs : filesystem) (h : Host) (e : exchange) : Z -> option (list str) -> Prop :=
  | no_location :
      matchCGIConfig (ex_path e) h = None -> matchLocation (ex_path e) h = None ->
      refusal fs h e RES_NOT_FOUND None
  | method_refused l :
      located h e l -> method_allowed (loc_methods l) (ex_code e) = false ->
      refusal fs h e RES_METHOD_NOT_ALLOWED (Some (granted_methods (loc_methods l) INT32_MAX))
  | upload_refused l :
      located h e l -> method_allowed (loc_methods l) (ex_code e) = true ->
      is_upload (ex_code e) = true -> loc_upload l = false ->
      refusal fs h e RES_FORBIDDEN None
  | no_directory l :
      located h e l -> method_allowed (loc_methods l) (ex_code e) = true ->
      is_upload (ex_code e) = true -> loc_upload l = true ->
      fs_stat fs (c_str (upload_dir l ++ uri_root (ex_parsed e))) <> Some Directory ->
      refusal fs h e RES_NOT_FOUND None
  | no_file l :
      located h e l -> method_allowed (loc_methods l) (ex_code e) = true -> is_upload (ex_code e) = false ->
      fs_stat fs (c_str (loc_root l ++ ex_path e)) = None ->
      refusal fs h e RES_NOT_FOUND None
  | not_a_file l k :
      located h e l -> method_allowed (loc_methods l) (ex_code e) = true -> is_upload (ex_code e) = false ->
      fs_stat fs (c_str (loc_root l ++ ex_path e)) = Some k -> k <> RegularFile ->
      refusal fs h e RES_FORBIDDEN None
  | not_readable l :
      located h e l -> method_allowed (loc_methods l) (ex_code e) = true -> is_upload (ex_code e) = false ->
      fs_stat fs (c_str (loc_root l ++ ex_path e)) = Some RegularFile ->
      fs_access fs (c_str (loc_root l ++ ex_path e)) R_OK = false ->
      refusal fs h e RES_FORBIDDEN None
  | script_method_refused g k :
      selects h g k e -> method_allowed (cgi_methods g) (ex_code e) = false ->
      refusal fs h e RES_METHOD_NOT_ALLOWED
        (Some (granted_methods (from_option loc_methods INT32_MAX (sc_location h g k e)) (cgi_methods g)))
  | no_script g k :
      selects h g k e -> method_allowed (cgi_methods g) (ex_code e) = true ->
      fs_stat fs (c_str (sc_path g k e)) = None ->
      refusal fs h e RES_NOT_FOUND None
  | not_a_script g k x :
      selects h g k e -> method_allowed (cgi_methods g) (ex_code e) = true ->
      fs_stat fs (c_str (sc_path g k e)) = Some x -> x <> RegularFile ->
      refusal fs h e RES_FORBIDDEN None
  | script_not_readable g k :
      selects h g k e -> method_allowed (cgi_methods g) (ex_code e) = true ->
      fs_stat fs (c_str (sc_path g k e)) = Some RegularFile -> fs_access fs (c_str (sc_path g k e)) R_OK = false ->
      refusal fs h e RES_FORBIDDEN None.

(** A request that is rejected: by the rules and the files of the host, or
    because it announces a body that is longer than the host accepts. *)
Inductive rejection (fs : filesystem) (h : Host) (e : exchange) : Z -> option (list str) -> Prop :=
  | host_refusal s allow : bodiless e -> refusal fs h e s allow -> rejection fs h e s allow
  | too_large n :
      getHeader (`s"content-length") (ex_head e) = itostr n -> 0 <= n <= INT32_MAX -> h_body_max_size h < n ->
      rejection fs h e RES_REQUEST_ENTITY_TOO_LARGE None.

(** The statuses these have. *)
Definition rejections : list Z := [RES_FORBIDDEN; RES_NOT_FOUND; RES_METHOD_NOT_ALLOWED; RES_REQUEST_ENTITY_TOO_LARGE].

(** The answer: the page of the host for that status. *)
Definition error_page (h : Host) (s : Z) : str := h_dir_errors h ++ IntToString s 10 ++ `s".html".

Definition allow_field (allow : option (list str)) : list (str * str) :=
  match allow with Some names => [(`s"Allow", comma_list names)] | None => [] end.
Definition refusal_fields (allow : option (list str)) (date page : str) : list (str * str) :=
  [(`s"Accept-Encoding", `s"identity"); (`s"Accept-Ranges", `s"none")] ++ allow_field allow ++
  [(`s"connection", `s"close"); (`s"Content-Length", itostr (zlen page)); (`s"content-type", `s"text/html");
   (`s"Date", date)].
Definition refusal_response (s : Z) (allow : option (list str)) (date page : str) (e : exchange) : str :=
  wire s (refusal_fields allow date page) (if ex_code e =? HEAD then [] else page).

(** [allows_loop] makes that list. *)
Lemma allows_loop_list a b :
  allows_loop 0 METHOD_STR a b [] = comma_list (granted_methods a b).
Proof.
  pose (pick (f : Z -> bool) := filter (fun name => f (getMethodIndex name)) METHOD_STR).
  change (granted_methods a b) with (pick (fun i => method_allowed a i && method_allowed b i)).
  assert (forall x0 x1 x2 x3 x4 : bool,
    let f i := match i with 0 => x0 | 1 => x1 | 2 => x2 | 3 => x3 | _ => x4 end in
    comma_list (pick f) =
    let add (x : bool) name (s : str) := if x then s ++ (if is_empty s then [] else `s",") ++ name else s in
    add x4 (`s"HEAD") (add x3 (`s"DELETE") (add x2 (`s"PUT") (add x1 (`s"POST") (add x0 (`s"GET") []))))) as H
    by (intros [] [] [] [] []; vm_compute; reflexivity).
  set (p i := method_allowed a i && method_allowed b i) in *.
  specialize (H (p 0) (p 1) (p 2) (p 3) (p 4)). cbv zeta in H.
  replace (pick p) with (pick (fun i => match i with 0 => p 0 | 1 => p 1 | 2 => p 2 | 3 => p 3 | _ => p 4 end)) by reflexivity.
  rewrite H. reflexivity.
Qed.

(** ** The verdict of the host *)

(** The request of a refusal. *)
Record refused (e : exchange) (s : Z) (allow : option (list str)) (r : Request) : Prop := {
  rf_read : read_as e r;
  rf_headers : rh_headers (resHints r) = [];
  rf_cookies : rh_cookies (resHints r) = [];
  rf_index : rh_index (resHints r) = 0;
  rf_allow : allow =
    if s =? RES_METHOD_NOT_ALLOWED
    then Some (granted_methods (from_option loc_methods INT32_MAX (rh_locationRules (resHints r)))
                               (from_option cgi_methods INT32_MAX (rh_cgiRules (resHints r))))
    else None;
}.

Definition plain_hints (r : Request) : Prop :=
  rh_headers (resHints r) = [] /\ rh_cookies (resHints r) = [] /\ rh_index (resHints r) = 0.

Lemma refused_plain e s r :
  read_as e r -> plain_hints r -> (s =? RES_METHOD_NOT_ALLOWED) = false -> refused e s None r.
Proof. intros H1 (H2 & H3 & H4) H5. split; try done. by rewrite H5. Qed.

(** What a file or a directory of the location has to say. *)
Definition located_status (fs : filesystem) (l : Location) (e : exchange) : Z :=
  if is_upload (ex_code e)
  then checkRessourcePath fs (upload_dir l ++ uri_root (ex_parsed e)) REQ_TYPE_DIR 0
  else checkRessourcePath fs (loc_root l ++ ex_path e) REQ_TYPE_STATIC R_OK.

Lemma checkRessourceExistence_located fs l e r :
  read_as e r -> rh_parsedUri (resHints r) = ex_parsed e -> plain_hints r ->
  exists r', checkRessourceExistence fs (static_request l r) = Ret (located_status fs l e, r') /\
    read_as e r' /\ plain_hints r'.
Proof.
  intros Hr Hu Hp. set (r1 := static_request l r).
  assert (rh_locationRules (resHints r1) = Some l /\ req_type r1 = REQ_TYPE_STATIC /\ req_method r1 = ex_code e /\
    rh_parsedUri (resHints r1) = ex_parsed e) as (Hl & Ht & Hm & Hu1) by (split_and!; [done|done|apply (proj2 Hr)|done]).
  assert (read_as e r1 /\ plain_hints r1) as [Hr1 Hp1] by (split; [exact Hr|exact Hp]). clearbody r1.
  unfold checkRessourceExistence. rewrite Ht, Hl, Hm, Hu1.
  change (REQ_TYPE_STATIC =? REQ_TYPE_CGI) with false. cbv iota. cbn [deref mbind outcome_bind].
  unfold located_status. fold (is_upload (ex_code e)). destruct (is_upload (ex_code e)).
  - cbn [mbind outcome_bind]. fold (upload_dir l). eexists. split; [reflexivity|]. split; [exact Hr1|exact Hp1].
  - change (uri_path (ex_parsed e)) with (ex_path e).
    set (r2 := r1 <| resHints ; rh_path := loc_root l ++ ex_path e |>).
    assert (req_type r2 = REQ_TYPE_STATIC /\ rh_path (resHints r2) = loc_root l ++ ex_path e) as [Ht2 Hp2] by done.
    assert (read_as e r2 /\ plain_hints r2) as [Hr2 Hq2] by (split; [exact Hr1|exact Hp1]). clearbody r2.
    rewrite Ht2, Hp2. cbn [mbind outcome_bind]. eexists. split; [reflexivity|]. split; [exact Hr2|exact Hq2].
Qed.

(** A request the location answers, with what its file or directory says. *)
Lemma checkRequest_granted fs h l e r :
  plain_dirs (ex_dirs e) -> located h e l -> 0 <= ex_code e -> method_allowed (loc_methods l) (ex_code e) = true ->
  is_upload (ex_code e) && negb (loc_upload l) = false ->
  read_as e r -> rh_parsedUri (resHints r) = ex_parsed e -> plain_hints r -> located_status fs l e <> RES_METHOD_NOT_ALLOWED ->
  exists r', checkRequest fs h r = Ret (located_status fs l e, r') /\ refused e (located_status fs l e) None r'.
Proof.
  intros Hd (Hc & Hl & Hx) H0 Ha Hup Hr Hu Hp Hs.
  rewrite (checkRequest_static fs h e l r) by first [done|exact (proj2 Hr)].
  destruct (checkRessourceExistence_located fs l e r Hr Hu Hp) as (r' & -> & H1 & H2).
  exists r'. split; [done|]. apply refused_plain; [done|done|by apply Z.eqb_neq].
Qed.

Lemma checkRessourcePath_cases fs path type w :
  checkRessourcePath fs path type w ∈ [0; RES_FORBIDDEN; RES_NOT_FOUND].
Proof.
  unfold checkRessourcePath. repeat case_match; rewrite !elem_of_cons; auto.
Qed.

Lemma located_refused fs l e : located_status fs l e <> RES_METHOD_NOT_ALLOWED.
Proof.
  assert (located_status fs l e ∈ [0; RES_FORBIDDEN; RES_NOT_FOUND]) as H
    by (unfold located_status; case_match; apply checkRessourcePath_cases).
  rewrite !elem_of_cons, elem_of_nil in H. by destruct H as [->|[->|[->|[]]]].
Qed.

Lemma ok_code e : head_ok e -> 0 <= ex_code e.
Proof.
  intros He. pose proof (ok_word e He) as H. unfold ex_code, METHOD_STR in *.
  rewrite !elem_of_cons, elem_of_nil in H. by destruct H as [->|[->|[->|[->|[->|[]]]]]].
Qed.

(** No location. *)
Lemma checkRequest_unlocated fs h e r :
  matchCGIConfig (ex_path e) h = None -> matchLocation (ex_path e) h = None ->
  read_as e r -> plain_hints r -> rh_parsedUri (resHints r) = ex_parsed e ->
  exists r', checkRequest fs h r = Ret (RES_NOT_FOUND, r') /\ refused e RES_NOT_FOUND None r'.
Proof.
  intros Hc Hl Hr Hp Hu. unfold checkRequest, check_if at 1, matchRequest. rewrite Hu.
  change (uri_path (ex_parsed e)) with (ex_path e). rewrite Hc, Hl. cbv zeta.
  cbn [rh_cgiRules rh_locationRules resHints upd mbind outcome_bind].
  eexists. split; [reflexivity|]. apply refused_plain; [exact Hr|exact Hp|done].
Qed.

(** The location refuses the method, or the upload. *)
Lemma checkRequest_unruled fs h l e r :
  plain_dirs (ex_dirs e) -> located h e l -> 0 <= ex_code e ->
  read_as e r -> plain_hints r -> rh_parsedUri (resHints r) = ex_parsed e ->
  (method_allowed (loc_methods l) (ex_code e) = false ->
   exists r', checkRequest fs h r = Ret (RES_METHOD_NOT_ALLOWED, r') /\
     refused e RES_METHOD_NOT_ALLOWED (Some (granted_methods (loc_methods l) INT32_MAX)) r') /\
  (method_allowed (loc_methods l) (ex_code e) = true -> is_upload (ex_code e) = true -> loc_upload l = false ->
   exists r', checkRequest fs h r = Ret (RES_FORBIDDEN, r') /\ refused e RES_FORBIDDEN None r').
Proof.
  intros Hd (Hc & Hl & Hx) H0 Hr Hp Hu. rewrite (checkRequest_located fs h e l r) by done.
  rewrite (checkLocationRules_static l (ex_code e)) by first [done|exact (proj2 Hr)]. split.
  - intros ->. cbn [negb mbind outcome_bind]. eexists. split; [reflexivity|].
    destruct Hp as (H1 & H2 & H3). split; [exact Hr|exact H1|exact H2|exact H3|reflexivity].
  - intros -> -> ->. cbn [negb andb mbind outcome_bind]. eexists. split; [reflexivity|].
    apply refused_plain; [exact Hr|exact Hp|done].
Qed.

(** A script that is refused. *)
Lemma checkRequest_unscripted fs h g k e r s :
  head_ok e -> selects h g k e -> script_status g k e fs = s -> s <> 0 ->
  read_as e r -> plain_hints r -> rh_parsedUri (resHints r) = ex_parsed e ->
  exists r', checkRequest fs h r = Ret (s, r') /\
    refused e s (if method_allowed (cgi_methods g) (ex_code e) then None
      else Some (granted_methods (from_option loc_methods INT32_MAX (sc_location h g k e)) (cgi_methods g))) r'.
Proof.
  intros He Hsel Hs Hs0 Hr Hp Hu.
  rewrite (checkRequest_judged h g k e fs r He Hsel Hu (proj2 Hr) (ok_code e He)), Hs.
  eexists. split; [reflexivity|]. unfold script_status in Hs. destruct (method_allowed _ _).
  - apply refused_plain; [exact Hr|exact Hp|]. apply Z.eqb_neq. intros E.
    pose proof (checkRessourcePath_cases fs (sc_path g k e) REQ_TYPE_CGI R_OK) as H. rewrite Hs, E in H.
    rewrite !elem_of_cons, elem_of_nil in H. by destruct H as [?|[?|[?|[]]]].
  - subst s. destruct Hp as (H1 & H2 & H3). split; [exact Hr|exact H1|exact H2|exact H3|reflexivity].
Qed.

(** The status of a file that is refused. *)
Lemma checkRessourcePath_missing fs path type w : fs_stat fs (c_str path) = None -> checkRessourcePath fs path type w = RES_NOT_FOUND.
Proof. unfold checkRessourcePath. by intros ->. Qed.

Lemma checkRessourcePath_forbidden fs path type k :
  type <> REQ_TYPE_DIR -> fs_stat fs (c_str path) = Some k ->
  k <> RegularFile \/ fs_access fs (c_str path) R_OK = false ->
  checkRessourcePath fs path type R_OK = RES_FORBIDDEN.
Proof.
  intros Ht Hk H. unfold checkRessourcePath. rewrite Hk, (proj2 (Z.eqb_neq _ _) Ht).
  destruct k; [|done..]. destruct H as [?| ->]; done.
Qed.

Lemma checkRessourcePath_no_dir fs path :
  fs_stat fs (c_str path) <> Some Directory -> checkRessourcePath fs path REQ_TYPE_DIR 0 = RES_NOT_FOUND.
Proof. unfold checkRessourcePath. by destruct (fs_stat _ _) as [[]|]. Qed.

(** Every reason, with its status. *)
Lemma checkRequest_refused fs h e s allow r :
  refusal fs h e s allow -> head_ok e -> read_as e r -> plain_hints r -> rh_parsedUri (resHints r) = ex_parsed e ->
  exists r', checkRequest fs h r = Ret (s, r') /\ refused e s allow r'.
Proof.
  intros Href He Hr Hp Hu. pose proof (ok_code e He) as H0. pose proof (ok_dirs e He) as Hd.
  assert (forall l, located h e l -> method_allowed (loc_methods l) (ex_code e) = true ->
    is_upload (ex_code e) && negb (loc_upload l) = false -> located_status fs l e = s ->
    exists r', checkRequest fs h r = Ret (s, r') /\ refused e s None r') as Hgranted.
  { intros l Hl Ha Hup <-. apply checkRequest_granted; try done. apply located_refused. }
  destruct Href as [Hc Hl|l Hl Ha|l Hl Ha Hup Hno|l Hl Ha Hup Hyes Hst|l Hl Ha Hup Hst|l k Hl Ha Hup Hst Hk
    |l Hl Ha Hup Hst Hacc|g k Hsel Ha|g k Hsel Ha Hst|g k x Hsel Ha Hst Hx|g k Hsel Ha Hst Hacc].
  - by apply checkRequest_unlocated.
  - by apply checkRequest_unruled.
  - by eapply checkRequest_unruled.
  - apply (Hgranted l); [done|done|by rewrite Hyes, andb_false_r|]. unfold located_status. rewrite Hup.
    by apply checkRessourcePath_no_dir.
  - apply (Hgranted l); [done|done|by rewrite Hup|]. unfold located_status. rewrite Hup.
    by apply checkRessourcePath_missing.
  - apply (Hgranted l); [done|done|by rewrite Hup|]. unfold located_status. rewrite Hup.
    apply (checkRessourcePath_forbidden _ _ _ k); [done|done|by left].
  - apply (Hgranted l); [done|done|by rewrite Hup|]. unfold located_status. rewrite Hup.
    apply (checkRessourcePath_forbidden _ _ _ RegularFile); [done|done|by right].
  - pose proof (checkRequest_unscripted fs h g k e r RES_METHOD_NOT_ALLOWED He Hsel) as H. rewrite Ha in H.
    apply H; try done. unfold script_status. by rewrite Ha.
  - pose proof (checkRequest_unscripted fs h g k e r RES_NOT_FOUND He Hsel) as H. rewrite Ha in H.
    apply H; try done. unfold script_status. rewrite Ha. by apply checkRessourcePath_missing.
  - pose proof (checkRequest_unscripted fs h g k e r RES_FORBIDDEN He Hsel) as H. rewrite Ha in H.
    apply H; try done. unfold script_status. rewrite Ha. apply (checkRessourcePath_forbidden _ _ _ x); [done|done|by left].
  - pose proof (checkRequest_unscripted fs h g k e r RES_FORBIDDEN He Hsel) as H. rewrite Ha in H.
    apply H; try done. unfold script_status. rewrite Ha. apply (checkRessourcePath_forbidden _ _ _ RegularFile); [done|done|by right].
Qed.

Lemma refusal_status fs h e s allow : refusal fs h e s allow -> s ∈ rejections.
Proof. unfold rejections. intros []; rewrite !elem_of_cons; auto. Qed.

(** ** The page *)

Definition refusal_hints (allow : option (list str)) : list (str * str) :=
  allow_field allow ++ [(`s"connection", `s"close"); (`s"content-type", `s"text/html")].

Lemma built_refusal allow date page :
  built_as None date (itostr (zlen page)) (refusal_hints allow) = refusal_fields allow date page.
Proof.
  unfold refusal_fields, refusal_hints. generalize (itostr (zlen page)). intros len.
  destruct allow as [names|]; cbn [allow_field]; [generalize (comma_list names); intros v|]; vm_compute; reflexivity.
Qed.

(** What [fillResponse] makes of the hints of a refusal. *)
Lemma fillResponse_refused dep h s allow e r :
  refused e s allow r -> s ∈ rejections ->
  let r0 := fillResponse dep (Some h) (set_rstatus s r) in let h0 := resHints r0 in
  read_as e r0 /\ (rh_status h0 = s /\ rh_path h0 = error_page h s /\ rh_method h0 = ex_code e) /\
  (rh_cookies h0 = [] /\ rh_index h0 = 0) /\ rh_headers h0 = refusal_hints allow.
Proof.
  intros [Hr Hh Hc Hi Ha] Hs.
  assert (s = RES_METHOD_NOT_ALLOWED \/ s = RES_FORBIDDEN \/ s = RES_NOT_FOUND \/ s = RES_REQUEST_ENTITY_TOO_LARGE) as Hs'
    by (unfold rejections in Hs; rewrite !elem_of_cons, elem_of_nil in Hs; tauto).
  set (r1 := set_rstatus s r). set (r2 := on_hints (fillErrorPage dep (Some h)) r1).
  set (r3 := fillAdditionnalHeaders r2). set (r4 := on_hints fillVerboseError r3).
  pose (last x := on_hints (fun h => h <| rh_type := req_type x |> <| rh_extension := uri_extension (rh_parsedUri h) |>
                                       <| rh_method := req_method x |>) x).
  assert (fillResponse dep (Some h) r1 = last r4) as -> by reflexivity.
  assert (read_as e r2 /\ rh_status (resHints r2) = s /\ rh_path (resHints r2) = error_page h s /\
    rh_cookies (resHints r2) = [] /\ rh_index (resHints r2) = 0 /\
    rh_headers (resHints r2) = [(`s"content-type", `s"text/html")] /\
    rh_locationRules (resHints r2) = rh_locationRules (resHints r) /\ rh_cgiRules (resHints r2) = rh_cgiRules (resHints r))
    as (E1 & E2 & E3 & E4 & E5 & E6 & E7 & E8).
  { unfold r2, on_hints, fillErrorPage. change (rh_status (resHints r1)) with s.
    assert (((400 <? s) && (s <? 418)) || (s =? 505) = true) as -> by (by destruct Hs' as [->|[->|[->| ->]]]).
    split; [exact Hr|]. cbn [resHints upd]. unfold set_header. cbn [rh_headers upd].
    change (rh_headers (resHints r1)) with (rh_headers (resHints r)). rewrite Hh.
    by split_and!. }
  assert (read_as e r3 /\ rh_status (resHints r3) = s /\ rh_path (resHints r3) = error_page h s /\
    rh_cookies (resHints r3) = [] /\ rh_index (resHints r3) = 0 /\
    rh_headers (resHints r3) = [(`s"connection", `s"close"); (`s"content-type", `s"text/html")] /\
    rh_locationRules (resHints r3) = rh_locationRules (resHints r) /\ rh_cgiRules (resHints r3) = rh_cgiRules (resHints r))
    as (F1 & F2 & F3 & F4 & F5 & F6 & F7 & F8).
  { unfold r3, fillAdditionnalHeaders. rewrite E2.
    assert ((200 <=? s) && (s <? 300) = false) as -> by (by destruct Hs' as [->|[->|[->| ->]]]).
    clearbody r2. split; [exact E1|]. unfold on_hints, set_header. cbn [resHints upd rh_headers rh_status rh_path rh_cookies rh_index].
    by rewrite E6. }
  clearbody r3.
  assert (read_as e r4 /\ rh_status (resHints r4) = s /\ rh_path (resHints r4) = error_page h s /\
    rh_cookies (resHints r4) = [] /\ rh_index (resHints r4) = 0 /\ rh_headers (resHints r4) = refusal_hints allow)
    as (G1 & G2 & G3 & G4 & G5 & G6).
  { unfold r4. rewrite Ha. unfold fillVerboseError, on_hints. rewrite F2, F7, F8. destruct Hs' as [->|Hs'].
    2: { destruct Hs' as [->|[->| ->]]; by split_and!. }
    - change (RES_METHOD_NOT_ALLOWED =? RES_METHOD_NOT_ALLOWED) with true. cbv iota zeta. rewrite allows_loop_list.
      fold (from_option loc_methods INT32_MAX (rh_locationRules (resHints r))).
      fold (from_option cgi_methods INT32_MAX (rh_cgiRules (resHints r))).
      generalize (granted_methods (from_option loc_methods INT32_MAX (rh_locationRules (resHints r)))
        (from_option cgi_methods INT32_MAX (rh_cgiRules (resHints r)))). intros names.
      split; [exact F1|]. unfold set_header. cbn [resHints upd rh_headers rh_status rh_path rh_cookies rh_index].
      rewrite F6. by split_and!. }
  assert (read_as e r4 /\ req_method r4 = ex_code e) as [_ G7] by (split; [exact G1|apply (proj2 G1)]).
  clearbody r4. split; [exact G1|]. split; [split; [exact G2|split; [exact G3|exact G7]]|].
  split; [split; [exact G4|exact G5]|exact G6].
Qed.

Lemma error_page_nonempty h s : is_empty (error_page h s) = false.
Proof. apply is_empty_false. unfold error_page. intros [_ [_ ?]%app_eq_nil]%app_eq_nil. done. Qed.

(** ** The turns *)

(** Bytes that are decided in one turn, which queues the answer: until then
    nothing happens, and writable turns send it. *)
Lemma answered_session close rest resp (P : list event -> Prop) dep ws w f c :
  close = true \/ undecided rest -> resp <> [] ->
  idle c -> Forall wakeup_ok (ws ++ [w]) -> w_in w = true -> unsettled [] ws ->
  (forall i, w_in (f i) = false /\ w_out (f i) = true /\ wakeup_ok (f i)) ->
  (forall c1, reading (arrived ws) c1 -> seat c1 = seat c -> os_read (w_os w) = Some (arrives w) -> arrives w <> [] ->
     exists c2 l, client_event (w_os w) dep false true (w_out w) c1 = Ret c2 /\ draining close rest c2 /\
       concat (cl_outBuffers c2) = resp /\ cl_log c2 = cl_log c1 ++ l /\ P l) ->
  exists n c' l new,
    play dep ((ws ++ [w]) ++ map f (seq 0 n)) c = Ret c' /\ cl_log c' = cl_log c ++ l ++ new /\ P l /\
    Forall harmless new /\ sent new = resp /\ over close rest c'.
Proof.
  intros Hcl Hresp Hc [Hws Hw]%Forall_app Ein Hu Hf Hturn. apply Forall_inv in Hw.
  destruct (wakeup_input w Hw Ein) as [Hi Hne].
  destruct (read_undecided dep ws [] c (idle_reading c Hc) Hws Hu) as (c1 & H1 & H2 & H3 & H4).
  rewrite app_nil_l in H2. destruct (Hturn c1 H2 H4 Hi Hne) as (c2 & l & G1 & G2 & G3 & G4 & G5).
  assert (cl_outBuffers c2 <> []) as Hb by (intros Eb; by rewrite Eb in G3).
  destruct (response_drain close rest dep (cl_outBuffers c2) f c2 Hcl G2 eq_refl Hb Hf)
    as (c3 & new & K1 & K2 & K3 & K4 & K5).
  exists (length (cl_outBuffers c2)), c3, l, new.
  rewrite play_app, play_app, H1. cbn [mbind outcome_bind play]. rewrite (rd_live _ _ H2), Ein, G1.
  cbn [mbind outcome_bind]. rewrite K1. split; [done|].
  split; [rewrite K2, G4, H3; by rewrite <- !(assoc_L (++))|]. by rewrite K4, G3.
Qed.

(** The same when the connection is closed and nothing else touched. *)
Lemma closing_session rest resp dep ws w f c :
  resp <> [] -> idle c -> Forall wakeup_ok (ws ++ [w]) -> w_in w = true -> unsettled [] ws ->
  (forall i, w_in (f i) = false /\ w_out (f i) = true /\ wakeup_ok (f i)) ->
  (forall c1, reading (arrived ws) c1 -> seat c1 = seat c -> os_read (w_os w) = Some (arrives w) -> arrives w <> [] ->
     exists c2 l, client_event (w_os w) dep false true (w_out w) c1 = Ret c2 /\ draining true rest c2 /\
       concat (cl_outBuffers c2) = resp /\ cl_log c2 = cl_log c1 ++ l /\ Forall harmless l /\ sent l = []) ->
  exists n c' new,
    play dep ((ws ++ [w]) ++ map f (seq 0 n)) c = Ret c' /\
    cl_log c' = cl_log c ++ new /\ Forall harmless new /\ sent new = resp /\ cl_terminated c' = true.
Proof.
  intros Hresp Hc Hws Ein Hu Hf Hturn.
  destruct (answered_session true rest resp (fun l => Forall harmless l /\ sent l = []) dep ws w f c
    (or_introl eq_refl) Hresp Hc Hws Ein Hu Hf Hturn) as (n & c' & l & new & H1 & H2 & [H3 H4] & H5 & H6 & H7).
  exists n, c', (l ++ new). split; [done|]. split; [done|]. split; [by apply Forall_app|].
  split; [by rewrite sent_app, H4, H6|done].
Qed.

(** The response [a] to the request [r], as [handleClientResponse] leaves it. *)
Definition responds (os : os_answers) (dep : str) (s : Z) (conn resp : str) (c : Client) : Prop :=
  exists r a bs,
    handleClientResponse os dep c s =
      Ret (0, c <| cl_request := Some r |> <| cl_outBuffers := bs |> <| cl_response := Some a |>
                <| cl_mode := CLIENT_MODE_WRITE |>) /\
    getStatus a <> RES_CONTINUE /\ om_find i_less (`s"connection") (rh_headers (resHints r)) = Some conn /\
    concat bs = resp /\ Forall portion_ok bs.

Lemma responds_draining os dep s conn resp p c :
  responds os dep s conn resp c -> cl_cgiProcess c = None -> cl_bodyStream c = None ->
  cl_terminated c = false -> cl_buffer c = p ->
  exists c', handleClientResponse os dep c s = Ret (0, c') /\ draining (str_eqb conn (`s"close")) p c' /\
    concat (cl_outBuffers c') = resp /\ cl_log c' = cl_log c.
Proof.
  intros (r & a & bs & H1 & H2 & H3 & H4 & H5) K2 K3 K4 K5. eexists. split; [exact H1|].
  split; [|by split]. split; try done; [by eexists|by left|by exists r, conn].
Qed.

(** What [handleRequestHeaders] makes of the head: a status of its own. *)
Definition verdict (os : os_answers) (e : exchange) (h : Host) (s : Z) (K : Request -> Prop) : Prop :=
  forall c r, read_as e r -> _uri r = ex_uri e -> resHints r = ResHints_init -> cl_request c = Some r ->
    host_for (ex_name e) (cl_hostMap c) (cl_host c) = Some h ->
    exists r' binds, handleRequestHeaders os c = Ret (s, set_request r' (bound h binds c)) /\ K r' /\
      Forall harmless binds /\ sent binds = [].

Lemma verdict_of_host os e h s (K : Request -> Prop) :
  bodiless e -> s <> 0 ->
  (forall r, read_as e r -> resHints r = ResHints_init <| rh_parsedUri := ex_parsed e |> ->
     exists r', checkRequest (os_fs os) h r = Ret (s, r') /\ K r') ->
  verdict os e h s K.
Proof.
  intros He Hs Hjudge c r Hr Hu Hi Hc Hh. set (r1 := set_parsedUri (ex_parsed e) r).
  destruct (headers_judged os c e r h He Hr Hu Hi Hc Hh) as (binds & Hb1 & Hb2 & Hj). fold r1 in Hj.
  destruct (Hjudge r1 Hr) as (r2 & Hch & HK).
  { change (resHints r1) with ((resHints r) <| rh_parsedUri := ex_parsed e |>). by rewrite Hi. }
  exists r2, binds. split; [|by split]. rewrite Hj.
  exact (host_refuses os (set_request r1 (bound h binds c)) h s r2 eq_refl Hch Hs).
Qed.

Lemma verdict_too_large os e h n :
  head_ok e -> getHeader (`s"content-length") (ex_head e) = itostr n -> 0 <= n <= INT32_MAX -> h_body_max_size h < n ->
  verdict os e h RES_REQUEST_ENTITY_TOO_LARGE (refused e RES_REQUEST_ENTITY_TOO_LARGE None).
Proof.
  intros He Hlen Hn Hmax c r Hr Hu Hi Hc Hh. set (r1 := set_parsedUri (ex_parsed e) r).
  destruct (headers_front os c e r h He Hr Hu Hi Hc Hh) as (binds & Hb1 & Hb2 & ->). fold r1.
  exists (set_rstatus RES_REQUEST_ENTITY_TOO_LARGE r1), binds. split; [|split; [|by split]].
  - set (c1 := set_request r1 (bound h binds c)). assert (read_as e r1) as Hr1 by exact Hr.
    unfold andthen, checkBodyLength. change (the_request c1) with r1. change (cl_host c1) with (Some h).
    destruct (read_as_header e r1 (`s"content-length") Hr1) as [-> ->].
    assert (checkHeader (`s"content-length") (ex_head e) = true) as ->.
    { destruct (checkHeader (`s"content-length") (ex_head e)) eqn:Ech; [done|]. apply missing_is_empty in Ech.
      rewrite Hlen in Ech. destruct (IntToString_spec 10 n) as (Hne & _); [by left|lia|].
      unfold itostr in Ech. by rewrite Ech in Hne. }
    rewrite Hlen. unfold itostr. rewrite getInt_print by (by left || lia). cbn [snd deref mbind outcome_bind].
    rewrite (proj2 (Z.ltb_lt _ _)) by done. reflexivity.
  - apply refused_plain; [exact Hr| |done].
    split_and!; [change (rh_headers (resHints r) = [])|change (rh_cookies (resHints r) = [])|
      change (rh_index (resHints r) = 0)]; by rewrite Hi.
Qed.

(** The turn in which the head of a request is complete that is answered with
    such a status. *)
Lemma judged_turn (K : Request -> Prop) os dep out e h s conn resp p s1 rest c :
  head_ok e -> reading p c -> os_read os = Some s1 -> s1 <> [] -> p ++ s1 = ex_bytes e ++ rest ->
  host_for (ex_name e) (cl_hostMap c) (cl_host c) = Some h -> 0 < s -> verdict os e h s K ->
  (forall c r, K r -> cl_host c = Some h -> cl_request c = Some r -> cl_response c = None -> cl_outBuffers c = [] ->
     responds os dep s conn resp c) ->
  exists c' binds, client_event os dep false true out c = Ret c' /\ draining (str_eqb conn (`s"close")) rest c' /\
    concat (cl_outBuffers c') = resp /\ cl_log c' = cl_log c ++ binds /\ Forall harmless binds /\ sent binds = [].
Proof.
  intros Hd Hc Hi Hne E Hh Hs0 Hjudge Hrespond.
  destruct (read_to_headers os p s1 c true e rest Hc Hi (fun _ => Hne) Hd E)
    as (r & c1 & [Q1 Hr1 Q2 Q3 _ [Q4 Q5] (Q6 & Q7 & Q8 & Q9 & Q10 & Q11) Q12 Q13 Q14] & Hin).
  rewrite <- Q4, <- Q5 in Hh. destruct (Hjudge c1 r Hr1 Q2 Q3 Q1 Hh) as (r2 & binds & Hj & HK & Hb1 & Hb2).
  set (c3 := set_request r2 (bound h binds c1)) in Hj.
  assert (cl_mode c3 = cl_mode c1 /\ cl_cgiProcess c3 = cl_cgiProcess c1 /\ cl_bodyStream c3 = cl_bodyStream c1 /\
    cl_terminated c3 = cl_terminated c1 /\ cl_buffer c3 = cl_buffer c1 /\ cl_log c3 = cl_log c1 ++ binds)
    as (K1 & K2 & K3 & K4 & K5 & K6) by done.
  destruct (responds_draining os dep s conn resp rest c3 (Hrespond c3 r2 HK eq_refl eq_refl Q8 Q9))
    as (c4 & G1 & G2 & G3 & G4); [congruence..|].
  exists c4, binds. split; [|split; [done|split; [done|split; [congruence|done]]]].
  unfold client_event, handleClientEvent. rewrite (rd_mode _ _ Hc).
  change (false || (CLIENT_MODE_READ =? CLIENT_MODE_ERROR)) with false. cbn [orb andb].
  change (CLIENT_MODE_READ =? CLIENT_MODE_READ) with true. cbv iota. rewrite Hin, Hj. cbn [mbind outcome_bind].
  rewrite (proj2 (Z.eqb_neq s 0)) by lia. cbn [negb mbind outcome_bind]. rewrite (proj2 (Z.ltb_lt _ _) Hs0), G1.
  reflexivity.
Qed.

(** A request that is answered with such a status, from end to end. *)
Lemma judged_session (K : Request -> Prop) dep e h s resp ws w q rest f c :
  resp <> [] -> idle c -> head_ok e -> host_for (ex_name e) (cl_hostMap c) (cl_host c) = Some h -> 0 < s ->
  verdict (w_os w) e h s K ->
  (forall c r, K r -> cl_host c = Some h -> cl_request c = Some r -> cl_response c = None -> cl_outBuffers c = [] ->
     responds (w_os w) dep s (`s"close") resp c) ->
  Forall wakeup_ok (ws ++ [w]) -> w_in w = true ->
  ex_bytes e = arrived ws ++ q -> q <> [] -> arrives w = q ++ rest ->
  (forall i, w_in (f i) = false /\ w_out (f i) = true /\ wakeup_ok (f i)) ->
  exists n c' new,
    play dep ((ws ++ [w]) ++ map f (seq 0 n)) c = Ret c' /\
    cl_log c' = cl_log c ++ new /\ Forall harmless new /\ sent new = resp /\ cl_terminated c' = true.
Proof.
  intros Hresp Hc He Hh Hs Hjudge Hrespond Hws Ein E Hq Hx Hf.
  apply (closing_session rest); try done; [by eapply undecided_unsettled, undecided_head|].
  intros c1 Hrd [= S1 S2] Hi Hne. rewrite <- S1, <- S2 in Hh.
  apply (judged_turn K (w_os w) dep (w_out w) e h s (`s"close") resp (arrived ws) (arrives w) rest c1); try done.
  by rewrite Hx, (assoc_L (++)), E.
Qed.

(** The answer to a refusal. *)
Lemma respond_refusal os dep c h s allow e r page :
  refused e s allow r -> s ∈ rejections ->
  has_file (os_fs os) (error_page h s) page -> cl_host c = Some h ->
  cl_request c = Some r -> cl_response c = None -> cl_outBuffers c = [] ->
  responds os dep s (`s"close") (refusal_response s allow (os_date os) page e) c.
Proof.
  intros Hrf Hs Hpage Hh Hc Ha Ho.
  assert (s <> 100 /\ s <> RES_OK /\ s <> 0 /\ (s <? 400) = false) as (H100 & Hok & H0 & H400).
  { unfold rejections in Hs. rewrite !elem_of_cons, elem_of_nil in Hs. by destruct Hs as [->|[->|[->|[->|[]]]]]. }
  destruct (fillResponse_refused dep h s allow e r Hrf Hs) as (F1 & (F2 & F3 & F4) & (F5 & F6) & F7).
  assert (fillResponse dep (cl_host c) (if negb (s =? 0) then set_rstatus s r else r) =
    fillResponse dep (Some h) (set_rstatus s r)) as Hfill by (by rewrite Hh, (proj2 (Z.eqb_neq _ _) H0)).
  set (r0 := fillResponse dep (Some h) (set_rstatus s r)) in *. clearbody r0.
  assert (page_type (resHints r0) = None) as Hpt by (unfold page_type; by rewrite F2, H400).
  destruct (generate_page os dep c s r r0 page Hfill) as (hh & bs & G1 & G2 & G3 & G4 & _);
    rewrite ?F2, ?F3, ?F5, ?F6; try done; [apply error_page_nonempty|split; [done|apply zlen_nonneg]|].
  rewrite Hpt, F6, F7, Z.sub_0_r, built_refusal in G2, G3. rewrite F2, F4 in G3. rewrite F2, F6 in G1.
  exists (r0 <| resHints := hh |>), (FileResponse s page), bs. split; [|split; [exact H100|split; [|split; [exact G3|exact G4]]]].
  - unfold handleClientResponse. rewrite (getRequest_some _ _ _ Hc), (proj2 (Z.eqb_neq _ _) Hok), orb_true_r. exact G1.
  - change (rh_headers (resHints (r0 <| resHints := hh |>))) with (rh_headers hh). rewrite G2.
    by destruct allow as [names|].
Qed.

(** ** Theorem *)

(** C6: A rejection from end to end. An idle client sends a well-formed request (a
    head within one buffer, a plain path and query, no Expect header, no feature
    the server lacks), cut into reads in any way, that its host has a reason to
    reject: no location for the path, a method or an upload that the rules
    exclude, a file, directory or script that is missing, of the wrong kind or
    unreadable, a body longer than the host takes; the peer stays connected and
    the socket takes what one write offers, and the host's page for the status can
    be read. Then the answer is that page with the status of that reason, which
    names the methods allowed when the method is the reason; nothing outside the
    connection is touched; and the connection is closed, whatever the request
    asked for and whatever followed its head. *)
Theorem refusal_correct dep e h s allow page ws w q rest f c :
  idle c -> head_ok e -> host_for (ex_name e) (cl_hostMap c) (cl_host c) = Some h ->
  rejection (os_fs (w_os w)) h e s allow -> has_file (os_fs (w_os w)) (error_page h s) page ->
  Forall wakeup_ok (ws ++ [w]) -> w_in w = true ->
  ex_bytes e = arrived ws ++ q -> q <> [] -> arrives w = q ++ rest ->
  (forall i, w_in (f i) = false /\ w_out (f i) = true /\ wakeup_ok (f i)) ->
  exists n c' new,
    play dep ((ws ++ [w]) ++ map f (seq 0 n)) c = Ret c' /\
    cl_log c' = cl_log c ++ new /\ Forall harmless new /\
    sent new = refusal_response s allow (os_date (w_os w)) page e /\ cl_terminated c' = true.
Proof.
  intros Hc He Hh Href Hpage.
  assert (s ∈ rejections /\ 0 < s /\ verdict (w_os w) e h s (refused e s allow)) as (Hs & H0 & Hv).
  { destruct Href as [s allow Hb Href|n H1 H2 H3].
    - pose proof (refusal_status _ _ _ _ _ Href) as Hs. split; [done|].
      assert (0 < s) as H0 by (unfold rejections in Hs; rewrite !elem_of_cons, elem_of_nil in Hs;
        by destruct Hs as [->|[->|[->|[->|[]]]]]).
      split; [done|]. apply (verdict_of_host _ _ _ _ _ Hb); [lia|]. intros r Hr Hi.
      apply checkRequest_refused; [done|done|done|unfold plain_hints; by rewrite Hi|by rewrite Hi].
    - split; [unfold rejections; rewrite !elem_of_cons; auto|]. split; [done|]. by apply (verdict_too_large _ _ _ n). }
  apply (judged_session (refused e s allow) dep e h s); try done.
  intros c0 r Hrf H1 H2 H3 H4. by eapply respond_refusal.
Qed.

Definition demo_put : exchange :=
  mkExchange (`s"PUT") [`s"a.txt"] None [(`s"Host", `s"demo"); (`s"Connection", `s"keep-alive")] [].
Definition demo_page : str := `s"<p>no</p>".
Definition demo_refusal_os (input : str) : os_answers :=
  mkOs (Some input) 1000000 Running 7 0 (`s"now") (fun _ => `s"./tmp/_1")
    (mkFilesystem (fun p => if str_eqb p (`s"/err/405.html") then Some RegularFile else fs_stat demo_fs p) (fs_access demo_fs)
       (fun _ => zlen demo_page) (fun p => if str_eqb p (`s"/err/405.html") then Some demo_page else None) (fun _ => None))
    (fun _ => true).
Definition demo_put_first : list wakeup := [mkWakeup true true (demo_refusal_os (take 10 (ex_bytes demo_put)))].
Definition demo_put_last : wakeup := mkWakeup true true (demo_refusal_os (drop 10 (ex_bytes demo_put) ++ `s"junk")).
Definition demo_put_write : wakeup := mkWakeup false true (demo_refusal_os []).
Definition demo_allowed : list str := granted_methods (loc_methods demo_location) INT32_MAX.

Example refusal_ex : run_or []
  (c ← play [] ((demo_put_first ++ [demo_put_last]) ++ [demo_put_write; demo_put_write; demo_put_write]) demo_client; Ret (cl_log c)) =
  let bytes := refusal_response 405 (Some demo_allowed) (`s"now") demo_page demo_put in
  [EvBind (`s"demo"); EvWrite (take (length bytes - 9) bytes); EvWrite demo_page; EvUnbind; EvClose].
Proof. vm_compute. reflexivity. Qed.

Lemma demo_put_ok : bodiless demo_put.
Proof. split; [split|..]; check_head. Qed.

Lemma refusal_correct_witness :
  let rest := `s"junk" in
  exists n c' new,
    play [] ((demo_put_first ++ [demo_put_last]) ++ map (fun _ => demo_put_write) (seq 0 n)) demo_client = Ret c' /\
    cl_log c' = cl_log demo_client ++ new /\ Forall harmless new /\
    sent new = refusal_response RES_METHOD_NOT_ALLOWED (Some demo_allowed) (os_date (w_os demo_put_last)) demo_page demo_put /\
    cl_terminated c' = true.
Proof.
  apply (refusal_correct [] demo_put demo_server RES_METHOD_NOT_ALLOWED (Some demo_allowed) demo_page
    demo_put_first demo_put_last (drop 10 (ex_bytes demo_put)) (`s"junk") (fun _ => demo_put_write) demo_client).
  - apply Client_init_idle.
  - apply (bl_head _ demo_put_ok).
  - vm_compute. reflexivity.
  - apply (host_refusal _ _ _ _ _ demo_put_ok). apply (method_refused _ _ _ demo_location); [split_and!; vm_compute; reflexivity|vm_compute; reflexivity].
  - split_and!; vm_compute; reflexivity.
  - repeat apply Forall_cons_2; [..|apply Forall_nil_2]; eexists; (split; [reflexivity|discriminate]).
  - reflexivity.
  - vm_compute. reflexivity.
  - vm_compute. discriminate.
  - reflexivity.
  - intros i. split; [reflexivity|]. split; [reflexivity|]. vm_compute. discriminate.
Defined.
