(* ===== verification/Generated.v ===== *)
(** * Generated: the answers the server writes itself

    The parts of the server composed on one client, as in [Session], for the
    requests that are not answered by a file: redirections, and deletions. *)

From S2P Require Import Prelude CxxString OrdMap Format Http RequestHeaders RequestBody RequestUri Host Response Cgi Client Control ControlFacts Session Script Refusal.
#[local] Open Scope Z_scope.

(** ** Writing an answer *)

(** What the hints say of the answer: where to go instead, and the body. *)
Definition written (h : ResHints) : outcome exn (option str * str) :=
  if Z.quot (rh_status h) 100 =? 3 then
    front ← redir_front h;
    redir ← getRedirPath front (uri_filename (rh_parsedUri h));
    body ← generateRedirBody h;
    Ret (Some redir, body)
  else Ret (None, generateVerboseBody h).

(** The hints the body depends on. *)
Definition topic (h : ResHints) : Z * option (list str) * URI * str :=
  (rh_status h, rh_redirList h, rh_parsedUri h, rh_verboseError h).

Lemma topic_body h h' : topic h = topic h' ->
  generateRedirBody h = generateRedirBody h' /\ generateVerboseBody h = generateVerboseBody h' /\
  redir_front h = redir_front h'.
Proof.
  unfold topic. intros [= E1 E2 E3 E4].
  unfold generateRedirBody, generateListBody, generateSimpleRedirBody, generateVerboseBody, redir_front, status_line.
  by rewrite E1, E2, E3, E4.
Qed.

(** The headers of such an answer, from those of the hints. *)
Definition built_text (location : option str) (date len : str) (m : list (str * str)) : list (str * str) :=
  let m := om_assign i_less (`s"Date") date
    (om_assign i_less (`s"Accept-Ranges") (`s"none")
      (om_assign i_less (`s"Accept-Encoding") (`s"identity") m)) in
  let m := fold_left (fun m e => om_update i_less e.1 (default e.2) m) m m in
  let m := match location with Some l => om_assign i_less (`s"Location") l m | None => m end in
  om_assign i_less (`s"Content-Type") (`s"text/html") (om_assign i_less (`s"Content-Length") len m).

Lemma addHintHeaders_topic date h :
  topic (addHintHeaders (addUniversalHeaders date h)) = topic h /\
  rh_type (addHintHeaders (addUniversalHeaders date h)) = rh_type h.
Proof. done. Qed.

Lemma genResponse_text fs date hf location body :
  rh_status hf <> 100 -> rh_path hf = [] -> (rh_status hf = RES_OK -> rh_type hf <> REQ_TYPE_DIR) ->
  written hf = Ret (location, body) ->
  exists h, genResponse fs date hf = Ret (DynamicResponse (rh_status hf) body, h) /\
    rh_headers h = built_text location date (itostr (zlen body)) (rh_headers hf) /\
    rh_method h = rh_method hf /\ rh_cookies h = rh_cookies hf.
Proof.
  intros Hst Hp Htype Hw. destruct (addHintHeaders_frame date hf) as (Eh & Em & Ec & Es & Ex & Ep & Ei & Eu).
  destruct (addHintHeaders_topic date hf) as [Et Ey].
  unfold genResponse. rewrite Hp, (proj2 (Z.eqb_neq (rh_status hf) 100)) by done.
  cbn [is_empty orb]. set (h := addHintHeaders _) in *. clearbody h.
  destruct (topic_body _ _ Et) as (T1 & T2 & T3).
  assert (uri_filename (rh_parsedUri h) = uri_filename (rh_parsedUri hf)) as Ef by (unfold topic in Et; congruence).
  unfold addSpecificHeaders, generateBody. rewrite Es. unfold written in Hw.
  destruct (Z.quot (rh_status hf) 100 =? 3) eqn:E3.
  - assert ((rh_status hf =? RES_OK) = false) as Eok by (apply Z.eqb_neq; intros E; by rewrite E in E3).
    rewrite T3, Ef. destruct (redir_front hf) as [front|x| |]; try done. cbn [throwing map_exn mbind outcome_bind] in Hw |- *.
    destruct (getRedirPath _ _) as [redir|x| |]; try done. cbn [throwing map_exn mbind outcome_bind] in Hw |- *.
    set (h1 := addHeader (`s"Location") redir h).
    assert (topic h1 = topic hf) as Et1 by exact Et. destruct (topic_body _ _ Et1) as (-> & _).
    assert (rh_status h1 = rh_status hf) as Es1 by exact Es. rewrite Es1. rewrite E3, Eok. cbn [andb].
    destruct (generateRedirBody hf) as [b|x| |]; try done. cbn [throwing map_exn mbind outcome_bind] in Hw |- *.
    injection Hw as <- <-. rewrite <- Es. eexists. split; [reflexivity|].
    unfold built_text. rewrite <- Eh. by split_and!.
  - injection Hw as <- <-. cbn [throwing map_exn mbind outcome_bind]. rewrite Es, E3, T2, Ey.
    assert ((rh_status hf =? RES_OK) && (rh_type hf =? REQ_TYPE_DIR) = false) as ->.
    { destruct (Z.eqb_spec (rh_status hf) RES_OK); [|done]. apply Z.eqb_neq. auto. }
    cbn [throwing map_exn mbind outcome_bind]. rewrite <- Es. eexists. split; [reflexivity|].
    unfold built_text. rewrite <- Eh. by split_and!.
Qed.

Definition connection_for (s : Z) (e : exchange) : str := if s <? 300 then ex_connection e else `s"close".

(** An answer is written for the hints [r0] of the request. *)
Lemma generate_written os dep c s r r0 location body :
  fillResponse dep (cl_host c) (set_rstatus s r) = r0 -> 100 < s -> rh_status (resHints r0) = s ->
  (s = RES_OK -> rh_type (resHints r0) <> REQ_TYPE_DIR) -> rh_path (resHints r0) = [] -> rh_cookies (resHints r0) = [] ->
  written (resHints r0) = Ret (location, body) ->
  cl_request c = Some r -> cl_response c = None -> cl_outBuffers c = [] ->
  let fields := built_text location (os_date os) (itostr (zlen body)) (rh_headers (resHints r0)) in
  exists r' bs,
    generateResponse os dep c s =
      Ret (0, c <| cl_request := Some r' |> <| cl_outBuffers := bs |>
                <| cl_response := Some (DynamicResponse s body) |> <| cl_mode := CLIENT_MODE_WRITE |>) /\
    rh_headers (resHints r') = fields /\
    concat bs = wire s fields (if rh_method (resHints r0) =? HEAD then [] else body) /\ Forall portion_ok bs.
Proof.
  intros Hfill Hs Es Ht Hp Hck Hw Hc Ha Ho fields.
  assert (the_request c = r) as Hc' by (unfold the_request; by rewrite Hc).
  unfold generateResponse. cbn [generateResponse_]. rewrite (getRequest_some _ _ _ Hc), Ha, Hc'. cbv zeta.
  rewrite (proj2 (Z.eqb_neq s 0)) by lia. cbn [negb]. rewrite Hfill.
  destruct (genResponse_text (os_fs os) (os_date os) (resHints r0) location body) as (h & -> & G1 & G2 & G3);
    [lia|exact Hp|by rewrite Es|exact Hw|].
  rewrite Hck in G3. fold fields in G1. rewrite Es.
  destruct (writeResponse_spec (DynamicResponse s body) h) as [Hwr Hpo].
  exists (r0 <| resHints := h |>), (writeResponse (DynamicResponse s body) h).
  split.
  { match goal with |- context [cl_outBuffers ?x ++ _] => change (cl_outBuffers x) with (cl_outBuffers c) end.
    by rewrite Ho. }
  split; [exact G1|]. split; [|exact Hpo].
  rewrite Hwr, G2. cbn [head_of body_of getStatus]. by rewrite (formatHeaders_plain _ _ _ G3), G1.
Qed.

(** For a request without error. *)
Lemma generate_text os dep c s r e location body :
  read_as e r -> 200 <= s < 400 -> (s = RES_OK -> req_type r <> REQ_TYPE_DIR) ->
  rh_path (resHints r) = [] -> rh_cookies (resHints r) = [] ->
  written (resHints (set_rstatus s r)) = Ret (location, body) ->
  cl_request c = Some r -> cl_response c = None -> cl_outBuffers c = [] ->
  let fields := built_text location (os_date os) (itostr (zlen body))
    (om_assign i_less (`s"connection") (connection_for s e) (rh_headers (resHints r))) in
  exists r' bs,
    generateResponse os dep c s =
      Ret (0, c <| cl_request := Some r' |> <| cl_outBuffers := bs |>
                <| cl_response := Some (DynamicResponse s body) |> <| cl_mode := CLIENT_MODE_WRITE |>) /\
    rh_headers (resHints r') = fields /\
    concat bs = wire s fields (if ex_code e =? HEAD then [] else body) /\ Forall portion_ok bs.
Proof.
  intros Hr Hs Ht Hp Hck Hw. pose proof (fillResponse_quiet dep (cl_host c) s e r Hr Hs) as Hfill.
  fold (connection_for s e) in Hfill. rewrite <- (proj2 Hr).
  apply (generate_written os dep c s r _ location body Hfill);
    [lia|reflexivity|exact Ht|exact Hp|exact Hck|exact Hw].
Qed.

(** ** Redirections *)

Definition redirects : list Z :=
  [RES_MULTIPLE_CHOICE; RES_MOVED_PERMANENTLY; RES_FOUND; RES_SEE_OTHER; RES_TEMPORARY_REDIRECT; RES_PERMANENT_REDIRECT].

(** The path selects a location that sends elsewhere. *)
Record elsewhere (h : Host) (l : Location) (e : exchange) : Prop := {
  ew_script : matchCGIConfig (ex_path e) h = None;
  ew_match : matchLocation (ex_path e) h = Some l;
  ew_status : loc_redir l ∈ redirects;
  ew_list : loc_addr_redir l <> [] /\ Forall (fun a => a <> []) (loc_addr_redir l);
}.

(** An address that ends with a slash is a directory, in which the file is meant. *)
Definition goes_to (address file : str) : str :=
  if bool_decide (last address = Some "/"%char) then address ++ file else address.

Lemma getRedirPath_goes_to address file : address <> [] -> getRedirPath address file = Ret (goes_to address file).
Proof.
  intros Ha. unfold getRedirPath, goes_to. rewrite (proj2 (is_empty_false _) Ha).
  destruct (exists_last Ha) as (a & x & ->). rewrite last_snoc.
  assert (char_at (a ++ [x]) (length (a ++ [x]) - 1) = x) as ->.
  { unfold char_at. rewrite length_app, Nat.add_sub. by rewrite nth_middle. }
  destruct (Ascii.eqb_spec x "/"%char) as [->|Hx]; [by rewrite bool_decide_eq_true_2|].
  rewrite bool_decide_eq_false_2; [done|]. by intros [=].
Qed.

(** Where a redirection leads. *)
Definition redirect_location (l : Location) (e : exchange) : str :=
  goes_to (default [] (head (loc_addr_redir l))) (uri_filename (ex_parsed e)).

(** The hints a redirection is about. *)
Definition redirect_hints (l : Location) (e : exchange) : ResHints :=
  ResHints_init <| rh_status := loc_redir l |> <| rh_parsedUri := ex_parsed e |>
    <| rh_redirList := Some (loc_addr_redir l) |>.

Lemma list_items_total l file : Forall (fun a => a <> []) l -> exists items, list_items l file = Ret items.
Proof.
  induction 1 as [|a l Ha Hl [items IH]]; [by eexists|]. cbn [list_items].
  rewrite (getRedirPath_goes_to a file Ha), IH. cbn [mbind outcome_bind]. by eexists.
Qed.

Lemma redirect_status l : loc_redir l ∈ redirects -> Z.quot (loc_redir l) 100 = 3 /\ 300 <= loc_redir l < 400.
Proof.
  unfold redirects. rewrite !elem_of_cons, elem_of_nil.
  by intros [->|[->|[->|[->|[->|[->|[]]]]]]].
Qed.

Lemma written_redirect h l e :
  elsewhere h l e ->
  exists body, generateRedirBody (redirect_hints l e) = Ret body /\
    written (redirect_hints l e) =
      Ret (Some (redirect_location l e), body).
Proof.
  intros [_ _ Hs [Hne Hall]]. destruct (redirect_status l Hs) as [Hq _].
  unfold written. change (rh_status (redirect_hints l e)) with (loc_redir l). rewrite Hq.
  change (3 =? 3) with true. cbv iota. change (rh_parsedUri (redirect_hints l e)) with (ex_parsed e).
  destruct (loc_addr_redir l) as [|a al] eqn:El; [done|].
  assert (redir_front (redirect_hints l e) = Ret a) as Hf
    by (unfold redir_front; change (rh_redirList (redirect_hints l e)) with (Some (loc_addr_redir l)); by rewrite El).
  pose proof (Forall_inv Hall) as Ha. rewrite Hf. cbn [mbind outcome_bind].
  rewrite (getRedirPath_goes_to a _ Ha). cbn [mbind outcome_bind].
  assert (exists body, generateRedirBody (redirect_hints l e) = Ret body) as [body Hb].
  { unfold generateRedirBody. destruct (_ || _).
    - unfold generateListBody. change (rh_redirList (redirect_hints l e)) with (Some (loc_addr_redir l)). rewrite El.
      cbn [deref mbind outcome_bind].
      destruct (list_items_total (a :: al) (uri_filename (rh_parsedUri (redirect_hints l e))) Hall) as [items ->].
      cbn [mbind outcome_bind]. by eexists.
    - unfold generateSimpleRedirBody. rewrite Hf. cbn [mbind outcome_bind].
      rewrite (getRedirPath_goes_to a _ Ha). cbn [mbind outcome_bind]. by eexists. }
  exists body. split; [done|]. rewrite Hb. unfold redirect_location. by rewrite El.
Qed.

Record redirected (l : Location) (e : exchange) (r : Request) : Prop := {
  rd_read : read_as e r;
  rd_hints : plain_hints r;
  rd_path : rh_path (resHints r) = [];
  rd_topic : topic (resHints (set_rstatus (loc_redir l) r)) = topic (redirect_hints l e);
}.

Lemma checkRequest_redirected fs h l e r :
  elsewhere h l e -> plain_dirs (ex_dirs e) -> read_as e r -> resHints r = ResHints_init <| rh_parsedUri := ex_parsed e |> ->
  exists r', checkRequest fs h r = Ret (loc_redir l, r') /\ redirected l e r'.
Proof.
  intros [Hc Hl Hs _] Hd Hr Hi. assert (rh_parsedUri (resHints r) = ex_parsed e) as Hu by (by rewrite Hi).
  destruct (redirect_status l Hs) as [_ Hrange].
  set (r1 := static_request l r). assert (rh_locationRules (resHints r1) = Some l) as Hl1 by done.
  set (r2 := (set_rstatus (loc_redir l) r1) <| resHints ; rh_redirList := Some (loc_addr_redir l) |>).
  exists r2. split.
  - unfold checkRequest, check_if at 1. rewrite (matchRequest_static h e l r) by done. fold r1.
    cbn [mbind outcome_bind negb Z.eqb].
    unfold check_if at 1, has_location at 1, checkRedirection. rewrite Hl1. cbn [deref mbind outcome_bind].
    rewrite (proj2 (Z.eqb_neq (loc_redir l) 0)) by lia.
    assert (existsb (Z.eqb (loc_redir l)) redirects = true) as Hx.
    { apply existsb_exists. exists (loc_redir l). split; [by apply list_elem_of_In|apply Z.eqb_refl]. }
    unfold redirects in Hx. rewrite Hx. fold r2. change (rh_status (resHints r2)) with (loc_redir l).
    cbn [mbind outcome_bind]. by rewrite (proj2 (Z.eqb_neq (loc_redir l) 0)) by lia.
  - assert (rh_headers (resHints r) = [] /\ rh_cookies (resHints r) = [] /\ rh_index (resHints r) = 0 /\
      rh_path (resHints r) = [] /\ rh_verboseError (resHints r) = []) as (H1 & H2 & H3 & H4 & H5)
      by (by rewrite Hi).
    split; [exact Hr|by split_and!|exact H4|].
    change ((loc_redir l, Some (loc_addr_redir l), rh_parsedUri (resHints r), rh_verboseError (resHints r)) =
      (loc_redir l, Some (loc_addr_redir l), ex_parsed e, [])). by rewrite Hu, H5.
Qed.

Definition redirect_fields (date location body : str) : list (str * str) :=
  [(`s"Accept-Encoding", `s"identity"); (`s"Accept-Ranges", `s"none"); (`s"connection", `s"close");
   (`s"Content-Length", itostr (zlen body)); (`s"Content-Type", `s"text/html"); (`s"Date", date);
   (`s"Location", location)].
Definition redirect_response (l : Location) (date body : str) (e : exchange) : str :=
  wire (loc_redir l)
    (redirect_fields date (redirect_location l e) body)
    (if ex_code e =? HEAD then [] else body).

Lemma built_redirect date location body :
  built_text (Some location) date (itostr (zlen body)) (om_assign i_less (`s"connection") (`s"close") []) =
  redirect_fields date location body.
Proof. unfold redirect_fields. generalize (itostr (zlen body)). intros len. vm_compute. reflexivity. Qed.

Lemma respond_redirect os dep c h l e r body :
  elsewhere h l e -> redirected l e r -> generateRedirBody (redirect_hints l e) = Ret body ->
  cl_request c = Some r -> cl_response c = None -> cl_outBuffers c = [] ->
  responds os dep (loc_redir l) (`s"close") (redirect_response l (os_date os) body e) c.
Proof.
  intros Hl [H1 (H2 & H3 & H4) H5 H6] Hbody Hc Ha Ho. destruct (redirect_status l (ew_status _ _ _ Hl)) as [_ Hs].
  destruct (written_redirect h l e Hl) as (body' & Hb & Hw). rewrite Hbody in Hb. injection Hb as <-.
  assert (written (resHints (set_rstatus (loc_redir l) r)) = written (redirect_hints l e)) as Hw'.
  { destruct (topic_body _ _ H6) as (T1 & T2 & T3). 
    assert (rh_parsedUri (resHints (set_rstatus (loc_redir l) r)) = rh_parsedUri (redirect_hints l e)) as E3
      by (unfold topic in H6; congruence).
    unfold written. rewrite T1, T2, T3, E3. reflexivity. }
  rewrite Hw in Hw'.
  destruct (generate_text os dep c (loc_redir l) r e
    (Some (redirect_location l e)) body H1) as (r' & bs & G1 & G3 & G4 & G5);
    [lia|intros E; rewrite E in Hs; unfold RES_OK in Hs; lia|done|done|exact Hw'|done|done|done|].
  assert (connection_for (loc_redir l) e = `s"close") as Ec
    by (unfold connection_for; by rewrite (proj2 (Z.ltb_ge _ _)) by lia).
  rewrite Ec, H2, built_redirect in G3, G4.
  exists r', (DynamicResponse (loc_redir l) body), bs. split; [|split; [cbn; unfold RES_CONTINUE; lia|split; [by rewrite G3|by split]]].
  unfold handleClientResponse. rewrite (getRequest_some _ _ _ Hc).
  rewrite (proj2 (Z.eqb_neq (loc_redir l) RES_OK)), orb_true_r by (unfold RES_OK; lia). exact G1.
Qed.

(** ** Deletions *)

(** The host has the file that is to be deleted, and allows it. *)
Record deletes (fs : filesystem) (h : Host) (l : Location) (e : exchange) : Prop := {
  dl_located : located h e l;
  dl_method : ex_method e = `s"DELETE";
  dl_allowed : method_allowed (loc_methods l) DELETE = true;
  dl_file : readable fs (loc_root l ++ ex_path e) RegularFile;
}.

(** The page that goes with the status. *)
Definition status_page (s : Z) : str := generateVerboseBody (ResHints_init <| rh_status := s |>).

(** Its type, under the name the request gave to it. *)
Definition page_type_field (e : exchange) : list (str * str) :=
  [(if checkHeader (`s"content-type") (ex_head e) then `s"content-type" else `s"Content-Type", `s"text/html")].
Definition text_fields (conn date body : str) (e : exchange) : list (str * str) :=
  [(`s"Accept-Encoding", `s"identity"); (`s"Accept-Ranges", `s"none"); (`s"connection", conn);
   (`s"Content-Length", itostr (zlen body))] ++ page_type_field e ++ [(`s"Date", date)].
Definition deletion_response (date : str) (e : exchange) : str :=
  wire RES_NO_CONTENT (text_fields (ex_connection e) date (status_page RES_NO_CONTENT) e) (status_page RES_NO_CONTENT).

Lemma built_status conn date body e :
  built_text None date (itostr (zlen body)) (om_assign i_less (`s"connection") conn (given_type e)) =
  text_fields conn date body e.
Proof.
  unfold text_fields, page_type_field, given_type. generalize (itostr (zlen body)). intros len.
  destruct (checkHeader _ _); [generalize (getHeader (`s"content-type") (ex_head e)); intros v|]; vm_compute; reflexivity.
Qed.

Lemma deletes_code fs h l e : deletes fs h l e -> ex_code e = DELETE.
Proof. intros []. unfold ex_code. by rewrite dl_method0. Qed.

Lemma respond_deletion os dep c e r :
  ex_code e = DELETE -> ready [] e r -> rh_verboseError (resHints r) = [] -> head_ok e ->
  cl_request c = Some r -> cl_response c = None -> cl_outBuffers c = [] ->
  responds os dep RES_NO_CONTENT (ex_connection e) (deletion_response (os_date os) e) c.
Proof.
  intros Hcode [H1 H2 H3 H4 H5 H6 H7] Hv He Hc Ha Ho.
  assert (written (resHints (set_rstatus RES_NO_CONTENT r)) = Ret (None, status_page RES_NO_CONTENT)) as Hw.
  { unfold written, status_page, generateVerboseBody, status_line.
    change (rh_status (resHints (set_rstatus RES_NO_CONTENT r))) with RES_NO_CONTENT.
    change (Z.quot RES_NO_CONTENT 100 =? 3) with false. cbv iota.
    change (rh_verboseError (resHints (set_rstatus RES_NO_CONTENT r))) with (rh_verboseError (resHints r)).
    rewrite Hv. reflexivity. }
  destruct (generate_text os dep c RES_NO_CONTENT r e None (status_page RES_NO_CONTENT) H1)
    as (r' & bs & G1 & G3 & G4 & G5); [done|done|exact H7|exact H5|exact Hw|done|done|done|].
  change (connection_for RES_NO_CONTENT e) with (ex_connection e) in G3, G4.
  rewrite H4, built_status in G3, G4. rewrite Hcode in G4. change (DELETE =? HEAD) with false in G4. cbv iota in G4.
  exists r', (DynamicResponse RES_NO_CONTENT (status_page RES_NO_CONTENT)), bs.
  split; [|split; [done|split; [by rewrite G3|by split]]].
  unfold handleClientResponse. rewrite (getRequest_some _ _ _ Hc).
  change (RES_NO_CONTENT =? RES_OK) with false. rewrite orb_true_r. exact G1.
Qed.

(** The body of the request is done: the file is removed. *)
Lemma deletion_done c l e r :
  ex_code e = DELETE -> read_as e r -> cl_request c = Some (accepted_request l e r) ->
  exists r', handleRequestBodyDone c =
      (RES_NO_CONTENT, set_request r' (log (EvUnlink (c_str (loc_root l ++ ex_path e))) c)) /\
    ready [] e r' /\ rh_verboseError (resHints r') = [].
Proof.
  intros Hcode Hr Hc. exists (on_hints (fun h => h <| rh_path := [] |>) (accepted_request l e r)).
  assert (the_request c = accepted_request l e r) as Hc' by (unfold the_request; by rewrite Hc).
  split; [|split; [split; done|done]].
  unfold handleRequestBodyDone, handleDeleteMethod. rewrite Hc'. change (req_type (accepted_request l e r)) with REQ_TYPE_STATIC.
  change (req_method (accepted_request l e r)) with (req_method r). rewrite (proj2 Hr), Hcode. reflexivity.
Qed.

(** The head of a deletion is accepted. *)
Lemma handleRequestHeaders_deletion os c e r h l :
  bodiless e -> deletes (os_fs os) h l e -> read_as e r -> _uri r = ex_uri e -> resHints r = ResHints_init ->
  cl_request c = Some r -> host_for (ex_name e) (cl_hostMap c) (cl_host c) = Some h ->
  exists binds c', handleRequestHeaders os c = Ret (0, c') /\ headed c c' h (accepted_request l e r) binds /\
    Forall harmless binds /\ sent binds = [].
Proof.
  intros He Hdel Hr Hu Hi Hc Hh. pose proof (deletes_code _ _ _ _ Hdel) as Hcode. set (r1 := set_parsedUri (ex_parsed e) r).
  pose proof Hdel as [(Hs & Hl & Hx) _ Ha Hf].
  assert (checkRequest (os_fs os) h r1 = Ret (0, file_request l r1)) as Hcheck.
  { apply (checkRequest_present (os_fs os) h e l r1); rewrite ?Hcode; try done; [apply (bl_head e He)|].
    rewrite (proj2 Hr : req_method r1 = ex_code e). exact Hcode. }
  destruct (headers_accepted os c e r (file_request l r1) h He Hr Hu Hi Hc Hh Hcheck Hr) as (binds & Hb1 & Hb2 & ->).
  exists binds.
  assert (is_upload (ex_code e) = false) as Hup by (by rewrite Hcode).
  rewrite (accept_file os l e r (set_request (file_request l r1) (bound h binds c)) Hup Hr Hi eq_refl).
  eexists. split; [reflexivity|]. split; [apply headed_update|]. by split.
Qed.

Lemma delete_turn os dep out e h l p s1 rest c :
  bodiless e -> deletes (os_fs os) h l e -> reading p c -> os_read os = Some s1 -> s1 <> [] -> p ++ s1 = ex_bytes e ++ rest ->
  host_for (ex_name e) (cl_hostMap c) (cl_host c) = Some h ->
  exists c' binds, client_event os dep false true out c = Ret c' /\ draining (closes e) rest c' /\
    concat (cl_outBuffers c') = deletion_response (os_date os) e /\
    cl_log c' = cl_log c ++ binds ++ [EvUnlink (c_str (loc_root l ++ ex_path e))] /\ Forall harmless binds /\ sent binds = [].
Proof.
  intros He Hdel Hc Hi Hne E Hh. pose proof (bl_head e He) as Hd. pose proof (deletes_code _ _ _ _ Hdel) as Hcode.
  destruct (read_to_headers os p s1 c true e rest Hc Hi (fun _ => Hne) Hd E)
    as (r & c1 & [Q1 Hr1 Q2 Q3 _ [Q4 Q5] (Q6 & Q7 & Q8 & Q9 & Q10 & Q11) Q12 Q13 Q14] & Hin).
  rewrite <- Q4, <- Q5 in Hh.
  destruct (handleRequestHeaders_deletion os c1 e r h l He Hdel Hr1 Q2 Q3 Q1 Hh) as (binds & c2 & Hj & Hhd & Hb1 & Hb2).
  destruct Hhd as (D1 & D2 & D3 & D4 & D5 & D6 & D7 & D8 & D9 & D10 & D11 & D12 & D13).
  destruct (deletion_done c2 l e r Hcode Hr1 D3) as (r2 & Hdone & Hrd & Hv).
  assert (handleClientIn os c true =
    Ret (RES_NO_CONTENT, set_request r2 (log (EvUnlink (c_str (loc_root l ++ ex_path e))) c2))) as Hin'.
  { rewrite Hin, Hj. cbv zeta. cbn [mbind outcome_bind]. change (negb (0 =? 0)) with false. cbv iota. rewrite D7, Q7.
    change (negb (BODY_STATUS_NONE =? BODY_STATUS_NONE)) with false.
    change ((0 <=? 0) && negb (BODY_STATUS_NONE =? BODY_STATUS_ONGOING)) with true. cbv iota. by rewrite Hdone. }
  set (c3 := set_request r2 _) in Hin'.
  assert (cl_request c3 = Some r2 /\ cl_response c3 = cl_response c2 /\ cl_outBuffers c3 = cl_outBuffers c2 /\
    cl_cgiProcess c3 = cl_cgiProcess c2 /\ cl_bodyStream c3 = cl_bodyStream c2 /\ cl_terminated c3 = cl_terminated c2 /\
    cl_buffer c3 = cl_buffer c2 /\ cl_log c3 = cl_log c2 ++ [EvUnlink (c_str (loc_root l ++ ex_path e))])
    as (K0 & K1 & K2 & K3 & K4 & K5 & K6 & K7) by done.
  clearbody c3.
  destruct (responds_draining os dep RES_NO_CONTENT (ex_connection e) (deletion_response (os_date os) e) rest c3)
    as (c4 & G1 & G2 & G3 & G4); [apply (respond_deletion os dep c3 e r2); try done; congruence|congruence..|].
  exists c4, binds. split; [|split; [done|split; [done|split; [rewrite G4, K7, D13, Q14; by rewrite <- (assoc_L (++))|done]]]].
  unfold client_event, handleClientEvent. rewrite (rd_mode _ _ Hc).
  change (false || (CLIENT_MODE_READ =? CLIENT_MODE_ERROR)) with false. cbn [orb andb].
  change (CLIENT_MODE_READ =? CLIENT_MODE_READ) with true. cbv iota. rewrite Hin'. cbn [mbind outcome_bind].
  change (0 <? RES_NO_CONTENT) with true. cbv iota. rewrite G1. reflexivity.
Qed.

(** ** Theorems *)

(** C10: A redirection from end to end. An idle client sends a well-formed request
    without body, cut into reads in any way, for a path whose location sends
    elsewhere; the peer stays connected and the socket takes what one write
    offers. Then the answer has the status the location gives, its first address
    as [Location] (followed by the name of the file if it is a directory) and a
    page that names the addresses; nothing outside the connection is touched, and
    the connection is closed. *)
Theorem redirect_correct dep e h l ws w q rest f c :
  idle c -> bodiless e -> host_for (ex_name e) (cl_hostMap c) (cl_host c) = Some h -> elsewhere h l e ->
  Forall wakeup_ok (ws ++ [w]) -> w_in w = true ->
  ex_bytes e = arrived ws ++ q -> q <> [] -> arrives w = q ++ rest ->
  (forall i, w_in (f i) = false /\ w_out (f i) = true /\ wakeup_ok (f i)) ->
  exists body n c' new,
    generateRedirBody (redirect_hints l e) = Ret body /\
    play dep ((ws ++ [w]) ++ map f (seq 0 n)) c = Ret c' /\
    cl_log c' = cl_log c ++ new /\ Forall harmless new /\
    sent new = redirect_response l (os_date (w_os w)) body e /\ cl_terminated c' = true.
Proof.
  intros Hc He Hh Hl Hws Ein E Hq Hx Hf. destruct (written_redirect h l e Hl) as (body & Hb & _).
  exists body. destruct (redirect_status l (ew_status _ _ _ Hl)) as [_ Hs].
  destruct (judged_session (redirected l e) dep e h (loc_redir l) (redirect_response l (os_date (w_os w)) body e)
    ws w q rest f c) as (n & c' & new & H); try done; [apply (bl_head e He)|lia| | |by exists n, c', new].
  - apply (verdict_of_host _ _ _ _ _ He); [lia|]. intros r Hr Hi.
    apply checkRequest_redirected; [done|apply (bl_head e He)|done|done].
  - intros c0 r Hrd _ H2 H3 H4. by eapply respond_redirect.
Qed.

Definition demo_moved : Location :=
  demo_location <| loc_redir := RES_MOVED_PERMANENTLY |> <| loc_addr_redir := [`s"http://new/"] |>.
Definition demo_deletable : Location := demo_location <| loc_methods := Z.shiftl 1 DELETE |>.
Definition demo_at (l : Location) : Host := demo_server <| h_locationMap := [(STAR, l)] |>.
Definition demo_client_at (l : Location) : Client := Client_init 0 [(`s"demo", demo_at l)].
Definition demo_ask (method : str) : exchange := mkExchange method [`s"a.txt"] None [(`s"Host", `s"demo")] [].
(** The request in two reads. *)
Definition demo_first (e : exchange) : list wakeup := [mkWakeup true true (demo_os (take 10 (ex_bytes e)))].
Definition demo_last (e : exchange) (rest : str) : wakeup := mkWakeup true true (demo_os (drop 10 (ex_bytes e) ++ rest)).

Lemma demo_ask_ok method : method ∈ METHOD_STR -> bodiless (demo_ask method).
Proof.
  unfold METHOD_STR. rewrite !elem_of_cons, elem_of_nil. intros Hm.
  destruct Hm as [->|[->|[->|[->|[->|[]]]]]]; (split; [split|..]); check_head.
Qed.

Lemma demo_reads_ok e rest :
  Forall wakeup_ok (demo_first e ++ [demo_last e rest]) <->
  take 10 (ex_bytes e) <> [] /\ drop 10 (ex_bytes e) ++ rest <> [].
Proof.
  unfold demo_first, demo_last. rewrite Forall_app, !Forall_singleton. split.
  - intros [(s & [= <-] & H1) (s' & [= <-] & H2)]. done.
  - intros [H1 H2]. split; by eexists.
Qed.

Example redirect_ex : run_or []
  (c ← play [] ((demo_first (demo_ask (`s"GET")) ++ [demo_last (demo_ask (`s"GET")) []]) ++ [demo_writable; demo_writable])
     (demo_client_at demo_moved); Ret (cl_log c)) =
  let body := run_or [] (generateRedirBody (redirect_hints demo_moved (demo_ask (`s"GET")))) in
  let bytes := redirect_response demo_moved (`s"now") body (demo_ask (`s"GET")) in
  [EvBind (`s"demo"); EvWrite (take (length bytes - length body) bytes); EvWrite body; EvUnbind; EvClose].
Proof. vm_compute. reflexivity. Qed.
Example redirect_location_ex : redirect_location demo_moved (demo_ask (`s"GET")) = `s"http://new/a.txt".
Proof. vm_compute. reflexivity. Qed.

Lemma redirect_correct_witness :
  let e := demo_ask (`s"GET") in
  exists body n c' new,
    generateRedirBody (redirect_hints demo_moved e) = Ret body /\
    play [] ((demo_first e ++ [demo_last e (`s"junk")]) ++ map (fun _ => demo_writable) (seq 0 n)) (demo_client_at demo_moved) = Ret c' /\
    cl_log c' = cl_log (demo_client_at demo_moved) ++ new /\ Forall harmless new /\
    sent new = redirect_response demo_moved (os_date (w_os (demo_last e (`s"junk")))) body e /\ cl_terminated c' = true.
Proof.
  apply (redirect_correct [] (demo_ask (`s"GET")) (demo_at demo_moved) demo_moved (demo_first (demo_ask (`s"GET")))
    (demo_last (demo_ask (`s"GET")) (`s"junk")) (drop 10 (ex_bytes (demo_ask (`s"GET")))) (`s"junk") (fun _ => demo_writable)).
  - apply Client_init_idle.
  - apply demo_ask_ok. by left.
  - vm_compute. reflexivity.
  - split; [vm_compute; reflexivity|vm_compute; reflexivity|right; by left|split; [done|by repeat constructor]].
  - apply demo_reads_ok. split; vm_compute; discriminate.
  - reflexivity.
  - vm_compute. reflexivity.
  - vm_compute. discriminate.
  - reflexivity.
  - intros i. split; [reflexivity|]. split; [reflexivity|]. vm_compute. discriminate.
Defined.

(** C9: A deletion from end to end. An idle client sends a well-formed DELETE
    request without body, cut into reads in any way, for a file that is there and
    that the location allows to delete; the peer stays connected and the socket
    takes what one write offers. Then that file and nothing else is removed, once;
    the answer is the status 204 with its page; and the connection is closed if
    the request asked for that, and else free for the next request, the begin of
    which may have come with the last read. *)
Theorem delete_correct dep e h l ws w q rest f c :
  idle c -> bodiless e -> host_for (ex_name e) (cl_hostMap c) (cl_host c) = Some h ->
  deletes (os_fs (w_os w)) h l e ->
  Forall wakeup_ok (ws ++ [w]) -> w_in w = true ->
  ex_bytes e = arrived ws ++ q -> q <> [] -> arrives w = q ++ rest -> closes e = true \/ undecided rest ->
  (forall i, w_in (f i) = false /\ w_out (f i) = true /\ wakeup_ok (f i)) ->
  exists n c' binds new,
    play dep ((ws ++ [w]) ++ map f (seq 0 n)) c = Ret c' /\
    cl_log c' = cl_log c ++ binds ++ [EvUnlink (c_str (loc_root l ++ ex_path e))] ++ new /\
    Forall harmless binds /\ sent binds = [] /\ Forall harmless new /\
    sent new = deletion_response (os_date (w_os w)) e /\
    if closes e then cl_terminated c' = true else reading rest c'.
Proof.
  intros Hc He Hh Hdel Hws Ein E Hq Hx Hcl Hf.
  destruct (answered_session (closes e) rest (deletion_response (os_date (w_os w)) e)
    (fun l0 => exists binds, l0 = binds ++ [EvUnlink (c_str (loc_root l ++ ex_path e))] /\ Forall harmless binds /\ sent binds = [])
    dep ws w f c Hcl) as (n & c' & l0 & new & H1 & H2 & (binds & -> & H3 & H4) & H5 & H6 & H7); try done.
  - by apply undecided_unsettled, (undecided_head e _ q (bl_head e He)).
  - intros c1 Hrd [= S1 S2] Hi Hne. rewrite <- S1, <- S2 in Hh.
    destruct (delete_turn (w_os w) dep (w_out w) e h l (arrived ws) (arrives w) rest c1 He Hdel Hrd Hi Hne)
      as (c2 & binds & G1 & G2 & G3 & G4 & G5 & G6); [by rewrite Hx, (assoc_L (++)), E|done|].
    exists c2, (binds ++ [EvUnlink (c_str (loc_root l ++ ex_path e))]). split_and!; try done. by exists binds.
  - exists n, c', binds, new. split; [done|]. split; [rewrite H2; by rewrite <- !(assoc_L (++))|]. by split_and!.
Qed.

Example delete_ex : run_or []
  (c ← play [] ((demo_first (demo_ask (`s"DELETE")) ++ [demo_last (demo_ask (`s"DELETE")) []]) ++ [demo_writable; demo_writable])
     (demo_client_at demo_deletable); Ret (cl_log c)) =
  let bytes := deletion_response (`s"now") (demo_ask (`s"DELETE")) in
  let k := (length bytes - length (status_page RES_NO_CONTENT))%nat in
  [EvBind (`s"demo"); EvUnlink (`s"/www/a.txt"); EvWrite (take k bytes); EvWrite (drop k bytes)].
Proof. vm_compute. reflexivity. Qed.

Lemma delete_correct_witness :
  let e := demo_ask (`s"DELETE") in let w := demo_last e [] in
  exists n c' binds new,
    play [] ((demo_first e ++ [w]) ++ map (fun _ => demo_writable) (seq 0 n)) (demo_client_at demo_deletable) = Ret c' /\
    cl_log c' = cl_log (demo_client_at demo_deletable) ++ binds ++ [EvUnlink (c_str (loc_root demo_deletable ++ ex_path e))] ++ new /\
    Forall harmless binds /\ sent binds = [] /\ Forall harmless new /\
    sent new = deletion_response (os_date (w_os w)) e /\
    if closes e then cl_terminated c' = true else reading [] c'.
Proof.
  apply (delete_correct [] (demo_ask (`s"DELETE")) (demo_at demo_deletable) demo_deletable (demo_first (demo_ask (`s"DELETE")))
    (demo_last (demo_ask (`s"DELETE")) []) (drop 10 (ex_bytes (demo_ask (`s"DELETE")))) [] (fun _ => demo_writable)).
  - apply Client_init_idle.
  - apply demo_ask_ok. do 3 right. by left.
  - vm_compute. reflexivity.
  - split; [split_and!; vm_compute; reflexivity|reflexivity|vm_compute; reflexivity|split; vm_compute; reflexivity].
  - apply demo_reads_ok. split; vm_compute; discriminate.
  - reflexivity.
  - vm_compute. reflexivity.
  - vm_compute. discriminate.
  - reflexivity.
  - right. apply undecided_nil.
  - intros i. split; [reflexivity|]. split; [reflexivity|]. vm_compute. discriminate.
Defined.
