(* ===== verification/ScriptFailure.v ===== *)
(** * ScriptFailure: a script that fails

    The parts of the server composed on one client, as in [Script], for a script
    that was started and does not end well: it ends with an error, is killed by
    a signal, or is late, and then the server kills it. *)

From S2P Require Import Prelude CxxString OrdMap Format Http RequestHeaders RequestBody RequestUri Host Response Cgi Client Control ControlFacts Session Script Refusal Generated.
#[local] Open Scope Z_scope.

(** What [waitpid] and the clock say of a script that has failed. *)
Definition failed (start : Z) (os : os_answers) : Prop :=
  match os_wait os with
  | Running => CGI_TIME_OUT < os_now os - start
  | Exited code => code <> 0
  | Signaled => True
  | WaitError status => WEXITSTATUS status <> 0 \/ WIFSIGNALED status = true
  end.

(** A late script is killed. *)
Definition kills (pid : Z) (os : os_answers) : list event :=
  match os_wait os with Running => [EvKill pid] | _ => [] end.

Definition failure_hints : ResHints :=
  ResHints_init <| rh_status := RES_SERVICE_UNAVAILABLE |>
    <| rh_verboseError := `s"Service temporarly unavailable." |>.
Definition failure_page : str := generateVerboseBody failure_hints.
Definition failure_response (date : str) (e : exchange) : str :=
  wire RES_SERVICE_UNAVAILABLE (text_fields (`s"close") date failure_page e) (if ex_code e =? HEAD then [] else failure_page).

Section failure.
Context (g : CGIConfig) (k : nat) (e : exchange).

(** What [fillResponse] makes of the hints of the script. *)
Lemma fillResponse_failure dep host out r :
  scripting g k e out r ->
  let r0 := fillResponse dep host (set_rstatus RES_SERVICE_UNAVAILABLE r) in let h0 := resHints r0 in
  read_as e r0 /\ (rh_status h0 = RES_SERVICE_UNAVAILABLE /\ rh_path h0 = [] /\ rh_method h0 = ex_code e) /\
  (rh_cookies h0 = [] /\ rh_verboseError h0 = rh_verboseError failure_hints) /\
  rh_headers h0 = om_assign i_less (`s"connection") (`s"close") (given_type e).
Proof.
  intros [H1 H2 H3 H4 H5 H6 H7 H8]. set (r1 := set_rstatus RES_SERVICE_UNAVAILABLE r).
  assert (read_as e r1 /\ rh_status (resHints r1) = RES_SERVICE_UNAVAILABLE /\ rh_headers (resHints r1) = given_type e /\
    rh_cookies (resHints r1) = []) as (E1 & E2 & E3 & E4) by (split_and!; [exact H1|done|exact H4|exact H5]).
  clearbody r1.
  assert (fillErrorPage dep host (resHints r1) = resHints r1) as He by (unfold fillErrorPage; by rewrite E2).
  unfold fillResponse. rewrite (on_hints_id _ _ He). unfold fillAdditionnalHeaders. rewrite E2.
  change ((200 <=? RES_SERVICE_UNAVAILABLE) && (RES_SERVICE_UNAVAILABLE <? 300)) with false. cbv iota.
  set (r2 := on_hints (set_header _ _) r1).
  assert (read_as e r2 /\ rh_status (resHints r2) = RES_SERVICE_UNAVAILABLE /\
    rh_headers (resHints r2) = om_assign i_less (`s"connection") (`s"close") (given_type e) /\
    rh_cookies (resHints r2) = []) as (F1 & F2 & F3 & F4).
  { split; [exact E1|]. split; [exact E2|]. split; [|exact E4].
    unfold r2, on_hints, set_header. cbn [resHints upd rh_headers]. by rewrite E3. }
  clearbody r2. cbv zeta.
  assert (on_hints fillVerboseError r2 = on_hints (fun h => h <| rh_unlink := false |> <| rh_path := [] |>
    <| rh_verboseError := `s"Service temporarly unavailable." |>) r2) as ->.
  { unfold on_hints, fillVerboseError. by rewrite F2. }
  split; [exact F1|]. split; [split; [exact F2|split; [done|exact (proj2 F1)]]|]. split; [by split|exact F3].
Qed.

Lemma respond_failure os dep out c r :
  scripting g k e out r -> cl_request c = Some r -> cl_response c = None -> cl_outBuffers c = [] ->
  exists r' bs,
    generateResponse os dep c RES_SERVICE_UNAVAILABLE =
      Ret (0, c <| cl_request := Some r' |> <| cl_outBuffers := bs |>
                <| cl_response := Some (DynamicResponse RES_SERVICE_UNAVAILABLE failure_page) |>
                <| cl_mode := CLIENT_MODE_WRITE |>) /\
    om_find i_less (`s"connection") (rh_headers (resHints r')) = Some (`s"close") /\
    concat bs = failure_response (os_date os) e /\ Forall portion_ok bs.
Proof.
  intros Hs Hc Ha Ho.
  destruct (fillResponse_failure dep (cl_host c) out r Hs) as (F1 & (F2 & F3 & F4) & (F5 & F6) & F7).
  set (r0 := fillResponse _ _ _) in *.
  assert (written (resHints r0) = Ret (None, failure_page)) as Hw.
  { unfold written, failure_page, generateVerboseBody, status_line. rewrite F2, F6. reflexivity. }
  destruct (generate_written os dep c RES_SERVICE_UNAVAILABLE r r0 None failure_page)
    as (r' & bs & G1 & G3 & G4 & G5); [reflexivity|done|done|done|done|done|done|done|done|done|].
  rewrite F7, built_status in G3, G4. rewrite F4 in G4. exists r', bs. split; [exact G1|].
  split; [by rewrite G3|]. by split.
Qed.

(** The turn that finds the failure goes on as if the answer had been queued
    before. *)
Lemma fail_script os dep out pid start c :
  exchange_ok e -> running g k e out pid start c -> failed start os ->
  exists c', client_event os dep false false true c = client_event os dep false false true c' /\
    draining true [] c' /\ concat (cl_outBuffers c') = failure_response (os_date os) e /\
    cl_log c' = cl_log c ++ kills pid os ++ [EvUnlink (c_str out)].
Proof.
  intros He [H1 H2 H3 H4 H5 H6 H7 H8 (r & Hr & Hs) (p & Hp & [Hpid Hpos] & Hst & Hph & Hpi)] Hfail.
  assert (exists p' killed, checkEnd (os_wait os) (os_now os) p = (-1, p', killed) /\
    (if killed : bool then [EvKill (cgi_pid p)] else []) = kills pid os) as (p' & killed & Hend & Hk).
  { unfold checkEnd, failed, kills in *. rewrite (proj2 (Z.eqb_neq (cgi_pid p) 0)) by lia. rewrite Hpid.
    destruct (os_wait os) as [|code| |status].
    - rewrite Hst, (proj2 (Z.ltb_lt _ _)) by done. by eexists _, true.
    - rewrite (proj2 (Z.eqb_neq _ _)) by done. by eexists _, false.
    - by eexists _, false.
    - destruct (Z.eqb_spec (WEXITSTATUS status) 0) as [E|E]; cbn [negb orb]; [|by eexists _, false].
      destruct Hfail as [?| ->]; [done|]. by eexists _, false. }
  set (c1 := if killed then log (EvKill (cgi_pid p)) (c <| cl_cgiProcess := Some p' |>) else c <| cl_cgiProcess := Some p' |>).
  set (c2 := deleteCGIProcess c1).
  assert (cl_request c2 = Some r /\ cl_response c2 = None /\ cl_outBuffers c2 = [] /\ cl_cgiProcess c2 = None /\
    cl_bodyStream c2 = None /\ cl_terminated c2 = false /\ cl_buffer c2 = [] /\
    cl_log c2 = cl_log c ++ kills pid os ++ [EvUnlink (c_str out)])
    as (K1 & K2 & K3 & K4 & K5 & K6 & K7 & K8).
  { rewrite <- Hk. unfold c2, c1, deleteCGIProcess. pose proof (sg_path _ _ _ _ _ Hs) as Hpath.
    destruct killed; cbn; unfold the_request; cbn; rewrite Hr; cbn; rewrite Hpath; split_and!; try done.
    by rewrite <- (assoc_L (++)). }
  destruct (respond_failure os dep out c2 r Hs K1 K2 K3) as (r' & bs & G & G2 & G3 & G4).
  set (c3 := c2 <| cl_request := Some r' |> <| cl_outBuffers := bs |>
                <| cl_response := Some (DynamicResponse RES_SERVICE_UNAVAILABLE failure_page) |>
                <| cl_mode := CLIENT_MODE_WRITE |>) in G.
  assert (draining true [] c3) as Hc3.
  { split; try done; [by eexists|by left|by exists r', (`s"close")]. }
  exists c3. split; [|split; [done|split; [exact G3|exact K8]]].
  assert (handleCGIProcess os dep c = Ret (0, c3)) as Hcgi.
  { unfold handleCGIProcess. rewrite Hp. cbn [deref mbind outcome_bind]. rewrite Hend. cbv zeta.
    change (-1 =? 0) with false. change (-1 <? 0) with true. cbv iota. exact G. }
  unfold client_event, handleClientEvent. rewrite (sd_mode _ _ _ Hc3), H1, Hp, Hcgi, (sd_cgi _ _ _ Hc3).
  reflexivity.
Qed.
End failure.

(** ** Theorem *)

(** C8: A failing script from end to end. An idle client sends a well-formed GET
    or HEAD request without body and without anything after it, cut into reads in
    any way, whose path selects a script that the rules allow; the peer stays
    connected and the socket takes what one write offers; the script is started,
    and ends with an error, by a signal, or not in time, or [waitpid] fails and
    the status it did not set reads as an error. Then exactly a late script is
    killed, the output file is removed, the answer is the page of the status 503,
    and the connection is closed. *)
Theorem script_failure_correct dep h g k e ws w vs f c :
  idle c -> exchange_ok e -> host_for (ex_name e) (cl_hostMap c) (cl_host c) = Some h ->
  runs h g k e (os_fs (w_os w)) -> 0 < os_fork (w_os w) ->
  Forall wakeup_ok (ws ++ [w]) -> w_in w = true -> arrived (ws ++ [w]) = ex_bytes e ->
  Forall (waits (os_now (w_os w))) vs ->
  failed (os_now (w_os w)) (w_os (f 0%nat)) ->
  (forall i, w_in (f i) = false /\ w_out (f i) = true /\ wakeup_ok (f i)) ->
  exists n c' binds new,
    play dep ((ws ++ [w]) ++ vs ++ map f (seq 0 n)) c = Ret c' /\
    cl_log c' = cl_log c ++ binds ++ EvFork (os_fork (w_os w)) :: kills (os_fork (w_os w)) (w_os (f 0%nat)) ++
      EvUnlink (c_str (os_name (w_os w) None)) :: new /\
    Forall harmless binds /\ sent binds = [] /\ Forall harmless new /\
    sent new = failure_response (os_date (w_os (f 0%nat))) e /\ cl_terminated c' = true.
Proof.
  intros Hc He Hh Hrun Hpid Hws Ein E Hvs Hfail Hfi.
  destruct (head_turns h g k e dep ws w c He (idle_reading c Hc) Hh Hrun Hpid Hws Ein E)
    as (c1 & binds & H1 & H2 & H3 & H4 & H5).
  destruct (wait_turns g k e dep _ _ _ vs c1 H2 Hvs) as (c2 & G1 & G2 & G3).
  destruct (Hfi 0%nat) as (Hin & Hout & Hok).
  destruct (fail_script g k e (w_os (f 0%nat)) dep _ _ _ c2 He G2 Hfail) as (c3 & K1 & K2 & K3 & K4).
  assert (concat (cl_outBuffers c3) <> []) as Hq by (by rewrite K3).
  destruct (queued_turns dep true (f 0%nat) (fun i => f (S i)) c2 c3 K1 (ru_live _ _ _ _ _ _ _ G2) K2 Hq Hin Hout Hok)
    as (n & c4 & new & L1 & L2 & L3 & L4 & L5); [by intros i|].
  exists (S n), c4, binds, new. rewrite play_app, H1. cbn [mbind outcome_bind]. rewrite play_app, G1.
  cbn [mbind outcome_bind seq map]. rewrite <- seq_shift, map_map. split; [exact L1|].
  split; [|rewrite L4, K3; by split_and!]. rewrite L2, K4, G3, H3. by rewrite <- !(assoc_L (++)).
Qed.

(** The script of [Script], which is late here. *)
Definition demo_late_os : os_answers :=
  let os := demo_script_os false [] in
  mkOs (os_read os) (os_write os) Running (os_fork os) 1000000 (os_date os) (os_name os) (os_fs os) (os_can_create os).
Definition demo_late : wakeup := mkWakeup false true demo_late_os.

Example script_failure_ex : run_or []
  (c ← play [] ((demo_script_reads ++ [demo_script_last]) ++ demo_script_waits ++ [demo_late; demo_late]) demo_client;
   Ret (cl_log c)) =
  let bytes := failure_response (`s"now") demo_script in
  let i := (length bytes - length failure_page)%nat in
  [EvBind (`s"demo"); EvFork 7; EvKill 7; EvUnlink demo_out; EvWrite (take i bytes); EvWrite (drop i bytes); EvUnbind; EvClose].
Proof. vm_compute. reflexivity. Qed.

Lemma script_failure_correct_witness :
  let name := os_name (w_os demo_script_last) None in let pid := os_fork (w_os demo_script_last) in
  exists n c' binds new,
    play [] ((demo_script_reads ++ [demo_script_last]) ++ demo_script_waits ++ map (fun _ => demo_late) (seq 0 n))
      demo_client = Ret c' /\
    cl_log c' = cl_log demo_client ++ binds ++ EvFork pid :: kills pid (w_os demo_late) ++ EvUnlink (c_str name) :: new /\
    Forall harmless binds /\ sent binds = [] /\ Forall harmless new /\
    sent new = failure_response (os_date (w_os demo_late)) demo_script /\ cl_terminated c' = true.
Proof.
  apply (script_failure_correct [] demo_server demo_php 1 demo_script
    demo_script_reads demo_script_last demo_script_waits (fun _ => demo_late) demo_client).
  - apply Client_init_idle.
  - exact demo_script_ok.
  - vm_compute. reflexivity.
  - split; vm_compute; by repeat split.
  - vm_compute. reflexivity.
  - repeat apply Forall_cons_2; [..|apply Forall_nil_2]; eexists; (split; [reflexivity|discriminate]).
  - reflexivity.
  - vm_compute. reflexivity.
  - repeat apply Forall_cons_2; [..|apply Forall_nil_2]; (split; [reflexivity|split; [reflexivity|vm_compute; discriminate]]).
  - vm_compute. reflexivity.
  - intros i. split; [reflexivity|]. split; [reflexivity|]. vm_compute. discriminate.
Defined.
