(* ===== verification/Malformed.v ===== *)
(** * Malformed: heads that the parser rejects

    The parts of the server composed on one client, as in [Session], for bytes
    that are no request: the parser reports a status as soon as they show it,
    and the client is sent the page for that status before the connection is
    closed. *)

From S2P Require Import Prelude CxxString OrdMap Format Http RequestHeaders RequestBody RequestUri Host Response Cgi Client Control ControlFacts Session Script Refusal Generated.
#[local] Open Scope Z_scope.

(** ** What the parser says in the hints *)

(** The status and the text of an error, and nothing else. *)
Inductive noted (h : ResHints) : Z -> ResHints -> Prop :=
  | noted_none c : c <= 0 -> noted h c h
  | noted_error c v : 0 < c -> noted h c (h <| rh_status := c |> <| rh_verboseError := v |>).

Lemma fillError_noted c v r : 0 < c -> noted (resHints r) c (resHints (_fillError c v r).2).
Proof. intros Hc. by apply noted_error. Qed.

Lemma checkSizes_noted r h : resHints r = h -> noted h (_checkSizes r).1 (resHints (_checkSizes r).2).
Proof.
  intros <-. unfold _checkSizes. repeat (case_match; try (by apply noted_none)); by apply fillError_noted.
Qed.

Lemma getLine_hints r b e r' y : getLine r b = (e, r', y) -> resHints r' = resHints r.
Proof. unfold getLine. by destruct (find _ _); intros [= _ <- _]. Qed.

Lemma header_line_noted r b :
  match header_line r b with
  | Stop c r' _ => noted (resHints r) c (resHints r')
  | Next r' _ => resHints r' = resHints r
  end.
Proof.
  unfold header_line. destruct (getLine r b) as [[e r1] y] eqn:E. apply getLine_hints in E. rewrite <- E.
  destruct (negb _); [by apply checkSizes_noted|].
  destruct (str_eqb _ _); [by apply noted_none|].
  assert (resHints (trimSpace r1) = resHints r1) as <- by done.
  destruct (getHeaderName _) as [[n l]|]; [|by apply fillError_noted].
  destruct (BUFFER_SIZE <? _); [|done].
  exact (noted_error (resHints r1) 431 (`s"The " ++ n ++ `s" header was too large") eq_refl).
Qed.

Lemma header_lines_noted r b c r' y :
  header_lines r b = Ret (c, r', y) -> noted (resHints r) c (resHints r').
Proof.
  revert r b c r' y. refine (header_lines_ind _ _). intros r b IH c r' y. rewrite header_lines_eq.
  destruct (is_empty b) eqn:Eb.
  - unfold with_buffer. intros [= <- <- _]. by apply checkSizes_noted.
  - pose proof (header_line_noted r b) as Hr. destruct (header_line r b) as [c1 r1 y1|r1 y1] eqn:E.
    + by intros [= <- <- _].
    + intros H. rewrite <- Hr. by apply (IH r1 y1 eq_refl c r' y).
Qed.

Lemma parseRequestLine_noted r e r' :
  parseRequestLine r = Ret (e, r') ->
  if e =? 0 then resHints r' = resHints r else noted (resHints r) (getError r') (resHints r').
Proof.
  unfold parseRequestLine. destruct (_ <? 0); [intros [= <- <-]; by apply noted_error|].
  destruct (Nat.ltb _ _); [done|]. destruct (_ =? 0); intros [= <- <-]; [done|by apply noted_error].
Qed.

Lemma rline_phase_noted r b c r' y :
  rline_phase r b = Ret (c, r', y) -> noted (resHints r) c (resHints r').
Proof.
  unfold rline_phase. destruct (_ =? RLINE); [|apply header_lines_noted].
  destruct (getLine r b) as [[e r1] y1] eqn:E. apply getLine_hints in E. rewrite <- E.
  destruct (negb _); [intros [= <- <- _]; by apply checkSizes_noted|].
  destruct (BUFFER_SIZE <? _); [intros [= <- <- _]; by apply fillError_noted|].
  destruct (parseRequestLine r1) as [[e2 r2]|x| |] eqn:Ep; try done. cbn [mbind outcome_bind].
  apply parseRequestLine_noted in Ep. destruct (Z.eqb_spec e2 0) as [->|He]; cbn [negb].
  - intros H%header_lines_noted. by rewrite <- Ep.
  - by intros [= <- <- _].
Qed.

Lemma parseHeaders_noted r b c r' y :
  parseHeaders r b = Ret (c, r', y) -> _status r <> TERM -> noted (resHints r) c (resHints r').
Proof.
  intros H Ht. unfold parseHeaders in H. rewrite (proj2 (Z.eqb_neq _ _) Ht) in H.
  set (r1 := r <| _header_size := _ |>) in H. assert (resHints r1 = resHints r) as <- by done.
  destruct (_status r1 =? NEW); [|by eapply rline_phase_noted].
  destruct (negb _).
  - by apply rline_phase_noted in H.
  - unfold with_buffer in H. injection H as <- <- _. by apply checkSizes_noted.
Qed.

(** ** The answer *)

Definition error_hints (s : Z) (v : str) : ResHints := ResHints_init <| rh_status := s |> <| rh_verboseError := v |>.

(** The statuses whose page is a file: of the host of the last request, or of the
    server before the first. *)
Definition has_page (s : Z) : bool := ((400 <? s) && (s <? 418)) || (s =? 505).
Definition page_path (dep : str) (host : option Host) (s : Z) : str :=
  from_option h_dir_errors dep host ++ IntToString s 10 ++ `s".html".

Lemma parseHeaders_rejects b s r rest :
  parseHeaders Request_init b = Ret (s, r, rest) -> 0 < s ->
  s ∈ header_errors /\ resHints r = error_hints s (rh_verboseError (resHints r)).
Proof.
  intros H Hs. split.
  - destruct (parseHeaders_result Request_init b) as [E|(c & r' & y & E & Hr & _)]; [done| |].
    + by rewrite H in E.
    + rewrite H in E. injection E as <- <- <-. inversion Hr as [|? ? ? ? ?|? ? ? Hf]; subst; [lia|lia|apply Hf].
  - apply parseHeaders_noted in H; [|done]. inversion H as [c Hc E1 E2|c v Hc E1 E2]; subst; [lia|done].
Qed.

Lemma fillResponse_rejected dep host s v r :
  resHints r = error_hints s v -> s ∈ header_errors ->
  let h0 := resHints (fillResponse dep host (set_rstatus s r)) in
  (rh_status h0 = s /\ rh_method h0 = req_method r /\ rh_verboseError h0 = v) /\
  (rh_cookies h0 = [] /\ rh_index h0 = 0 /\ rh_path h0 = (if has_page s then page_path dep host s else [])) /\
  rh_headers h0 = (`s"connection", `s"close") :: (if has_page s then [(`s"content-type", `s"text/html")] else []).
Proof.
  intros Hh Hs. destruct r. cbn in Hh. subst. unfold header_errors in Hs. rewrite !elem_of_cons, elem_of_nil in Hs.
  destruct Hs as [->|[->|[->|[->|[->|[->|[]]]]]]];
    destruct host as [host|]; split_and!; vm_compute; reflexivity.
Qed.

(** The page for that status and that text. *)
Definition page_for (fs : filesystem) (dep : str) (host : option Host) (s : Z) (v page : str) : Prop :=
  if has_page s then has_file fs (page_path dep host s) page else page = generateVerboseBody (error_hints s v).

Definition rejected_fields (s : Z) (date page : str) : list (str * str) :=
  [(`s"Accept-Encoding", `s"identity"); (`s"Accept-Ranges", `s"none"); (`s"connection", `s"close");
   (`s"Content-Length", itostr (zlen page)); (if has_page s then `s"content-type" else `s"Content-Type", `s"text/html");
   (`s"Date", date)].
Definition rejected_response (s method : Z) (date page : str) : str :=
  wire s (rejected_fields s date page) (if method =? HEAD then [] else page).

Lemma built_rejected s date page :
  (if has_page s
   then built_as None date (itostr (zlen page)) [(`s"connection", `s"close"); (`s"content-type", `s"text/html")]
   else built_text None date (itostr (zlen page)) [(`s"connection", `s"close")]) = rejected_fields s date page.
Proof.
  unfold rejected_fields. generalize (itostr (zlen page)). intros len. destruct (has_page s); vm_compute; reflexivity.
Qed.

Lemma header_error_range s : s ∈ header_errors -> 400 <= s.
Proof.
  unfold header_errors. rewrite !elem_of_cons, elem_of_nil. by intros [->|[->|[->|[->|[->|[->|[]]]]]]].
Qed.

Lemma respond_rejected os dep c s v r page :
  resHints r = error_hints s v -> s ∈ header_errors -> page_for (os_fs os) dep (cl_host c) s v page ->
  cl_request c = Some r -> cl_response c = None -> cl_outBuffers c = [] ->
  responds os dep s (`s"close") (rejected_response s (req_method r) (os_date os) page) c.
Proof.
  intros Hh Hs Hpage Hc Ha Ho. pose proof (header_error_range s Hs) as H400.
  destruct (fillResponse_rejected dep (cl_host c) s v r Hh Hs) as ((F1 & F2 & F3) & (F4 & F5 & F6) & F7).
  set (r0 := fillResponse dep (cl_host c) (set_rstatus s r)) in *.
  assert (handleClientResponse os dep c s = generateResponse os dep c s) as Hgen.
  { unfold handleClientResponse. by rewrite (getRequest_some _ _ _ Hc), (proj2 (Z.eqb_neq s RES_OK)), orb_true_r
      by (unfold RES_OK; lia). }
  assert (exists r' a bs, generateResponse os dep c s =
      Ret (0, c <| cl_request := Some r' |> <| cl_outBuffers := bs |> <| cl_response := Some a |>
                <| cl_mode := CLIENT_MODE_WRITE |>) /\
    getStatus a = s /\ rh_headers (resHints r') = rejected_fields s (os_date os) page /\
    concat bs = rejected_response s (req_method r) (os_date os) page /\ Forall portion_ok bs)
    as (r' & a & bs & G1 & G2 & G3 & G4 & G5).
  { unfold page_for in Hpage. unfold rejected_response. rewrite <- (built_rejected s (os_date os) page), <- F2.
    destruct (has_page s).
    - assert (page_type (resHints r0) = None) as Hpt
        by (unfold page_type; rewrite F1; by rewrite (proj2 (Z.ltb_ge _ _)) by lia).
      destruct (generate_page os dep c s r r0 page) as (h & bs & G1 & G2 & G3 & G4 & _);
        rewrite ?F1, ?F4, ?F5, ?F6; try done.
      { by rewrite (proj2 (Z.eqb_neq s 0)) by lia. }
      { lia. }
      { apply is_empty_false. unfold page_path. by intros [_ [_ ?]%app_eq_nil]%app_eq_nil. }
      { unfold RES_OK. lia. }
      { split; [done|apply zlen_nonneg]. }
      rewrite Hpt, F5, F7, Z.sub_0_r in G2, G3. rewrite F1 in G1, G3. rewrite F5 in G1. by eexists _, _, _.
    - assert (written (resHints r0) = Ret (None, page)) as Hw.
      { unfold written. rewrite F1. assert ((Z.quot s 100 =? 3) = false) as ->.
        { unfold header_errors in Hs. rewrite !elem_of_cons, elem_of_nil in Hs.
          by destruct Hs as [->|[->|[->|[->|[->|[->|[]]]]]]]. }
        rewrite Hpage. unfold generateVerboseBody, status_line. by rewrite F1, F3. }
      destruct (generate_written os dep c s r r0 None page eq_refl) as (r' & bs & G1 & G2 & G3 & G4);
        [lia|done|unfold RES_OK; lia|done|done|done|done|done|done|].
      rewrite F7 in G2, G3. by exists r', (DynamicResponse s page), bs. }
  exists r', a, bs. rewrite Hgen. split; [exact G1|]. split; [rewrite G2; unfold RES_CONTINUE; lia|].
  split; [by rewrite G3|]. by split.
Qed.

(** ** The turns *)

Lemma rejected_turn os dep out p s1 c s r rest page :
  reading p c -> os_read os = Some s1 -> s1 <> [] -> parseHeaders Request_init (p ++ s1) = Ret (s, r, rest) -> 0 < s ->
  page_for (os_fs os) dep (cl_host c) s (rh_verboseError (resHints r)) page ->
  exists c', client_event os dep false true out c = Ret c' /\ draining true rest c' /\
    concat (cl_outBuffers c') = rejected_response s (req_method r) (os_date os) page /\ cl_log c' = cl_log c.
Proof.
  intros Hc Hi Hne Hp Hs Hpage. destruct (parseHeaders_rejects _ _ _ _ Hp Hs) as [Herr Hh].
  destruct (parseRequest_reading os p s1 c s r rest Hc Hp) as [t Hpr].
  set (c1 := (c <| cl_lastInteraction := t |> <| cl_request := Some r |> <| cl_buffer := rest |>)
               <| cl_headerStatus := if s <? 0 then HEADER_STATUS_READY else HEADER_STATUS_ONGOING |>) in Hpr.
  assert (handleClientIn os c true = Ret (s, c1)) as Hin.
  { rewrite (handleClientIn_input os c true s1 Hi (fun _ => Hne)), Hpr. cbn [mbind outcome_bind].
    by rewrite (proj2 (Z.ltb_ge _ _)) by lia. }
  pose proof (respond_rejected os dep c1 s _ r page Hh Herr Hpage eq_refl (rd_response _ _ Hc) (rd_queue _ _ Hc)) as Hrespond.
  destruct (responds_draining os dep s (`s"close") _ rest c1 Hrespond (rd_cgi _ _ Hc) (rd_stream _ _ Hc) (rd_live _ _ Hc) eq_refl)
    as (c2 & G1 & G2 & G3 & G4).
  exists c2. split; [|by split_and!]. unfold client_event, handleClientEvent. rewrite (rd_mode _ _ Hc).
  change (false || (CLIENT_MODE_READ =? CLIENT_MODE_ERROR)) with false. cbn [orb andb].
  change (CLIENT_MODE_READ =? CLIENT_MODE_READ) with true. cbv iota. rewrite Hin. cbn [mbind outcome_bind].
  rewrite (proj2 (Z.ltb_lt _ _) Hs), G1. reflexivity.
Qed.

(** What [feed] has not decided is decided by none of its fragments, and the
    parser goes on as if it had read them at once. *)
Lemma feed_unsettled ws : forall p r r0 y,
  (forall b, parseHeaders Request_init (p ++ b) = parseHeaders r b) -> _status r <> TERM ->
  (exists r', parseHeaders Request_init p = Ret (0, r', [])) ->
  feed r (map arrives ws) = Ret (0, r0, y) ->
  unsettled p ws /\ forall b, parseHeaders Request_init (p ++ arrived ws ++ b) = parseHeaders r0 b.
Proof.
  induction ws as [|w ws IH]; intros p r r0 y Hp Ht Hz; cbn [map feed].
  - intros [= <- _]. split; [|done]. intros ws1 ws2 [-> _]%eq_sym%app_eq_nil. by rewrite app_nil_r.
  - destruct (parseHeaders r (arrives w)) as [[[z r1] x]|e| |] eqn:E; cbn [mbind outcome_bind]; [|done..].
    destruct (Z.eqb_spec z 0) as [->|Hne]; [|by intros [= ? _ _]]. intros Hf.
    destruct (parseHeaders_split r (arrives w) r1 x [] Ht E) as (-> & Ht1 & _).
    assert (forall b, parseHeaders Request_init ((p ++ arrives w) ++ b) = parseHeaders r1 b) as Hp1.
    { intros b. rewrite <- (assoc_L (++)), Hp. by destruct (parseHeaders_split r (arrives w) r1 [] b Ht E) as (_ & _ & ->). }
    destruct (IH (p ++ arrives w) r1 r0 y Hp1 Ht1) as [Hu Hb]; [exists r1; by rewrite Hp|done|]. split.
    + intros [|w1 ws1] ws2 Ews; [by rewrite app_nil_r|]. injection Ews as <- Ews.
      destruct (Hu ws1 ws2 Ews) as [r2 H2]. exists r2. by rewrite <- (assoc_L (++)) in H2.
    + intros b. rewrite <- Hb. change (arrived (w :: ws)) with (arrives w ++ arrived ws). by rewrite !(assoc_L (++)).
Qed.

Lemma feed_begin ws r0 y : feed Request_init (map arrives ws) = Ret (0, r0, y) ->
  unsettled [] ws /\ forall b, parseHeaders Request_init (arrived ws ++ b) = parseHeaders r0 b.
Proof. apply (feed_unsettled ws [] Request_init); [done|done|]. by eexists. Qed.

(** ** Theorem *)

(** C7: A malformed head from end to end.  An idle client sends bytes, cut into
    reads in any way and of any length: the parser, which goes through them read
    by read as [feed] does, waits for more after every read but the last, and
    rejects the head with the last one: an unknown method or version, a header
    line without colon, a line or a head that is too long.  Then the answer has
    the status the parser gives, with the page for that status, or a page with
    the text of the parser; nothing outside the connection is touched, and the
    connection is closed. *)
Theorem malformed_correct dep ws w f c s r0 y r rest page :
  idle c -> Forall wakeup_ok (ws ++ [w]) -> w_in w = true ->
  feed Request_init (map arrives ws) = Ret (0, r0, y) ->
  parseHeaders r0 (arrives w) = Ret (s, r, rest) -> 0 < s ->
  page_for (os_fs (w_os w)) dep (cl_host c) s (rh_verboseError (resHints r)) page ->
  (forall i, w_in (f i) = false /\ w_out (f i) = true /\ wakeup_ok (f i)) ->
  s ∈ header_errors /\
  exists n c' new,
    play dep ((ws ++ [w]) ++ map f (seq 0 n)) c = Ret c' /\
    cl_log c' = cl_log c ++ new /\ Forall harmless new /\
    sent new = rejected_response s (req_method r) (os_date (w_os w)) page /\ cl_terminated c' = true.
Proof.
  intros Hc Hws Ein Hfeed Hp Hs Hpage Hf. destruct (feed_begin ws r0 y Hfeed) as [Hu Hb].
  rewrite <- Hb in Hp. split; [by eapply parseHeaders_rejects|].
  apply (closing_session rest); try done.
  intros c1 Hrd [= S1 S2] Hi Hne. rewrite <- S2 in Hpage.
  destruct (rejected_turn (w_os w) dep (w_out w) (arrived ws) (arrives w) c1 s r rest page Hrd Hi Hne Hp Hs Hpage)
    as (c2 & G1 & G2 & G3 & G4).
  exists c2, []. rewrite app_nil_r. by split_and!.
Qed.

Definition demo_bad : str := crlf "GET /a.txt HTTP/1.1" ++ crlf "Host: demo" ++ crlf "no colon" ++ CRLF ++ `s"rest".
Definition demo_bad_first : list wakeup := [mkWakeup true true (demo_os (take 25 demo_bad)); demo_writable].
Definition demo_bad_last : wakeup := mkWakeup true true (demo_os (drop 25 demo_bad)).
Definition demo_bad_page : str := generateVerboseBody (error_hints 400 (`s"Invalid header line")).
(** The fragments, and what the parser leaves of them. *)
Definition fed (ws : list wakeup) : Request := (run_or (0, Request_init, []) (feed Request_init (map arrives ws))).1.2.
Definition demo_bad_parsed : Z * Request * str :=
  run_or (0, Request_init, []) (parseHeaders (fed demo_bad_first) (arrives demo_bad_last)).

Example malformed_ex : run_or []
  (c ← play [] ((demo_bad_first ++ [demo_bad_last]) ++ [demo_writable; demo_writable]) demo_client; Ret (cl_log c)) =
  let bytes := rejected_response 400 GET (`s"now") demo_bad_page in
  let k := (length bytes - length demo_bad_page)%nat in
  [EvWrite (take k bytes); EvWrite (drop k bytes); EvClose].
Proof. vm_compute. reflexivity. Qed.

Lemma malformed_correct_witness :
  400 ∈ header_errors /\
  exists n c' new,
    play [] ((demo_bad_first ++ [demo_bad_last]) ++ map (fun _ => demo_writable) (seq 0 n)) demo_client = Ret c' /\
    cl_log c' = cl_log demo_client ++ new /\ Forall harmless new /\
    sent new = rejected_response 400 (req_method demo_bad_parsed.1.2) (os_date (w_os demo_bad_last)) demo_bad_page /\
    cl_terminated c' = true.
Proof.
  apply (malformed_correct [] demo_bad_first demo_bad_last (fun _ => demo_writable) demo_client 400
    (fed demo_bad_first) [] demo_bad_parsed.1.2 demo_bad_parsed.2 demo_bad_page).
  - apply Client_init_idle.
  - repeat apply Forall_cons_2; [..|apply Forall_nil_2]; first [by eexists|vm_compute; discriminate].
  - reflexivity.
  - vm_compute. reflexivity.
  - vm_compute. reflexivity.
  - reflexivity.
  - vm_compute. reflexivity.
  - intros i. split; [reflexivity|]. split; [reflexivity|]. vm_compute. discriminate.
Defined.

(** A head that is too long: its sixth read makes more than 16000 bytes. *)
Definition demo_long_line : str := `s"X: " ++ replicate 3000 "a"%char ++ CRLF.
Definition demo_long_first : list wakeup :=
  mkWakeup true true (demo_os (crlf "GET / HTTP/1.1")) :: replicate 5 (mkWakeup true true (demo_os demo_long_line)).
Definition demo_long_last : wakeup := mkWakeup true true (demo_os demo_long_line).

Example malformed_long :
  match feed Request_init (map arrives demo_long_first) with
  | Ret (z, r, _) => z = 0 /\ (16000 <? zlen (arrived (demo_long_first ++ [demo_long_last]))) = true /\
      match parseHeaders r (arrives demo_long_last) with Ret (s, _, _) => s = 431 | _ => False end
  | _ => False
  end.
Proof. vm_compute. repeat split. Qed.
