(* ===== verification/ConfigLex.v ===== *)
(** * ConfigLex: the configuration's streams, words and blocks ([srcs/IParseConfig.cpp])

    The lexical half of [IParseConfig]: [getNextWord] and what it is made of, and
    [getNextBlock], which copies the text of a [{...}] block out of a stream.  A
    stream is the text with a position and its two state bits, as libstdc++
    maintains them (the bad bit is never set: reading does not fail).  The
    static variables the functions share are the record [cfg]; what hosts are
    registered in ([world]) is the business of another component. *)

From S2P Require Import Prelude CxxString OrdMap Format Http Host.
#[local] Open Scope Z_scope.

(** ** Input streams *)

Record istream := mkIstream {
  is_text : str;
  is_pos : Z;
  is_eof : bool;
  is_fail : bool;
}.
#[export] Instance eta_istream : Eta istream := fun s =>
  mkIstream (is_text s) (is_pos s) (is_eof s) (is_fail s).

Definition open_stream (text : str) : istream := mkIstream text 0 false false.
Definition is_rest (s : istream) : str := drop (Z.to_nat (is_pos s)) (is_text s).
Definition good (s : istream) : bool := negb (is_eof s) && negb (is_fail s).

(** [peek] and [get]: [None] is [EOF]. *)
Definition peek (s : istream) : option ascii * istream :=
  if good s then
    match is_rest s with
    | c :: _ => (Some c, s)
    | [] => (None, s <| is_eof := true |>)
    end
  else (None, s <| is_fail := true |>).

Definition get (s : istream) : option ascii * istream :=
  if good s then
    match is_rest s with
    | c :: _ => (Some c, s <| is_pos := is_pos s + 1 |>)
    | [] => (None, s <| is_eof := true |> <| is_fail := true |>)
    end
  else (None, s <| is_fail := true |>).

Definition NL : ascii := Ascii.ascii_of_nat 10.

(** [std::getline(s, line)]; the string is left alone when the stream is not
    good. *)
Definition getline (s : istream) (line : str) : str * istream :=
  if good s then
    let rest := is_rest s in
    match find [NL] rest with
    | Some i => (take i rest, s <| is_pos := is_pos s + Z.of_nat i + 1 |>)
    | None => (rest, s <| is_pos := is_pos s + zlen rest |> <| is_eof := true |>
                       <| is_fail := is_empty rest |>)
    end
  else (line, s <| is_fail := true |>).

Definition clear_bits (s : istream) : istream := s <| is_eof := false |> <| is_fail := false |>.

(** [tellg] constructs a sentry, which fails on a stream at its end. *)
Definition tellg (s : istream) : Z * istream :=
  let s := if good s then s else s <| is_fail := true |> in
  (if is_fail s then -1 else is_pos s, s).

Definition seekg (pos : Z) (s : istream) : istream :=
  let s := s <| is_eof := false |> in
  if is_fail s then s
  else if (0 <=? pos) && (pos <=? zlen (is_text s)) then s <| is_pos := pos |>
  else s <| is_fail := true |>.

(** A [char] that receives the result of [peek] or [get]: [EOF] is the byte 255. *)
Definition EOF : ascii := chr 255.
Definition to_char (o : option ascii) : ascii := default EOF o.

(** The value of a [char] as an [int]. *)
Definition int_of (c : ascii) : Z := if code c <? 128 then code c else code c - 256.

(** ** Exceptions

    An unclosed quote leaves the characters read so far in the destination
    string: the exception of the model carries that string, because one
    destination ([default_error_pages]) outlives the exception. *)
Inductive config_exn : Type :=
  | InvalidFileTypeException
  | FileOpenException
  | StreamException
  | HostException
  | UnclosedQuoteException (dest : str)
  | UnclosedBlockException
  | UnexpectedBraceException
  | LastBlockException
  | MissingSemicolonException
  | MissingOpeningBraceException
  | InvalidPortException
  | InvalidMaxBodySizeException
  | InvalidMethodException
  | InvalidBooleanException
  | InvalidRedirectionException
  | DuplicateServerNameException
  | UnexpectedTokenException (param : str)
  | MissingTokenException (param : str)
  | UnknownTokenException (param : str)
  | logic_error.

(** Every one but [std::logic_error] derives from [IParseConfigException]. *)
Definition is_config_exn (e : config_exn) : bool :=
  match e with logic_error => false | _ => true end.

(** ** The static variables and the monad *)

Record cfg (W : Type) := mkCfg {
  c_lineNbr : Z;
  c_lineNbrEndOfBlock : Z;
  c_lineBuffer : str;
  c_default_error_pages : str;
  c_error : bool;
  c_locations : list Location;
  c_cgis : list CGIConfig;
  c_world : W;
}.
Arguments mkCfg {W}.
Arguments c_lineNbr {W}.
Arguments c_lineNbrEndOfBlock {W}.
Arguments c_lineBuffer {W}.
Arguments c_default_error_pages {W}.
Arguments c_error {W}.
Arguments c_locations {W}.
Arguments c_cgis {W}.
Arguments c_world {W}.
#[export] Instance eta_cfg W : Eta (cfg W) := fun g =>
  mkCfg (c_lineNbr g) (c_lineNbrEndOfBlock g) (c_lineBuffer g) (c_default_error_pages g)
    (c_error g) (c_locations g) (c_cgis g) (c_world g).

Definition cfg_init {W} (w : W) : cfg W := mkCfg 1 1 [] [] false [] [] w.

(** A function that reads a stream and the static variables: it returns, throws
    (the static variables stay changed), or does not end within its fuel. *)
Inductive pres (W A : Type) : Type :=
  | POk (a : A) (g : cfg W) (s : istream)
  | PErr (e : config_exn) (g : cfg W)
  | PLoop.
Arguments POk {W A}.
Arguments PErr {W A}.
Arguments PLoop {W A}.

Definition P (W A : Type) : Type := cfg W -> istream -> pres W A.

#[export] Instance P_ret W : MRet (P W) := fun A a g s => POk a g s.
#[export] Instance P_bind W : MBind (P W) := fun A B k m g s =>
  match m g s with
  | POk a g s => k a g s
  | PErr e g => PErr e g
  | PLoop => PLoop
  end.

Section lexer.
Context {W : Type}.

Definition throw {A} (e : config_exn) : P W A := fun g _ => PErr e g.
Definition loop {A} : P W A := fun _ _ => PLoop.
Definition modify (f : cfg W -> cfg W) : P W unit := fun g s => POk tt (f g) s.
Definition gets {A} (f : cfg W -> A) : P W A := fun g s => POk (f g) g s.
Definition on_peek : P W (option ascii) := fun g s => let '(c, s) := peek s in POk c g s.
Definition on_get : P W (option ascii) := fun g s => let '(c, s) := get s in POk c g s.
Definition on_good : P W bool := fun g s => POk (good s) g s.

Definition incr_line (c : ascii) : P W unit :=
  modify (fun g => if Ascii.eqb c NL then g <| c_lineNbr := c_lineNbr g + 1 |> else g).

(** [std::isspace] of what [peek] returned. *)
Definition isspace_opt (o : option ascii) : bool :=
  match o with Some c => isspace c | None => false end.

Fixpoint skipSpace (fuel : nat) : P W unit :=
  match fuel with
  | O => loop
  | S fuel =>
      o ← on_peek;
      if isspace_opt o then
        c ← on_get;
        _ ← incr_line (to_char c);
        skipSpace fuel
      else mret tt
  end.

Definition BACKSLASH : ascii := Ascii.ascii_of_nat 92.
Definition DQUOTE : ascii := Ascii.ascii_of_nat 34.
Definition HASH : ascii := Ascii.ascii_of_nat 35.
Definition LBRACE : ascii := Ascii.ascii_of_nat 123.
Definition RBRACE : ascii := Ascii.ascii_of_nat 125.
Definition SEMICOLON : ascii := Ascii.ascii_of_nat 59.

(** Returns the extended [dest]. *)
Fixpoint parseQuote (fuel : nat) (isEscaped : bool) (dest : str) : P W str :=
  match fuel with
  | O => loop
  | S fuel =>
      ok ← on_good;
      if negb ok then throw (UnclosedQuoteException dest)
      else
        o ← on_get;
        let c := to_char o in
        if Ascii.eqb c NL then
          _ ← incr_line c;
          parseQuote fuel false (dest ++ [c])
        else if Ascii.eqb c BACKSLASH && negb isEscaped then parseQuote fuel true dest
        else if Ascii.eqb c DQUOTE && negb isEscaped then mret dest
        else parseQuote fuel false (dest ++ [c])
  end.

(** [while (c != EOF) { c = get(); ... }] *)
Fixpoint skip_comment_loop (fuel : nat) (c : ascii) : P W unit :=
  match fuel with
  | O => loop
  | S fuel =>
      if Ascii.eqb c EOF then mret tt
      else
        o ← on_get;
        if Ascii.eqb (to_char o) NL then incr_line NL
        else skip_comment_loop fuel (to_char o)
  end.

Definition skipComment (fuel : nat) : P W unit :=
  o ← on_peek;
  skip_comment_loop fuel (to_char o).

Definition checkSemiColon (fuel : nat) : P W bool :=
  _ ← skipSpace fuel;
  o ← on_peek;
  match o with
  | Some c => if Ascii.eqb c SEMICOLON then _ ← on_get; mret true else mret false
  | None => mret false
  end.

(** What ends a word. *)
Definition delimiter (c : ascii) : bool :=
  isspace c || Ascii.eqb c EOF || Ascii.eqb c SEMICOLON || Ascii.eqb c LBRACE || Ascii.eqb c RBRACE.

(** The handling of one unescaped character: the new [isEscaped] and [word]. *)
Definition word_char (fuel : nat) (cur : ascii) (word : str) : P W (bool * str) :=
  if Ascii.eqb cur BACKSLASH then mret (true, word)
  else if Ascii.eqb cur DQUOTE then
    word ← parseQuote fuel false word;
    mret (false, word)
  else
    comment ← (if Ascii.eqb cur "/" && is_empty word then
                 o ← on_peek;
                 mret (match o with Some c => Ascii.eqb c "/" | None => false end)
               else mret false);
    if comment || Ascii.eqb cur HASH then
      _ ← skipComment fuel;
      _ ← skipSpace fuel;
      mret (false, word)
    else mret (false, word ++ [cur]).

Fixpoint word_loop (fuel : nat) (isEscaped : bool) (next : ascii) (word : str) : P W (Z * str) :=
  match fuel with
  | O => loop
  | S fuel' =>
      if isEscaped || negb (delimiter next) then
        o ← on_get;
        let cur := to_char o in
        '(isEscaped, word) ← (if isEscaped : bool then mret (false, word ++ [cur])
                              else word_char fuel cur word);
        o ← on_peek;
        word_loop fuel' isEscaped (to_char o) word
      else mret (if is_empty word then int_of next else 0, word)
  end.

Definition getNextWord (fuel : nat) (word : str) : P W (Z * str) :=
  _ ← skipSpace fuel;
  o ← on_peek;
  word_loop fuel false (to_char o) word.

(** [parseValues]: the words up to the next delimiter, at most [maxNbr]. *)
Fixpoint values_loop (n : nat) (fuel : nat) (i maxNbr : Z) (words : list str) : P W (list str) :=
  match n with
  | O => loop
  | S n =>
      '(ret, word) ← getNextWord fuel [];
      let words := if ret =? 0 then words ++ [word] else words in
      if (ret =? 0) && (i + 1 <? maxNbr) then values_loop n fuel (i + 1) maxNbr words
      else mret words
  end.

Definition parseValues (fuel : nat) (words : list str) (maxNbr : Z) : P W (list str) :=
  values_loop fuel fuel 0 maxNbr words.
End lexer.

(** ** Blocks *)

(** The [for] loop of [getNextBlock] over a line. *)
Inductive scanned : Type :=
  | ScanBrace
  | ScanLine (isEscaped isQuoted : bool) (depth : Z) (start : nat)
  | ScanClosed (it start : nat).

Fixpoint scan_line (line : str) (it : nat) (isEscaped isQuoted : bool) (depth : Z) (start : nat) : scanned :=
  match line with
  | [] => ScanLine isEscaped isQuoted depth start
  | c :: line =>
      if isEscaped then scan_line line (S it) false isQuoted depth start
      else if Ascii.eqb c BACKSLASH then scan_line line (S it) true isQuoted depth start
      else if Ascii.eqb c DQUOTE then scan_line line (S it) false (negb isQuoted) depth start
      else if negb isQuoted && Ascii.eqb c LBRACE then
        scan_line line (S it) false isQuoted (depth + 1) (if depth =? 0 then S it else start)
      else if negb isQuoted && Ascii.eqb c RBRACE then
        let depth := depth - 1 in
        if depth =? 0 then ScanClosed it start
        else if depth <? 0 then ScanBrace
        else scan_line line (S it) false isQuoted depth start
      else scan_line line (S it) false isQuoted depth start
  end.

(** Repositions the stream after the closing brace: [after] is the distance from
    the brace to the end of the line. *)
Definition reposition (after : Z) (s : istream) : istream :=
  if is_eof s then
    let '(pos, s) := tellg (clear_bits s) in seekg (pos - (after - 1)) s
  else
    let '(pos, s) := tellg s in seekg (pos - after) s.

Section block.
Context {W : Type}.

Definition next_line : P W str := fun g s =>
  let '(line, s) := getline s (c_lineBuffer g) in
  POk line (g <| c_lineBuffer := line |> <| c_lineNbrEndOfBlock := c_lineNbrEndOfBlock g + 1 |>) s.

Definition on_stream_state (f : istream -> istream) : P W unit := fun g s => POk tt g (f s).
Definition stream_state : P W istream := fun g s => POk s g s.

(** The [do ... while] loop; [out] is what was written to [ostream]. *)
Fixpoint block_loop (fuel : nat) (isEscaped isQuoted : bool) (depth : Z) (out : str) : P W str :=
  match fuel with
  | O => loop
  | S fuel =>
      line ← next_line;
      match scan_line line 0 isEscaped isQuoted depth 0 with
      | ScanBrace => throw UnexpectedBraceException
      | ScanClosed it start =>
          _ ← on_stream_state (reposition (zlen line - Z.of_nat it));
          _ ← modify (fun g => g <| c_lineNbrEndOfBlock := c_lineNbrEndOfBlock g - 1 |>);
          mret (out ++ substr line start (it - start))
      | ScanLine isEscaped isQuoted depth start =>
          let out := if negb (depth =? 0) || negb (Nat.eqb start 0)
                     then out ++ substr line start (length line - start) ++ (if depth =? 0 then [] else [NL])
                     else out in
          s ← stream_state;
          if good s then block_loop fuel isEscaped isQuoted depth out
          else if 0 <? depth then throw UnclosedBlockException
          else if is_eof s then throw LastBlockException
          else mret out
      end
  end.

Definition getNextBlock (fuel : nat) : P W str := block_loop fuel false false 0 [].
End block.
