(* ===== verification/ConfigLexFacts.v ===== *)
(** * ConfigLexFacts: laws of the configuration's words and blocks

    Termination of the word readers with a fuel linear in the text, what
    [getNextWord] returns, the round trip of quoted values, and the equivalence
    of [getNextBlock], which works line by line and moves the stream back, with
    a reader that goes through the text once. *)

From S2P Require Import Prelude CxxString OrdMap Format Http Host ConfigLex.
#[local] Open Scope Z_scope.

(** ** Streams *)

Definition stream_ok (s : istream) : Prop := 0 <= is_pos s <= zlen (is_text s).

(** What is left to read; nothing once a state bit is set. *)
Definition budget (s : istream) : nat := if good s then S (length (is_rest s)) else O.

Definition advance (n : nat) (s : istream) : istream := s <| is_pos := is_pos s + Z.of_nat n |>.

Lemma advance_rest n s : 0 <= is_pos s -> is_rest (advance n s) = drop n (is_rest s).
Proof.
  intros H. unfold is_rest, advance. cbn. rewrite drop_drop. f_equal. lia.
Qed.

Lemma advance_good n s : good (advance n s) = good s.
Proof. reflexivity. Qed.

Lemma advance_advance n m s : advance n (advance m s) = advance (m + n) s.
Proof. unfold advance. cbn. f_equal. lia. Qed.

Lemma advance_0 s : advance 0 s = s.
Proof. destruct s. unfold advance. cbn. f_equal. lia. Qed.

Lemma stream_ok_advance n s :
  stream_ok s -> (n <= length (is_rest s))%nat -> stream_ok (advance n s).
Proof. unfold stream_ok, advance, is_rest, zlen. rewrite length_drop. cbn. lia. Qed.

Lemma open_stream_ok t : stream_ok (open_stream t).
Proof. unfold stream_ok, open_stream, zlen. cbn. lia. Qed.

Lemma open_stream_rest t : is_rest (open_stream t) = t.
Proof. reflexivity. Qed.
#[export] Hint Resolve open_stream_ok stream_ok_advance : web.

(** The two ways [peek] and [get] can go. *)
Lemma peek_get_cases s :
  stream_ok s ->
  (exists c tl, good s = true /\ is_rest s = c :: tl /\ peek s = (Some c, s) /\
     get s = (Some c, advance 1 s) /\ stream_ok (advance 1 s) /\ is_rest (advance 1 s) = tl) \/
  (exists s1 s2, peek s = (None, s1) /\ get s = (None, s2) /\
     stream_ok s1 /\ stream_ok s2 /\ budget s1 = O /\ budget s2 = O /\ good s1 = false).
Proof.
  intros Hok. unfold peek, get. destruct (good s) eqn:Hg.
  - destruct (is_rest s) as [|c tl] eqn:Hr.
    + right. eexists _, _. split_and!; try reflexivity; try exact Hok;
        unfold budget, good; cbn; by destruct (is_fail s).
    + left. exists c, tl. split_and!; try reflexivity.
      * apply stream_ok_advance; [done|]. rewrite Hr. simpl. lia.
      * rewrite advance_rest, Hr by apply Hok. done.
  - right. eexists _, _. split_and!; try reflexivity; try exact Hok;
      unfold budget, good; cbn; by destruct (is_eof s).
Qed.

(** ** Computations that end *)
Section ends.
Context {W : Type}.

Definition ends {A} (m : P W A) (s : istream) (Q : A -> istream -> Prop) : Prop :=
  forall g, match m g s with POk a _ s' => Q a s' | PErr _ _ => True | PLoop => False end.

Lemma ends_ret {A} (a : A) s (Q : A -> istream -> Prop) : Q a s -> ends (mret a) s Q.
Proof. by intros H g. Qed.

Lemma ends_throw {A} e s (Q : A -> istream -> Prop) : ends (throw e) s Q.
Proof. by intros g. Qed.

Lemma ends_bind {A B} (m : P W A) (k : A -> P W B) s (Q : A -> istream -> Prop) (R : B -> istream -> Prop) :
  ends m s Q -> (forall a s', Q a s' -> ends (k a) s' R) -> ends (mbind k m) s R.
Proof.
  intros Hm Hk g. unfold mbind, P_bind. specialize (Hm g).
  destruct (m g s) as [a g' s'|e g'|]; [|done..]. by apply Hk.
Qed.

Lemma ends_mono {A} (m : P W A) s (Q R : A -> istream -> Prop) :
  ends m s Q -> (forall a s', Q a s' -> R a s') -> ends m s R.
Proof. intros Hm HQ g. specialize (Hm g). destruct (m g s); auto. Qed.

Lemma ends_modify f s (Q : unit -> istream -> Prop) : Q tt s -> ends (modify f) s Q.
Proof. by intros H g. Qed.

(** [no_more b s']: the stream is sound and has at most [b] left. *)
Definition no_more (b : nat) (s' : istream) : Prop := stream_ok s' /\ (budget s' <= b)%nat.

Lemma ends_peek s (Q : option ascii -> istream -> Prop) :
  stream_ok s ->
  (forall c tl, good s = true -> is_rest s = c :: tl -> Q (Some c) s) ->
  (forall s', stream_ok s' -> budget s' = O -> peek s' = (None, s' <| is_fail := true |>) -> Q None s') ->
  ends on_peek s Q.
Proof.
  intros Hok H1 H2 g. unfold on_peek.
  destruct (peek_get_cases s Hok) as [(c & tl & Hg & Hr & -> & _)|(s1 & s2 & -> & _ & Hs1 & _ & Hb & _ & Hg)].
  - by eapply H1.
  - apply H2; [done..|]. unfold peek. by rewrite Hg.
Qed.

Lemma budget_advance s c tl :
  stream_ok s -> good s = true -> is_rest s = c :: tl -> (S (budget (advance 1 s)) = budget s)%nat.
Proof.
  intros Hok Hg Hr. unfold budget. rewrite advance_good, Hg, advance_rest, Hr by apply Hok. done.
Qed.

Lemma ends_get s (Q : option ascii -> istream -> Prop) :
  stream_ok s ->
  (forall c s', stream_ok s' -> (S (budget s') = budget s)%nat -> Q (Some c) s') ->
  (forall s', stream_ok s' -> budget s' = O -> Q None s') ->
  ends on_get s Q.
Proof.
  intros Hok H1 H2 g. unfold on_get.
  destruct (peek_get_cases s Hok) as [(c & tl & Hg & Hr & _ & -> & Ha & _)|(s1 & s2 & _ & -> & _ & Hs2 & _ & Hb & _)].
  - apply H1; [done|]. by eapply budget_advance.
  - by apply H2.
Qed.

Lemma skipSpace_ends fuel s :
  stream_ok s -> (budget s < fuel)%nat -> ends (skipSpace fuel) s (fun _ => no_more (budget s)).
Proof.
  revert s. induction fuel as [|fuel IH]; intros s Hok Hb; [lia|]. cbn [skipSpace].
  eapply ends_bind with (Q := fun o s' => stream_ok s' /\ (budget s' <= budget s)%nat /\
    (forall c, o = Some c -> good s' = true /\ exists tl, is_rest s' = c :: tl)).
  { apply ends_peek; [done| |].
    - intros c tl Hg Hr. split_and!; [done|lia|]. intros ? [= <-]. eauto.
    - intros s' Hs' Hb' _. split_and!; [done|lia|done]. }
  intros o s' (Hok' & Hb' & Ho). destruct o as [c|]; cbn [isspace_opt].
  2:{ apply ends_ret. by split. }
  destruct (isspace c); [|apply ends_ret; by split].
  destruct (Ho c eq_refl) as (Hg & tl & Hr).
  eapply ends_bind with (Q := fun _ s'' => stream_ok s'' /\ (budget s'' < budget s')%nat).
  { assert (0 < budget s')%nat by (unfold budget; rewrite Hg; lia).
    apply ends_get; [done|..]; intros; split; [done|lia|done|lia]. }
  intros c' s'' [Hok'' Hb'']. eapply ends_bind; [by apply (ends_modify _ _ (fun _ s => s = s''))|].
  intros _ ? ->. eapply ends_mono; [apply IH; [done|lia]|]. intros _ s3 [? ?]. split; [done|lia].
Qed.

Lemma parseQuote_ends fuel s esc dest :
  stream_ok s -> (budget s < fuel)%nat -> ends (parseQuote fuel esc dest) s (fun _ => no_more (budget s)).
Proof.
  revert s esc dest. induction fuel as [|fuel IH]; intros s esc dest Hok Hb; [lia|]. cbn [parseQuote].
  eapply ends_bind with (Q := fun ok s' => ok = good s /\ s' = s); [by intros g|].
  intros ? ? [-> ->]. destruct (good s) eqn:Hg; cbn [negb]; [|apply ends_throw].
  assert (0 < budget s)%nat by (unfold budget; rewrite Hg; lia).
  eapply ends_bind with (Q := fun _ s' => stream_ok s' /\ (budget s' < budget s)%nat).
  { apply ends_get; [done|..]; intros; split; [done|lia|done|lia]. }
  intros o s' [Hok' Hb'].
  assert (forall esc dest, ends (parseQuote fuel esc dest) s' (fun _ => no_more (budget s))) as IH'.
  { intros. eapply ends_mono; [apply IH; [done|lia]|]. intros _ s3 [? ?]. split; [done|lia]. }
  cbv zeta. destruct (Ascii.eqb _ _).
  { eapply ends_bind; [by apply (ends_modify _ _ (fun _ s => s = s'))|]. intros _ ? ->. apply IH'. }
  destruct (_ && _); [apply IH'|]. destruct (_ && _); [|apply IH'].
  apply ends_ret. split; [done|lia].
Qed.

Lemma skip_comment_ends fuel s c :
  stream_ok s -> (budget s + (if Ascii.eqb c EOF then 0 else 1) < fuel)%nat ->
  ends (skip_comment_loop fuel c) s (fun _ => no_more (budget s)).
Proof.
  revert s c. induction fuel as [|fuel IH]; intros s c Hok Hb; [lia|]. cbn [skip_comment_loop].
  destruct (Ascii.eqb c EOF); [apply ends_ret; by split|].
  eapply ends_bind with (Q := fun o s' => stream_ok s' /\ (budget s' <= budget s)%nat /\
    (budget s' + (if Ascii.eqb (to_char o) EOF then 0 else 1) < fuel)%nat).
  { apply ends_get; [done|..].
    - intros c' s' ? ?. split_and!; [done|lia|]. destruct (Ascii.eqb _ _); lia.
    - intros s' ? ?. split_and!; [done|lia|].
      change (Ascii.eqb (to_char None) EOF) with true. cbv iota. lia. }
  intros o s' (Hok' & Hb' & Hf). destruct (Ascii.eqb (to_char o) NL).
  - apply ends_modify. by split.
  - eapply ends_mono; [apply IH; [done|lia]|]. intros _ s3 [? ?]. split; [done|lia].
Qed.

Lemma skipComment_ends fuel s :
  stream_ok s -> (S (budget s) < fuel)%nat -> ends (skipComment fuel) s (fun _ => no_more (budget s)).
Proof.
  intros Hok Hb. unfold skipComment.
  eapply ends_bind with (Q := fun _ s' => stream_ok s' /\ (budget s' <= budget s)%nat).
  { apply ends_peek; [done|..]; intros; split; [done|lia|done|lia]. }
  intros o s' [? ?]. eapply ends_mono.
  - apply skip_comment_ends; [done|]. destruct (Ascii.eqb _ _); lia.
  - intros _ s3 [? ?]. split; [done|lia].
Qed.

Lemma checkSemiColon_ends fuel s :
  stream_ok s -> (budget s < fuel)%nat -> ends (checkSemiColon fuel) s (fun _ => no_more (budget s)).
Proof.
  intros Hok Hb. unfold checkSemiColon.
  eapply ends_bind; [by apply skipSpace_ends|]. intros _ s1 [Hok1 Hb1].
  eapply ends_bind with (Q := fun o s' => no_more (budget s1) s').
  { apply ends_peek; [done|..]; intros; split; [done|lia|done|lia]. }
  intros o s2 [Hok2 Hb2]. destruct o as [c|]; [|apply ends_ret; split; [done|lia]].
  destruct (Ascii.eqb _ _); [|apply ends_ret; split; [done|lia]].
  eapply ends_bind with (Q := fun _ s' => no_more (budget s2) s').
  { apply ends_get; [done|..]; intros; split; [done|lia|done|lia]. }
  intros _ s3 [? ?]. apply ends_ret. split; [done|lia].
Qed.

Lemma word_char_ends fuel s cur word :
  stream_ok s -> (S (budget s) < fuel)%nat ->
  ends (word_char fuel cur word) s (fun _ => no_more (budget s)).
Proof.
  intros Hok Hb. unfold word_char. destruct (Ascii.eqb cur BACKSLASH); [apply ends_ret; by split|].
  destruct (Ascii.eqb cur DQUOTE).
  { eapply ends_bind; [apply parseQuote_ends; [done|lia]|].
    intros w s1 Hs1. by apply ends_ret. }
  eapply ends_bind with (Q := fun _ s' => no_more (budget s) s').
  { destruct (Ascii.eqb cur "/" && is_empty word); [|apply ends_ret; by split].
    eapply ends_bind with (Q := fun _ s' => no_more (budget s) s').
    { apply ends_peek; [done|..]; intros; split; [done|lia|done|lia]. }
    intros ? ? ?. by apply ends_ret. }
  intros b s1 [Hok1 Hb1]. destruct (b || Ascii.eqb cur HASH); [|apply ends_ret; split; [done|lia]].
  eapply ends_bind; [apply skipComment_ends; [done|lia]|]. intros _ s2 [Hok2 Hb2].
  eapply ends_bind; [apply skipSpace_ends; [done|lia]|]. intros _ s3 [Hok3 Hb3].
  apply ends_ret. split; [done|lia].
Qed.

(** What a call promises: a word was read exactly when it returns zero, and
    when the word grew the stream moved. *)
Definition word_read (b : nat) (moved : bool) (word : str) (r : Z * str) (s' : istream) : Prop :=
  no_more b s' /\ (r.1 = 0 <-> r.2 <> []) /\ (r.2 = word \/ (budget s' < b)%nat \/ moved = true).

Lemma int_of_nonzero c : delimiter c = true -> int_of c <> 0.
Proof. ascii_cases c. Qed.

Lemma peeked_delimiter o : delimiter (to_char o) = false -> is_Some o.
Proof. destruct o; [eauto|done]. Qed.

Lemma word_loop_ends fuel s (esc : bool) o word :
  stream_ok s -> peek s = (o, s) \/ (o = None /\ good s = false) ->
  (2 * budget s + (if esc then 1 else 0) + 2 < fuel)%nat ->
  ends (word_loop fuel esc (to_char o) word) s (word_read (budget s) esc word).
Proof.
  revert s esc o word. induction fuel as [|fuel IH]; intros s esc o word Hok Hp Hb; [lia|].
  cbn [word_loop]. destruct (esc || negb (delimiter (to_char o))) eqn:Hc.
  2:{ apply orb_false_iff in Hc as [_ Hc%negb_false_iff]. apply ends_ret. split_and!; [by split| |by left].
      cbn. destruct word; cbn; [|done]. split; [|done]. intros H. by apply int_of_nonzero in Hc. }
  eapply ends_bind with (Q := fun _ s1 => no_more (budget s) s1 /\
    ((budget s1 < budget s)%nat \/ (esc = true /\ budget s = O))).
  { apply ends_get; [done|..].
    - intros c s1 ? ?. split; [split; [done|lia]|]. left. lia.
    - intros s1 ? ?. split; [split; [done|lia]|].
      destruct (budget s) eqn:E; [|left; lia]. destruct esc; [by right|].
      apply negb_true_iff, peeked_delimiter in Hc as [c ->].
      destruct Hp as [Hp|[? _]]; [|done]. unfold peek in Hp. unfold budget in E.
      destruct (good s); [done|]. by injection Hp. }
  intros o1 s1 [[Hok1 Hb1] Hd]. cbv zeta.
  eapply ends_bind with (Q := fun (r : bool * str) s2 => no_more (budget s1) s2 /\ (esc = true -> r.1 = false)).
  { destruct esc; [apply ends_ret; by split|].
    eapply ends_mono; [apply word_char_ends; [done|lia]|]. by intros. }
  intros [esc' word'] s2 [[Hok2 Hb2] He]. cbn [fst] in He.
  eapply ends_bind with (Q := fun o s3 => no_more (budget s2) s3 /\
    (peek s3 = (o, s3) \/ (o = None /\ good s3 = false))).
  { apply ends_peek; [done|..].
    - intros c tl Hg Hr. split; [by split|]. left. unfold peek. by rewrite Hg, Hr.
    - intros s3 ? Hz Hg. split; [split; [done|lia]|]. right. split; [done|].
      unfold budget in Hz. by destruct (good s3). }
  intros o3 s3 [[Hok3 Hb3] Hp3]. eapply ends_mono.
  - apply IH; [done|done|]. destruct Hd as [Hd|[Hesc Hd]].
    + destruct esc, esc'; lia.
    + rewrite He by done. rewrite Hesc in Hb. lia.
  - intros r s4 ([Hok4 Hb4] & Hr & Hw). split_and!; [split; [done|lia]|done|].
    destruct Hd as [Hd|[-> Hd]]; [right; left; lia|by right; right].
Qed.

Lemma getNextWord_ends fuel s word :
  stream_ok s -> (2 * budget s + 2 < fuel)%nat ->
  ends (getNextWord fuel word) s (word_read (budget s) false word).
Proof.
  intros Hok Hb. unfold getNextWord.
  eapply ends_bind; [apply skipSpace_ends; [done|lia]|]. intros _ s1 [Hok1 Hb1].
  eapply ends_bind with (Q := fun o s3 => no_more (budget s1) s3 /\
    (peek s3 = (o, s3) \/ (o = None /\ good s3 = false))).
  { apply ends_peek; [done|..].
    - intros c tl Hg Hr. split; [by split|]. left. unfold peek. by rewrite Hg, Hr.
    - intros s3 ? Hz Hg. split; [split; [done|lia]|]. right. split; [done|].
      unfold budget in Hz. by destruct (good s3). }
  intros o s2 [[Hok2 Hb2] Hp]. eapply ends_mono; [apply word_loop_ends; [done|done|lia]|].
  intros r s3 ([Hok3 Hb3] & Hr & Hw). split_and!; [split; [done|lia]|done|].
  destruct Hw as [?|[?|?]]; [by left|right; left; lia|done].
Qed.

Lemma values_loop_ends n fuel s i maxNbr words :
  stream_ok s -> (2 * budget s + 2 < fuel)%nat -> (budget s < n)%nat ->
  ends (values_loop n fuel i maxNbr words) s (fun _ => no_more (budget s)).
Proof.
  revert s i words. induction n as [|n IH]; intros s i words Hok Hf Hn; [lia|]. cbn [values_loop].
  eapply ends_bind; [by apply getNextWord_ends|].
  intros [ret word] s1 ([Hok1 Hb1] & Hr & Hw). cbn [fst snd] in *. cbv zeta.
  destruct (Z.eqb_spec ret 0) as [Hz|Hz]; cbn [andb].
  2:{ apply ends_ret. by split. }
  destruct (i + 1 <? maxNbr); [|apply ends_ret; by split].
  destruct Hw as [->|[Hw|Hw]]; [by apply Hr in Hz| |done].
  eapply ends_mono; [apply IH; [done|lia|lia]|]. intros _ s2 [? ?]. split; [done|lia].
Qed.

Lemma parseValues_ends fuel s words maxNbr :
  stream_ok s -> (2 * budget s + 2 < fuel)%nat ->
  ends (parseValues fuel words maxNbr) s (fun _ => no_more (budget s)).
Proof. intros Hok Hf. apply values_loop_ends; [done|done|lia]. Qed.
End ends.

(** ** Writing values so that they are read back *)

Definition SPACE : ascii := " "%char.

Definition escape_char (c : ascii) : str :=
  if Ascii.eqb c BACKSLASH || Ascii.eqb c DQUOTE then [BACKSLASH; c] else [c].
Definition escape (w : str) : str := mjoin (map escape_char w).
(** White space. *)
Abbreviation blanks sp := (Forall (fun c => isspace c = true) sp).
Definition quote (w : str) : str := DQUOTE :: escape w ++ [DQUOTE].
Definition render_values (ws : list str) : str := mjoin (map (fun w => SPACE :: quote w) ws).

Lemma escape_cons c w : escape (c :: w) = escape_char c ++ escape w.
Proof. reflexivity. Qed.

Lemma length_escape w : (length w <= length (escape w))%nat.
Proof.
  induction w as [|c w IH]; [done|]. rewrite escape_cons, length_app. simpl.
  assert (1 <= length (escape_char c))%nat; [|lia].
  unfold escape_char. destruct (_ || _); simpl; lia.
Qed.

Lemma render_values_cons w ws : render_values (w :: ws) = SPACE :: quote w ++ render_values ws.
Proof. reflexivity. Qed.

(** [at_text s t]: the stream is good and [t] is left. *)
Definition at_text (s : istream) (t : str) : Prop := stream_ok s /\ good s = true /\ is_rest s = t.

Lemma at_text_open t : at_text (open_stream t) t.
Proof. split_and!; [apply open_stream_ok|done..]. Qed.

Lemma at_text_advance s t u : at_text s (t ++ u) -> at_text (advance (length t) s) u.
Proof.
  intros (Hok & Hg & Hr). split_and!; [|done|].
  - apply stream_ok_advance; [done|]. rewrite Hr, length_app. lia.
  - rewrite advance_rest, Hr, drop_app_length by apply Hok. done.
Qed.

Lemma at_text_cons s c t : at_text s (c :: t) -> at_text (advance 1 s) t.
Proof. apply (at_text_advance s [c] t). Qed.

Lemma at_text_good s t : at_text s t -> good s = true.
Proof. by intros (_ & ? & _). Qed.
#[export] Hint Resolve at_text_cons at_text_good : web.

Lemma to_char_Some c : to_char (Some c) = c.
Proof. reflexivity. Qed.

Section roundtrip.
Context {W : Type}.

(** What is not a line number or the line buffer. *)
Definition core (g : cfg W) : cfg W :=
  g <| c_lineNbr := 0 |> <| c_lineNbrEndOfBlock := 0 |> <| c_lineBuffer := [] |>.

(** [reads m s a n]: [m] returns [a], [n] characters further, and touches
    nothing else but line numbers and the line buffer. *)
Definition reads {A} (m : P W A) (s : istream) (a : A) (n : nat) : Prop :=
  forall g, exists g', m g s = POk a g' (advance n s) /\ core g' = core g.

Lemma reads_ret {A} (a : A) s : reads (mret a) s a 0.
Proof. intros g. exists g. by rewrite advance_0. Qed.

Lemma reads_bind {A B} (m : P W A) (f : A -> P W B) s a b n n' N :
  reads m s a n -> reads (f a) (advance n s) b n' -> N = (n + n')%nat -> reads (mbind f m) s b N.
Proof.
  intros Hm Hf -> g. unfold mbind, P_bind. destruct (Hm g) as (g1 & -> & H1).
  destruct (Hf g1) as (g2 & -> & H2). exists g2. by rewrite advance_advance, H2.
Qed.

Lemma reads_peek s c t : at_text s (c :: t) -> reads on_peek s (Some c) 0.
Proof.
  intros (_ & Hg & Hr) g. exists g. rewrite advance_0.
  unfold on_peek, peek. by rewrite Hg, Hr.
Qed.

Lemma reads_get s c t : at_text s (c :: t) -> reads on_get s (Some c) 1.
Proof.
  intros (_ & Hg & Hr) g. exists g. unfold on_get, get. by rewrite Hg, Hr.
Qed.

Lemma reads_good s t : at_text s t -> reads on_good s true 0.
Proof.
  intros (_ & Hg & _) g. exists g. rewrite advance_0. unfold on_good. by rewrite Hg.
Qed.

Lemma reads_incr_line c s : reads (incr_line c) s tt 0.
Proof. intros g. eexists. rewrite advance_0. split; [reflexivity|]. by destruct (Ascii.eqb c NL). Qed.

Lemma reads_skipSpace fuel sp c t s :
  at_text s (sp ++ c :: t) -> blanks sp -> isspace c = false ->
  (length sp < fuel)%nat -> reads (skipSpace fuel) s tt (length sp).
Proof.
  intros Ht Hsp Hc. revert s fuel Ht. induction Hsp as [|x sp Hx Hsp IH]; intros s fuel Ht Hf;
    (destruct fuel as [|fuel]; [simpl in Hf; lia|]); cbn [skipSpace].
  - eapply reads_bind with (n' := 0%nat); [by eapply reads_peek| |done]. cbn [isspace_opt]. rewrite Hc. apply reads_ret.
  - eapply reads_bind; [by eapply reads_peek| |done]. rewrite advance_0. cbn [isspace_opt]. rewrite Hx.
    eapply reads_bind; [by eapply reads_get| |done].
    eapply reads_bind; [apply reads_incr_line| |done]. rewrite advance_0.
    apply IH; [|simpl in Hf; lia]. by eapply at_text_cons.
Qed.


Lemma reads_parseQuote fuel w t dest s :
  at_text s (escape w ++ DQUOTE :: t) -> (length (escape w) < fuel)%nat ->
  reads (parseQuote fuel false dest) s (dest ++ w) (S (length (escape w))).
Proof.
  revert fuel dest s. induction w as [|c w IH]; intros fuel dest s Ht Hf;
    (destruct fuel as [|fuel]; [lia|]); cbn [parseQuote].
  - change (escape [] ++ DQUOTE :: t) with (DQUOTE :: t) in Ht.
    eapply reads_bind; [by eapply reads_good| |done]. rewrite advance_0. cbn [negb].
    eapply reads_bind with (n' := 0%nat); [by eapply reads_get| |done]. cbv zeta.
    cbn. rewrite app_nil_r. apply reads_ret.
  - rewrite escape_cons in *. rewrite length_app in *. rewrite <- (app_assoc (escape_char c)) in Ht.
    replace (dest ++ c :: w) with ((dest ++ [c]) ++ w) by by rewrite <- app_assoc.
    eapply reads_bind; [by eapply reads_good| |done]. rewrite advance_0. cbn [negb].
    unfold escape_char in *.
    destruct (Ascii.eqb c BACKSLASH || Ascii.eqb c DQUOTE) eqn:Hc.
    + eapply reads_bind; [by eapply reads_get| |done]. cbv zeta. rewrite !to_char_Some.
      change (Ascii.eqb BACKSLASH NL) with false. change (Ascii.eqb BACKSLASH BACKSLASH && negb false) with true.
      cbv iota. cbn [length] in *. cbn [app] in Ht.
      destruct fuel as [|fuel]; [lia|]. cbn [parseQuote].
      eapply reads_bind; [eapply reads_good; by eapply at_text_cons| |done]. rewrite advance_0. cbn [negb].
      eapply reads_bind; [eapply reads_get; by eapply at_text_cons| |done]. cbv zeta. rewrite !to_char_Some.
      replace (Ascii.eqb c NL) with false
        by (apply orb_true_iff in Hc as [Hc|Hc]; apply Ascii.eqb_eq in Hc as ->; done).
      rewrite !andb_false_r. cbv iota. apply IH; [|lia]. by do 2 eapply at_text_cons.
    + apply orb_false_iff in Hc as [Hc1 Hc2].
      eapply reads_bind; [by eapply reads_get| |done]. cbv zeta. rewrite !to_char_Some.
      rewrite Hc1, Hc2. cbn [andb length] in *. destruct (Ascii.eqb c NL).
      * eapply reads_bind; [apply reads_incr_line| |done]. rewrite advance_0.
        apply IH; [|lia]. by eapply at_text_cons.
      * apply IH; [|lia]. by eapply at_text_cons.
Qed.

Lemma reads_word_end fuel word d t s :
  at_text s (d :: t) -> delimiter d = true ->
  reads (word_loop (S fuel) false d word) s (if is_empty word then int_of d else 0, word) 0.
Proof. intros Ht Hd. cbn [word_loop orb]. rewrite Hd. apply reads_ret. Qed.

Lemma reads_word_quote fuel w word d t s :
  at_text s (quote w ++ d :: t) -> delimiter d = true -> word ++ w <> [] ->
  (length (quote w) < fuel)%nat ->
  reads (word_loop fuel false DQUOTE word) s (0, word ++ w) (length (quote w)).
Proof.
  intros Ht Hd Hne Hf. unfold quote in *. cbn [length] in *. rewrite length_app in *. cbn [length] in *.
  rewrite <- app_comm_cons, <- app_assoc in Ht. cbn [app] in Ht.
  destruct fuel as [|[|fuel]]; [lia..|]. cbn [word_loop].
  change (false || negb (delimiter DQUOTE)) with true. cbv iota.
  eapply reads_bind; [by eapply reads_get| |reflexivity]. cbv zeta. rewrite to_char_Some.
  assert (at_text (advance (S (length (escape w))) (advance 1 s)) (d :: t)) as Ht2.
  { apply at_text_cons in Ht.
    replace (S (length (escape w))) with (length (escape w ++ [DQUOTE])) by (rewrite length_app; simpl; lia).
    apply at_text_advance. by rewrite <- app_assoc. }
  eapply reads_bind with (n := S (length (escape w))) (n' := 0%nat); [| |lia].
  { unfold word_char. change (Ascii.eqb DQUOTE BACKSLASH) with false.
    change (Ascii.eqb DQUOTE DQUOTE) with true. cbv iota.
    eapply reads_bind with (n' := 0%nat); [eapply reads_parseQuote; [by eapply at_text_cons|lia]| |lia].
    apply reads_ret. }
  cbv iota beta.
  eapply reads_bind with (n' := 0%nat); [by eapply reads_peek| |reflexivity]. rewrite advance_0, to_char_Some.
  replace (0, word ++ w) with ((if is_empty (word ++ w) then int_of d else 0), word ++ w)
    by by destruct (word ++ w).
  by eapply reads_word_end.
Qed.

(** Characters with no meaning of their own. *)
Definition plain (c : ascii) : bool :=
  negb (delimiter c || Ascii.eqb c BACKSLASH || Ascii.eqb c DQUOTE || Ascii.eqb c HASH || Ascii.eqb c "/").

Lemma reads_word_plain fuel b word d t s :
  at_text s (b ++ d :: t) -> Forall (fun c => plain c = true) b -> delimiter d = true ->
  word ++ b <> [] -> (length b < fuel)%nat ->
  reads (word_loop fuel false (to_char (head (b ++ d :: t))) word) s (0, word ++ b) (length b).
Proof.
  intros Ht Hb Hd. revert fuel word s Ht. induction Hb as [|c b Hc Hb IH]; intros fuel word s Ht Hne Hf;
    (destruct fuel as [|fuel]; [simpl in Hf; lia|]).
  - change (to_char (head ([] ++ d :: t))) with d. rewrite app_nil_r in *.
    replace (0, word) with (if is_empty word then int_of d else 0, word) by by destruct word.
    by eapply reads_word_end.
  - cbn [app head]. rewrite to_char_Some. cbn [word_loop].
    assert (plain c = true /\ delimiter c = false /\ Ascii.eqb c BACKSLASH = false /\ Ascii.eqb c DQUOTE = false /\
      Ascii.eqb c HASH = false /\ Ascii.eqb c "/" = false) as (_ & H1 & H2 & H3 & H4 & H5).
    { unfold plain in Hc. rewrite negb_true_iff, !orb_false_iff in Hc. unfold plain.
      destruct Hc as [[[[-> ->] ->] ->] ->]. done. }
    rewrite H1. cbn [orb negb]. cbv iota.
    eapply reads_bind; [by eapply reads_get| |reflexivity]. cbv zeta. rewrite to_char_Some.
    eapply reads_bind with (n := 0%nat) (n' := length b); [| |reflexivity].
    { unfold word_char. rewrite H2, H3, H4, H5. cbn [andb].
      eapply reads_bind; [apply reads_ret| |reflexivity]. cbn [orb]. apply reads_ret. }
    rewrite advance_0. cbv iota beta. apply at_text_cons in Ht.
    eapply reads_bind with (a := head (b ++ d :: t)) (n := 0%nat) (n' := length b); [| |reflexivity].
    { destruct b; by eapply reads_peek. }
    { rewrite advance_0. replace (word ++ c :: b) with ((word ++ [c]) ++ b) by by rewrite <- app_assoc.
      apply IH; [done| |simpl in Hf; lia]. by destruct word. }
Qed.

Lemma reads_getNextWord_quote fuel sp w word d t s :
  at_text s (sp ++ quote w ++ d :: t) -> blanks sp -> delimiter d = true ->
  word ++ w <> [] -> (length sp + length (quote w) < fuel)%nat ->
  reads (getNextWord fuel word) s (0, word ++ w) (length sp + length (quote w)).
Proof.
  intros Ht Hsp Hd Hne Hf. unfold getNextWord.
  eapply reads_bind; [eapply reads_skipSpace; [exact Ht|done|done|lia]| |reflexivity].
  pose proof (at_text_advance _ _ _ Ht) as Ht'.
  eapply reads_bind; [eapply reads_peek; exact Ht'| |reflexivity].
  rewrite advance_0, to_char_Some.
  eapply reads_word_quote; [by apply at_text_advance|done|done|lia].
Qed.

Lemma reads_getNextWord_plain fuel sp w word d t s :
  at_text s (sp ++ w ++ d :: t) -> blanks sp ->
  Forall (fun c => plain c = true) w -> w <> [] -> delimiter d = true ->
  (length sp + length w < fuel)%nat ->
  reads (getNextWord fuel word) s (0, word ++ w) (length sp + length w).
Proof.
  intros Ht Hsp Hw Hne Hd Hf. unfold getNextWord.
  destruct w as [|c w]; [done|]. inversion_clear Hw as [|? ? Hc Hw'].
  assert (isspace c = false) as Hns.
  { unfold plain, delimiter in Hc. rewrite negb_true_iff, !orb_false_iff in Hc.
    by destruct Hc as [[[[[[[[? _] _] _] _] _] _] _] _]. }
  eapply reads_bind; [eapply reads_skipSpace; [exact Ht|done|done|lia]| |reflexivity].
  pose proof (at_text_advance _ _ _ Ht) as Ht'.
  eapply reads_bind; [eapply reads_peek; exact Ht'| |reflexivity].
  rewrite advance_0. apply (reads_word_plain fuel (c :: w) word d t).
  - by apply at_text_advance.
  - by constructor.
  - done.
  - by destruct word.
  - lia.
Qed.

(** A delimiter that is not a space stops a list of values. *)
Definition stopper (c : ascii) : bool :=
  Ascii.eqb c SEMICOLON || Ascii.eqb c LBRACE || Ascii.eqb c RBRACE.

Lemma stopper_delimiter c : stopper c = true -> delimiter c = true /\ isspace c = false.
Proof. ascii_cases c. Qed.

Lemma reads_getNextWord_stop fuel sp c t s :
  at_text s (sp ++ c :: t) -> blanks sp -> stopper c = true ->
  (length sp < fuel)%nat -> reads (getNextWord fuel []) s (int_of c, []) (length sp).
Proof.
  intros Ht Hsp [Hd Hns]%stopper_delimiter Hf. unfold getNextWord.
  eapply reads_bind with (n' := 0%nat); [by eapply reads_skipSpace| |lia].
  apply at_text_advance in Ht.
  eapply reads_bind with (n' := 0%nat); [by eapply reads_peek| |reflexivity].
  rewrite advance_0, to_char_Some. destruct fuel as [|fuel]; [lia|].
  by apply (reads_word_end _ [] c t).
Qed.

Lemma reads_values n fuel ws sp c t i maxNbr words s :
  at_text s (render_values ws ++ sp ++ c :: t) -> Forall (fun w => w <> []) ws ->
  blanks sp -> stopper c = true ->
  i + Z.of_nat (length ws) < maxNbr -> (length ws < n)%nat ->
  (S (length (render_values ws ++ sp)) < fuel)%nat ->
  reads (values_loop n fuel i maxNbr words) s (words ++ ws) (length (render_values ws ++ sp)).
Proof.
  intros Ht Hws Hsp Hc. revert n i words s Ht.
  induction Hws as [|w ws Hw Hws IH]; intros n i words s Ht Hmax Hn Hf;
    (destruct n as [|n]; [simpl in Hn; lia|]); cbn [values_loop].
  - rewrite app_nil_r. change (render_values [] ++ sp) with sp in *.
    eapply reads_bind with (n' := 0%nat); [eapply reads_getNextWord_stop; [exact Ht|done|done|lia]| |lia].
    cbv zeta beta iota. assert ((int_of c =? 0) = false) as ->.
    { apply Z.eqb_neq, int_of_nonzero. by apply stopper_delimiter. }
    cbn [andb]. cbv iota. apply reads_ret.
  - rewrite render_values_cons in *. cbn [app length] in *. rewrite <- !app_assoc in *.
    rewrite !length_app in *.
    assert (exists d u, render_values ws ++ sp ++ c :: t = d :: u /\ delimiter d = true) as (d & u & Hu & Hd).
    { destruct ws as [|w' ws'].
      - destruct Hsp as [|d sp Hd ?]; eexists _, _; (split; [reflexivity|]); [by apply stopper_delimiter|].
        unfold delimiter. by rewrite Hd.
      - rewrite render_values_cons. eexists _, _. split; [reflexivity|done]. }
    eapply reads_bind.
    { eapply (reads_getNextWord_quote fuel [SPACE] w [] d u); [|by repeat constructor|done|done|cbn [length]; lia].
      cbn [app]. by rewrite <- Hu. }
    { cbv zeta beta iota. cbn [app]. rewrite Z.eqb_refl. simpl length in Hmax.
      rewrite (proj2 (Z.ltb_lt (i + 1) maxNbr)) by lia. cbn [andb]. cbv iota.
      replace (words ++ w :: ws) with ((words ++ [w]) ++ ws) by by rewrite <- app_assoc.
      apply IH.
      - change (length [SPACE] + length (quote w))%nat with (length (SPACE :: quote w)).
        by apply at_text_advance.
      - lia.
      - simpl in Hn. lia.
      - lia. }
    simpl length. lia.
Qed.

Lemma reads_parseValues fuel ws sp c t maxNbr words s :
  at_text s (render_values ws ++ sp ++ c :: t) -> Forall (fun w => w <> []) ws ->
  blanks sp -> stopper c = true ->
  Z.of_nat (length ws) < maxNbr -> (S (length (render_values ws ++ sp)) < fuel)%nat ->
  reads (parseValues fuel words maxNbr) s (words ++ ws) (length (render_values ws ++ sp)).
Proof.
  intros. eapply reads_values; try done.
  assert (length ws <= length (render_values ws))%nat; [|rewrite length_app in *; lia].
  clear. induction ws as [|w ws IH]; [done|]. rewrite render_values_cons. cbn [length]. rewrite length_app. lia.
Qed.

Lemma reads_checkSemiColon fuel sp t s :
  at_text s (sp ++ SEMICOLON :: t) -> blanks sp -> (length sp < fuel)%nat ->
  reads (checkSemiColon fuel) s true (S (length sp)).
Proof.
  intros Ht Hsp Hf. unfold checkSemiColon.
  eapply reads_bind; [by eapply reads_skipSpace| |].
  - apply at_text_advance in Ht.
    eapply reads_bind; [by eapply reads_peek| |reflexivity]. rewrite advance_0.
    cbv iota. change (Ascii.eqb SEMICOLON SEMICOLON) with true. cbv iota.
    eapply reads_bind; [by eapply reads_get| |reflexivity]. apply reads_ret.
  - lia.
Qed.
End roundtrip.

(** ** A reader of blocks that goes through the text once *)

Inductive block_result : Type :=
  | Found (body rest : str)
  | NoOpening
  | NotClosed
  | NoBlock.

Definition emit (c : ascii) (depth : Z) (out : str) : str := if depth =? 0 then out else out ++ [c].

Fixpoint read_block (text : str) (esc quoted : bool) (depth : Z) (out : str) : block_result :=
  match text with
  | [] => if 0 <? depth then NotClosed else NoBlock
  | c :: text =>
      if Ascii.eqb c NL then read_block text esc quoted depth (emit c depth out)
      else if esc then read_block text false quoted depth (emit c depth out)
      else if Ascii.eqb c BACKSLASH then read_block text true quoted depth (emit c depth out)
      else if Ascii.eqb c DQUOTE then read_block text false (negb quoted) depth (emit c depth out)
      else if negb quoted && Ascii.eqb c LBRACE then
        read_block text false quoted (depth + 1) (emit c depth out)
      else if negb quoted && Ascii.eqb c RBRACE then
        if depth - 1 =? 0 then Found out text
        else if depth - 1 <? 0 then NoOpening
        else read_block text false quoted (depth - 1) (emit c depth out)
      else read_block text false quoted depth (emit c depth out)
  end.

(** *** One line *)
Lemma substr_snoc (l1 l2 : str) c k :
  (k <= length l1)%nat ->
  substr (l1 ++ c :: l2) k (S (length l1) - k) = substr (l1 ++ c :: l2) k (length l1 - k) ++ [c].
Proof.
  intros Hk. unfold substr. rewrite drop_app_le by done.
  assert (length (drop k l1) = length l1 - k)%nat as Hl by apply length_drop.
  rewrite !take_app, Hl.
  replace (S (length l1) - k - (length l1 - k))%nat with 1%nat by lia.
  replace (length l1 - k - (length l1 - k))%nat with 0%nat by lia. cbn [take].
  rewrite take_0, app_nil_r. by rewrite !(take_ge (drop k l1)) by lia.
Qed.

(** The text written so far in the current line. *)
Definition line_out (out : str) (full : str) (depth : Z) (it start : nat) : str :=
  if depth =? 0 then out else out ++ substr full start (it - start).

Lemma scan_line_reads line2 : forall line1 esc quoted depth start out tl,
  NL ∉ line2 -> 0 <= depth -> (start <= length line1)%nat ->
  (depth = 0 -> start = O /\ out = []) ->
  let full := line1 ++ line2 in
  let r := read_block (line2 ++ tl) esc quoted depth (line_out out full depth (length line1) start) in
  match scan_line line2 (length line1) esc quoted depth start with
  | ScanBrace => r = NoOpening
  | ScanClosed it' start' =>
      (it' < length full)%nat /\ r = Found (out ++ substr full start' (it' - start')) (drop (S it') full ++ tl)
  | ScanLine esc' quoted' depth' start' =>
      0 <= depth' /\ (depth' = 0 -> start' = O /\ out = []) /\
      r = read_block tl esc' quoted' depth' (line_out out full depth' (length full) start')
  end.
Proof.
  induction line2 as [|c line2 IH]; intros line1 esc quoted depth start out tl Hnl Hd Hst H0 full r.
  { subst full r. rewrite app_nil_r. cbn. split_and!; [done|apply H0|done]. }
  apply not_elem_of_cons in Hnl as [Hc Hnl].
  assert (Ascii.eqb c NL = false) as Hcn by (apply Ascii.eqb_neq; by intros ->).
  assert (forall esc' quoted' depth' start', 0 <= depth' -> (start' <= S (length line1))%nat ->
    (depth' = 0 -> start' = O /\ out = []) ->
    line_out out full depth' (S (length line1)) start' = emit c depth (line_out out full depth (length line1) start) ->
    let r' := read_block (line2 ++ tl) esc' quoted' depth' (emit c depth (line_out out full depth (length line1) start)) in
    match scan_line line2 (S (length line1)) esc' quoted' depth' start' with
    | ScanBrace => r' = NoOpening
    | ScanClosed it' start'0 =>
        (it' < length full)%nat /\ r' = Found (out ++ substr full start'0 (it' - start'0)) (drop (S it') full ++ tl)
    | ScanLine esc'0 quoted'0 depth'0 start'0 =>
        0 <= depth'0 /\ (depth'0 = 0 -> start'0 = O /\ out = []) /\
        r' = read_block tl esc'0 quoted'0 depth'0 (line_out out full depth'0 (length full) start'0)
    end) as step.
  { intros esc' quoted' depth' start' Hd' Hst' H0' Ho r'. subst r'. rewrite <- Ho.
    subst full. replace (line1 ++ c :: line2) with ((line1 ++ [c]) ++ line2) by by rewrite <- app_assoc.
    replace (S (length line1)) with (length (line1 ++ [c])) in * by (rewrite length_app; simpl; lia).
    by apply IH. }
  assert (line_out out full depth (S (length line1)) start = emit c depth (line_out out full depth (length line1) start)) as same.
  { unfold line_out, emit. destruct (depth =? 0); [done|]. subst full. rewrite substr_snoc by done. apply app_assoc. }
  subst r. cbn [app scan_line read_block]. rewrite Hcn.
  destruct esc; [by apply step; try done; try lia|].
  destruct (Ascii.eqb c BACKSLASH); [by apply step; try done; try lia|].
  destruct (Ascii.eqb c DQUOTE); [by apply step; try done; try lia|].
  destruct (negb quoted && Ascii.eqb c LBRACE).
  { destruct (Z.eqb_spec depth 0) as [->|Hne].
    - apply step; [lia|lia|lia|]. destruct (H0 eq_refl) as [-> ->]. unfold line_out, emit. cbn.
      rewrite Nat.sub_diag. done.
    - apply step; [lia|lia|lia|]. rewrite <- same. unfold line_out.
      rewrite (proj2 (Z.eqb_neq (depth + 1) 0)), (proj2 (Z.eqb_neq depth 0)) by lia. done. }
  destruct (negb quoted && Ascii.eqb c RBRACE); cbv zeta.
  2:{ by apply step; try done; try lia. }
  destruct (Z.eqb_spec (depth - 1) 0) as [H1|H1].
  { split.
    - subst full. rewrite length_app. simpl. lia.
    - unfold line_out. rewrite (proj2 (Z.eqb_neq depth 0)) by lia. f_equal.
      subst full. replace (line1 ++ c :: line2) with ((line1 ++ [c]) ++ line2) by by rewrite <- app_assoc.
      replace (S (length line1)) with (length (line1 ++ [c])) by (rewrite length_app; simpl; lia).
      by rewrite drop_app_length. }
  destruct (Z.ltb_spec (depth - 1) 0); [done|].
  apply step; [lia|lia|lia|]. rewrite <- same. unfold line_out.
  rewrite (proj2 (Z.eqb_neq (depth - 1) 0)), (proj2 (Z.eqb_neq depth 0)) by lia. done.
Qed.

(** *** The lines of a stream *)
Lemma getline_cases s t buf :
  at_text s t ->
  (exists line more, t = line ++ NL :: more /\ (NL ∉ line) /\
     getline s buf = (line, advance (S (length line)) s) /\ at_text (advance (S (length line)) s) more) \/
  ((NL ∉ t) /\ exists s1, getline s buf = (t, s1) /\ good s1 = false /\ is_eof s1 = true /\
     s1 = (advance (length t) s) <| is_eof := true |> <| is_fail := is_empty t |>).
Proof.
  intros Ht. pose proof Ht as (Hok & Hg & Hr). unfold getline. rewrite Hg, Hr.
  destruct (find [NL] t) as [i|] eqn:Hf.
  - left. apply find_char_Some in Hf as [Hn Hsp]. exists (take i t), (drop (S i) t).
    assert (length (take i t) = i) as Hl.
    { apply length_take_le. apply (f_equal length) in Hsp. rewrite length_app, length_take in Hsp. simpl in Hsp.
      rewrite length_drop in Hsp. lia. }
    assert (at_text s (take i t ++ NL :: drop (S i) t)) as Ht' by by rewrite <- Hsp.
    split_and!; [done|done| |].
    + f_equal. rewrite Hl. unfold advance. cbn. f_equal. lia.
    + change (S (length (take i t))) with (1 + length (take i t))%nat. rewrite Nat.add_comm, <- advance_advance.
      eapply at_text_cons, at_text_advance. exact Ht'.
  - right. apply find_char_None in Hf. split; [done|]. eexists. split; [reflexivity|].
    split_and!; [|done|done]. unfold good. cbn. done.
Qed.

Lemma at_text_length s t : at_text s t -> Z.of_nat (length t) = zlen (is_text s) - is_pos s.
Proof.
  intros ((H1 & H2) & _ & <-). unfold is_rest. rewrite length_drop. unfold zlen in *. lia.
Qed.

Lemma reposition_line s line more it :
  at_text s (line ++ NL :: more) -> (it < length line)%nat ->
  reposition (zlen line - Z.of_nat it) (advance (S (length line)) s) = advance (S it) s.
Proof.
  intros Ht Hit. pose proof (at_text_length _ _ Ht) as Hl. rewrite length_app in Hl. simpl length in Hl.
  pose proof Ht as ((Hok & _) & Hg & _). unfold good in Hg. apply andb_true_iff in Hg as [He Hfl].
  apply negb_true_iff in He, Hfl. unfold reposition. destruct s as [txt pos e f]. cbn in *. subst e f.
  unfold advance, tellg, seekg, good. cbn.
  replace (pos + Z.of_nat (S (length line)) - (zlen line - Z.of_nat it)) with (pos + Z.of_nat (S it))
    by (unfold zlen; lia).
  rewrite (proj2 (Z.leb_le 0 (pos + Z.of_nat (S it)))), (proj2 (Z.leb_le (pos + Z.of_nat (S it)) (zlen txt))) by lia.
  done.
Qed.

Lemma reposition_eof s t it :
  at_text s t -> (it < length t)%nat ->
  reposition (zlen t - Z.of_nat it)
    ((advance (length t) s) <| is_eof := true |> <| is_fail := is_empty t |>) = advance (S it) s.
Proof.
  intros Ht Hit. pose proof (at_text_length _ _ Ht) as Hl.
  pose proof Ht as ((Hok & _) & Hg & _). unfold good in Hg. apply andb_true_iff in Hg as [He Hfl].
  apply negb_true_iff in He, Hfl. unfold reposition. destruct s as [txt pos e f]. cbn in *. subst e f.
  unfold advance, tellg, seekg, good, clear_bits. cbn.
  replace (pos + Z.of_nat (length t) - (zlen t - Z.of_nat it - 1)) with (pos + Z.of_nat (S it))
    by (unfold zlen; lia).
  rewrite (proj2 (Z.leb_le 0 (pos + Z.of_nat (S it)))), (proj2 (Z.leb_le (pos + Z.of_nat (S it)) (zlen txt))) by lia.
  done.
Qed.

(** *** The block *)
Section block.
Context {W : Type}.

Definition block_outcome (r : pres W str) (g : cfg W) (s : istream) (t : str) (b : block_result) : Prop :=
  match b with
  | Found body rest =>
      exists p g', t = p ++ rest /\ r = POk body g' (advance (length p) s) /\ core g' = core g
  | NoOpening => exists g', r = PErr UnexpectedBraceException g' /\ core g' = core g
  | NotClosed => exists g', r = PErr UnclosedBlockException g' /\ core g' = core g
  | NoBlock => exists g', r = PErr LastBlockException g' /\ core g' = core g
  end.

Lemma block_outcome_advance r g g1 s p t b :
  core g1 = core g -> block_outcome r g1 (advance (length p) s) t b -> block_outcome r g s (p ++ t) b.
Proof.
  intros Hg. destruct b as [body rest| | |]; cbn; rewrite Hg; [|done..].
  intros (q & g' & -> & -> & Hc). exists (p ++ q), g'.
  by rewrite advance_advance, <- app_assoc, length_app.
Qed.

(** What the loop adds to its output after a line without the closing brace. *)
Lemma line_emitted out line depth start :
  (depth = 0 -> start = O /\ out = []) ->
  (if negb (depth =? 0) || negb (Nat.eqb start 0)
   then out ++ substr line start (length line - start) ++ (if depth =? 0 then [] else [NL]) else out)
  = emit NL depth (line_out out line depth (length line) start).
Proof.
  intros H0. unfold emit, line_out. destruct (Z.eqb_spec depth 0) as [->|Hne].
  - by destruct (H0 eq_refl) as [-> ->].
  - cbn. by rewrite <- app_assoc.
Qed.

Lemma block_loop_spec fuel : forall t s esc quoted depth out (g : cfg W),
  at_text s t -> (length t < fuel)%nat -> 0 <= depth -> (depth = 0 -> out = []) ->
  block_outcome (block_loop fuel esc quoted depth out g s) g s t (read_block t esc quoted depth out).
Proof.
  induction fuel as [|fuel IH]; intros t s esc quoted depth out g Ht Hf Hd H0; [lia|].
  cbn [block_loop]. unfold mbind, P_bind, next_line.
  destruct (getline_cases s t (c_lineBuffer g) Ht)
    as [(line & more & -> & Hnl & -> & Hmore)|(Hnl & s1 & -> & Hg1 & He1 & Hs1)].
  - pose proof (scan_line_reads line [] esc quoted depth 0 out (NL :: more) Hnl Hd (le_n 0)
      ltac:(split; [done|by apply H0])) as Hscan. cbv zeta in Hscan. cbn [app length] in Hscan.
    assert (line_out out line depth 0 0 = out) as Hlo.
    { unfold line_out. destruct (depth =? 0); [done|]. cbn. by rewrite app_nil_r. }
    rewrite Hlo in Hscan.
    destruct (scan_line line 0 esc quoted depth 0) as [|esc' quoted' depth' start'|it start'].
    + rewrite Hscan. eexists. split; [reflexivity|]. done.
    + destruct Hscan as (Hd' & H0' & Hscan). rewrite Hscan. cbv beta iota zeta. cbn [stream_state].
      change (is_eof (advance (S (length line)) s)) with (is_eof s).
      rewrite advance_good. rewrite (at_text_good _ _ Ht).
      rewrite line_emitted by done. cbn [read_block]. change (Ascii.eqb NL NL) with true. cbv iota.
      change (line ++ NL :: more) with (line ++ [NL] ++ more). rewrite (app_assoc line).
      replace (S (length line)) with (length (line ++ [NL])) in * by (rewrite length_app; simpl; lia).
      apply (block_outcome_advance _ g (g <| c_lineBuffer := line |> <| c_lineNbrEndOfBlock := c_lineNbrEndOfBlock g + 1 |>)); [done|].
      apply IH; [done| |done|].
      * rewrite length_app in Hf. simpl in Hf. lia.
      * intros ->. by destruct (H0' eq_refl) as [-> ->].
    + destruct Hscan as [Hit ->]. cbn [on_stream_state modify mret P_ret].
      rewrite (reposition_line s line more it) by done.
      exists (take (S it) line). eexists. split_and!.
      * rewrite app_assoc. by rewrite take_drop.
      * rewrite length_take_le by lia. reflexivity.
      * done.
  - pose proof (scan_line_reads t [] esc quoted depth 0 out [] Hnl Hd (le_n 0)
      ltac:(split; [done|by apply H0])) as Hscan. cbv zeta in Hscan. cbn [app length] in Hscan.
    assert (line_out out t depth 0 0 = out) as Hlo.
    { unfold line_out. destruct (depth =? 0); [done|]. cbn. by rewrite app_nil_r. }
    rewrite Hlo, app_nil_r in Hscan.
    destruct (scan_line t 0 esc quoted depth 0) as [|esc' quoted' depth' start'|it start'].
    + rewrite Hscan. eexists. split; [reflexivity|]. done.
    + destruct Hscan as (Hd' & H0' & ->). cbn [stream_state read_block]. rewrite Hg1, He1.
      destruct (0 <? depth'); eexists; (split; [reflexivity|done]).
    + destruct Hscan as [Hit ->]. cbn [on_stream_state modify mret P_ret].
      subst s1. rewrite (reposition_eof s t it) by done. rewrite app_nil_r.
      exists (take (S it) t). eexists. split_and!.
      * by rewrite take_drop.
      * rewrite length_take_le by lia. reflexivity.
      * done.
Qed.
End block.

(** ** Properties *)

(** A list of values written between quotes, with backslashes before the quotes
    and backslashes of the values, is read back whatever the bytes of the
    values, up to the first stopping character, and nothing of the parser's
    state but line numbers changes. *)
Theorem parseValues_quoted {W} fuel ws sp c t maxNbr words s (g : cfg W) :
  at_text s (render_values ws ++ sp ++ c :: t) -> Forall (fun w => w <> []) ws ->
  blanks sp -> stopper c = true ->
  Z.of_nat (length ws) < maxNbr -> (S (length (render_values ws ++ sp)) < fuel)%nat ->
  exists g', parseValues fuel words maxNbr g s =
    POk (words ++ ws) g' (advance (length (render_values ws ++ sp)) s) /\ core g' = core g.
Proof. intros. by apply (reads_parseValues fuel ws sp c t maxNbr words s). Qed.

Definition demo_values : list str := [`s"a; b"; `s"{"; [BACKSLASH; DQUOTE; NL]].

Lemma parseValues_quoted_witness :
  exists g', parseValues 60 [] INT32_MAX (cfg_init tt)
      (open_stream (render_values demo_values ++ [SPACE] ++ SEMICOLON :: `s"rest")) =
    POk demo_values g' (advance (length (render_values demo_values ++ [SPACE]))
      (open_stream (render_values demo_values ++ [SPACE] ++ SEMICOLON :: `s"rest"))) /\ core g' = core (cfg_init tt).
Proof.
  apply (parseValues_quoted 60 demo_values [SPACE] SEMICOLON (`s"rest") INT32_MAX []).
  - apply at_text_open.
  - repeat constructor; discriminate.
  - repeat constructor.
  - reflexivity.
  - vm_compute. reflexivity.
  - vm_compute. lia.
Defined.

(** C37: The reader that goes through the text once computes what [getNextBlock]
    returns line by line: the same text, the same place to go on, the same
    exception. *)
Theorem getNextBlock_correct {W} fuel s t (g : cfg W) :
  at_text s t -> (length t < fuel)%nat ->
  block_outcome (getNextBlock fuel g s) g s t (read_block t false false 0 []).
Proof. intros Ht Hf. by apply block_loop_spec. Qed.

Definition demo_block : str := `s" { a " ++ [DQUOTE; LBRACE; DQUOTE; SEMICOLON; NL] ++ `s"  b { c } }; d".

Lemma getNextBlock_correct_witness :
  block_outcome (getNextBlock 40 (cfg_init tt) (open_stream demo_block)) (cfg_init tt)
    (open_stream demo_block) demo_block (read_block demo_block false false 0 []).
Proof. apply getNextBlock_correct; [apply at_text_open|vm_compute; lia]. Defined.

(** Reading words and lists of values ends on every sound stream, whatever its
    state bits and its text; the fuel needed is linear in what is left. *)
Theorem parseValues_total {W} fuel s words maxNbr (g : cfg W) :
  stream_ok s -> (2 * budget s + 2 < fuel)%nat ->
  parseValues fuel words maxNbr g s <> PLoop /\ getNextWord fuel [] g s <> PLoop /\
  forall r g' s', getNextWord fuel [] g s = POk r g' s' -> (r.1 = 0 <-> r.2 <> []).
Proof.
  intros Hok Hf. split_and!.
  - pose proof (parseValues_ends fuel s words maxNbr Hok Hf g) as H. intros E. by rewrite E in H.
  - pose proof (getNextWord_ends fuel s [] Hok Hf g) as H. intros E. by rewrite E in H.
  - intros r g' s' E. pose proof (getNextWord_ends fuel s [] Hok Hf g) as H. rewrite E in H. apply H.
Qed.

Lemma parseValues_total_witness :
  parseValues 20 [] 5 (cfg_init tt) (open_stream (`s"a //b")) <> PLoop /\
  getNextWord 20 [] (cfg_init tt) (open_stream (`s"a //b")) <> PLoop /\
  forall r g' s', getNextWord 20 [] (cfg_init tt) (open_stream (`s"a //b")) = POk r g' s' ->
    (r.1 = 0 <-> r.2 <> []).
Proof. apply parseValues_total; [apply open_stream_ok|vm_compute; lia]. Defined.
