(* ===== verification/Config.v ===== *)
(** * Config: the configuration file ([srcs/IParseConfig.cpp], [includes/IParseConfig.hpp])

    The grammar half of [IParseConfig]: the directives of the file and of the
    [server], [location] and [cgi] blocks, the checks on a finished block and
    the handling of the exceptions.  The object a handler fills is passed and
    returned; the blocks are read from a stream of their own with the shared
    static variables.  What hosts are registered in is known through the
    interface [Registry] only. *)

From S2P Require Import Prelude CxxString OrdMap Format Http RequestHeaders RequestUri Host ConfigLex.
#[local] Open Scope Z_scope.

(** ** The interface of the registry of hosts

    [checkServerNames] and [addHost] are what the parser calls; the boolean of
    [addHost] is the failure it returns.  [resolve] is the registry's promise:
    the host that answers to a name on an address and a port.  Clients and
    listening servers of a host change over its life, its configuration does
    not: [config_of] is what [resolve] speaks about. *)
Definition config_of (h : Host) : Host := h <| h_clients := [] |> <| h_listenServers := ∅ |>.

Class Registry (W : Type) := {
  reg_checkServerNames : str -> list str -> list str -> W -> bool;
  reg_addHost : Host -> W -> bool * W;
  reg_resolve : str -> str -> str -> W -> option Host;
  reg_ok : W -> Prop;
  (** the names are free on every port *)
  reg_check_spec addr ports names w :
    reg_ok w ->
    reg_checkServerNames addr ports names w = true <->
    forall p n, p ∈ ports -> n ∈ names -> reg_resolve addr p n w = None;
  (** a host of no client and no server whose names are free may be added *)
  reg_add_ok h w b w' :
    reg_ok w -> h_server_names h <> [] -> h_clients h = [] -> h_listenServers h = ∅ ->
    reg_checkServerNames (h_addr h) (h_ports h) (h_server_names h) w = true ->
    reg_addHost h w = (b, w') -> reg_ok w';
  (** a host never takes a name over *)
  reg_add_keeps h w b w' a p n h' :
    reg_ok w -> reg_addHost h w = (b, w') ->
    reg_resolve a p n w = Some h' -> reg_resolve a p n w' = Some h';
  (** what is new is the host, under its own names *)
  reg_add_new h w b w' a p n h' :
    reg_ok w -> reg_addHost h w = (b, w') ->
    reg_resolve a p n w = None -> reg_resolve a p n w' = Some h' ->
    a = h_addr h /\ p ∈ h_ports h /\ n ∈ h_server_names h /\ h' = config_of h;
  (** and unless the failure is reported, all of them *)
  reg_add_all h w w' p n :
    reg_ok w -> reg_addHost h w = (false, w') ->
    p ∈ h_ports h -> n ∈ h_server_names h -> is_Some (reg_resolve (h_addr h) p n w');
}.

(** ** Control flow *)
Section flow.
Context {W : Type}.

(** Reads a string stream of its own. *)
Definition with_stream {A} (text : str) (m : P W A) : P W A := fun g s =>
  match m g (open_stream text) with
  | POk a g' _ => POk a g' s
  | PErr e g' => PErr e g'
  | PLoop => PLoop
  end.

(** [try { m } catch (IParseConfigException &e) { handler }] *)
Definition try_config {A} (m handler : P W A) : P W A := fun g s =>
  match m g s with
  | PErr e g' => if is_config_exn e then handler g' s else PErr e g'
  | r => r
  end.

(** What the catch clauses of the blocks do, the log apart. *)
Definition block_failed : P W unit :=
  modify (fun g => g <| c_lineNbr := c_lineNbrEndOfBlock g |> <| c_error := true |>).

(** The loop of [parseBlock] and [parseConfigFile]: [obj] is what the handler
    fills. *)
Fixpoint block_tokens {O} (n fuel : nat) (handler : str -> O -> P W O) (obj : O) : P W O :=
  match n with
  | O => loop
  | S n =>
      '(ret, token) ← getNextWord fuel [];
      if ret =? 0 then
        obj ← handler token obj;
        semi ← checkSemiColon fuel;
        if (semi : bool) then block_tokens n fuel handler obj else throw MissingSemicolonException
      else if ret =? -1 then mret obj
      else throw (UnexpectedTokenException token)
  end.

Definition parseBlock {O} (fuel : nat) (handler : str -> O -> P W O) (obj : O) : P W O :=
  block_tokens fuel fuel handler obj.

(** ** Values *)
Definition missing (id : option str) : config_exn :=
  match id with Some id => MissingTokenException id | None => logic_error end.

Definition parsePath (fuel : nat) (dest : str) (id : option str) (restrictEnd : option ascii) : P W str :=
  '(ret, dest) ← getNextWord fuel dest;
  if negb (ret =? 0) then throw (missing id)
  else
    mret (match restrictEnd, last dest with
          | Some c, Some c' => if Ascii.eqb c' c then dest else dest ++ [c]
          | _, _ => dest
          end).

Definition parseExtension (fuel : nat) (dest : str) : P W str :=
  '(ret, dest) ← getNextWord fuel dest;
  if negb (ret =? 0) then throw (MissingTokenException (`s"identifier is missing")) else mret dest.

Definition parseBoolean (fuel : nat) (id : option str) : P W bool :=
  '(ret, word) ← getNextWord fuel [];
  if negb (ret =? 0) then throw (missing id)
  else if str_eqb word (`s"on") then mret true
  else if str_eqb word (`s"off") then mret false
  else throw InvalidBooleanException.

Definition parseUri (fuel : nat) (dest : str) (id : option str) : P W str :=
  '(ret, dest) ← getNextWord fuel dest;
  if negb (ret =? 0) then throw (missing id) else mret dest.

(** The loop over the methods. *)
Fixpoint methods_mask (methods : list str) (dest : Z) : option Z :=
  match methods with
  | [] => Some dest
  | m :: methods =>
      let index := getMethodIndex m in
      if index <? 0 then None else methods_mask methods (Z.lor dest (Z.shiftl 1 index))
  end.

Definition parseAllowedMethods (fuel : nat) : P W Z :=
  methods ← parseValues fuel [] INT32_MAX;
  match methods_mask methods 0 with
  | None => throw InvalidMethodException
  | Some dest => mret dest
  end.

Definition valid_redirection (status : Z) : bool :=
  negb ((status <? 300) || (308 <? status) || ((303 <? status) && (status <? 307))).

Definition parseRedirection (fuel : nat) (location : Location) : P W Location :=
  values ← parseValues fuel [] INT32_MAX;
  match values with
  | v :: (_ :: _) as targets =>
      let '(err, status) := getInt v 10 0 in
      if negb (err =? 0) || negb (valid_redirection status) then throw InvalidRedirectionException
      else mret (location <| loc_redir := status |>
                          <| loc_addr_redir := loc_addr_redir location ++ tail values |>)
  | _ => throw (MissingTokenException (`s"redirection values"))
  end.

(** [std::set<std::string>::insert] *)
Fixpoint set_insert (x : str) (l : list str) : list str :=
  match l with
  | [] => [x]
  | y :: l' =>
      if lex_ltb y x then y :: set_insert x l'
      else if lex_ltb x y then x :: l else l
  end.

Fixpoint insert_ports (ports : list str) (h : Host) : option Host :=
  match ports with
  | [] => Some h
  | p :: ports =>
      if negb (fst (getInt p 10 0) =? 0) then None
      else insert_ports ports (h <| h_ports := set_insert p (h_ports h) |>)
  end.

Definition parsePorts (fuel : nat) (h : Host) : P W Host :=
  ports ← parseValues fuel [] INT32_MAX;
  match ports with
  | [] => throw (MissingTokenException (`s"port"))
  | _ => match insert_ports ports h with Some h => mret h | None => throw InvalidPortException end
  end.

Definition parseHostName (fuel : nat) (h : Host) : P W Host :=
  '(ret, addr) ← getNextWord fuel [];
  if negb (ret =? 0) then throw (MissingTokenException (`s"host"))
  else mret (h <| h_addr := addr |>).

Definition parseServerName (fuel : nat) (h : Host) : P W Host :=
  names ← parseValues fuel (h_server_names h) INT32_MAX;
  match names with
  | [] => throw (MissingTokenException (`s"server_name"))
  | _ => mret (h <| h_server_names := names |>)
  end.

Definition parseBodyMaxSize (fuel : nat) (h : Host) : P W Host :=
  '(ret, word) ← getNextWord fuel [];
  if negb (ret =? 0) then throw (MissingTokenException (`s"body_max_size"))
  else
    let '(err, size) := getInt word 10 (h_body_max_size h) in
    if negb (err =? 0) then throw InvalidMaxBodySizeException
    else mret (h <| h_body_max_size := size |>).

(** ** Blocks *)
Definition SLASH : ascii := "/"%char.

Definition handleCGIConfigToken (fuel : nat) (token : str) (cgi : CGIConfig) : P W CGIConfig :=
  if str_eqb token (`s"root") then
    v ← parsePath fuel (cgi_root cgi) (Some (`s"root")) (Some SLASH); mret (cgi <| cgi_root := v |>)
  else if str_eqb token (`s"methods") then
    v ← parseAllowedMethods fuel; mret (cgi <| cgi_methods := v |>)
  else if str_eqb token (`s"exec") then
    v ← parsePath fuel (cgi_exec cgi) None None; mret (cgi <| cgi_exec := v |>)
  else if str_eqb token (`s"identifier") then
    v ← parseExtension fuel (cgi_extension cgi); mret (cgi <| cgi_extension := v |>)
  else throw (UnknownTokenException token).

Definition handleLocationToken (fuel : nat) (token : str) (loc : Location) : P W Location :=
  if str_eqb token (`s"root") then
    v ← parsePath fuel (loc_root loc) (Some (`s"root")) (Some SLASH); mret (loc <| loc_root := v |>)
  else if str_eqb token (`s"methods") then
    v ← parseAllowedMethods fuel; mret (loc <| loc_methods := v |>)
  else if str_eqb token (`s"dir_listing") then
    v ← parseBoolean fuel None; mret (loc <| loc_dir_listing := v |>)
  else if str_eqb token (`s"upload") then
    v ← parseBoolean fuel None; mret (loc <| loc_upload := v |>)
  else if str_eqb token (`s"default_uri") then
    v ← parseUri fuel (loc_default_uri loc) None; mret (loc <| loc_default_uri := v |>)
  else if str_eqb token (`s"upload_root") then
    v ← parsePath fuel (loc_upload_root loc) (Some (`s"upload_root")) (Some SLASH);
    mret (loc <| loc_upload_root := v |>)
  else if str_eqb token (`s"return") then parseRedirection fuel loc
  else throw (UnknownTokenException token).

Definition checkLocation (loc : Location) : P W unit :=
  if str_eqb (loc_root loc) [] then throw (MissingTokenException (`s"root")) else mret tt.

Definition checkCGIConfig (cgi : CGIConfig) : P W unit :=
  if str_eqb (cgi_root cgi) [] then throw (MissingTokenException (`s"root"))
  else if str_eqb (cgi_extension cgi) [] then throw (MissingTokenException (`s"identifier"))
  else mret tt.

(** [host.addLocation] and [host.addCGIConfig] with their static lists. *)
Definition host_addLocation (names : list str) (loc : Location) (h : Host) : P W Host := fun g s =>
  let '(locations, h) := addLocation names loc (c_locations g) h in
  POk h (g <| c_locations := locations |>) s.

Definition host_addCGIConfig (names : list str) (cgi : CGIConfig) (h : Host) : P W Host := fun g s =>
  let '(cgis, h) := addCGIConfig names cgi (c_cgis g) h in
  POk h (g <| c_cgis := cgis |>) s.

Definition mark_block : P W unit := modify (fun g => g <| c_lineNbrEndOfBlock := c_lineNbr g |>).

(** The clause for [LastBlockException] is not translated: nothing inside the
    [try] raises it. *)
Definition parseLocation (fuel : nat) (h : Host) : P W Host :=
  names ← parseValues fuel [] INT32_MAX;
  _ ← mark_block;
  text ← getNextBlock fuel;
  try_config
    (with_stream text
       (loc ← parseBlock fuel (handleLocationToken fuel) Location_init;
        _ ← checkLocation loc;
        host_addLocation names loc h))
    (_ ← block_failed; mret h).

Definition parseCGIConfig (fuel : nat) (h : Host) : P W Host :=
  names ← parseValues fuel [] INT32_MAX;
  _ ← mark_block;
  text ← getNextBlock fuel;
  try_config
    (with_stream text
       (cgi ← parseBlock fuel (handleCGIConfigToken fuel) CGIConfig_init;
        _ ← checkCGIConfig cgi;
        host_addCGIConfig names cgi h))
    (_ ← block_failed; mret h).

Definition handleHostToken (fuel : nat) (token : str) (h : Host) : P W Host :=
  if str_eqb token (`s"listen") then parsePorts fuel h
  else if str_eqb token (`s"host") then parseHostName fuel h
  else if str_eqb token (`s"server_name") then parseServerName fuel h
  else if str_eqb token (`s"error_pages") then
    v ← parsePath fuel (h_dir_errors h) None None; mret (h <| h_dir_errors := v |>)
  else if str_eqb token (`s"body_max_size") then parseBodyMaxSize fuel h
  else if str_eqb token (`s"location") then parseLocation fuel h
  else if str_eqb token (`s"cgi") then parseCGIConfig fuel h
  else throw (UnknownTokenException token).
End flow.

Section file.
Context {W : Type} `{!Registry W}.

Definition default_pages (pages : str) (h : Host) : Host :=
  if str_eqb (h_dir_errors h) [] then h <| h_dir_errors := pages |> else h.

(** Fills in the default directory of error pages. *)
Definition checkHost (h : Host) : P W Host :=
  if str_eqb (h_addr h) [] then throw (MissingTokenException (`s"host address"))
  else if Nat.eqb (length (h_ports h)) 0 then throw (MissingTokenException (`s"listen"))
  else
    pages ← gets c_default_error_pages;
    let h := default_pages pages h in
    if Nat.eqb (length (h_server_names h)) 0 then throw (MissingTokenException (`s"server_name"))
    else if negb (bool_decide (is_Some (getLocation (`s"*") h)))
    then throw (MissingTokenException (`s"host default location `*`"))
    else
      w ← gets c_world;
      if reg_checkServerNames (h_addr h) (h_ports h) (h_server_names h) w then mret h
      else throw DuplicateServerNameException.

Definition host_addHost (h : Host) : P W unit := fun g s =>
  let '(failed, w) := reg_addHost h (c_world g) in
  let g := g <| c_world := w |> in
  if (failed : bool) then PErr HostException g else POk tt g s.

Definition parseHost (fuel : nat) : P W unit :=
  _ ← mark_block;
  text ← getNextBlock fuel;
  try_config
    (with_stream text
       (h ← parseBlock fuel (handleHostToken fuel) Host_init;
        h ← checkHost h;
        host_addHost h))
    block_failed.

(** The path is written into the static variable, also when an exception stops
    the reading of the word. *)
Definition partial_word (e : config_exn) : str :=
  match e with UnclosedQuoteException dest => dest | _ => [] end.

Definition parseDefaultErrorPages (fuel : nat) : P W unit := fun g s =>
  match parsePath fuel [] (Some (`s"default error page location")) None g s with
  | POk v g' s' => POk tt (g' <| c_default_error_pages := v |>) s'
  | PErr e g' => PErr e (g' <| c_default_error_pages := partial_word e |>)
  | PLoop => PLoop
  end.

Definition handleConfigToken (fuel : nat) (token : str) (_ : unit) : P W unit :=
  if str_eqb token (`s"server") then parseHost fuel
  else if str_eqb token (`s"default_error_pages") then parseDefaultErrorPages fuel
  else throw (UnknownTokenException token).

(** [openFile]: the bytes of the file, or nothing when an exception was caught. *)
Definition openFile (fs : filesystem) (path : option str) : option str :=
  path ← path;
  match fs_stat fs (c_str path) with
  | Some RegularFile => fs_open fs (c_str path)
  | _ => None
  end.

(** The returned value; the exception at the end is not caught here. *)
Definition finish : P W Z :=
  pages ← gets c_default_error_pages;
  if str_eqb pages [] then throw (MissingTokenException (`s"default_error_pages")) else mret 0.

Definition parseConfigText (fuel : nat) : P W Z := fun g s =>
  match block_tokens fuel fuel (handleConfigToken fuel) tt g s with
  | POk _ g' s' => finish g' s'
  | PErr LastBlockException g' => finish g' s
  | PErr e g' => if is_config_exn e then POk 1 g' s else PErr e g'
  | PLoop => PLoop
  end.

Definition parseConfigFile (fuel : nat) (fs : filesystem) (path : option str) (w : W) : pres W Z :=
  match openFile fs path with
  | None => POk 1 (cfg_init w) (open_stream [])
  | Some text => parseConfigText fuel (cfg_init w) (open_stream text)
  end.
End file.
