(* ===== verification/Listen.v ===== *)
(** * Listen: listening servers and the objects of the whole server

    [srcs/ListenServer.cpp], the static lists of [srcs/Host.cpp] and
    [srcs/Client.cpp] and what these objects do to each other.  An object is named by a number, its address: the static lists
    own the objects, everything else points to them, and going through a
    pointer to an object that was destroyed is undefined behaviour
    ([Undef]).  The network's answers are a parameter. *)

From S2P Require Import Prelude CxxString OrdMap Unique Format Http RequestHeaders RequestUri Host Response Cgi Client.
From stdpp Require Import sorting.
#[local] Open Scope Z_scope.

(** ** Static lists

    A [std::list] of objects in order, each with its address. *)
Section pool.
Context {T : Type}.

Fixpoint obj_get (a : nat) (l : list (nat * T)) : option T :=
  match l with
  | [] => None
  | (b, x) :: l => if Nat.eqb a b then Some x else obj_get a l
  end.

Fixpoint obj_update (a : nat) (f : T -> T) (l : list (nat * T)) : list (nat * T) :=
  match l with
  | [] => []
  | (b, x) :: l => if Nat.eqb a b then (b, f x) :: l else (b, x) :: obj_update a f l
  end.

Fixpoint obj_erase (a : nat) (l : list (nat * T)) : list (nat * T) :=
  match l with
  | [] => []
  | (b, x) :: l => if Nat.eqb a b then l else (b, x) :: obj_erase a l
  end.
End pool.

(** [std::list<T*>::remove] *)
Definition list_remove (a : nat) (l : list nat) : list nat := filter (fun b => b <> a) l.

(** ** Data *)
Record ListenServer := mkListenServer {
  ls_orphanClients : list nat;
  ls_connectedClients : list nat;
  ls_sockFd : Z;
  ls_hostMap : list (str * nat);
  ls_ip : str;
  ls_port : str;
  ls_maxClientNbr : Z;
  ls_nbrHost : Z;
}.
#[export] Instance eta_ListenServer : Eta ListenServer := fun s =>
  mkListenServer (ls_orphanClients s) (ls_connectedClients s) (ls_sockFd s) (ls_hostMap s)
    (ls_ip s) (ls_port s) (ls_maxClientNbr s) (ls_nbrHost s).

Definition MAX_CLIENT_NBR : Z := INT32_MAX.
Definition ListenServer_init (hostAddr hostPort : str) : ListenServer :=
  mkListenServer [] [] 0 [] hostAddr hostPort MAX_CLIENT_NBR 0.

(** A client as the other objects see it: its socket, the pointers to its
    listening server and its host, and the state of the connection. *)
Record conn := mkConn {
  cn_fd : Z;
  cn_server : nat;
  cn_host : option nat;
  cn_client : Client;
}.
#[export] Instance eta_conn : Eta conn := fun c =>
  mkConn (cn_fd c) (cn_server c) (cn_host c) (cn_client c).

(** The static lists; [w_fresh] is the next address, [w_open] the file
    descriptors that are open. *)
Record world := mkWorld {
  w_serverList : list (nat * ListenServer);
  w_hostList : list (nat * Host);
  w_clientList : list (nat * conn);
  w_fresh : nat;
  w_open : list Z;
}.
#[export] Instance eta_world : Eta world := fun w =>
  mkWorld (w_serverList w) (w_hostList w) (w_clientList w) (w_fresh w) (w_open w).

Definition world_init : world := mkWorld [] [] [] 0 [].

(** What the network answers for an address and a port: [getaddrinfo]
    succeeds, the descriptor [socket] gives, [bind] succeeds, [epoll_ctl] and
    [listen] succeed. *)
Record network := mkNetwork {
  nw_getaddrinfo : str -> str -> bool;
  nw_socket : str -> str -> Z;
  nw_bind : str -> str -> bool;
  nw_listen : str -> str -> bool;
}.

Definition get_server {E} (a : nat) (w : world) : outcome E ListenServer := deref (obj_get a (w_serverList w)).
Definition get_host {E} (a : nat) (w : world) : outcome E Host := deref (obj_get a (w_hostList w)).
Definition get_client {E} (a : nat) (w : world) : outcome E conn := deref (obj_get a (w_clientList w)).
Definition on_server (a : nat) (f : ListenServer -> ListenServer) (w : world) : world :=
  w <| w_serverList := obj_update a f (w_serverList w) |>.
Definition on_host (a : nat) (f : Host -> Host) (w : world) : world :=
  w <| w_hostList := obj_update a f (w_hostList w) |>.
Definition on_conn (a : nat) (f : conn -> conn) (w : world) : world :=
  w <| w_clientList := obj_update a f (w_clientList w) |>.
Definition close_fd (fd : Z) (w : world) : world := w <| w_open := filter (fun x => x <> fd) (w_open w) |>.

(** ** Servers and hosts *)
Fixpoint find_server (ip port : str) (l : list (nat * ListenServer)) : option (nat * ListenServer) :=
  match l with
  | [] => None
  | (a, s) :: l => if str_eqb (ls_ip s) ip && str_eqb (ls_port s) port then Some (a, s) else find_server ip port l
  end.

Definition findServer (hostAddr hostPort : str) (w : world) : option (nat * ListenServer) :=
  find_server hostAddr hostPort (w_serverList w).
Definition serverExist (hostAddr hostPort : str) (w : world) : bool :=
  match findServer hostAddr hostPort w with Some _ => true | None => false end.

(** The names that are not keys yet become keys for the host. *)
Fixpoint assign_new (names : list str) (host : nat) (m : list (str * nat)) : list (str * nat) :=
  match names with
  | [] => m
  | n :: names =>
      assign_new names host
        (match om_find lex_ltb n m with Some _ => m | None => om_assign lex_ltb n host m end)
  end.

Definition assignHost (names : list str) (host : nat) (s : ListenServer) : ListenServer :=
  s <| ls_hostMap := assign_new names host (ls_hostMap s) |> <| ls_nbrHost := ls_nbrHost s + 1 |>.

Section network.
Context (nw : network).

Definition addServer (hostAddr hostPort : str) (w : world) : option nat * world :=
  if negb (nw_getaddrinfo nw (c_str hostAddr) (c_str hostPort)) then (None, w)
  else
    let fd := nw_socket nw (c_str hostAddr) (c_str hostPort) in
    if fd <? 0 then (None, w)
    else
      let w := w <| w_open := fd :: w_open w |> in
      if negb (nw_bind nw (c_str hostAddr) (c_str hostPort)) then (None, close_fd fd w)
      else
        let a := w_fresh w in
        (Some a, w <| w_serverList := w_serverList w ++ [(a, (ListenServer_init hostAddr hostPort) <| ls_sockFd := fd |>)] |>
                   <| w_fresh := S a |>).

(** [registerHost(host, port)]: whether it failed. *)
Definition registerHost_port (host : nat) (h : Host) (port : str) (w : world) : bool * world :=
  match findServer (h_addr h) port w with
  | Some (a, _) => (false, on_host host (addListenServer a) (on_server a (assignHost (h_server_names h) host) w))
  | None =>
      match addServer (h_addr h) port w with
      | (None, w) => (true, w)
      | (Some a, w) => (false, on_host host (addListenServer a) (on_server a (assignHost (h_server_names h) host) w))
      end
  end.

Fixpoint registerHost (host : nat) (h : Host) (ports : list str) (res : bool) (w : world) : bool * world :=
  match ports with
  | [] => (res, w)
  | port :: ports =>
      let '(failed, w) := registerHost_port host h port w in
      registerHost host h ports (failed || res) w
  end.

(** [Host::addHost]: a copy of the host at the end of the list. *)
Definition addHost (h : Host) (w : world) : bool * world :=
  let a := w_fresh w in
  registerHost a h (h_ports h) false
    (w <| w_hostList := w_hostList w ++ [(a, h)] |> <| w_fresh := S a |>).

(** [registerToEpoll] and [startServers]. *)
Fixpoint start_servers (l : list (nat * ListenServer)) (w : world) (ret : Z) : Z * world :=
  match l with
  | [] => (ret, w)
  | (a, s) :: l =>
      if nw_listen nw (c_str (ls_ip s)) (c_str (ls_port s)) then start_servers l w ret
      else start_servers l ((close_fd (ls_sockFd s) w) <| w_serverList := obj_erase a (w_serverList w) |>) 1
  end.

Definition startServers (w : world) : Z * world := start_servers (w_serverList w) w 0.
End network.

Definition findHost (serverName : str) (s : ListenServer) : option nat := om_find lex_ltb serverName (ls_hostMap s).

(** [checkServerNames] *)
Definition checkServerNames (hostAddr : str) (ports : list str) (serverNames : list str) (w : world) : bool :=
  forallb (fun port =>
    match findServer hostAddr port w with
    | None => true
    | Some (_, s) =>
        forallb (fun name => match findHost name s with Some _ => false | None => true end) serverNames
    end) ports.

(** ** Clients *)

(** [Host::removeClient] and [ListenServer::removeClient] *)
Definition host_removeClient (c : nat) (h : Host) : Host := removeClient c h.
Definition server_removeClient (c : nat) (s : ListenServer) : ListenServer :=
  s <| ls_orphanClients := list_remove c (ls_orphanClients s) |>
    <| ls_connectedClients := list_remove c (ls_connectedClients s) |>.

(** [ListenServer::bindClient] *)
Definition bindClient (a client : nat) (hostName : str) (w : world) : failing world (nat * world) :=
  s ← get_server a w;
  host ← deref (match findHost hostName s with
                | Some h => Some h
                | None => snd <$> head (ls_hostMap s)
                end);
  _ ← get_host host w;
  let w := on_host host (addClient client) w in
  Ret (host, on_server a (fun s => s <| ls_orphanClients := list_remove client (ls_orphanClients s) |>) w).

(** The part of [Client::setHost] and [Client::terminate] that reaches other
    objects, in the order in which the model of a client logs it. *)
Definition commit_event (client : nat) (e : event) (w : world) : failing world world :=
  match e with
  | EvUnbind =>
      c ← get_client client w;
      host ← deref (cn_host c);
      _ ← get_host host w;
      Ret (on_host host (host_removeClient client) w)
  | EvBind hostName =>
      c ← get_client client w;
      '(host, w) ← bindClient (cn_server c) client hostName w;
      Ret (on_conn client (fun c => c <| cn_host := Some host |>) w)
  | EvClose =>
      c ← get_client client w;
      _ ← get_server (cn_server c) w;
      let w := on_server (cn_server c) (server_removeClient client) w in
      let w := close_fd (cn_fd c) w in
      Ret (w <| w_clientList := obj_erase client (w_clientList w) |>)
  | _ => Ret w
  end.

Fixpoint commit_events (client : nat) (es : list event) (w : world) : failing world world :=
  match es with
  | [] => Ret w
  | e :: es => w ← commit_event client e w; commit_events client es w
  end.

(** The client's new state, and what it did since the old one. *)
Definition commit (client : nat) (old new : Client) (w : world) : failing world world :=
  let w := on_conn client (fun c => c <| cn_client := new |>) w in
  commit_events client (drop (length (cl_log old)) (cl_log new)) w.

(** [client->terminate()] *)
Definition terminateClient (client : nat) (w : world) : failing world world :=
  c ← get_client client w;
  commit client (cn_client c) (terminate (cn_client c)) w.

(** The loops that terminate every client of a list (no client is in it twice):
    the iterator moves on before the call. *)
Fixpoint terminate_all (clients : list nat) (w : world) : failing world world :=
  match clients with
  | [] => Ret w
  | c :: clients => w ← terminateClient c w; terminate_all clients w
  end.

(** ** Removal *)
Definition unassign_names (names : list str) (m : list (str * nat)) : list (str * nat) :=
  fold_left (fun m n => om_erase lex_ltb n m) names m.

Definition unassignHost (a host : nat) (w : world) : failing world world :=
  h ← get_host host w;
  s ← get_server a w;
  match head (h_server_names h) with
  | None => Throw (out_of_range, w)
  | Some name =>
      match findHost name s with
      | None => Ret w
      | Some other =>
          h' ← get_host other w;
          let w := on_server a (fun s =>
            s <| ls_connectedClients := filter (fun c => c ∉ h_clients h') (ls_connectedClients s) |>
              <| ls_hostMap := unassign_names (h_server_names h) (ls_hostMap s) |>
              <| ls_nbrHost := ls_nbrHost s - 1 |>) w in
          Ret (on_host host (removeListenServer a) w)
      end
  end.

(** The loop over the hosts of a server that goes away. *)
Fixpoint unassign_all (fuel : nat) (a : nat) (it : unique_iterator) (w : world) : failing world world :=
  match fuel with
  | O => Diverge
  | S fuel =>
      match it_base it with
      | None => Ret w
      | Some _ =>
          s ← get_server a w;
          '(old, it) ← safePostIncrement (ls_hostMap s) None it;
          host ← it_second (ls_hostMap s) old;
          w ← unassignHost a host w;
          unassign_all fuel a it w
      end
  end.

Definition shutdown (a : nat) (s : ListenServer) (w : world) : world :=
  if ls_sockFd s =? 0 then w
  else on_server a (fun s => s <| ls_sockFd := 0 |>) (close_fd (ls_sockFd s) w).

Definition removeServer (a : nat) (w : world) : failing world world :=
  s ← get_server a w;
  let w := shutdown a s w in
  w ← terminate_all (ls_orphanClients s) w;
  s ← get_server a w;
  w ← terminate_all (ls_connectedClients s) w;
  s ← get_server a w;
  w ← unassign_all (S (length (ls_hostMap s))) a (it_begin (ls_hostMap s)) w;
  Ret (w <| w_serverList := obj_erase a (w_serverList w) |>).

Fixpoint remove_servers (l : list nat) (w : world) : failing world world :=
  match l with
  | [] => Ret w
  | a :: l => w ← removeServer a w; remove_servers l w
  end.

(** [removeServer(hostAddr, hostPort)] *)
Definition removeServer_at (hostAddr hostPort : str) (w : world) : failing world world :=
  match findServer hostAddr hostPort w with Some (a, _) => removeServer a w | None => Ret w end.

(** [closeServers]: the sockets are closed, the servers stay. *)
Definition closeServers (w : world) : world :=
  fold_left (fun w e => shutdown e.1 e.2 w) (w_serverList w) w.

Definition removeServers (w : world) : failing world world := remove_servers (map fst (w_serverList w)) w.

(** [Host::shutdown] increments the iterator after the call: it must still be
    in the list. *)
Fixpoint shutdown_clients (host : nat) (clients : list nat) (w : world) : failing world world :=
  match clients with
  | [] => Ret w
  | c :: clients =>
      w ← terminateClient c w;
      h ← get_host host w;
      if bool_decide (c ∈ h_clients h) then shutdown_clients host clients w else Undef
  end.

Definition removeHost (host : nat) (w : world) : failing world world :=
  h ← get_host host w;
  w ← shutdown_clients host (h_clients h) w;
  Ret (w <| w_hostList := obj_erase host (w_hostList w) |>).

(** [unregisterHost(host, port)] *)
Definition unregisterHost (host : nat) (port : str) (w : world) : failing world world :=
  h ← get_host host w;
  match findServer (h_addr h) port w with
  | None => Ret w
  | Some (a, _) =>
      w ← unassignHost a host w;
      s ← get_server a w;
      w ← (if Nat.eqb (length (ls_hostMap s)) 0 then removeServer a w else Ret w);
      h ← get_host host w;
      if bool_decide (h_listenServers h = ∅) then removeHost host w else Ret w
  end.

(** [unregisterHost(host, serverSet)], the set in the order of its addresses, and
    [unregisterHost(host)], which passes a copy of the host's own set. *)
Fixpoint unregister_servers (host : nat) (serverSet : list nat) (w : world) : failing world world :=
  match serverSet with
  | [] => Ret w
  | a :: serverSet =>
      s ← get_server a w;
      w ← unregisterHost host (ls_port s) w;
      unregister_servers host serverSet w
  end.

Definition unregisterHost_all (host : nat) (w : world) : failing world world :=
  h ← get_host host w;
  unregister_servers host (merge_sort Nat.le (elements (h_listenServers h))) w.

(** [ListenServer::removeHost]: 1 when the name was not found. *)
Definition removeHost_name (a : nat) (serverName : str) (w : world) : failing world (Z * world) :=
  s ← get_server a w;
  match findHost serverName s with
  | None => Ret (1, w)
  | Some host => w ← unregisterHost host (ls_port s) w; Ret (0, w)
  end.

(** ** Connections *)

(** The map a client of the server would search, with the hosts themselves. *)
Definition resolve_map (hosts : list (nat * Host)) (m : list (str * nat)) : list (str * Host) :=
  omap (fun e => pair e.1 <$> obj_get e.2 hosts) m.

(** [acceptConnection] with [Client::newClient]; [fd] is what [accept] returns. *)
Definition acceptConnection (now fd : Z) (a : nat) (w : world) : failing world (option nat * world) :=
  s ← get_server a w;
  if ls_maxClientNbr s <=? Z.of_nat (length (ls_connectedClients s)) then Ret (None, w)
  else if fd <? 0 then Ret (None, w)
  else
    let c := w_fresh w in
    let conn := mkConn fd a None (Client_init now (resolve_map (w_hostList w) (ls_hostMap s))) in
    let w := w <| w_clientList := w_clientList w ++ [(c, conn)] |> <| w_fresh := S c |>
               <| w_open := fd :: w_open w |> in
    Ret (Some c, on_server a (fun s => s <| ls_connectedClients := ls_connectedClients s ++ [c] |>
                                        <| ls_orphanClients := ls_orphanClients s ++ [c] |>) w).
