(* ===== verification/ListenFacts.v ===== *)
(** * ListenFacts: laws of the listening servers

    The static lists, the names a server knows, and what registering a host does
    to every resolution of an address, a port and a name. *)

From S2P Require Import Prelude CxxString OrdMap Format Http RequestHeaders RequestUri Host Response Cgi Client ConfigLex Config Listen.
#[local] Open Scope Z_scope.

Lemma if_decide_ext {A} (P Q : Prop) `{!Decision P, !Decision Q} (a b : A) :
  (P <-> Q) -> (if bool_decide P then a else b) = (if bool_decide Q then a else b).
Proof. intros H. by rewrite (bool_decide_ext P Q). Qed.

(** ** Static lists *)
Section pool.
Context {T : Type}.
Implicit Types l : list (nat * T).

Lemma obj_get_update a b f l :
  obj_get b (obj_update a f l) = if Nat.eqb a b then f <$> obj_get b l else obj_get b l.
Proof.
  induction l as [|[k x] l IH]; cbn [obj_update obj_get]; [by destruct (Nat.eqb a b)|].
  destruct (Nat.eqb_spec a k) as [->|]; cbn [obj_get].
  - rewrite (Nat.eqb_sym k b). by destruct (Nat.eqb_spec b k).
  - rewrite IH. destruct (Nat.eqb_spec b k) as [->|]; [|done]. by rewrite (proj2 (Nat.eqb_neq a k)).
Qed.

Lemma obj_get_app a b x l :
  obj_get a (l ++ [(b, x)]) =
  match obj_get a l with Some y => Some y | None => if Nat.eqb a b then Some x else None end.
Proof. induction l as [|[k y] l IH]; cbn; [done|]. by destruct (Nat.eqb a k). Qed.

Lemma obj_get_None a l : obj_get a l = None <-> a ∉ map fst l.
Proof.
  induction l as [|[k y] l IH]; cbn [obj_get map fst]; [split; [intros _; apply not_elem_of_nil|done]|].
  rewrite not_elem_of_cons, <- IH. destruct (Nat.eqb_spec a k) as [->|]; [split; [done|by intros [? _]]|tauto].
Qed.

Lemma obj_get_Some a x l : obj_get a l = Some x -> a ∈ map fst l.
Proof.
  intros H. destruct (decide (a ∈ map fst l)) as [|Hn]; [done|]. apply obj_get_None in Hn. congruence.
Qed.

Lemma obj_get_erase a b l :
  NoDup (map fst l) -> obj_get b (obj_erase a l) = if Nat.eqb a b then None else obj_get b l.
Proof.
  induction l as [|[k x] l IH]; cbn [obj_erase obj_get map fst]; [by destruct (Nat.eqb a b)|].
  intros [Hk Hn]%NoDup_cons. destruct (Nat.eqb_spec a k) as [->|Hak]; cbn [obj_get].
  - rewrite (Nat.eqb_sym k b). destruct (Nat.eqb_spec b k) as [->|]; [by apply obj_get_None|done].
  - rewrite IH by done. destruct (Nat.eqb_spec b k) as [->|]; [|done]. by rewrite (proj2 (Nat.eqb_neq a k)).
Qed.

Lemma obj_update_keys a f l : map fst (obj_update a f l) = map fst l.
Proof. induction l as [|[k x] l IH]; cbn; [done|]. destruct (Nat.eqb a k); cbn; by rewrite ?IH. Qed.

Lemma obj_erase_keys a l b : b ∈ map fst (obj_erase a l) -> b ∈ map fst l.
Proof.
  induction l as [|[k x] l IH]; cbn [obj_erase]; [done|]. destruct (Nat.eqb a k); cbn [map fst].
  - intros. by right.
  - rewrite !elem_of_cons. intros [?|?]; [by left|right; by apply IH].
Qed.

Lemma obj_erase_NoDup a l : NoDup (map fst l) -> NoDup (map fst (obj_erase a l)).
Proof.
  induction l as [|[k x] l IH]; cbn [obj_erase map fst]; [done|]. intros [Hk Hn]%NoDup_cons.
  destruct (Nat.eqb a k); [done|]. cbn [map fst]. apply NoDup_cons. split; [|by apply IH].
  intros Hx. by apply obj_erase_keys in Hx.
Qed.

Lemma obj_get_elem a x l : NoDup (map fst l) -> (a, x) ∈ l <-> obj_get a l = Some x.
Proof.
  induction l as [|[k y] l IH]; cbn [obj_get map fst]; [intros _; split; [by intros ?%elem_of_nil|done]|].
  intros [Hk Hn]%NoDup_cons. rewrite elem_of_cons. destruct (Nat.eqb_spec a k) as [->|Hne].
  - split; [|intros [= ->]; by left]. intros [[= ->]|Hin]; [done|].
    destruct Hk. apply list_elem_of_fmap. by exists (k, x).
  - rewrite <- IH by done. split; [intros [[= ? ?]|?]; done|by right].
Qed.
End pool.

Lemma find_server_Some ip port l a s :
  find_server ip port l = Some (a, s) -> (a, s) ∈ l /\ ls_ip s = ip /\ ls_port s = port.
Proof.
  induction l as [|[k t] l IH]; cbn; [done|]. destruct (str_eqb (ls_ip t) ip && str_eqb (ls_port t) port) eqn:E.
  - intros [= -> ->]. apply andb_true_iff in E as [E1%str_eqb_eq E2%str_eqb_eq]. split_and!; [by left|done..].
  - intros H. apply IH in H as (? & ? & ?). split_and!; [by right|done..].
Qed.

Lemma find_server_update ip port a f l :
  NoDup (map fst l) -> (forall s, ls_ip (f s) = ls_ip s /\ ls_port (f s) = ls_port s) ->
  find_server ip port (obj_update a f l) =
  (fun e => (e.1, if Nat.eqb a e.1 then f e.2 else e.2)) <$> find_server ip port l.
Proof.
  intros Hn Hf. induction l as [|[k s] l IH]; cbn [obj_update find_server]; [done|].
  apply NoDup_cons in Hn as [Hk Hn]. destruct (Nat.eqb_spec a k) as [->|Hne]; cbn [find_server].
  - destruct (Hf s) as [-> ->]. destruct (_ && _); cbn; [by rewrite Nat.eqb_refl|].
    destruct (find_server ip port l) as [[b s']|] eqn:E; [|done]. cbn.
    destruct (Nat.eqb_spec k b) as [->|]; [|done]. destruct Hk.
    apply find_server_Some in E as [E _]. apply list_elem_of_fmap. by exists (b, s').
  - destruct (_ && _); cbn; [by rewrite (proj2 (Nat.eqb_neq a k))|]. by apply IH.
Qed.

Lemma find_server_app ip port a s l :
  find_server ip port (l ++ [(a, s)]) =
  match find_server ip port l with
  | Some e => Some e
  | None => if str_eqb (ls_ip s) ip && str_eqb (ls_port s) port then Some (a, s) else None
  end.
Proof.
  induction l as [|[k t] l IH]; cbn [app find_server]; [done|].
  by destruct (str_eqb (ls_ip t) ip && str_eqb (ls_port t) port).
Qed.

(** ** Names *)
Lemma assign_new_find names host m n :
  om_find lex_ltb n (assign_new names host m) =
  match om_find lex_ltb n m with
  | Some x => Some x
  | None => if bool_decide (n ∈ names) then Some host else None
  end.
Proof.
  revert m. induction names as [|k names IH]; intros m; cbn [assign_new].
  { by destruct (om_find lex_ltb n m). }
  rewrite IH. destruct (om_find lex_ltb k m) as [y|] eqn:Ek.
  - destruct (om_find lex_ltb n m) eqn:En; [done|].
    destruct (decide (n = k)) as [->|Hne]; [congruence|].
    by rewrite (bool_decide_ext (n ∈ names) (n ∈ k :: names)) by (rewrite elem_of_cons; tauto).
  - unfold om_assign. destruct (decide (n = k)) as [->|Hne].
    + rewrite om_find_update_eq, Ek by apply _. by rewrite bool_decide_eq_true_2 by by left.
    + rewrite om_find_update_ne; [|apply _|].
      2:{ destruct (key_equiv lex_ltb k n) eqn:E; [|done]. by apply lex_equiv in E. }
      destruct (om_find lex_ltb n m); [done|].
      by rewrite (bool_decide_ext (n ∈ names) (n ∈ k :: names)) by (rewrite elem_of_cons; tauto).
Qed.

(** ** The registry *)
Definition resolve (ip port name : str) (w : world) : option Host :=
  match findServer ip port w with
  | Some (_, s) => a ← findHost name s; config_of <$> obj_get a (w_hostList w)
  | None => None
  end.

(** The addresses are below the next one and the hosts the maps point to exist. *)
Record world_ok (w : world) : Prop := {
  ok_servers : NoDup (map fst (w_serverList w)) /\ forall a, a ∈ map fst (w_serverList w) -> (a < w_fresh w)%nat;
  ok_hosts : NoDup (map fst (w_hostList w)) /\ forall a, a ∈ map fst (w_hostList w) -> (a < w_fresh w)%nat;
  ok_maps : forall a s n h, (a, s) ∈ w_serverList w -> findHost n s = Some h ->
    is_Some (obj_get h (w_hostList w));
}.

Lemma fresh_host w : world_ok w -> obj_get (w_fresh w) (w_hostList w) = None.
Proof. intros [_ [_ H] _]. apply obj_get_None. intros ?%H. lia. Qed.

Lemma fresh_server w : world_ok w -> obj_get (w_fresh w) (w_serverList w) = None.
Proof. intros [[_ H] _ _]. apply obj_get_None. intros ?%H. lia. Qed.

Section registry.
Context (nw : network).

(** A server for the address and the port, with the host assigned. *)
Definition with_assigned (host : nat) (h : Host) (a : nat) (w : world) : world :=
  on_host host (addListenServer a) (on_server a (assignHost (h_server_names h) host) w).

Lemma addServer_cases ip port w :
  (exists w', addServer nw ip port w = (None, w') /\ w_serverList w' = w_serverList w /\
     w_hostList w' = w_hostList w /\ w_fresh w' = w_fresh w) \/
  (exists fd, addServer nw ip port w = (Some (w_fresh w),
     w <| w_open := fd :: w_open w |>
       <| w_serverList := w_serverList w ++ [(w_fresh w, (ListenServer_init ip port) <| ls_sockFd := fd |>)] |>
       <| w_fresh := S (w_fresh w) |>)).
Proof.
  unfold addServer. destruct (negb (nw_getaddrinfo _ _ _)); [left; by eexists|]. cbv zeta.
  destruct (_ <? 0); [left; by eexists|]. destruct (negb (nw_bind _ _ _)); [left; by eexists|].
  right. by eexists.
Qed.

Lemma config_of_addListenServer a h : config_of (addListenServer a h) = config_of h.
Proof. reflexivity. Qed.

Lemma config_fmap_update a host (l : list (nat * Host)) b :
  config_of <$> obj_get b (obj_update host (addListenServer a) l) = config_of <$> obj_get b l.
Proof. rewrite obj_get_update. destruct (Nat.eqb host b); [|done]. by destruct (obj_get b l). Qed.

Lemma findServer_assigned ip p host h a w :
  world_ok w ->
  findServer ip p (with_assigned host h a w) =
  (fun e => (e.1, if Nat.eqb a e.1 then assignHost (h_server_names h) host e.2 else e.2)) <$> findServer ip p w.
Proof.
  intros [[Hn _] _ _]. unfold findServer, with_assigned. cbn. by apply find_server_update.
Qed.

Lemma findServer_elem ip p w a s :
  findServer ip p w = Some (a, s) -> (a, s) ∈ w_serverList w /\ ls_ip s = ip /\ ls_port s = p.
Proof. apply find_server_Some. Qed.

Lemma findHost_assigned names host s n :
  findHost n (assignHost names host s) =
  match findHost n s with Some x => Some x | None => if bool_decide (n ∈ names) then Some host else None end.
Proof. apply assign_new_find. Qed.

Lemma with_assigned_ok host h a w :
  world_ok w -> is_Some (obj_get host (w_hostList w)) -> world_ok (with_assigned host h a w).
Proof.
  intros Hok Hh. destruct Hok as [Hs Hl Hm]. unfold with_assigned, on_host, on_server. split; cbn.
  - by rewrite obj_update_keys.
  - by rewrite obj_update_keys.
  - intros b s n x Hb Hx. rewrite obj_get_update.
    assert (is_Some (obj_get x (w_hostList w))) as Hsome.
    { apply obj_get_elem in Hb; [|rewrite obj_update_keys; apply Hs]. rewrite obj_get_update in Hb.
      destruct (obj_get b (w_serverList w)) as [s0|] eqn:E; [|by destruct (Nat.eqb a b)].
      apply obj_get_elem in E; [|apply Hs].
      destruct (Nat.eqb a b); injection Hb as <-; [|by eapply Hm].
      rewrite findHost_assigned in Hx. destruct (findHost n s0) eqn:E0; [injection Hx as <-; by eapply Hm|].
      case_bool_decide; [by injection Hx as <-|done]. }
    destruct (Nat.eqb host x); [|done]. by apply fmap_is_Some.
Qed.

(** What one registration does to every resolution. *)
Lemma with_assigned_resolve host h a s port w ip p n hc :
  world_ok w -> findServer (h_addr h) port w = Some (a, s) ->
  obj_get host (w_hostList w) = Some hc -> config_of hc = config_of h ->
  resolve ip p n (with_assigned host h a w) =
  match resolve ip p n w with
  | Some x => Some x
  | None => if bool_decide (ip = h_addr h /\ p = port /\ n ∈ h_server_names h) then Some (config_of h) else None
  end.
Proof.
  intros Hok Ha Hh Hc. unfold resolve. rewrite findServer_assigned by done.
  destruct (findServer ip p w) as [[b t]|] eqn:E.
  2:{ cbn. rewrite bool_decide_eq_false_2; [done|]. intros (-> & -> & _). congruence. }
  cbn. destruct (Nat.eqb_spec a b) as [<-|Hne].
  - apply findServer_elem in E as Ea. apply findServer_elem in Ha as Ha'.
    destruct Ea as (Et & <- & <-), Ha' as (Es & Hip & Hport).
    assert (t = s) as ->.
    { apply obj_get_elem in Et, Es; [|apply Hok..]. congruence. }
    rewrite findHost_assigned, Hip, Hport. destruct (findHost n s) as [x|] eqn:Ef; cbn.
    + rewrite config_fmap_update. destruct (ok_maps _ Hok _ _ _ _ Es Ef) as [y ->]. done.
    + destruct (decide (n ∈ h_server_names h)) as [Hin|Hout].
      * rewrite !bool_decide_eq_true_2 by done. cbn. by rewrite config_fmap_update, Hh, <- Hc.
      * rewrite (bool_decide_eq_false_2 (n ∈ h_server_names h)) by done.
        by rewrite bool_decide_eq_false_2 by by intros (_ & _ & ?).
  - rewrite bool_decide_eq_false_2; [|intros (-> & -> & _); congruence].
    destruct (findHost n t); cbn; [|done]. rewrite config_fmap_update.
    by destruct (config_of <$> _).
Qed.

(** A new server resolves nothing. *)
Lemma with_server_resolve ip port fd w ip' p n :
  world_ok w -> findServer ip port w = None ->
  let w' := w <| w_open := fd :: w_open w |>
              <| w_serverList := w_serverList w ++ [(w_fresh w, (ListenServer_init ip port) <| ls_sockFd := fd |>)] |>
              <| w_fresh := S (w_fresh w) |> in
  resolve ip' p n w' = resolve ip' p n w /\ world_ok w' /\
  findServer ip port w' = Some (w_fresh w, (ListenServer_init ip port) <| ls_sockFd := fd |>).
Proof.
  intros Hok Hf w'. unfold resolve, findServer in *. cbn. rewrite !find_server_app, Hf.
  split_and!.
  - destruct (find_server ip' p (w_serverList w)) as [[? ?]|]; [done|]. by destruct (_ && _).
  - destruct Hok as [[Hn Hb] [Hn' Hb'] Hm]. split; cbn.
    + rewrite map_app. cbn. split.
      * apply NoDup_app. split_and!; [done| |by apply NoDup_singleton].
        intros x Hx ->%list_elem_of_singleton. apply Hb in Hx. lia.
      * intros x. rewrite elem_of_app, list_elem_of_singleton. intros [Hx| ->]; [apply Hb in Hx; lia|lia].
    + split; [done|]. intros x Hx. apply Hb' in Hx. lia.
    + intros a s m x. rewrite elem_of_app, list_elem_of_singleton. intros [Hx|[= -> ->]]; [by eapply Hm|].
      by cbn.
  - cbn. assert (str_eqb ip ip && str_eqb port port = true) as -> by by rewrite !(proj2 (str_eqb_eq _ _)).
    done.
Qed.

(** [w'] resolves as [w] does, and the names of [h] on the ports of [good]. *)
Definition resolves_also (h : Host) (good : list str) (w w' : world) : Prop := forall ip p n,
  resolve ip p n w' =
  match resolve ip p n w with
  | Some x => Some x
  | None => if bool_decide (ip = h_addr h /\ p ∈ good /\ n ∈ h_server_names h) then Some (config_of h) else None
  end.

(** The host being registered is in the list, and the list is sound. *)
Definition listed (host : nat) (h : Host) (w : world) : Prop :=
  world_ok w /\ exists hc, obj_get host (w_hostList w) = Some hc /\ config_of hc = config_of h.

Lemma with_assigned_listed host h a w : listed host h w -> listed host h (with_assigned host h a w).
Proof.
  intros (Hok & hc & Hh & Hc). split; [apply with_assigned_ok; [done|by eexists]|].
  exists (addListenServer a hc). cbn. rewrite obj_get_update, Nat.eqb_refl, Hh. split; [done|exact Hc].
Qed.

Lemma registerHost_port_spec host h port w b w' :
  listed host h w -> registerHost_port nw host h port w = (b, w') ->
  listed host h w' /\ resolves_also h (if b then [] else [port]) w w'.
Proof.
  intros Hl. pose proof Hl as (Hok & hc & Hh & Hc). unfold registerHost_port.
  destruct (findServer (h_addr h) port w) as [[a s]|] eqn:Ef.
  - intros [= <- <-]. split; [by apply with_assigned_listed|]. intros ip p n.
    change (on_host host _ _) with (with_assigned host h a w).
    rewrite (with_assigned_resolve host h a s port w ip p n hc) by done.
    destruct (resolve ip p n w); [done|]. apply if_decide_ext. by rewrite list_elem_of_singleton.
  - destruct (addServer_cases (h_addr h) port w) as [(w1 & -> & H1 & H2 & H3)|[fd ->]].
    + intros [= <- <-]. assert (forall ip p n, resolve ip p n w1 = resolve ip p n w) as Hr.
      { intros. unfold resolve, findServer. by rewrite H1, H2. }
      split.
      * split; [|exists hc; by rewrite H2]. destruct Hok as [Hs Hl' Hm].
        split; rewrite ?H1, ?H2, ?H3; [done..|]. done.
      * intros ip p n. rewrite Hr. destruct (resolve ip p n w); [done|].
        rewrite bool_decide_eq_false_2; [done|]. by intros (_ & ?%elem_of_nil & _).
    + intros [= <- <-].
      destruct (with_server_resolve (h_addr h) port fd w (h_addr h) port [] Hok Ef) as (_ & Hok1 & Hf1).
      pose proof (fun ip p n => proj1 (with_server_resolve (h_addr h) port fd w ip p n Hok Ef)) as Hr.
      set (w1 := w <| w_open := _ |> <| w_serverList := _ |> <| w_fresh := _ |>) in *.
      change (on_host host _ _) with (with_assigned host h (w_fresh w) w1).
      split; [apply with_assigned_listed; split; [done|by exists hc]|]. intros ip p n.
      rewrite (with_assigned_resolve host h (w_fresh w) _ port w1 ip p n hc) by done.
      rewrite Hr. destruct (resolve ip p n w); [done|]. apply if_decide_ext. by rewrite list_elem_of_singleton.
Qed.

Lemma resolves_also_trans h g1 g2 w1 w2 w3 :
  resolves_also h g1 w1 w2 -> resolves_also h g2 w2 w3 -> resolves_also h (g1 ++ g2) w1 w3.
Proof.
  intros H1 H2 ip p n. rewrite H2, H1. destruct (resolve ip p n w1); [done|].
  destruct (decide (ip = h_addr h /\ p ∈ g1 /\ n ∈ h_server_names h)) as [Hy|Hn].
  - rewrite bool_decide_eq_true_2 by done. rewrite bool_decide_eq_true_2; [done|].
    rewrite elem_of_app. tauto.
  - rewrite bool_decide_eq_false_2 by done. apply if_decide_ext. rewrite elem_of_app. tauto.
Qed.

Lemma registerHost_spec host h ports : forall res w b w',
  listed host h w -> registerHost nw host h ports res w = (b, w') ->
  listed host h w' /\ exists good, resolves_also h good w w' /\ (forall p, p ∈ good -> p ∈ ports) /\
    (b = false -> res = false /\ forall p, p ∈ ports -> p ∈ good).
Proof.
  induction ports as [|port ports IH]; intros res w b w' Hl; cbn [registerHost].
  - intros [= <- <-]. split; [done|]. exists []. split_and!; [|done|done].
    intros ip p n. destruct (resolve ip p n w); [done|].
    rewrite bool_decide_eq_false_2; [done|]. by intros (_ & ?%elem_of_nil & _).
  - destruct (registerHost_port nw host h port w) as [b1 w1] eqn:E1. intros E2.
    destruct (registerHost_port_spec _ _ _ _ _ _ Hl E1) as [Hl1 Hr1].
    destruct (IH _ _ _ _ Hl1 E2) as (Hl2 & good & Hr2 & Hg & Hall). split; [done|].
    exists ((if b1 then [] else [port]) ++ good). split_and!.
    + by eapply resolves_also_trans.
    + intros p. rewrite elem_of_app, elem_of_cons. intros [Hp|Hp]; [|right; by apply Hg].
      destruct b1; [by apply elem_of_nil in Hp|]. left. by apply list_elem_of_singleton.
    + intros Hb. destruct (Hall Hb) as [Hf Ha]. apply orb_false_iff in Hf as [-> ->]. split; [done|].
      intros p. rewrite elem_of_app, elem_of_cons. intros [->|Hp]; [left; by left|right; by apply Ha].
Qed.

Lemma addHost_spec h w b w' :
  world_ok w -> addHost nw h w = (b, w') ->
  world_ok w' /\ exists good, resolves_also h good w w' /\ (forall p, p ∈ good -> p ∈ h_ports h) /\
    (b = false -> forall p, p ∈ h_ports h -> p ∈ good).
Proof.
  intros Hok. unfold addHost. set (w1 := w <| w_hostList := _ |> <| w_fresh := _ |>). intros E.
  pose proof (fresh_host w Hok) as Hfr.
  assert (listed (w_fresh w) h w1) as Hl.
  { split.
    - destruct Hok as [[Hn Hb] [Hn' Hb'] Hm]. split; cbn.
      + split; [done|]. intros x Hx%Hb. lia.
      + rewrite map_app. cbn. split.
        * apply NoDup_app. split_and!; [done| |by apply NoDup_singleton].
          intros x Hx ->%list_elem_of_singleton. apply Hb' in Hx. lia.
        * intros x. rewrite elem_of_app, list_elem_of_singleton. intros [Hx%Hb'| ->]; lia.
      + intros a s n x Ha Hx. rewrite obj_get_app. destruct (Hm _ _ _ _ Ha Hx) as [y ->]. by eexists.
    - exists h. cbn. rewrite obj_get_app, Hfr, Nat.eqb_refl. done. }
  assert (forall ip p n, resolve ip p n w1 = resolve ip p n w) as Hr.
  { intros. unfold resolve. change (findServer ip p w1) with (findServer ip p w).
    destruct (findServer ip p w) as [[a s]|] eqn:Ef; [|done]. destruct (findHost n s) as [x|] eqn:Ex; [|done].
    cbn. rewrite obj_get_app. apply findServer_elem in Ef as (Ef & _).
    by destruct (ok_maps _ Hok _ _ _ _ Ef Ex) as [y ->]. }
  destruct (registerHost_spec _ _ _ _ _ _ _ Hl E) as ([Hok' _] & good & Hg & Hsub & Hall). split; [done|].
  exists good. split_and!; [|done|intros Hb; by apply Hall]. intros ip p n. by rewrite Hg, Hr.
Qed.

Lemma checkServerNames_spec ip ports names w :
  world_ok w ->
  checkServerNames ip ports names w = true <->
  forall p n, p ∈ ports -> n ∈ names -> resolve ip p n w = None.
Proof.
  intros Hok. unfold checkServerNames, resolve. rewrite forallb_forall. split.
  - intros H p n Hp Hn. apply list_elem_of_In in Hp. specialize (H _ Hp).
    destruct (findServer ip p w) as [[a s]|]; [|done]. rewrite forallb_forall in H.
    apply list_elem_of_In in Hn. specialize (H _ Hn). by destruct (findHost n s).
  - intros H p Hp. apply list_elem_of_In in Hp. specialize (H p).
    destruct (findServer ip p w) as [[a s]|] eqn:Ef; [|done]. apply forallb_forall. intros n Hn.
    apply list_elem_of_In in Hn. specialize (H n Hp Hn). destruct (findHost n s) as [x|] eqn:Ex; [|done].
    apply findServer_elem in Ef as (Ef & _). destruct (ok_maps _ Hok _ _ _ _ Ef Ex) as [y Hy].
    cbn in H. by rewrite Hy in H.
Qed.
End registry.

Lemma world_init_ok : world_ok world_init.
Proof. split; cbn; [split; [constructor|by intros ? ?%elem_of_nil]..|]. by intros ? ? ? ? ?%elem_of_nil. Qed.
