(* ===== verification/TurnFacts.v ===== *)
(** * TurnFacts: what one event makes a client do to its host and its server

    A client reaches the other objects of the server only through the actions
    it logs.  [link] is where it stands with its host; the actions of an event
    always form a run of [link_step], and the run ends where the client's own
    fields say.  [Links] replays the run on the static lists. *)

From S2P Require Import Prelude CxxString OrdMap Format Http RequestHeaders RequestBody RequestUri Host Response Cgi Client Control.
#[local] Open Scope Z_scope.

(** [Detached]: out of the list of its host, the pointer not yet set again. *)
Inductive link : Type :=
  | Unlinked
  | Linked (h : Host)
  | Detached
  | Gone.

(** The host [ListenServer::bindClient] picks. *)
Definition pick {A} (name : str) (m : list (str * A)) : option A :=
  match om_find lex_ltb name m with Some h => Some h | None => snd <$> head m end.

Definition link_step (m : list (str * Host)) (l : link) (e : event) : option link :=
  match e, l with
  | _, Gone => None
  | EvUnbind, Linked _ => Some Detached
  | EvUnbind, _ => None
  | EvBind _, Linked _ => None
  | EvBind name, _ => Linked <$> pick name m
  | EvClose, Linked _ => None
  | EvClose, _ => Some Gone
  | _, _ => Some l
  end.

Fixpoint link_run (m : list (str * Host)) (l : link) (es : list event) : option link :=
  match es with
  | [] => Some l
  | e :: es => l ← link_step m l e; link_run m l es
  end.

Lemma link_run_app m l es es' : link_run m l (es ++ es') = (l ← link_run m l es; link_run m l es').
Proof.
  revert l. induction es as [|e es IH]; intros l; cbn [link_run app]; [done|].
  destruct (link_step m l e); [apply IH|done].
Qed.

Definition link_of (c : Client) : link :=
  match cl_host c with Some h => Linked h | None => Unlinked end.

(** [stays c c']: between [c] and [c'] the client went from link to link and was
    not terminated. *)
Definition stays (c c' : Client) : Prop :=
  cl_hostMap c' = cl_hostMap c /\ cl_terminated c' = cl_terminated c /\
  exists es, cl_log c' = cl_log c ++ es /\ link_run (cl_hostMap c) (link_of c) es = Some (link_of c').

(** The fields [stays] looks at. *)
Definition view (c : Client) := (cl_hostMap c, cl_host c, cl_log c, cl_terminated c).

Lemma stays_view c c' : view c' = view c -> stays c c'.
Proof.
  unfold view, stays, link_of. intros [= -> -> -> ->]. split; [done|]. split; [done|].
  exists []. by rewrite app_nil_r.
Qed.

#[export] Instance stays_preorder : PreOrder stays.
Proof.
  split; [intros c; by apply stays_view|].
  intros c1 c2 c3 (H1 & H2 & es & H3 & H4) (H1' & H2' & es' & H3' & H4').
  split; [congruence|]. split; [congruence|]. exists (es ++ es'). split; [by rewrite H3', H3, app_assoc|].
  rewrite link_run_app, H4. cbn. by rewrite <- H1.
Qed.

(** Any action but those on the links. *)
Definition neutral (e : event) : bool :=
  match e with EvBind _ | EvUnbind | EvClose => false | _ => true end.

Lemma stays_log e c : neutral e = true -> stays c (log e c).
Proof.
  intros He. split; [done|]. split; [done|]. exists [e]. split; [done|].
  change (link_of (log e c)) with (link_of c). unfold link_of. destruct (cl_host c); by destruct e.
Qed.

Lemma stays_trans_view c c1 c2 : stays c c1 -> view c2 = view c1 -> stays c c2.
Proof. intros H ?%stays_view. by transitivity c1. Qed.

(** [kept m c]: whether [m] returns or throws, the client stayed.  [quiet] is the
    same for what returns something else than a client. *)
Definition kept {A} (m : failing Client (A * Client)) (c : Client) : Prop :=
  yields m (fun x => stays c x.2) (fun e => stays c e.2).
Definition quiet {A} (m : failing Client A) (c : Client) : Prop := yields m (fun _ => True) (fun e => stays c e.2).
Definition settled (m : failing Client Client) (c : Client) : Prop := yields m (stays c) (fun e => stays c e.2).

Lemma kept_ret {A} (a : A) c c' : stays c c' -> kept (Ret (a, c')) c.
Proof. done. Qed.

Lemma kept_from {A} (m : failing Client (A * Client)) c c' : stays c c' -> kept m c' -> kept m c.
Proof. intros H Hm. eapply yields_mono; [exact Hm|..]; intros x Hx; by transitivity c'. Qed.

Lemma kept_bind {A B} (m : failing Client (A * Client)) (k : A * Client -> failing Client (B * Client)) c :
  kept m c -> (forall a c', kept (k (a, c')) c') -> kept (mbind k m) c.
Proof.
  intros Hm Hk. eapply yields_bind; [exact Hm|]. intros [a c'] Hc. by eapply kept_from.
Qed.

Lemma kept_any {A B} (m : failing Client A) (k : A -> failing Client (B * Client)) c :
  quiet m c -> (forall a, kept (k a) c) -> kept (mbind k m) c.
Proof. intros Hm Hk. eapply yields_bind; [exact Hm|]. intros a _. apply Hk. Qed.

Lemma kept_settled {B} (m : failing Client Client) (k : Client -> failing Client (B * Client)) c :
  settled m c -> (forall c', stays c c' -> kept (k c') c) -> kept (mbind k m) c.
Proof. apply yields_bind. Qed.

Lemma quiet_deref {A} (p : option A) c : quiet (deref p) c.
Proof. by destruct p. Qed.

Lemma quiet_fueled {A} (p : option A) c : quiet (fueled p) c.
Proof. by destruct p. Qed.

(** A method of the request throws: the client is as before the call. *)
Lemma quiet_throwing {A} (m : outcome exn A) c c' : stays c c' -> quiet (throwing c' m) c.
Proof. by destruct m. Qed.

(** ** The operations of [Client.v] *)
Create HintDb stays.
#[export] Hint Resolve kept_ret stays_log quiet_deref quiet_fueled quiet_throwing : stays.
#[export] Hint Extern 5 (stays _ _) => reflexivity : stays.
#[export] Hint Extern 4 (stays ?c ?c') => (apply stays_view; reflexivity) : stays.
Ltac stay := eauto with stays.

Lemma getRequest_stays now c : stays c (getRequest now c).
Proof. unfold getRequest. destruct (cl_request c); stay. Qed.

Lemma deleteCGIProcess_stays c : stays c (deleteCGIProcess c).
Proof.
  unfold deleteCGIProcess. destruct (cl_cgiProcess c); [|stay].
  eapply stays_trans_view; [by apply (stays_log (EvUnlink (c_str (rh_path (resHints (the_request c))))))|done].
Qed.

Lemma deleteBodyStream_stays c : stays c (deleteBodyStream c).
Proof.
  unfold deleteBodyStream. destruct (cl_bodyStream c); [|stay]. cbv zeta.
  set (c1 := c <| cl_bodyStream := None |>). transitivity c1; [stay|].
  destruct (cl_request c1); [|stay]. destruct (_ || _); stay.
Qed.

Lemma setBodyFile_stays os p c : stays c (setBodyFile os p c).
Proof.
  unfold setBodyFile. cbv zeta. destruct (negb _); [|stay]. destruct (os_can_create os _); [|stay].
  set (c1 := _ <| cl_bodyFileName := p |>). transitivity c1; stay.
Qed.
#[export] Hint Resolve getRequest_stays deleteCGIProcess_stays deleteBodyStream_stays setBodyFile_stays : stays.

Lemma clear_stays c : stays c (clear c).
Proof.
  unfold clear. cbv zeta. transitivity (deleteCGIProcess (deleteBodyStream c)); [|stay].
  transitivity (deleteBodyStream c); stay.
Qed.

Lemma parseRequest_stays now s c : kept (parseRequest now s c) c.
Proof.
  unfold parseRequest. cbv zeta. apply kept_from with (getRequest now c); [stay|].
  set (c0 := getRequest now c). destruct (_ <? _).
  - apply kept_any; [stay|]. intros [[res r] rest]. destruct (res <? 0); stay.
  - destruct (_ && _); [|stay]. apply kept_any; [stay|]. intros [[[res r] rest] f]. destruct (res <? 0); stay.
Qed.

Lemma bindClient_stays name c c1 :
  cl_hostMap c1 = cl_hostMap c -> cl_terminated c1 = cl_terminated c ->
  (exists es l, cl_log c1 = cl_log c ++ es /\ link_run (cl_hostMap c) (link_of c) es = Some l /\
     match l with Unlinked | Detached => True | _ => False end) ->
  settled (bindClient name c1) c.
Proof.
  intros Hm Ht (es & l & He & Hl & Hok). unfold bindClient. change (match om_find _ _ _ with Some h => _ | None => _ end)
    with (pick name (cl_hostMap c1)). destruct (pick name (cl_hostMap c1)) as [h|] eqn:Ep; [|done].
  cbn [deref mbind outcome_bind]. split; [done|]. split; [done|]. exists (es ++ [EvBind name]).
  cbn [cl_log log upd]. split; [by rewrite He, app_assoc|]. rewrite link_run_app, Hl. cbn.
  rewrite <- Hm, Ep. by destruct l.
Qed.

Lemma setHost_stays name c : settled (setHost name c) c.
Proof.
  unfold setHost. destruct (cl_host c) as [h|] eqn:Eh.
  - destruct (checkServerName name h); [cbn; stay|]. apply bindClient_stays; [done..|].
    exists [EvUnbind], Detached. unfold link_of. rewrite Eh. done.
  - apply bindClient_stays; [done..|]. exists [], Unlinked. unfold link_of. by rewrite Eh, app_nil_r.
Qed.

(** ** The handlers of [Control.v] *)
Lemma on_request_stays f c : kept (on_request f c) c.
Proof. apply kept_any; [stay|]. intros [res r]. stay. Qed.

Lemma andthen_stays (f k : Client -> failing Client (Z * Client)) c :
  kept (f c) c -> (forall c', kept (k c') c') -> kept (andthen f k c) c.
Proof.
  intros Hf Hk. unfold andthen. apply kept_bind; [done|]. intros res c'. destruct (negb _); [stay|done].
Qed.
#[export] Hint Resolve clear_stays parseRequest_stays on_request_stays : stays.

Lemma assignHost_stays c : kept (assignHost c) c.
Proof.
  unfold assignHost. destruct (negb _); [stay|]. apply kept_settled; [apply setHost_stays|]. stay.
Qed.

Lemma start_body_stays n h c : stays c (start_body n h c).
Proof. unfold start_body. destruct (_ || _); stay. Qed.

Lemma checkBodyLength_stays c : kept (checkBodyLength c) c.
Proof.
  unfold checkBodyLength. destruct (checkHeader _ _).
  - apply kept_any; [stay|]. intros h. destruct (_ <? _); [stay|]. apply kept_ret.
    etransitivity; [|apply start_body_stays]. destruct (0 <? _); stay.
  - destruct (is_chunked _); [|stay]. apply kept_any; [stay|]. intros h. apply kept_ret, start_body_stays.
Qed.

Lemma checkContinue_stays c : stays c (checkContinue c).2.
Proof. unfold checkContinue. destruct (str_eqb _ _); [destruct (_ =? _)|destruct (negb _)]; stay. Qed.

Lemma copy_content_type_stays c c' : stays c c' -> stays c (copy_content_type c').
Proof.
  intros H. eapply stays_trans_view; [exact H|]. unfold copy_content_type. by destruct (checkHeader _ _).
Qed.

Lemma upload_file_stays os f b s c : stays c (upload_file os f b s c).
Proof.
  unfold upload_file. cbv zeta. set (c1 := set_request _ c).
  apply (stays_trans_view _ (setBodyFile os f c1)); [|done]. transitivity c1; stay.
Qed.
#[export] Hint Resolve assignHost_stays checkBodyLength_stays checkContinue_stays copy_content_type_stays
  upload_file_stays : stays.

Lemma defineBodyParsing_stays os c : kept (defineBodyParsing os c) c.
Proof.
  unfold defineBodyParsing. destruct (_ =? REQ_TYPE_CGI).
  - apply kept_settled.
    + destruct (negb _); [|unfold settled; cbn; stay].
      do 2 (eapply yields_bind; [apply (quiet_deref _ c)|]; intros ? _). cbn. stay.
    + intros c' Hc'. apply kept_ret, copy_content_type_stays. by eapply stays_trans_view.
  - destruct (_ && _); [|stay]. apply kept_any; [stay|]. intros l.
    destruct (checkFileExist _ _); [stay|destruct (negb _); stay|stay].
Qed.

Lemma accept_request_stays os res c : kept (accept_request os res c) c.
Proof.
  unfold accept_request. apply kept_bind; [destruct (no_cgi_redir c); [apply defineBodyParsing_stays|stay]|].
  intros e c'. destruct (res =? RES_CONTINUE); stay.
Qed.

Lemma handleRequestHeaders_stays os c : kept (handleRequestHeaders os c) c.
Proof.
  unfold handleRequestHeaders. apply andthen_stays; [stay|]. intros c1.
  apply andthen_stays; [stay|]. intros c2. apply andthen_stays; [stay|]. intros c3.
  apply andthen_stays; [destruct (no_cgi_redir c3); stay|]. intros c4.
  apply andthen_stays; [apply kept_any; stay|]. intros c5.
  pose proof (checkContinue_stays c5) as Hc. destruct (checkContinue c5) as [res c6]. cbn [snd] in Hc.
  destruct (_ && _); [stay|]. eapply kept_from; [exact Hc|apply accept_request_stays].
Qed.

Lemma handleRequestBodyDone_stays c : stays c (handleRequestBodyDone c).2.
Proof.
  unfold handleRequestBodyDone. destruct (_ =? REQ_TYPE_STATIC); [|stay]. destruct (_ || _); [stay|].
  destruct (_ =? DELETE); [|stay]. cbn [snd].
  eapply stays_trans_view; [by apply (stays_log (EvUnlink (c_str (rh_path (resHints (the_request c))))))|done].
Qed.

Lemma generateResponse__stays os dep fuel : forall status c, kept (generateResponse_ os dep fuel status c) c.
Proof.
  induction fuel as [|fuel IH]; intros status c; cbn [generateResponse_]; [done|]. cbv zeta.
  apply kept_from with (getRequest (os_now os) c); [stay|]. set (c0 := getRequest _ c).
  destruct (cl_response c0); [stay|]. destruct (genResponse _ _ _) as [[a h]|[e h]| |]; [stay| |done..].
  destruct (_ =? _); [stay|]. eapply kept_from; [|apply IH]. stay.
Qed.

Lemma generateResponse_stays os dep c status : kept (generateResponse os dep c status) c.
Proof. apply generateResponse__stays. Qed.

Lemma generateCGIProcess_stays os c : stays c (generateCGIProcess os c).2.
Proof.
  unfold generateCGIProcess. destruct (execCGI _ _ _ _ _) as [[e p] r]. cbv zeta.
  set (c1 := _ <| cl_cgiProcess := Some p |>). transitivity c1; [stay|]. destruct (negb _); cbn [snd]; [stay|].
  eapply stays_trans_view; [by apply (stays_log (EvFork (os_fork os)))|done].
Qed.
#[export] Hint Resolve handleRequestHeaders_stays handleRequestBodyDone_stays generateResponse_stays
  generateCGIProcess_stays : stays.

Lemma handleClientResponse_stays os dep c status : kept (handleClientResponse os dep c status) c.
Proof.
  unfold handleClientResponse. apply kept_from with (getRequest (os_now os) c); [stay|].
  cbv zeta. set (c0 := getRequest _ c). destruct (_ || _); [stay|].
  pose proof (generateCGIProcess_stays os c0) as H. destruct (generateCGIProcess os c0) as [e c1]. cbn [snd] in H.
  destruct (negb _); [eapply kept_from; stay|stay].
Qed.

Lemma handleClientIn_stays os c incoming : kept (handleClientIn os c incoming) c.
Proof.
  unfold handleClientIn. destruct (if incoming then _ else _) as [input|]; [|stay].
  destruct (_ && _); [stay|]. apply kept_bind; [stay|]. intros res c1.
  destruct (res <? 0); [|stay]. cbv zeta.
  assert (forall res c, kept (if (res <=? 0) && negb (cl_bodyStatus c =? BODY_STATUS_ONGOING)
            then Ret (handleRequestBodyDone c) else Ret (res, c)) c) as Hdone.
  { intros r c'. destruct (_ && _); [apply handleRequestBodyDone_stays|stay]. }
  destruct (_ =? HEADER_STATUS_READY); [|apply Hdone].
  apply kept_bind; [eapply kept_from; [|apply handleRequestHeaders_stays]; stay|]. intros r2 c2.
  destruct (negb _); [stay|]. destruct (negb _); [|apply Hdone].
  apply kept_bind; [stay|]. intros r3 c3. apply Hdone.
Qed.

Lemma response_sent_stays os c : kept (response_sent os c) c.
Proof.
  unfold response_sent. apply kept_from with (getRequest (os_now os) c); [stay|].
  apply kept_any; [|intros [|]; stay]. destruct (str_eqb _ _); [|done].
  eapply yields_bind; [apply (quiet_deref _ _)|]. done.
Qed.

Lemma handleClientOut_stays os c : kept (handleClientOut os c) c.
Proof.
  unfold handleClientOut. destruct (cl_outBuffers c) as [|b rest]; [apply response_sent_stays|].
  destruct (_ <? 0); [stay|]. cbv zeta. set (e := EvWrite _). set (c1 := _ <| cl_outBuffers := rest |>).
  assert (stays c c1) as H1 by (eapply stays_trans_view; [by apply (stays_log e)|done]).
  eapply kept_from; [exact H1|]. destruct rest; [apply response_sent_stays|stay].
Qed.

Lemma handleCGIProcess_stays os dep c : kept (handleCGIProcess os dep c) c.
Proof.
  unfold handleCGIProcess. apply kept_any; [stay|]. intros p. destruct (checkEnd _ _ p) as [[res p'] killed].
  cbv zeta. set (c1 := if killed : bool then _ else _).
  assert (stays c c1) as H1.
  { subst c1. destruct killed; [|stay]. transitivity (c <| cl_cgiProcess := Some p' |>); stay. }
  eapply kept_from; [exact H1|]. destruct (res =? 0); [stay|].
  destruct (res <? 0); [eapply kept_from; [apply deleteCGIProcess_stays|stay]|].
  apply kept_any; [stay|]. intros [[res2 p2] r2]. set (c2 := _ <| cl_cgiProcess := Some p2 |>).
  apply kept_from with c2; [stay|].
  destruct (_ =? CGI_RES_ERROR); [eapply kept_from; [apply deleteCGIProcess_stays|stay]|].
  destruct (_ || _); [apply kept_bind; [stay|]; intros; stay|].
  destruct (_ =? CGI_RES_LOCAL_REDIRECT); [|stay].
  apply kept_bind; [eapply kept_from; [apply deleteCGIProcess_stays|stay]|]. intros r3 c3.
  destruct (_ || _); [stay|]. pose proof (generateCGIProcess_stays os c3) as H4.
  destruct (generateCGIProcess os c3) as [e c4]. cbn [snd] in H4. destruct (negb _); [|stay].
  eapply kept_from; [|stay]. transitivity c4; stay.
Qed.
#[export] Hint Resolve handleClientResponse_stays handleClientIn_stays handleClientOut_stays handleCGIProcess_stays : stays.

(** ** Turns

    [turns c c']: the client stayed, or it ended and the run of its actions ends
    with [Gone]. *)
Definition turns (c c' : Client) : Prop :=
  stays c c' \/
  cl_terminated c' = true /\ exists es, cl_log c' = cl_log c ++ es /\
    link_run (cl_hostMap c) (link_of c) es = Some Gone.

Lemma turns_from c c1 c2 : stays c c1 -> turns c1 c2 -> turns c c2.
Proof.
  intros H [H2|(Ht & es2 & He2 & Hr2)]; [left; by transitivity c1|right]. split; [done|].
  destruct H as (Hm & _ & es & He & Hr). exists (es ++ es2). split; [by rewrite He2, He, app_assoc|].
  rewrite link_run_app, Hr. cbn. by rewrite <- Hm.
Qed.

Lemma terminate_turns c : turns c (terminate c).
Proof.
  unfold terminate. cbv zeta. set (c1 := match cl_cgiProcess c with Some p => _ | None => _ end).
  assert (stays c c1) as H1.
  { subst c1. destruct (cl_cgiProcess c); [|stay]. destruct (0 <? _); stay. }
  eapply turns_from; [exact H1|]. eapply turns_from; [apply clear_stays|]. set (c2 := clear c1).
  right. split; [done|]. destruct (cl_host c2) as [h|] eqn:Eh.
  - exists [EvUnbind; EvClose]. cbn [cl_log log upd]. split; [by rewrite <- app_assoc|].
    unfold link_of. by rewrite Eh.
  - exists [EvClose]. split; [done|]. unfold link_of. by rewrite Eh.
Qed.

Lemma set_mode_stays m c : stays c (c <| cl_mode := m |>).
Proof. by apply stays_view. Qed.

Definition turned (c : Client) (x : Z * Client) : Prop := turns c x.2 /\ (x.1 < 0 -> stays c x.2).

Lemma turned_stays c x : stays c x.2 -> turned c x.
Proof. intros H. split; [by left|done]. Qed.

Lemma turned_terminate c r : 0 <= r -> turned c (r, terminate c).
Proof. intros Hr. split; [apply terminate_turns|]. intros Hn. cbn [fst] in Hn. by apply Z.lt_nge in Hn. Qed.

(** Whatever the end, an exception leaves a client that stayed. *)
Definition turning (m : failing Client (Z * Client)) (c : Client) : Prop := yields m (turned c) (fun e => stays c e.2).

Lemma kept_turning m c : kept m c -> turning m c.
Proof. intros H. eapply yields_mono; [exact H| |done]. apply turned_stays. Qed.

Lemma next_request_stays os dep c :
  kept ('(res, c) ← handleClientIn os ((clear c) <| cl_mode := CLIENT_MODE_READ |>) false;
        if 0 <? res then handleClientResponse os dep c res else Ret (res, c)) c.
Proof.
  apply (kept_from _ _ ((clear c) <| cl_mode := CLIENT_MODE_READ |>)).
  - transitivity (clear c); [apply clear_stays|apply set_mode_stays].
  - apply kept_bind; [apply handleClientIn_stays|]. intros r c2. destruct (0 <? r); stay.
Qed.

Lemma after_response_turns os dep res c : turning (after_response os dep res c) c.
Proof.
  unfold after_response. destruct (_ =? SITUATION_KEEP_ALIVE); [apply kept_turning, next_request_stays|].
  destruct (_ =? SITUATION_CONTINUE); [|by apply turned_terminate].
  apply turned_stays. cbn [snd]. etransitivity; [|apply set_mode_stays]. stay.
Qed.

Lemma handleClientEvent_turns os dep hup ein eout c :
  turning (handleClientEvent os dep hup ein eout c) c.
Proof.
  unfold handleClientEvent. destruct (_ || _); [by apply turned_terminate|].
  destruct (_ && _).
  { apply kept_turning, kept_bind; [stay|]. intros r c1. destruct (0 <? r); [stay|]. destruct (r <? 0); stay. }
  destruct (_ && _); [|apply kept_turning; stay].
  eapply yields_bind with (P := fun x => stays c x.2).
  { destruct (cl_cgiProcess c); [apply handleCGIProcess_stays|apply (kept_ret 0); stay]. }
  intros [r c1] H1. cbn [snd] in H1. destruct (negb _); [by apply turned_stays|].
  destruct (cl_response c1); [|by apply turned_stays].
  eapply yields_bind with (P := fun x => stays c x.2).
  { eapply kept_from; [exact H1|stay]. }
  intros [r2 c2] H2. cbn [snd] in H2. destruct (negb _); [|by apply turned_stays].
  eapply yields_mono; [apply after_response_turns|..].
  - intros x [Hx Hy]. split; [by eapply turns_from|]. intros Hn. transitivity c2; auto.
  - intros e He. by transitivity c2.
Qed.

(** One event. *)
Lemma client_event_turns os dep hup ein eout c : yields (client_event os dep hup ein eout c) (turns c) (fun e => stays c e.2).
Proof.
  unfold client_event. eapply yields_bind; [apply handleClientEvent_turns|]. intros [r c'] [H1 H2].
  cbn [fst snd post] in *.
  destruct (Z.ltb_spec r 0); [|done]. eapply turns_from; [by apply H2|apply terminate_turns].
Qed.

(** One client of [checkTO]. *)
Lemma check_timeout_turns os dep c : yields (check_timeout os dep c) (turns c) (fun e => stays c e.2).
Proof.
  unfold check_timeout. destruct (_ && _); [|left; stay].
  destruct (cl_request c); [|apply terminate_turns]. cbv zeta. set (c1 := set_request _ _).
  eapply yields_bind with (P := fun x => stays c x.2).
  - apply (kept_from _ _ c1); stay.
  - intros [res c2] H. by left.
Qed.
