(* ===== verification/Links.v ===== *)
(** * Links: the pointers between servers, hosts and clients

    The invariant of the static lists of [Listen]: every pointer leads to a
    living object and the lists of the two ends of a link agree.  Registration,
    connection, every action of a client and the removal of a server preserve
    it, and with it these operations never go through a dangling pointer.  The
    registry the configuration parser uses is implemented here. *)

From S2P Require Import Prelude CxxString OrdMap Format Http RequestHeaders RequestUri Host Response Cgi Client Control ConfigLex Config Listen ListenFacts TurnFacts.
#[local] Open Scope Z_scope.

(** ** The invariant *)

(** The keys of a server's map: a host is there under all its names. *)
Record map_ok (hosts : list (nat * Host)) (m : list (str * nat)) : Prop := {
  mo_sorted : om_sorted lex_ltb m;
  mo_names : forall n h, om_find lex_ltb n m = Some h ->
    exists x, obj_get h hosts = Some x /\ n ∈ h_server_names x /\
      forall k, k ∈ h_server_names x -> om_find lex_ltb k m = Some h;
}.

(** Every server has a host. *)
Definition maps_ok (w : world) : Prop := forall a s, obj_get a (w_serverList w) = Some s ->
  map_ok (w_hostList w) (ls_hostMap s) /\ ls_hostMap s <> [].

(** The lists of clients of a server. *)
Record members_ok (clients : list (nat * conn)) (a : nat) (s : ListenServer) : Prop := {
  me_connected : forall c, c ∈ ls_connectedClients s <->
    exists k, obj_get c clients = Some k /\ cn_server k = a;
  me_orphans : forall c, c ∈ ls_orphanClients s <->
    exists k, obj_get c clients = Some k /\ cn_server k = a /\ cn_host k = None;
  me_connected_nodup : NoDup (ls_connectedClients s);
  me_orphans_nodup : NoDup (ls_orphanClients s);
}.

(** The clients of a host; [x] is a client in the middle of a turn, in no list. *)
Record guests_ok (x : option nat) (clients : list (nat * conn)) (a : nat) (h : Host) : Prop := {
  gu_clients : forall c, c ∈ h_clients h <->
    x <> Some c /\ exists k, obj_get c clients = Some k /\ cn_host k = Some a;
  gu_nodup : NoDup (h_clients h);
}.

(** The pointers of a client. *)
Definition conn_ok (w : world) (k : conn) : Prop :=
  is_Some (obj_get (cn_server k) (w_serverList w)) /\
  match cn_host k with Some h => is_Some (obj_get h (w_hostList w)) | None => True end.

(** A descriptor belongs to a server or to a client. *)
Definition owned (w : world) (fd : Z) : Prop :=
  (exists a s, obj_get a (w_serverList w) = Some s /\ ls_sockFd s = fd) \/
  (exists c k, obj_get c (w_clientList w) = Some k /\ cn_fd k = fd).

(** Addresses are unique and below the next one. *)
Definition keys_ok (fresh : nat) (keys : list nat) : Prop :=
  NoDup keys /\ forall a, a ∈ keys -> (a < fresh)%nat.

Record links (x : option nat) (w : world) : Prop := {
  lk_servers : keys_ok (w_fresh w) (map fst (w_serverList w));
  lk_hosts : keys_ok (w_fresh w) (map fst (w_hostList w));
  lk_clients : keys_ok (w_fresh w) (map fst (w_clientList w));
  lk_map : maps_ok w;
  lk_members : forall a s, obj_get a (w_serverList w) = Some s -> members_ok (w_clientList w) a s;
  lk_guests : forall a h, obj_get a (w_hostList w) = Some h -> guests_ok x (w_clientList w) a h;
  lk_conn : forall c k, obj_get c (w_clientList w) = Some k -> conn_ok w k;
  lk_open : forall fd, fd ∈ w_open w -> fd <> 0 -> owned w fd;
}.

(** ** Frames *)
Lemma keys_ok_update {T} n a f (l : list (nat * T)) : keys_ok n (map fst l) -> keys_ok n (map fst (obj_update a f l)).
Proof. by rewrite obj_update_keys. Qed.

Lemma keys_ok_erase {T} n a (l : list (nat * T)) : keys_ok n (map fst l) -> keys_ok n (map fst (obj_erase a l)).
Proof. intros [H1 H2]. split; [by apply obj_erase_NoDup|]. intros b Hb%obj_erase_keys. by apply H2. Qed.

Lemma keys_ok_mono n n' l : (n <= n')%nat -> keys_ok n l -> keys_ok n' l.
Proof. intros Hn [H1 H2]. split; [done|]. intros a Ha%H2. lia. Qed.

Lemma keys_ok_add {T} n (x : T) l : keys_ok n (map fst l) -> keys_ok (S n) (map fst (l ++ [(n, x)])).
Proof.
  intros [H1 H2]. rewrite map_app. cbn [map fst]. split.
  - apply NoDup_app. split_and!; [done| |by apply NoDup_singleton].
    intros a Ha ->%list_elem_of_singleton. apply H2 in Ha. lia.
  - intros a [Ha| ->%list_elem_of_singleton]%elem_of_app; [apply H2 in Ha; lia|lia].
Qed.

Lemma keys_fresh {T} n (l : list (nat * T)) : keys_ok n (map fst l) -> obj_get n l = None.
Proof. intros [_ H]. apply obj_get_None. intros Hn%H. lia. Qed.

Lemma obj_get_add {T} n (x : T) l a : keys_ok n (map fst l) ->
  obj_get a (l ++ [(n, x)]) = if Nat.eqb a n then Some x else obj_get a l.
Proof.
  intros H. rewrite obj_get_app. destruct (Nat.eqb_spec a n) as [->|]; [by rewrite (keys_fresh _ _ H)|].
  by destruct (obj_get a l).
Qed.

(** Case analysis on a lookup after an update. *)
Lemma obj_update_inv {T} a f (l : list (nat * T)) b y :
  obj_get b (obj_update a f l) = Some y ->
  exists x, obj_get b l = Some x /\ y = if Nat.eqb a b then f x else x.
Proof.
  rewrite obj_get_update. destruct (Nat.eqb a b); [|intros H; by exists y].
  destruct (obj_get b l) as [x|]; [|done]. intros [= <-]. by exists x.
Qed.

Lemma obj_update_is_Some {T} a f (l : list (nat * T)) b :
  is_Some (obj_get b (obj_update a f l)) <-> is_Some (obj_get b l).
Proof. rewrite obj_get_update. destruct (Nat.eqb a b); [apply fmap_is_Some|done]. Qed.

(** Hosts that keep their names. *)
Lemma map_ok_hosts hosts hosts' m :
  (forall h x, obj_get h hosts = Some x -> exists x', obj_get h hosts' = Some x' /\ h_server_names x' = h_server_names x) ->
  map_ok hosts m -> map_ok hosts' m.
Proof.
  intros H [H1 H2]. split; [done|]. intros n h Hn. destruct (H2 _ _ Hn) as (x & Hx & Hin & Hall).
  destruct (H _ _ Hx) as (x' & Hx' & E). exists x'. rewrite E. done.
Qed.

(** Clients that keep the fields of a property. *)
Lemma ex_conn_iff (clients clients' : list (nat * conn)) c (P : conn -> Prop) :
  (obj_get c clients' = obj_get c clients \/
   exists f, (forall k, P (f k) <-> P k) /\ obj_get c clients' = f <$> obj_get c clients) ->
  (exists k, obj_get c clients' = Some k /\ P k) <-> (exists k, obj_get c clients = Some k /\ P k).
Proof.
  intros [->|(f & Hf & ->)]; [done|]. destruct (obj_get c clients) as [k|]; cbn.
  - split; intros (k' & [= <-] & Hk); eexists; (split; [reflexivity|]); by apply Hf.
  - split; by intros (k' & ? & _).
Qed.

(** ** Clients *)

(** What a client keeps to itself. *)
Lemma links_on_conn x c f w :
  (forall k, cn_server (f k) = cn_server k /\ cn_host (f k) = cn_host k /\ cn_fd (f k) = cn_fd k) ->
  links x w -> links x (on_conn c f w).
Proof.
  intros Hf Hl.
  assert (forall b (P : nat -> option nat -> Prop),
    (exists k, obj_get b (obj_update c f (w_clientList w)) = Some k /\ P (cn_server k) (cn_host k)) <->
    (exists k, obj_get b (w_clientList w) = Some k /\ P (cn_server k) (cn_host k))) as Hex.
  { intros b P. apply (ex_conn_iff _ _ b (fun k => P (cn_server k) (cn_host k))).
    rewrite obj_get_update. destruct (Nat.eqb c b); [|by left]. right. exists f. split; [|done].
    intros k. by destruct (Hf k) as (-> & -> & _). }
  split; cbn.
  - apply Hl.
  - apply Hl.
  - apply keys_ok_update, Hl.
  - apply Hl.
  - intros a s Hs. destruct (lk_members _ _ Hl _ _ Hs) as [H1 H2 H3 H4]. split; [| |done..].
    + intros b. rewrite H1. symmetry. exact (Hex b (fun sv _ => sv = a)).
    + intros b. rewrite H2. symmetry. exact (Hex b (fun sv ho => sv = a /\ ho = None)).
  - intros a h Hh. destruct (lk_guests _ _ Hl _ _ Hh) as [H1 H2]. split; [|done].
    intros b. rewrite H1, (Hex b (fun _ ho => ho = Some a)). done.
  - intros b k (k0 & Hk & ->)%obj_update_inv. pose proof (lk_conn _ _ Hl _ _ Hk) as Hc.
    destruct (Nat.eqb c b); [|exact Hc]. unfold conn_ok in *. by destruct (Hf k0) as (-> & -> & _).
  - intros fd Hfd H0. destruct (lk_open _ _ Hl _ Hfd H0) as [?|(b & k & Hk & <-)]; [by left|right].
    exists b. cbn. rewrite obj_get_update, Hk. destruct (Nat.eqb c b); [|by exists k].
    exists (f k). split; [done|]. by destruct (Hf k) as (_ & _ & ->).
Qed.

Lemma list_remove_elem a b l : b ∈ list_remove a l <-> b <> a /\ b ∈ l.
Proof. unfold list_remove. by rewrite list_elem_of_filter. Qed.

Lemma list_remove_nodup a l : NoDup l -> NoDup (list_remove a l).
Proof. apply NoDup_filter. Qed.

(** The maps of the servers, when servers keep their maps and hosts their names. *)
Lemma maps_ok_step w w' :
  (forall a s', obj_get a (w_serverList w') = Some s' ->
     exists s, obj_get a (w_serverList w) = Some s /\ ls_hostMap s' = ls_hostMap s) ->
  (forall h x, obj_get h (w_hostList w) = Some x ->
     exists x', obj_get h (w_hostList w') = Some x' /\ h_server_names x' = h_server_names x) ->
  maps_ok w -> maps_ok w'.
Proof.
  intros Hs Hh Hw a s' Ha. destruct (Hs _ _ Ha) as (s & Hs' & ->). destruct (Hw _ _ Hs') as [H1 H2].
  split; [by eapply map_ok_hosts|done].
Qed.

Lemma same_maps a f (l : list (nat * ListenServer)) : (forall s, ls_hostMap (f s) = ls_hostMap s) ->
  forall b s', obj_get b (obj_update a f l) = Some s' ->
  exists s, obj_get b l = Some s /\ ls_hostMap s' = ls_hostMap s.
Proof. intros Hf b s' (s & Hs & ->)%obj_update_inv. exists s. split; [done|]. by destruct (Nat.eqb a b). Qed.

Lemma same_names a f (l : list (nat * Host)) : (forall h, h_server_names (f h) = h_server_names h) ->
  forall b x, obj_get b l = Some x ->
  exists x', obj_get b (obj_update a f l) = Some x' /\ h_server_names x' = h_server_names x.
Proof.
  intros Hf b x Hx. rewrite obj_get_update, Hx. destruct (Nat.eqb a b); cbn; eexists; (split; [reflexivity|]); auto.
Qed.

(** A client of no host may be taken for one in the middle of its turn. *)
Lemma links_detached c k w :
  links None w -> obj_get c (w_clientList w) = Some k -> cn_host k = None -> links (Some c) w.
Proof.
  intros Hl Hk Hn. destruct Hl as [H1 H2 H3 H4 H5 H6 H7 H8]. split; try done.
  intros a h Hh. destruct (H6 _ _ Hh) as [G1 G2]. split; [|done]. intros b. rewrite G1.
  split; [|intros [_ Hb]; by split]. intros [_ (k' & Hk' & Hh')]. split; [|by exists k'].
  intros [= ->]. congruence.
Qed.

(** [Host::removeClient] *)
Lemma links_unbind c k h w :
  links None w -> obj_get c (w_clientList w) = Some k -> cn_host k = Some h ->
  links (Some c) (on_host h (host_removeClient c) w).
Proof.
  intros Hl Hk Hh. destruct Hl as [H1 H2 H3 H4 H5 H6 H7 H8]. split; cbn; try done.
  - by apply keys_ok_update.
  - eapply maps_ok_step; [| |exact H4]; cbn; [intros; by eexists|]. by apply same_names.
  - intros a y (y0 & Hy & ->)%obj_update_inv. destruct (H6 _ _ Hy) as [G1 G2].
    destruct (Nat.eqb_spec h a) as [<-|Hne].
    + split; cbn; [|by apply NoDup_filter]. intros b. rewrite list_elem_of_filter, G1. split.
      * intros [Hb [_ Hx]]. split; [congruence|done].
      * intros [Hb Hx]. split; [congruence|]. by split.
    + split; [|done]. intros b. rewrite G1. split; [|intros [_ Hx]; by split].
      intros [_ (k' & Hk' & Hh')]. split; [|by exists k']. intros [= ->]. congruence.
  - intros b k' Hk'. destruct (H7 _ _ Hk') as [G1 G2]. split; [done|]. cbn.
    destruct (cn_host k'); [by apply obj_update_is_Some|done].
Qed.

(** The clients after one of them got a host. *)
Definition with_host (h : nat) (k : conn) : conn := k <| cn_host := Some h |>.

Definition bound (c h a : nat) (w : world) : world :=
  on_conn c (with_host h) (on_server a (fun s => s <| ls_orphanClients := list_remove c (ls_orphanClients s) |>)
    (on_host h (addClient c) w)).

Lemma links_bind c k h w :
  links (Some c) w -> obj_get c (w_clientList w) = Some k -> is_Some (obj_get h (w_hostList w)) ->
  links None (bound c h (cn_server k) w).
Proof.
  intros Hl Hk Hh. destruct Hl as [H1 H2 H3 H4 H5 H6 H7 H8]. split; cbn.
  - by apply keys_ok_update.
  - by apply keys_ok_update.
  - by apply keys_ok_update.
  - eapply maps_ok_step; [| |exact H4]; cbn; [by apply same_maps|by apply same_names].
  - intros a s (s0 & Hs & ->)%obj_update_inv. destruct (H5 _ _ Hs) as [G1 G2 G3 G4].
    assert (forall b, b ∈ ls_connectedClients s0 <->
      exists k0, obj_get b (obj_update c (with_host h) (w_clientList w)) = Some k0 /\ cn_server k0 = a) as Hc.
    { intros b. rewrite G1. symmetry. apply ex_conn_iff. rewrite obj_get_update.
      destruct (Nat.eqb c b); [right; by exists (with_host h)|by left]. }
    assert (forall b, b <> c -> (exists k0, obj_get b (w_clientList w) = Some k0 /\ cn_server k0 = a /\ cn_host k0 = None)
      <-> exists k0, obj_get b (obj_update c (with_host h) (w_clientList w)) = Some k0 /\ cn_server k0 = a /\ cn_host k0 = None) as Ho.
    { intros b Hb. rewrite obj_get_update, (proj2 (Nat.eqb_neq c b)) by congruence. done. }
    assert (~ exists k0, obj_get c (obj_update c (with_host h) (w_clientList w)) = Some k0 /\ cn_server k0 = a /\ cn_host k0 = None) as Hn.
    { rewrite obj_get_update, Nat.eqb_refl, Hk. cbn. by intros (? & [= <-] & _ & ?). }
    destruct (Nat.eqb_spec (cn_server k) a) as [<-|Hne]; split; cbn; try done.
    + intros b. rewrite list_remove_elem, G2. split; [intros [Hb Hx]; by apply Ho|].
      intros Hx. destruct (decide (b = c)) as [->|Hb]; [done|]. split; [done|by apply Ho].
    + by apply list_remove_nodup.
    + intros b. rewrite G2. destruct (decide (b = c)) as [->|Hb]; [|by apply Ho].
      split; [|done]. intros (k0 & Hk0 & E & _). congruence.
  - intros a y (y0 & Hy & ->)%obj_update_inv. destruct (H6 _ _ Hy) as [G1 G2].
    assert (forall b, (exists k0, obj_get b (obj_update c (with_host h) (w_clientList w)) = Some k0 /\ cn_host k0 = Some a) <->
      if Nat.eqb c b then h = a else exists k0, obj_get b (w_clientList w) = Some k0 /\ cn_host k0 = Some a) as Hx.
    { intros b. rewrite obj_get_update. destruct (Nat.eqb_spec c b) as [<-|]; [|done]. rewrite Hk. cbn.
      split; [by intros (? & [= <-] & [= ->])|intros <-; by eexists]. }
    assert (c ∉ h_clients y0) as Hc by (rewrite G1; by intros [[] _]).
    destruct (Nat.eqb_spec h a) as [<-|Hne]; split; cbn.
    + intros b. rewrite elem_of_app, G1, list_elem_of_singleton, Hx.
      destruct (Nat.eqb_spec c b) as [<-|Hb]; [split; [done|by right]|]. split.
      * intros [[_ ?]|?]; [done|congruence].
      * intros [_ ?]. left. split; [congruence|done].
    + apply NoDup_app. split_and!; [done| |by apply NoDup_singleton].
      by intros b Hb ->%list_elem_of_singleton.
    + intros b. rewrite G1, Hx. destruct (Nat.eqb_spec c b) as [<-|Hb]; [split; [by intros [[] _]|by intros [_ ?]]|].
      split; intros [_ ?]; (split; [congruence|done]).
    + done.
  - intros b k0 (k1 & Hk1 & ->)%obj_update_inv. destruct (H7 _ _ Hk1) as [G1 G2]. unfold conn_ok. cbn.
    destruct (Nat.eqb c b); cbn; (split; [by apply obj_update_is_Some|]); [by apply obj_update_is_Some|].
    destruct (cn_host k1); [by apply obj_update_is_Some|done].
  - intros fd Hfd H0. destruct (H8 _ Hfd H0) as [(a & s & Hs & <-)|(b & k0 & Hk0 & <-)]; [left|right]; cbn.
    + exists a. rewrite obj_get_update, Hs. destruct (Nat.eqb _ a); by eexists.
    + exists b. rewrite obj_get_update, Hk0. destruct (Nat.eqb c b); by eexists.
Qed.

(** The end of [Client::terminate]. *)
Definition closed (c : nat) (k : conn) (w : world) : world :=
  let w := on_server (cn_server k) (server_removeClient c) w in
  let w := close_fd (cn_fd k) w in
  w <| w_clientList := obj_erase c (w_clientList w) |>.

Lemma links_close c k w :
  links (Some c) w -> obj_get c (w_clientList w) = Some k -> links None (closed c k w).
Proof.
  intros Hl Hk. destruct Hl as [H1 H2 H3 H4 H5 H6 H7 H8].
  assert (forall b, obj_get b (obj_erase c (w_clientList w)) =
    if Nat.eqb c b then None else obj_get b (w_clientList w)) as Her by (intros b; apply obj_get_erase, H3).
  assert (forall b (P : conn -> Prop), (exists k0, obj_get b (obj_erase c (w_clientList w)) = Some k0 /\ P k0) <->
    b <> c /\ exists k0, obj_get b (w_clientList w) = Some k0 /\ P k0) as Hex.
  { intros b P. rewrite Her. destruct (Nat.eqb_spec c b) as [<-|Hb]; [split; [by intros (? & ? & _)|by intros [? _]]|].
    split; [intros Hx; split; [congruence|done]|by intros [_ Hx]]. }
  unfold closed. cbv zeta. split; cbn.
  - by apply keys_ok_update.
  - done.
  - by apply keys_ok_erase.
  - eapply maps_ok_step; [| |exact H4]; cbn; [by apply same_maps|intros; by eexists].
  - intros a s (s0 & Hs & ->)%obj_update_inv. destruct (H5 _ _ Hs) as [G1 G2 G3 G4].
    destruct (Nat.eqb_spec (cn_server k) a) as [<-|Hne]; split; cbn; try by apply list_remove_nodup.
    + intros b. by rewrite list_remove_elem, G1, (Hex b (fun k0 => cn_server k0 = cn_server k)).
    + intros b. by rewrite list_remove_elem, G2, (Hex b (fun k0 => cn_server k0 = cn_server k /\ cn_host k0 = None)).
    + intros b. rewrite G1, (Hex b (fun k0 => cn_server k0 = a)). split; [|by intros [_ ?]].
      intros (k0 & Hk0 & E). split; [|by exists k0]. intros ->. congruence.
    + intros b. rewrite G2, (Hex b (fun k0 => cn_server k0 = a /\ cn_host k0 = None)). split; [|by intros [_ ?]].
      intros (k0 & Hk0 & E & ?). split; [|by exists k0]. intros ->. congruence.
    + done.
    + done.
  - intros a h Hh. destruct (H6 _ _ Hh) as [G1 G2]. split; [|done]. intros b.
    rewrite G1, (Hex b (fun k0 => cn_host k0 = Some a)). split; intros [Hb Hx]; (split; [|try done]).
    + done.
    + split; [congruence|done].
    + destruct Hx as [Hx _]. congruence.
    + by destruct Hx.
  - intros b k0. rewrite Her. destruct (Nat.eqb c b); [done|]. intros Hk0.
    destruct (H7 _ _ Hk0) as [G1 G2]. split; cbn; [by apply obj_update_is_Some|done].
  - intros fd [Hfd Hin]%list_elem_of_filter H0.
    destruct (H8 _ Hin H0) as [(a & s & Hs & <-)|(b & k0 & Hk0 & <-)]; [left|right]; cbn.
    + exists a. rewrite obj_get_update, Hs. destruct (Nat.eqb _ a); by eexists.
    + exists b, k0. rewrite Her. destruct (Nat.eqb_spec c b) as [<-|]; [congruence|done].
Qed.

(** A new connection. *)
Definition connected (a : nat) (k : conn) (w : world) : world :=
  let c := w_fresh w in
  on_server a (fun s => s <| ls_connectedClients := ls_connectedClients s ++ [c] |>
                          <| ls_orphanClients := ls_orphanClients s ++ [c] |>)
    (w <| w_clientList := w_clientList w ++ [(c, k)] |> <| w_fresh := S c |> <| w_open := cn_fd k :: w_open w |>).

Lemma links_connect a k w :
  links None w -> cn_server k = a -> cn_host k = None -> is_Some (obj_get a (w_serverList w)) ->
  links None (connected a k w).
Proof.
  intros Hl Hk Hn Ha. destruct Hl as [H1 H2 H3 H4 H5 H6 H7 H8]. set (c := w_fresh w) in *.
  pose proof (keys_fresh _ _ H3) as Hfr. fold c in Hfr.
  assert (forall b, obj_get b (w_clientList w ++ [(c, k)]) = if Nat.eqb b c then Some k else obj_get b (w_clientList w))
    as Hadd by (intros b; by apply obj_get_add).
  assert (forall b (P : conn -> Prop), (exists k0, obj_get b (w_clientList w ++ [(c, k)]) = Some k0 /\ P k0) <->
    (b = c /\ P k) \/ exists k0, obj_get b (w_clientList w) = Some k0 /\ P k0) as Hex.
  { intros b P. rewrite Hadd. destruct (Nat.eqb_spec b c) as [->|Hb].
    - rewrite Hfr. split; [intros (? & [= <-] & ?); by left|]. intros [[_ ?]|(? & ? & _)]; [by exists k|done].
    - split; [by right|]. by intros [[? _]|?]. }
  unfold connected. cbv zeta. fold c. split; cbn.
  - apply keys_ok_update. by eapply keys_ok_mono; [|exact H1]; lia.
  - by eapply keys_ok_mono; [|exact H2]; lia.
  - by apply keys_ok_add.
  - eapply maps_ok_step; [| |exact H4]; cbn; [by apply same_maps|intros; by eexists].
  - intros b s (s0 & Hs & ->)%obj_update_inv. destruct (H5 _ _ Hs) as [G1 G2 G3 G4].
    assert (forall l, NoDup l -> (forall x, x ∈ l -> is_Some (obj_get x (w_clientList w))) -> NoDup (l ++ [c])) as Hnd.
    { intros l Hl Hin. apply NoDup_app. split_and!; [done| |by apply NoDup_singleton].
      intros x Hx ->%list_elem_of_singleton. destruct (Hin _ Hx). congruence. }
    destruct (Nat.eqb_spec a b) as [<-|Hne]; split; cbn; try done.
    + intros x. rewrite elem_of_app, list_elem_of_singleton, G1, (Hex x (fun k0 => cn_server k0 = a)).
      split; [intros [?| ->]; [by right|by left]|intros [[-> _]|?]; [by right|by left]].
    + intros x. rewrite elem_of_app, list_elem_of_singleton, G2, (Hex x (fun k0 => cn_server k0 = a /\ cn_host k0 = None)).
      split; [intros [?| ->]; [by right|by left]|intros [[-> _]|?]; [by right|by left]].
    + apply Hnd; [done|]. intros x (? & ? & _)%G1. by eexists.
    + apply Hnd; [done|]. intros x (? & ? & _)%G2. by eexists.
    + intros x. rewrite G1, (Hex x (fun k0 => cn_server k0 = b)). split; [by right|]. intros [[_ ?]|?]; [congruence|done].
    + intros x. rewrite G2, (Hex x (fun k0 => cn_server k0 = b /\ cn_host k0 = None)). split; [by right|].
      intros [[_ [? _]]|?]; [congruence|done].
  - intros b h Hh. destruct (H6 _ _ Hh) as [G1 G2]. split; [|done]. intros x.
    rewrite G1, (Hex x (fun k0 => cn_host k0 = Some b)). split; intros [? Hx]; (split; [done|]); [by right|].
    destruct Hx as [[_ ?]|?]; [congruence|done].
  - intros b k0. rewrite Hadd. destruct (Nat.eqb b c).
    + intros [= <-]. split; cbn; [rewrite Hk; by apply obj_update_is_Some|by rewrite Hn].
    + intros Hk0. destruct (H7 _ _ Hk0) as [G1 G2]. split; cbn; [by apply obj_update_is_Some|done].
  - intros fd [->|Hin]%elem_of_cons H0.
    + right. exists c, k. cbn. by rewrite Hadd, Nat.eqb_refl.
    + destruct (H8 _ Hin H0) as [(b & s & Hs & <-)|(b & k0 & Hk0 & <-)]; [left|right]; cbn.
      * exists b. rewrite obj_get_update, Hs. destruct (Nat.eqb _ b); by eexists.
      * exists b, k0. rewrite Hadd. destruct (Nat.eqb_spec b c) as [->|]; [congruence|done].
Qed.

(** ** The turn of a client

    A client searches a copy of its server's map: the hosts themselves in place
    of their addresses. *)
Definition same_map (m : list (str * Host)) (hosts : list (nat * Host)) (hm : list (str * nat)) : Prop :=
  Forall2 (fun e e' => e.1 = e'.1 /\ config_of <$> obj_get e'.2 hosts = Some (config_of e.2)) m hm.

Definition map_of_server (m : list (str * Host)) (w : world) (a : nat) : Prop :=
  exists s, obj_get a (w_serverList w) = Some s /\ same_map m (w_hostList w) (ls_hostMap s).

Lemma same_map_find n m hosts hm : same_map m hosts hm ->
  match om_find lex_ltb n m, om_find lex_ltb n hm with
  | Some h, Some a => config_of <$> obj_get a hosts = Some (config_of h)
  | None, None => True
  | _, _ => False
  end.
Proof.
  induction 1 as [|[k h] [k' a] m hm [Hk Hh] _ IH]; cbn; [done|]. cbn in Hk, Hh. subst k'.
  destruct (lex_ltb k n); [exact IH|]. by destruct (lex_ltb n k).
Qed.

Lemma same_map_pick n m hosts hm h : same_map m hosts hm -> pick n m = Some h ->
  exists a, pick n hm = Some a /\ config_of <$> obj_get a hosts = Some (config_of h).
Proof.
  intros Hm. pose proof (same_map_find n _ _ _ Hm) as Hf. unfold pick.
  destruct (om_find lex_ltb n m) as [h'|], (om_find lex_ltb n hm) as [a|]; try done.
  - intros [= <-]. by exists a.
  - destruct Hm as [|[k h0] [k' a] m hm [Hk Hh] _]; [done|]. cbn in *. intros [= <-]. by exists a.
Qed.

Lemma same_map_hosts m hosts hosts' hm :
  (forall a, config_of <$> obj_get a hosts' = config_of <$> obj_get a hosts) ->
  same_map m hosts hm -> same_map m hosts' hm.
Proof. intros H Hm. eapply Forall2_impl; [exact Hm|]. intros e e' [H1 H2]. by rewrite H. Qed.

(** The copy [resolve_map] makes. *)
Lemma resolve_map_same hosts hm : map_ok hosts hm -> same_map (resolve_map hosts hm) hosts hm.
Proof.
  intros [Hs Hn]. assert (forall e, e ∈ hm -> is_Some (obj_get e.2 hosts)) as H.
  { intros [k a] He. destruct (Hn k a) as (x & Hx & _); [|by exists x].
    apply om_find_Some; [apply _|done|]. exists k. split; [done|]. by apply lex_equiv. }
  clear Hs Hn. unfold resolve_map, same_map. induction hm as [|[k a] hm IH]; cbn; [constructor|].
  destruct (H (k, a)) as [x Hx]; [by left|]. cbn in Hx. rewrite Hx. cbn. constructor.
  - cbn. by rewrite Hx.
  - apply IH. intros e He. apply H. by right.
Qed.

(** What the turn of client [c] leaves alone. *)
Record keeps (c : nat) (w w' : world) : Prop := {
  ke_clients : forall b, b <> c -> obj_get b (w_clientList w') = obj_get b (w_clientList w);
  ke_client : forall k', obj_get c (w_clientList w') = Some k' -> exists k, obj_get c (w_clientList w) = Some k /\
    cn_client k' = cn_client k /\ cn_server k' = cn_server k;
  ke_hosts : forall a, config_of <$> obj_get a (w_hostList w') = config_of <$> obj_get a (w_hostList w);
  ke_maps : forall a, ls_hostMap <$> obj_get a (w_serverList w') = ls_hostMap <$> obj_get a (w_serverList w);
  ke_fds : forall a, ls_sockFd <$> obj_get a (w_serverList w') = ls_sockFd <$> obj_get a (w_serverList w);
  ke_servers : map fst (w_serverList w') = map fst (w_serverList w);
}.

#[export] Instance keeps_preorder c : PreOrder (keeps c).
Proof.
  split; [by split; eauto|]. intros w1 w2 w3 [A1 A2 A3 A4 A5 A6] [B1 B2 B3 B4 B5 B6]. split.
  - intros b Hb. by rewrite B1, A1.
  - intros k' Hk'. destruct (B2 _ Hk') as (k2 & Hk2 & -> & ->). by apply A2.
  - intros a. by rewrite B3, A3.
  - intros a. by rewrite B4, A4.
  - intros a. by rewrite B5, A5.
  - by rewrite B6, A6.
Qed.

Lemma keeps_map m c w w' a : keeps c w w' -> map_of_server m w a -> map_of_server m w' a.
Proof.
  intros [_ _ H3 H4 _ _] (s & Hs & Hm). specialize (H4 a). rewrite Hs in H4.
  destruct (obj_get a (w_serverList w')) as [s'|] eqn:E; [|done]. cbn in H4. injection H4 as H4.
  exists s'. split; [done|]. rewrite H4. eapply same_map_hosts; [|exact Hm]. exact H3.
Qed.

(** Where client [c] is, as its link says. *)
Definition stands (c : nat) (m : list (str * Host)) (l : link) (w : world) : Prop :=
  match l with
  | Gone => links None w /\ obj_get c (w_clientList w) = None
  | _ => exists k, obj_get c (w_clientList w) = Some k /\ map_of_server m w (cn_server k) /\
      match l with
      | Unlinked => links None w /\ cn_host k = None
      | Linked h => links None w /\ exists a, cn_host k = Some a /\
          config_of <$> obj_get a (w_hostList w) = Some (config_of h)
      | _ => links (Some c) w
      end
  end.

Lemma field_update {T U} (p : T -> U) a f (l : list (nat * T)) b :
  (forall s, p (f s) = p s) -> p <$> obj_get b (obj_update a f l) = p <$> obj_get b l.
Proof.
  intros Hf. rewrite obj_get_update. destruct (Nat.eqb a b); [|done].
  destruct (obj_get b l); [|done]. cbn. by rewrite Hf.
Qed.

Lemma keeps_unbind c h w : keeps c w (on_host h (host_removeClient c) w).
Proof. split; cbn; [done|by eauto| |done..]. intros a. by apply field_update. Qed.

Lemma keeps_bound c h a w : keeps c w (bound c h a w).
Proof.
  split; cbn.
  - intros b Hb. by rewrite obj_get_update, (proj2 (Nat.eqb_neq c b)).
  - intros k' (k & Hk & ->)%obj_update_inv. exists k. rewrite Nat.eqb_refl. done.
  - intros b. by apply field_update.
  - intros b. by apply field_update.
  - intros b. by apply field_update.
  - apply obj_update_keys.
Qed.

Lemma keeps_closed c k w : NoDup (map fst (w_clientList w)) -> keeps c w (closed c k w).
Proof.
  intros Hn. split; cbn.
  - intros b Hb. by rewrite obj_get_erase, (proj2 (Nat.eqb_neq c b)).
  - intros k'. by rewrite obj_get_erase, Nat.eqb_refl.
  - done.
  - intros b. by apply field_update.
  - intros b. by apply field_update.
  - apply obj_update_keys.
Qed.

(** One action. *)
Lemma commit_bind c m n h k w :
  obj_get c (w_clientList w) = Some k -> map_of_server m w (cn_server k) -> links (Some c) w -> pick n m = Some h ->
  exists w', commit_event c (EvBind n) w = Ret w' /\ stands c m (Linked h) w' /\ keeps c w w'.
Proof.
  intros Hk Hm Hl Hp. pose proof Hm as (s & Hs & Hsame).
  destruct (same_map_pick _ _ _ _ _ Hsame Hp) as (a & Ha & Hc). unfold pick, findHost in *.
  destruct (obj_get a (w_hostList w)) as [x|] eqn:Hx; [|done].
  exists (bound c a (cn_server k) w). split; [|split; [|apply keeps_bound]].
  - unfold commit_event, bindClient, get_client, get_server, get_host, findHost. rewrite Hk. cbn. rewrite Hs. cbn.
    rewrite Ha. cbn. by rewrite Hx.
  - exists (with_host a k). split; [cbn; by rewrite obj_get_update, Nat.eqb_refl, Hk|]. split.
    + eapply (keeps_map m c w); [apply keeps_bound|exact Hm].
    + split; [by apply links_bind; [..|rewrite Hx]|]. exists a. split; [done|]. cbn. by rewrite field_update, Hx.
Qed.

Lemma commit_close c m k w :
  obj_get c (w_clientList w) = Some k -> links (Some c) w ->
  exists w', commit_event c EvClose w = Ret w' /\ stands c m Gone w' /\ keeps c w w'.
Proof.
  intros Hk Hl. destruct (lk_conn _ _ Hl _ _ Hk) as [[s Hs] _].
  exists (closed c k w). split; [|split; [split|]].
  - unfold commit_event, get_client, get_server. rewrite Hk. cbn. by rewrite Hs.
  - by apply links_close.
  - cbn. by rewrite obj_get_erase, Nat.eqb_refl; [|apply Hl].
  - apply keeps_closed, Hl.
Qed.

Lemma commit_event_step c m l e l' w :
  stands c m l w -> link_step m l e = Some l' ->
  exists w', commit_event c e w = Ret w' /\ stands c m l' w' /\ keeps c w w'.
Proof.
  intros Hst He. destruct l as [|h| |]; [| | |by destruct e].
  - destruct Hst as (k & Hk & Hm & Hl & Hn).
    destruct e; cbn in He; try discriminate He;
      try (injection He as <-; exists w; split; [done|]; split; [by exists k|reflexivity]).
    + destruct (pick hostname m) as [h|] eqn:Hp; [|done]. injection He as <-.
      apply (commit_bind c m _ h k); [done|done|by eapply links_detached|done].
    + injection He as <-. by eapply commit_close; [|eapply links_detached].
  - destruct Hst as (k & Hk & Hm & Hl & a & Ha & Hc).
    destruct e; cbn in He; try discriminate He;
      try (injection He as <-; exists w; split; [done|]; split; [|reflexivity]; exists k; do 3 (split; [done|]); by exists a).
    injection He as <-. destruct (obj_get a (w_hostList w)) as [x|] eqn:Hx; [|done].
    exists (on_host a (host_removeClient c) w). split; [|split; [|apply keeps_unbind]].
    + unfold commit_event, get_client, get_host. rewrite Hk. cbn. rewrite Ha. cbn. by rewrite Hx.
    + exists k. split; [done|]. split; [|by eapply links_unbind].
      eapply (keeps_map m c w); [apply keeps_unbind|exact Hm].
  - destruct Hst as (k & Hk & Hm & Hl).
    destruct e; cbn in He; try discriminate He;
      try (injection He as <-; exists w; split; [done|]; split; [by exists k|reflexivity]).
    + destruct (pick hostname m) as [h|] eqn:Hp; [|done]. injection He as <-. by eapply commit_bind.
    + injection He as <-. by eapply commit_close.
Qed.

Lemma commit_events_run c m es : forall l l' w,
  stands c m l w -> link_run m l es = Some l' ->
  exists w', commit_events c es w = Ret w' /\ stands c m l' w' /\ keeps c w w'.
Proof.
  induction es as [|e es IH]; intros l l' w Hst Hr; cbn in Hr.
  - injection Hr as <-. exists w. split; [done|]. split; [done|reflexivity].
  - destruct (link_step m l e) as [l1|] eqn:E; [|done].
    destruct (commit_event_step _ _ _ _ _ _ Hst E) as (w1 & H1 & Hst1 & Hk1).
    destruct (IH _ _ _ Hst1 Hr) as (w2 & H2 & Hst2 & Hk2). exists w2. cbn. rewrite H1. cbn.
    split; [exact H2|]. split; [done|]. by transitivity w1.
Qed.

(** ** The invariant over a turn

    A connected client holds a host with the configuration of the one it points
    to, and its server's map. *)
Definition snapshot (w : world) (k : conn) : Prop :=
  map_of_server (cl_hostMap (cn_client k)) w (cn_server k) /\
  match cl_host (cn_client k), cn_host k with
  | Some h, Some a => config_of <$> obj_get a (w_hostList w) = Some (config_of h)
  | None, None => True
  | _, _ => False
  end /\
  cl_terminated (cn_client k) = false.

Definition good (w : world) : Prop :=
  links None w /\ forall c k, obj_get c (w_clientList w) = Some k -> snapshot w k.

Lemma snapshot_keeps c w w' k : keeps c w w' -> snapshot w k -> snapshot w' k.
Proof.
  intros Hk (H1 & H2 & H3). split; [by eapply keeps_map|]. split; [|done].
  destruct (cl_host _), (cn_host k); try done. by rewrite (ke_hosts _ _ _ Hk).
Qed.

(** What the turns of the clients [cs] leave alone. *)
Record after (cs : list nat) (w w' : world) : Prop := {
  af_clients : forall b, b ∉ cs -> obj_get b (w_clientList w') = obj_get b (w_clientList w);
  af_fds : forall a, ls_sockFd <$> obj_get a (w_serverList w') = ls_sockFd <$> obj_get a (w_serverList w);
  af_servers : map fst (w_serverList w') = map fst (w_serverList w);
}.

Lemma after_refl w : after [] w w.
Proof. by split. Qed.

Lemma after_trans cs cs' w1 w2 w3 : after cs w1 w2 -> after cs' w2 w3 -> after (cs ++ cs') w1 w3.
Proof.
  intros [A1 A2 A3] [B1 B2 B3]. split.
  - intros b Hb. rewrite elem_of_app in Hb. rewrite B1, A1; tauto.
  - intros a. by rewrite B2, A2.
  - by rewrite B3, A3.
Qed.

(** After its turn a client is either gone or in the state of its model. *)
Lemma commit_good c k old new w :
  good w -> obj_get c (w_clientList w) = Some k ->
  cl_host old = cl_host (cn_client k) -> cl_terminated old = false ->
  map_of_server (cl_hostMap old) w (cn_server k) -> turns old new ->
  exists w', commit c old new w = Ret w' /\ good w' /\
    after [c] w w' /\
    if cl_terminated new then obj_get c (w_clientList w') = None
    else exists k', obj_get c (w_clientList w') = Some k' /\ cn_client k' = new.
Proof.
  intros [Hl Hs] Hk Hhost Ht Hm Hturn. set (w1 := on_conn c (fun c => c <| cn_client := new |>) w).
  assert (links None w1) as Hl1 by by apply links_on_conn.
  assert (obj_get c (w_clientList w1) = Some (k <| cn_client := new |>)) as Hk1
    by (cbn; by rewrite obj_get_update, Nat.eqb_refl, Hk).
  assert (stands c (cl_hostMap old) (link_of old) w1) as Hst.
  { pose proof (Hs _ _ Hk) as (_ & Hh & _). unfold link_of. rewrite Hhost.
    destruct (cl_host (cn_client k)) as [h|], (cn_host k) as [a|] eqn:Ea; try done;
      (exists (k <| cn_client := new |>); split; [exact Hk1|]; split; [exact Hm|]; split; [exact Hl1|]); [by exists a|done]. }
  assert (forall b, b <> c -> obj_get b (w_clientList w1) = obj_get b (w_clientList w)) as Hother
    by (intros b Hb; cbn; by rewrite obj_get_update, (proj2 (Nat.eqb_neq c b))).
  unfold commit. cbv zeta. fold w1.
  assert (exists es l', cl_log new = cl_log old ++ es /\ link_run (cl_hostMap old) (link_of old) es = Some l' /\
    if cl_terminated new then l' = Gone else l' = link_of new /\ cl_hostMap new = cl_hostMap old) as (es & l' & He & Hr & Hend).
  { destruct Hturn as [(H1 & H2 & es & H3 & H4)|(H2 & es & H3 & H4)].
    - exists es, (link_of new). rewrite H2, Ht. done.
    - exists es, Gone. by rewrite H2. }
  rewrite He, drop_app_length. destruct (commit_events_run _ _ _ _ _ _ Hst Hr) as (w' & Hw & Hst' & Hkeep).
  assert (forall b kb, b <> c -> obj_get b (w_clientList w') = Some kb -> snapshot w' kb) as Hsnap.
  { intros b kb Hb. rewrite (ke_clients _ _ _ Hkeep), Hother by done. intros Hkb. by eapply snapshot_keeps; [exact Hkeep|apply (Hs b)]. }
  exists w'. split; [done|]. split; [|split].
  - destruct (cl_terminated new) eqn:Et.
    + subst l'. destruct Hst' as [Hl' Hnone]. split; [done|]. intros b kb Hkb.
      apply (Hsnap b); [|done]. congruence.
    + destruct Hend as [-> Hmap].
      assert (exists k', obj_get c (w_clientList w') = Some k' /\ map_of_server (cl_hostMap old) w' (cn_server k') /\
        links None w' /\ match cl_host new, cn_host k' with
          | Some h, Some a => config_of <$> obj_get a (w_hostList w') = Some (config_of h)
          | None, None => True | _, _ => False end) as (k' & Hk' & Hm' & Hl' & Hh').
      { revert Hst'. unfold link_of. destruct (cl_host new); cbn.
        - intros (k' & H1 & H2 & H3 & a & H4 & H5). exists k'. by rewrite H4.
        - intros (k' & H1 & H2 & H3 & H4). exists k'. by rewrite H4. }
      split; [done|]. intros b kb Hkb. destruct (decide (b = c)) as [->|Hb]; [|by apply (Hsnap b)].
      rewrite Hk' in Hkb. injection Hkb as <-. destruct (ke_client _ _ _ Hkeep _ Hk') as (k0 & Hk0 & E & _).
      rewrite Hk1 in Hk0. injection Hk0 as <-. unfold snapshot. rewrite E. cbn. by rewrite Hmap, Et.
  - split.
    + intros b Hb. rewrite list_elem_of_singleton in Hb. by rewrite (ke_clients _ _ _ Hkeep), Hother.
    + intros a. apply (ke_fds _ _ _ Hkeep).
    + by rewrite (ke_servers _ _ _ Hkeep).
  - destruct (cl_terminated new); [subst l'; by destruct Hst'|]. destruct Hend as [-> _].
    assert (is_Some (obj_get c (w_clientList w'))) as [k' Hk'].
    { revert Hst'. unfold link_of. destruct (cl_host new); cbn; intros (k' & H1 & _); by exists k'. }
    exists k'. split; [done|]. destruct (ke_client _ _ _ Hkeep _ Hk') as (k0 & Hk0 & E & _).
    rewrite Hk1 in Hk0. injection Hk0 as <-. exact E.
Qed.
