(* ===== verification/Removal.v ===== *)
(** * Removal: taking clients, hosts and servers down

    Terminating clients, the loop over the distinct hosts of a server that goes
    away, and the removal of one server and of all of them: each runs to its end
    without going through a dangling pointer, and leaves the invariant of
    [Links]. *)

From S2P Require Import Prelude CxxString OrdMap Unique Format Http RequestHeaders RequestUri Host Response Cgi Client Control ConfigLex Config Listen ListenFacts TurnFacts Links.
#[local] Open Scope Z_scope.

(** ** Clients *)
Lemma good_client w c k : good w -> obj_get c (w_clientList w) = Some k ->
  map_of_server (cl_hostMap (cn_client k)) w (cn_server k) /\ cl_terminated (cn_client k) = false.
Proof. intros [_ H] Hk. by destruct (H _ _ Hk) as (? & _ & ?). Qed.

Lemma terminateClient_good c k w : good w -> obj_get c (w_clientList w) = Some k ->
  exists w', terminateClient c w = Ret w' /\ good w' /\ after [c] w w' /\ obj_get c (w_clientList w') = None.
Proof.
  intros Hg Hk. destruct (good_client _ _ _ Hg Hk) as [Hm Ht].
  destruct (commit_good c k (cn_client k) (terminate (cn_client k)) w) as (w' & H1 & H2 & H3 & H4);
    [done|done|done|done|done|apply terminate_turns|].
  exists w'. split; [|by split_and!]. unfold terminateClient, get_client. by rewrite Hk.
Qed.

Lemma terminate_all_good cs : forall w, good w -> NoDup cs ->
  (forall c, c ∈ cs -> is_Some (obj_get c (w_clientList w))) ->
  exists w', terminate_all cs w = Ret w' /\ good w' /\ after cs w w' /\
    forall c, c ∈ cs -> obj_get c (w_clientList w') = None.
Proof.
  induction cs as [|c cs IH]; intros w Hg Hn Hall.
  - exists w. split_and!; [done|done|apply after_refl|]. by intros c ?%elem_of_nil.
  - apply NoDup_cons in Hn as [Hc Hn]. destruct (Hall c) as [k Hk]; [by left|].
    destruct (terminateClient_good _ _ _ Hg Hk) as (w1 & H1 & Hg1 & Ha1 & Hd1).
    destruct (IH w1 Hg1 Hn) as (w2 & H2 & Hg2 & Ha2 & Hd2).
    { intros b Hb. rewrite (af_clients _ _ _ Ha1); [apply Hall; by right|].
      intros ->%list_elem_of_singleton. done. }
    exists w2. cbn [terminate_all]. rewrite H1. cbn. split_and!; [done|done|by eapply (after_trans [c])|].
    intros b [->|Hb]%elem_of_cons; [|by apply Hd2]. by rewrite (af_clients _ _ _ Ha2).
Qed.

(** ** The loop over the hosts of a server *)
Lemma unassign_names_filter names : forall m, om_sorted lex_ltb m ->
  unassign_names names m = filter (fun e => e.1 ∉ names) m.
Proof.
  unfold unassign_names. induction names as [|n names IH]; intros m Hm; cbn [fold_left].
  - symmetry. apply filter_all, Forall_forall. intros e _ H. by apply elem_of_nil in H.
  - rewrite IH by by apply om_erase_sorted. rewrite om_erase_filter by done.
    rewrite filter_filter_and. apply filter_iff_in. intros e _. rewrite not_elem_of_cons. tauto.
Qed.

(** Erasing a host's names erases the entries that lead to it. *)
Lemma unassign_host_filter hosts m h x :
  map_ok hosts m -> obj_get h hosts = Some x -> (exists n, om_find lex_ltb n m = Some h) ->
  unassign_names (h_server_names x) m = filter (fun e => e.2 <> h) m.
Proof.
  intros [Hs Hn] Hx [n0 Hf]. rewrite unassign_names_filter by done. apply filter_iff_in. intros [k a] He. cbn.
  assert (om_find lex_ltb k m = Some a) as Hk
    by (apply om_find_Some; [apply _|done|]; exists k; split; [done|by apply lex_equiv]).
  destruct (Hn _ _ Hf) as (x0 & Hx0 & _ & Hall). assert (x0 = x) as -> by congruence. split.
  - intros Hout ->. destruct (Hn _ _ Hk) as (x1 & Hx1 & Hin & _). congruence.
  - intros Hne Hin. apply Hall in Hin. congruence.
Qed.

Lemma map_ok_filter hosts m h : map_ok hosts m -> map_ok hosts (filter (fun e => e.2 <> h) m).
Proof.
  intros [Hs Hn]. assert (forall k a, om_find lex_ltb k (filter (fun e => e.2 <> h) m) = Some a <->
    om_find lex_ltb k m = Some a /\ a <> h) as Hf.
  { intros k a. rewrite !om_find_Some by first [apply _|done|by apply om_sorted_filter]. split.
    - intros (k' & [H1 H2]%list_elem_of_filter & H3). split; [|done]. by exists k'.
    - intros [(k' & H1 & H2) H3]. exists k'. split; [by apply list_elem_of_filter|done]. }
  split; [by apply om_sorted_filter|]. intros n a [Ha Hne]%Hf. destruct (Hn _ _ Ha) as (x & Hx & Hin & Hall).
  exists x. split_and!; [done..|]. intros k Hk. apply Hf. auto.
Qed.

(** The iterator stands on the first entry and has seen none of the values left. *)
Lemma next_unseen_filter v seen (m : list (str * nat)) : (forall e, e ∈ m -> e.2 ∉ seen) ->
  next_unseen (v :: seen) m = fst <$> head (filter (fun e => e.2 <> v) m).
Proof.
  intros H. rewrite next_unseen_head. do 2 f_equal. apply filter_iff_in. intros e He.
  rewrite not_elem_of_cons. specialize (H e He). tauto.
Qed.

Lemma safePostIncrement_head {E} m seen k v :
  om_sorted lex_ltb ((k, v) :: m) -> (forall e, e ∈ m -> e.2 ∉ seen) ->
  safePostIncrement (E:=E) ((k, v) :: m) None (mkIter (Some k) seen) =
    Ret (mkIter (Some k) seen, mkIter (fst <$> head (filter (fun e => e.2 <> v) m)) (v :: seen)) /\
  it_second (E:=E) ((k, v) :: m) (mkIter (Some k) seen) = Ret v.
Proof.
  intros Hs Hseen. assert (om_find lex_ltb k ((k, v) :: m) = Some v) as Hv by (cbn; by rewrite lex_irrefl).
  split; [|by apply (it_second_eq _ _ k)]. rewrite (safePostIncrement_eq _ _ k v) by done. cbn [it_seen].
  by rewrite entries_after_head, next_unseen_filter.
Qed.

(** What the loop over the hosts of server [a] leaves alone. *)
Record spares (a : nat) (w w' : world) : Prop := {
  sp_servers : forall b, b <> a -> obj_get b (w_serverList w') = obj_get b (w_serverList w);
  sp_keys : map fst (w_serverList w') = map fst (w_serverList w);
  sp_fds : forall b, ls_sockFd <$> obj_get b (w_serverList w') = ls_sockFd <$> obj_get b (w_serverList w);
  sp_hosts : forall h, (fun x => x <| h_listenServers := ∅ |>) <$> obj_get h (w_hostList w') =
                       (fun x => x <| h_listenServers := ∅ |>) <$> obj_get h (w_hostList w);
  sp_host_keys : map fst (w_hostList w') = map fst (w_hostList w);
  sp_rest : w_clientList w' = w_clientList w /\ w_fresh w' = w_fresh w /\ w_open w' = w_open w;
}.

#[export] Instance spares_preorder a : PreOrder (spares a).
Proof.
  split; [by split|]. intros w1 w2 w3 [A1 A2 A3 A4 A5 (A6 & A7 & A8)] [B1 B2 B3 B4 B5 (B6 & B7 & B8)]. split.
  - intros b Hb. by rewrite B1, A1.
  - by rewrite B2, A2.
  - intros b. by rewrite B3, A3.
  - intros b. by rewrite B4, A4.
  - by rewrite B5, A5.
  - by rewrite B6, A6, B7, A7, B8, A8.
Qed.

Lemma spares_names a w w' h x : spares a w w' -> obj_get h (w_hostList w) = Some x ->
  exists x', obj_get h (w_hostList w') = Some x' /\ h_server_names x' = h_server_names x /\
    h_clients x' = h_clients x /\ config_of x' = config_of x.
Proof.
  intros Hs Hx. pose proof (sp_hosts _ _ _ Hs h) as H. rewrite Hx in H.
  destruct (obj_get h (w_hostList w')) as [x'|]; [|done]. injection H as H. exists x'. split; [done|].
  split_and!; [| |unfold config_of; cbn; congruence]; congruence.
Qed.

(** One host. *)
Lemma unassignHost_step a s v x w :
  obj_get a (w_serverList w) = Some s -> map_ok (w_hostList w) (ls_hostMap s) ->
  obj_get v (w_hostList w) = Some x -> (exists n, om_find lex_ltb n (ls_hostMap s) = Some v) ->
  exists w' s', unassignHost a v w = Ret w' /\ obj_get a (w_serverList w') = Some s' /\
    ls_hostMap s' = filter (fun e => e.2 <> v) (ls_hostMap s) /\ spares a w w'.
Proof.
  intros Hs Hm Hx [n Hn]. pose proof (unassign_host_filter _ _ _ _ Hm Hx (ex_intro _ n Hn)) as Hf.
  destruct (mo_names _ _ Hm _ _ Hn) as (x0 & Hx0 & Hin & Hall). assert (x0 = x) as -> by congruence.
  destruct (h_server_names x) as [|n0 names] eqn:En; [by apply elem_of_nil in Hin|].
  assert (findHost n0 s = Some v) as H0 by (apply Hall; by left).
  unfold unassignHost, get_host, get_server. rewrite Hx. cbn. rewrite Hs. cbn. rewrite En. cbn. rewrite H0, Hx. cbn.
  eexists _, _. split; [reflexivity|]. split; [cbn; by rewrite obj_get_update, Nat.eqb_refl, Hs|].
  split; [by rewrite <- Hf|]. split; cbn.
  - intros b Hb. by rewrite obj_get_update, (proj2 (Nat.eqb_neq a b)).
  - apply obj_update_keys.
  - intros b. by apply field_update.
  - intros b. by apply field_update.
  - apply obj_update_keys.
  - done.
Qed.

(** The loop takes every host off the map. *)
Lemma unassign_all_good a fuel : forall s seen w,
  obj_get a (w_serverList w) = Some s -> map_ok (w_hostList w) (ls_hostMap s) ->
  (forall e, e ∈ ls_hostMap s -> e.2 ∉ seen) -> (length (ls_hostMap s) < fuel)%nat ->
  exists w' s', unassign_all fuel a (mkIter (fst <$> head (ls_hostMap s)) seen) w = Ret w' /\
    obj_get a (w_serverList w') = Some s' /\ ls_hostMap s' = [] /\ spares a w w'.
Proof.
  induction fuel as [|fuel IH]; intros s seen w Hs Hm Hseen Hfuel; [lia|]. cbn [unassign_all it_base].
  destruct (ls_hostMap s) as [|[k v] m] eqn:Em; [exists w, s; by rewrite Em|]. cbn [head fmap option_fmap option_map fst].
  unfold get_server. rewrite Hs. cbn [deref mbind outcome_bind]. rewrite Em.
  destruct (safePostIncrement_head (E:=exn * world) m seen k v) as [Hnext Hval];
    [apply Hm|intros e He; apply Hseen; by right|].
  rewrite Hnext. cbn [mbind outcome_bind]. rewrite Hval. cbn [mbind outcome_bind].
  assert (om_find lex_ltb k ((k, v) :: m) = Some v) as Hk by (cbn; by rewrite lex_irrefl).
  destruct (mo_names _ _ Hm _ _ Hk) as (x & Hx & _ & _).
  destruct (unassignHost_step a s v x w) as (w1 & s1 & H1 & Hs1 & Hm1 & Hsp1); [done|by rewrite Em|done|by exists k; rewrite Em|].
  rewrite H1. cbn [mbind outcome_bind]. rewrite Em, filter_cons in Hm1. cbn in Hm1.
  rewrite decide_False in Hm1 by (intros Hne; by apply Hne). rewrite <- Hm1.
  destruct (IH s1 (v :: seen) w1) as (w' & s' & H2 & Hs' & Hm' & Hsp'); [done| | | |].
  - assert (filter (fun e => e.2 <> v) ((k, v) :: m) = ls_hostMap s1) as <-.
    { rewrite filter_cons. cbn. rewrite decide_False by (intros Hne; by apply Hne). done. }
    apply map_ok_filter. eapply map_ok_hosts; [|exact Hm]. intros b y Hy.
    destruct (spares_names _ _ _ _ _ Hsp1 Hy) as (y' & ? & ? & _). by exists y'.
  - rewrite Hm1. intros e [He1 He2]%list_elem_of_filter. rewrite not_elem_of_cons. split; [done|].
    apply Hseen. by right.
  - rewrite Hm1. pose proof (filter_length_le (fun e : str * nat => e.2 <> v) m). cbn in Hfuel. lia.
  - exists w', s'. split_and!; [done..|]. by transitivity w1.
Qed.

(** ** Servers *)
Definition no_client (a : nat) (w : world) : Prop :=
  forall c k, obj_get c (w_clientList w) = Some k -> cn_server k <> a.

Lemma good_shutdown a s w : good w -> obj_get a (w_serverList w) = Some s ->
  good (shutdown a s w) /\ obj_get a (w_serverList (shutdown a s w)) = Some (s <| ls_sockFd := 0 |>) /\
  w_clientList (shutdown a s w) = w_clientList w /\ map fst (w_serverList (shutdown a s w)) = map fst (w_serverList w).
Proof.
  intros [Hl Hsn] Hs. unfold shutdown. destruct (Z.eqb_spec (ls_sockFd s) 0) as [E|Hne].
  { split_and!; [done| |done|done]. rewrite Hs. destruct s. cbn in *. by rewrite E. }
  split_and!; [|cbn; by rewrite obj_get_update, Nat.eqb_refl, Hs|done|apply obj_update_keys].
  destruct Hl as [H1 H2 H3 H4 H5 H6 H7 H8]. split; [split; cbn; try done|].
  - by apply keys_ok_update.
  - eapply maps_ok_step; [| |exact H4]; cbn; [by apply same_maps|intros; by eexists].
  - intros b t (t0 & Ht & ->)%obj_update_inv. destruct (H5 _ _ Ht) as [G1 G2 G3 G4].
    destruct (Nat.eqb a b); by split.
  - intros c k Hk. destruct (H7 _ _ Hk) as [G1 G2]. split; cbn; [by apply obj_update_is_Some|done].
  - intros fd [Hfd Hin]%list_elem_of_filter H0.
    destruct (H8 _ Hin H0) as [(b & t & Ht & <-)|Hc]; [left|by right]. cbn.
    exists b, t. split; [|done]. rewrite obj_get_update, Ht.
    destruct (Nat.eqb_spec a b) as [<-|]; [congruence|done].
  - intros c k Hk. destruct (Hsn c k Hk) as ((t & Ht & Hm) & Hrest). split; [|exact Hrest].
    exists (if Nat.eqb a (cn_server k) then t <| ls_sockFd := 0 |> else t). split.
    + cbn. rewrite obj_get_update, Ht. by destruct (Nat.eqb a _).
    + by destruct (Nat.eqb a _).
Qed.

(** Once its clients are gone and its hosts off its map, a server can go. *)
Lemma good_erase a w w' : good w -> no_client a w -> spares a w w' ->
  (forall s, obj_get a (w_serverList w) = Some s -> ls_sockFd s = 0) ->
  good (w' <| w_serverList := obj_erase a (w_serverList w') |>).
Proof.
  intros [Hl Hsn] Hno Hsp Hfd. destruct Hsp as [S1 S2 S3 S4 S5 (S6 & S7 & S8)] eqn:Esp.
  destruct Hl as [H1 H2 H3 H4 H5 H6 H7 H8].
  assert (NoDup (map fst (w_serverList w'))) as Hnd by (rewrite S2; apply H1).
  assert (forall b, obj_get b (obj_erase a (w_serverList w')) =
    if Nat.eqb a b then None else obj_get b (w_serverList w)) as Her.
  { intros b. rewrite obj_get_erase by done. destruct (Nat.eqb_spec a b); [done|by apply S1]. }
  assert (forall h x', obj_get h (w_hostList w') = Some x' -> exists x, obj_get h (w_hostList w) = Some x /\
    h_server_names x' = h_server_names x /\ h_clients x' = h_clients x) as Hinv.
  { intros h x' Hx'. destruct (obj_get h (w_hostList w)) as [x|] eqn:Hx.
    - exists x. destruct (spares_names _ _ _ _ _ Hsp Hx) as (x2 & ? & ? & ? & _). split; [done|].
      split; congruence.
    - pose proof (S4 h) as E. by rewrite Hx, Hx' in E. }
  split; [split; cbn|].
  - apply keys_ok_erase. by rewrite S2, S7.
  - by rewrite S5, S7.
  - by rewrite S6, S7.
  - intros b s. cbn. rewrite Her. destruct (Nat.eqb a b); [done|]. intros Hb. destruct (H4 _ _ Hb) as [G1 G2].
    split; [|done]. eapply map_ok_hosts; [|exact G1]. intros h x Hx.
    destruct (spares_names _ _ _ _ _ Hsp Hx) as (x' & ? & ? & _). by exists x'.
  - intros b s. rewrite Her, S6. destruct (Nat.eqb a b); [done|]. apply H5.
  - intros h x' Hx'. destruct (Hinv _ _ Hx') as (x & Hx & _ & E). rewrite S6.
    destruct (H6 _ _ Hx) as [G1 G2]. split; rewrite E; done.
  - intros c k. rewrite S6. intros Hk. destruct (H7 _ _ Hk) as [G1 G2]. split; cbn.
    + rewrite Her, (proj2 (Nat.eqb_neq _ _)); [done|]. intros E. by apply (Hno _ _ Hk).
    + destruct (cn_host k); [|done]. destruct G2 as [x Hx].
      destruct (spares_names _ _ _ _ _ Hsp Hx) as (x' & ? & _). by exists x'.
  - intros fd. rewrite S8. intros Hin H0. destruct (H8 _ Hin H0) as [(b & s & Hs & <-)|Hc]; [left|right]; cbn.
    + exists b, s. rewrite Her. destruct (Nat.eqb_spec a b) as [<-|]; [|done]. by apply Hfd in Hs.
    + by rewrite S6.
  - intros c k. cbn. rewrite S6. intros Hk. destruct (Hsn c k Hk) as ((t & Ht & Hm) & Hh & Hterm).
    assert (forall b, config_of <$> obj_get b (w_hostList w') = config_of <$> obj_get b (w_hostList w)) as Hcfg.
    { intros b. destruct (obj_get b (w_hostList w)) as [x|] eqn:Hx.
      - destruct (spares_names _ _ _ _ _ Hsp Hx) as (x' & -> & _ & _ & E). cbn. by rewrite E.
      - pose proof (S4 b) as E. rewrite Hx in E. by destruct (obj_get b (w_hostList w')). }
    split; [|split; [|done]].
    + exists t. cbn. rewrite Her, (proj2 (Nat.eqb_neq _ _)); [|intros E; by apply (Hno _ _ Hk)].
      split; [done|]. by eapply same_map_hosts.
    + destruct (cl_host _), (cn_host k); try done. cbn. by rewrite Hcfg.
Qed.

Lemma obj_erase_head {T} a (l : list (nat * T)) ks : map fst l = a :: ks -> map fst (obj_erase a l) = ks.
Proof. destruct l as [|[b x] l]; [done|]. cbn. intros [= -> <-]. by rewrite Nat.eqb_refl. Qed.

Lemma obj_erase_map_fst {T U} a (l : list (nat * T)) (l' : list (nat * U)) :
  map fst l = map fst l' -> map fst (obj_erase a l) = map fst (obj_erase a l').
Proof.
  revert l'. induction l as [|[b x] l IH]; intros [|[b' x'] l']; cbn; try done. intros [= -> E].
  destruct (Nat.eqb a b'); [done|]. cbn. by rewrite (IH l').
Qed.

(** Removing a server ends its clients, and only these. *)
Lemma removeServer_good a s w : good w -> obj_get a (w_serverList w) = Some s ->
  exists w', removeServer a w = Ret w' /\ good w' /\
    map fst (w_serverList w') = map fst (obj_erase a (w_serverList w)) /\
    forall c k, obj_get c (w_clientList w) = Some k ->
      obj_get c (w_clientList w') = if Nat.eqb (cn_server k) a then None else Some k.
Proof.
  intros Hg Hs. unfold removeServer, get_server. rewrite Hs. cbn [deref mbind outcome_bind]. cbv zeta.
  destruct (good_shutdown _ _ _ Hg Hs) as (Hg1 & Hs1 & Hc1 & Hk1). set (w1 := shutdown a s w) in *.
  pose proof (lk_members _ _ (proj1 Hg1) _ _ Hs1) as [M1 M2 M3 M4]. cbn in M1, M2, M3, M4.
  destruct (terminate_all_good (ls_orphanClients s) w1 Hg1 M4) as (w2 & -> & Hg2 & Ha2 & Hd2).
  { intros c (k & Hk & _)%M2. by exists k. }
  cbn [mbind outcome_bind]. pose proof (af_fds _ _ _ Ha2 a) as Hf2. rewrite Hs1 in Hf2.
  destruct (obj_get a (w_serverList w2)) as [s2|] eqn:Hs2; [|done]. cbn [deref mbind outcome_bind].
  pose proof (lk_members _ _ (proj1 Hg2) _ _ Hs2) as [N1 N2 N3 N4].
  destruct (terminate_all_good (ls_connectedClients s2) w2 Hg2 N3) as (w3 & -> & Hg3 & Ha3 & Hd3).
  { intros c (k & Hk & _)%N1. by exists k. }
  cbn [mbind outcome_bind]. pose proof (af_fds _ _ _ Ha3 a) as Hf3. rewrite Hs2 in Hf3.
  destruct (obj_get a (w_serverList w3)) as [s3|] eqn:Hs3; [|done]. cbn [deref mbind outcome_bind].
  assert (ls_sockFd s3 = 0) as Hfd by (cbn in Hf2, Hf3; congruence).
  destruct (lk_map _ _ (proj1 Hg3) _ _ Hs3) as [Hm3 _].
  destruct (unassign_all_good a (S (length (ls_hostMap s3))) s3 [] w3) as (w4 & s4 & H4 & Hs4 & _ & Hsp);
    [done|done|by intros ? ? ?%elem_of_nil|lia|].
  unfold it_begin. rewrite H4. cbn [mbind outcome_bind].
  assert (forall c k, obj_get c (w_clientList w3) = Some k -> obj_get c (w_clientList w) = Some k /\ cn_server k <> a) as Hleft.
  { intros c k Hk. assert (c ∉ ls_connectedClients s2) as Hn3 by (intros Hin; apply Hd3 in Hin; congruence).
    assert (obj_get c (w_clientList w2) = Some k) as Hk2 by by rewrite <- (af_clients _ _ _ Ha3).
    assert (c ∉ ls_orphanClients s) as Hn2 by (intros Hin; apply Hd2 in Hin; congruence).
    split; [by rewrite <- Hc1, <- (af_clients _ _ _ Ha2)|]. intros E. apply Hn3, N1. by exists k. }
  eexists. split; [reflexivity|]. split_and!.
  - apply (good_erase a w3 w4); [done| |done|]; [|intros t Ht; congruence].
    intros c k Hk. by destruct (Hleft _ _ Hk).
  - cbn. apply obj_erase_map_fst. by rewrite (sp_keys _ _ _ Hsp), (af_servers _ _ _ Ha3), (af_servers _ _ _ Ha2).
  - intros c k Hk. cbn. destruct (sp_rest _ _ _ Hsp) as (-> & _). rewrite <- Hc1 in Hk.
    destruct (Nat.eqb_spec (cn_server k) a) as [E|Hne].
    + destruct (obj_get c (w_clientList w3)) as [k'|] eqn:E3; [|done]. destruct (Hleft _ _ E3) as [Hk' Hne].
      rewrite <- Hc1 in Hk'. congruence.
    + assert (c ∉ ls_orphanClients s) as Hn2 by (intros (k' & ? & ? & _)%M2; congruence).
      rewrite <- (af_clients _ _ _ Ha2) in Hk by done.
      rewrite (af_clients _ _ _ Ha3); [done|]. intros (k' & ? & ?)%N1. congruence.
Qed.

Lemma remove_servers_good ks : forall w, good w -> map fst (w_serverList w) = ks ->
  exists w', remove_servers ks w = Ret w' /\ good w' /\ w_serverList w' = [].
Proof.
  induction ks as [|a ks IH]; intros w Hg Hks.
  - exists w. split_and!; [done|done|]. by destruct (w_serverList w).
  - destruct (obj_get a (w_serverList w)) as [s|] eqn:Hs.
    2:{ apply obj_get_None in Hs. rewrite Hks in Hs. destruct Hs. by left. }
    destruct (removeServer_good _ _ _ Hg Hs) as (w1 & H1 & Hg1 & Hk1 & _).
    rewrite (obj_erase_head _ _ ks) in Hk1 by done.
    destruct (IH w1 Hg1 Hk1) as (w2 & H2 & Hg2 & He2). exists w2. cbn [remove_servers]. rewrite H1. done.
Qed.

(** Without servers there are no clients and no open descriptor. *)
Lemma good_no_server w : good w -> w_serverList w = [] ->
  w_clientList w = [] /\ forall fd, fd ∈ w_open w -> fd = 0.
Proof.
  intros [Hl _] He. assert (w_clientList w = []) as Hc.
  { destruct (w_clientList w) as [|[c k] l] eqn:E; [done|].
    destruct (lk_conn _ _ Hl c k) as [[s Hs] _]; [rewrite E; cbn; by rewrite Nat.eqb_refl|]. by rewrite He in Hs. }
  split; [done|]. intros fd Hfd. destruct (decide (fd = 0)) as [|H0]; [done|].
  destruct (lk_open _ _ Hl _ Hfd H0) as [(a & s & Hs & _)|(c & k & Hk & _)]; [by rewrite He in Hs|by rewrite Hc in Hk].
Qed.

(** ** Closing the sockets *)

(** [closeServers] closes the socket of every server and leaves them and their
    clients in place. *)
Lemma close_fold_good l : forall w, good w -> NoDup (map fst l) ->
  (forall a s, (a, s) ∈ l -> obj_get a (w_serverList w) = Some s) ->
  let w' := fold_left (fun w e => shutdown e.1 e.2 w) l w in
  good w' /\ w_clientList w' = w_clientList w /\ map fst (w_serverList w') = map fst (w_serverList w) /\
  forall a s, obj_get a (w_serverList w) = Some s ->
    obj_get a (w_serverList w') = Some (if bool_decide (a ∈ map fst l) then s <| ls_sockFd := 0 |> else s).
Proof.
  induction l as [|[a s] l IH]; intros w Hg Hn Hl; cbn [fold_left map fst snd].
  - by split_and!.
  - apply NoDup_cons in Hn as [Ha Hn].
    destruct (good_shutdown a s w Hg) as (Hg1 & Hs1 & Hc1 & Hk1); [apply Hl; by left|].
    assert (forall b, b <> a -> obj_get b (w_serverList (shutdown a s w)) = obj_get b (w_serverList w)) as Hother.
    { intros b Hb. unfold shutdown. destruct (_ =? _); [done|]. cbn.
      by rewrite obj_get_update, (proj2 (Nat.eqb_neq a b)) by congruence. }
    destruct (IH (shutdown a s w) Hg1 Hn) as (G1 & G2 & G3 & G4).
    { intros b t Hb. rewrite Hother; [apply Hl; by right|]. intros ->. apply Ha.
      apply list_elem_of_fmap. by exists (a, t). }
    split_and!; [done|congruence|congruence|]. intros b t Hb. destruct (decide (b = a)) as [->|Hne].
    + rewrite (G4 a (s <| ls_sockFd := 0 |>)) by done. rewrite !bool_decide_eq_false_2 by done.
      rewrite bool_decide_eq_true_2 by by left. assert (Some t = Some s) as [= ->] by (rewrite <- Hb; apply Hl; by left). done.
    + rewrite (G4 b t) by by rewrite Hother. by rewrite (bool_decide_ext _ (b ∈ a :: map fst l))
        by (rewrite elem_of_cons; tauto).
Qed.

Theorem closeServers_closes w : good w ->
  good (closeServers w) /\ w_clientList (closeServers w) = w_clientList w /\
  forall a s, obj_get a (w_serverList w) = Some s ->
    obj_get a (w_serverList (closeServers w)) = Some (s <| ls_sockFd := 0 |>).
Proof.
  intros Hg. pose proof (lk_servers _ _ (proj1 Hg)) as [Hn _].
  destruct (close_fold_good (w_serverList w) w Hg Hn) as (G1 & G2 & _ & G4).
  { intros a s Hin. by apply obj_get_elem. }
  split_and!; [done|done|]. intros a s Hs. unfold closeServers. rewrite (G4 a s Hs).
  rewrite bool_decide_eq_true_2; [done|]. destruct (decide (a ∈ map fst (w_serverList w))) as [|Hni]; [done|].
  apply obj_get_None in Hni. congruence.
Qed.
