(* ===== verification/Server.v ===== *)
(** * Server: the event loop ([srcs/IControl.cpp], [srcs/Client.cpp], [srcs/main.cpp])

    [handleEpoll] gives each event of a batch to the command prompt, to a
    listening server or to a client; [checkTO] ends the clients that wait too
    long; [main] alternates the two while a server is left.  A client's own
    state changes as in [Control]; what it does to its host and its server is
    committed to the static lists of [Listen]. *)

From S2P Require Import Prelude CxxString OrdMap Format Http RequestHeaders RequestUri Host Response Cgi Client Control ConfigLex Config Listen.
#[local] Open Scope Z_scope.

(** What [epoll_wait] reports: standard input with the flags, the input line and
    whether [std::cin] is at its end; a listening server with what [accept]
    returns; a client with its flags and the answers of the operating system
    during its turn.  The last two are pointers. *)
Inductive epoll_event : Type :=
  | StdinEvent (hup ein at_eof : bool) (line : str)
  | ServerEvent (server : nat) (fd : Z)
  | ClientEvent (client : nat) (hup ein eout : bool) (os : os_answers).

(** The static variables: the parser's, which the prompt shares, with the
    static lists in [c_world]. *)
Definition state : Type := cfg world.
Definition on_world (f : world -> failing world world) (g : state) : failing state state :=
  w ← map_exn (fun x => (x.1, g <| c_world := x.2 |>)) (f (c_world g)); Ret (g <| c_world := w |>).

(** ** The command prompt *)
Definition handleKillCommand (words : list str) (w : world) : failing world world :=
  match words with
  | [_; arg] => if str_eqb arg (`s"all") then removeServers w else Ret w
  | [_; arg; port] =>
      if str_eqb arg (`s"all") then removeServers w
      else removeServer_at arg port w
  | [_; arg; port; host] =>
      if str_eqb arg (`s"all") then removeServers w
      else
        match findServer arg port w with
        | Some (a, _) => '(_, w) ← removeHost_name a host w; Ret w
        | None => Ret w
        end
  | _ => Ret w
  end.

(** The other commands only print. *)
Definition parseCommandPrompt (words : list str) (w : world) : failing world world :=
  match words with
  | cmd :: _ => if str_eqb cmd (`s"kill") then handleKillCommand words w else Ret w
  | [] => Ret w
  end.

(** Returns 1 when the server stops.  An exception of the configuration parser
    is not caught here: it reaches [main] as a [std::exception]. *)
Definition handleCommandPrompt (fuel : nat) (hup ein at_eof : bool) (line : str) (g : state) : failing state (Z * state) :=
  if hup || at_eof then g ← on_world removeServers g; Ret (1, g)
  else if negb ein then Ret (0, g)
  else
    match parseValues fuel [] 100 g (open_stream line) with
    | POk words g _ => g ← on_world (parseCommandPrompt words) g; Ret (0, g)
    | PErr _ g => Throw (std_exception, g)
    | PLoop => Diverge
    end.

(** ** Events *)
Definition handleListenEvent (now fd : Z) (server : nat) (w : world) : failing world world :=
  '(_, w) ← acceptConnection now fd server w; Ret w.

(** The map [setHost] searches is the server's at this moment. *)
Definition refresh_map (c : conn) (w : world) : failing world Client :=
  s ← get_server (cn_server c) w;
  Ret ((cn_client c) <| cl_hostMap := resolve_map (w_hostList w) (ls_hostMap s) |>).

(** What a client did, whether its handler returned or threw. *)
Definition settle (client : nat) (old : Client) (m : failing Client Client) (w : world) : failing world (Client * world) :=
  match m with
  | Ret new => w ← commit client old new w; Ret (new, w)
  | Throw (e, new) => w ← commit client old new w; Throw (e, w)
  | Undef => Undef
  | Diverge => Diverge
  end.

Definition turn_client (client : nat) (hup ein eout : bool) (os : os_answers) (pages : str) (w : world) :
    failing world world :=
  c ← get_client client w;
  old ← refresh_map c w;
  '(_, w) ← settle client old (client_event os pages hup ein eout old) w;
  Ret w.

Definition handle_event (fuel : nat) (now : Z) (e : epoll_event) (g : state) : failing state (Z * state) :=
  match e with
  | StdinEvent hup ein at_eof line => handleCommandPrompt fuel hup ein at_eof line g
  | ServerEvent server fd => g ← on_world (handleListenEvent now fd server) g; Ret (0, g)
  | ClientEvent client hup ein eout os =>
      g ← on_world (turn_client client hup ein eout os (c_default_error_pages g)) g; Ret (0, g)
  end.

(** The [for] loop: the prompt may end it. *)
Fixpoint handle_events (fuel : nat) (now : Z) (events : list epoll_event) (g : state) : failing state (Z * state) :=
  match events with
  | [] => Ret (0, g)
  | e :: events =>
      '(res, g) ← handle_event fuel now e g;
      if negb (res =? 0) then Ret (1, g) else handle_events fuel now events g
  end.

Definition handleEpoll (fuel : nat) (now : Z) (events : list epoll_event) (g : state) : failing state (Z * state) :=
  if Nat.ltb (length events) 1 then Ret (-1, g) else handle_events fuel now events g.

(** ** Time-outs

    [checkTO] stops at the first client it terminates. *)
Fixpoint check_clients (os : os_answers) (pages : str) (clients : list nat) (w : world) : failing world world :=
  match clients with
  | [] => Ret w
  | a :: clients =>
      c ← get_client a w;
      let old := cn_client c in
      '(new, w) ← settle a old (check_timeout os pages old) w;
      if cl_terminated new then Ret w else check_clients os pages clients w
  end.

Definition checkTO (os : os_answers) (pages : str) (w : world) : failing world world :=
  check_clients os pages (map fst (w_clientList w)) w.

(** ** [main]

    One turn of the loop: whether it goes on, that is, whether a server is left
    and [handleEpoll] did not fail. *)
Definition main_turn (fuel : nat) (now : Z) (events : list epoll_event) (os : os_answers) (g : state) :
    failing state (bool * state) :=
  '(res, g) ← (if Nat.eqb (length events) 0 then Ret (0, g) else handleEpoll fuel now events g);
  if res <? 0 then Ret (false, g)
  else
    g ← on_world (checkTO os (c_default_error_pages g)) g;
    Ret (negb (Nat.eqb (length (w_serverList (c_world g))) 0), g).

Definition cleanExit (code : Z) (w : world) : failing world (Z * world) :=
  w ← (if negb (Nat.eqb (length (w_serverList w)) 0) then removeServers w else Ret w);
  Ret (code, w).
