(* ===== verification/Rosters.v ===== *)
(** * Rosters: the set of servers each host keeps

    [Host::_listenServers] and the maps of the servers say the same thing from
    both ends.  What clients do leaves both alone; registering a host and
    removing a server change both together.  Only a server that cannot listen
    goes without its hosts being told. *)

From S2P Require Import Prelude CxxString OrdMap Unique Format Http RequestHeaders RequestUri Host Response Cgi Client Control ConfigLex Config Listen ListenFacts TurnFacts Links Removal Server.
#[local] Open Scope Z_scope.

(** A host holds a server that is there exactly when the server's map leads to it. *)
Definition sets_agree (w : world) : Prop := forall h x a s,
  obj_get h (w_hostList w) = Some x -> obj_get a (w_serverList w) = Some s ->
  a ∈ h_listenServers x <-> exists n, om_find lex_ltb n (ls_hostMap s) = Some h.

(** No set holds a server that is gone. *)
Definition sets_alive (w : world) : Prop := forall h x a,
  obj_get h (w_hostList w) = Some x -> a ∈ h_listenServers x -> is_Some (obj_get a (w_serverList w)).

(** ** What leaves the sets and the maps alone *)
Record framed (w w' : world) : Prop := {
  fr_sets : forall h, h_listenServers <$> obj_get h (w_hostList w') = h_listenServers <$> obj_get h (w_hostList w);
  fr_maps : forall a, ls_hostMap <$> obj_get a (w_serverList w') = ls_hostMap <$> obj_get a (w_serverList w);
}.

#[export] Instance framed_preorder : PreOrder framed.
Proof.
  split; [by split|]. intros w1 w2 w3 [A1 A2] [B1 B2]. split; intros a; by rewrite ?B1, ?B2, ?A1, ?A2.
Qed.

Lemma fmap_Some_eq {T U} (p : T -> U) (o o' : option T) x' :
  p <$> o' = p <$> o -> o' = Some x' -> exists x, o = Some x /\ p x = p x'.
Proof. intros E ->. destruct o as [x|]; [|done]. injection E as E. by exists x. Qed.

Lemma framed_agree w w' : framed w w' -> sets_agree w -> sets_agree w'.
Proof.
  intros [F1 F2] H h x' a s' Hx Hs. destruct (fmap_Some_eq _ _ _ _ (F1 h) Hx) as (x & Hx0 & <-).
  destruct (fmap_Some_eq _ _ _ _ (F2 a) Hs) as (s & Hs0 & <-). by apply H.
Qed.

Lemma framed_alive w w' : framed w w' -> sets_alive w -> sets_alive w'.
Proof.
  intros [F1 F2] H h x' a Hx Ha. destruct (fmap_Some_eq _ _ _ _ (F1 h) Hx) as (x & Hx0 & E). rewrite <- E in Ha.
  destruct (H h x a Hx0 Ha) as [s Hs]. pose proof (F2 a) as Hm. rewrite Hs in Hm.
  destruct (obj_get a (w_serverList w')); [done|discriminate Hm].
Qed.

Lemma framed_host h f w : (forall x, h_listenServers (f x) = h_listenServers x) -> framed w (on_host h f w).
Proof. intros Hf. split; [|done]. intros b. by apply field_update. Qed.

Lemma framed_server a f w : (forall s, ls_hostMap (f s) = ls_hostMap s) -> framed w (on_server a f w).
Proof. intros Hf. split; [done|]. intros b. by apply field_update. Qed.

Lemma framed_same w w' : w_hostList w' = w_hostList w -> w_serverList w' = w_serverList w -> framed w w'.
Proof. intros E1 E2. split; intros ?; by rewrite ?E1, ?E2. Qed.

Lemma commit_event_framed c e w : post (commit_event c e w) (framed w).
Proof.
  destruct e; cbn [commit_event]; try (by apply framed_same).
  - apply post_bind_any. intros k. apply post_bind with (P := fun x => framed w x.2).
    + unfold bindClient. apply post_bind_any. intros s. apply post_bind_any. intros h. apply post_bind_any. intros _.
      cbn [post snd]. transitivity (on_host h (addClient c) w); [by apply framed_host|by apply framed_server].
    + intros [h w'] Hw. cbn [post snd] in *. transitivity w'; [done|by apply framed_same].
  - apply post_bind_any. intros k. apply post_bind_any. intros h. apply post_bind_any. intros _. by apply framed_host.
  - apply post_bind_any. intros k. apply post_bind_any. intros _. cbn [post].
    transitivity (on_server (cn_server k) (server_removeClient c) w); [by apply framed_server|by apply framed_same].
Qed.

Lemma commit_framed c old new w : post (commit c old new w) (framed w).
Proof.
  unfold commit. cbv zeta. set (w0 := on_conn _ _ w). assert (framed w w0) as H0 by by apply framed_same.
  clearbody w0. generalize (drop (length (cl_log old)) (cl_log new)) as es. intros es. revert w0 H0.
  induction es as [|e es IH]; intros w0 H0; [done|]. cbn [commit_events].
  eapply post_bind; [apply commit_event_framed|]. intros w1 H1. apply IH. by transitivity w0.
Qed.

Lemma terminate_all_framed cs : forall w, post (terminate_all cs w) (framed w).
Proof.
  induction cs as [|c cs IH]; intros w; cbn [terminate_all]; [done|].
  apply post_bind with (P := framed w); [apply post_bind_any; intros k; apply commit_framed|].
  intros w1 H1. eapply post_mono; [apply IH|]. intros w2 H2. by transitivity w1.
Qed.

Lemma settle_framed c old m w : post (settle c old m w) (fun x => framed w x.2).
Proof.
  destruct m as [new|[e new]| |]; cbn [settle]; [|by apply post_bind_any|done..].
  eapply post_bind; [apply commit_framed|]. done.
Qed.

Lemma turn_client_framed c hup ein eout os pages w : post (turn_client c hup ein eout os pages w) (framed w).
Proof.
  unfold turn_client. do 2 (apply post_bind_any; intros ?).
  eapply post_bind; [apply settle_framed|]. by intros [x w'].
Qed.

Lemma check_clients_framed os pages cs : forall w, post (check_clients os pages cs w) (framed w).
Proof.
  induction cs as [|c cs IH]; intros w; cbn [check_clients]; [done|]. apply post_bind_any. intros k. cbv zeta.
  eapply post_bind; [apply settle_framed|]. intros [new w1] H1. cbn [snd] in H1. destruct (cl_terminated new); [done|].
  eapply post_mono; [apply IH|]. intros w2 H2. by transitivity w1.
Qed.

Lemma checkTO_framed os pages w : post (checkTO os pages w) (framed w).
Proof. apply check_clients_framed. Qed.

Lemma acceptConnection_framed now fd a w : post (acceptConnection now fd a w) (fun x => framed w x.2).
Proof.
  unfold acceptConnection. apply post_bind_any. intros s. destruct (_ <=? _); [by apply framed_same|].
  destruct (fd <? 0); [by apply framed_same|]. cbn [post snd].
  etransitivity; [|apply framed_server; done]. by apply framed_same.
Qed.

Lemma shutdown_framed a s w : framed w (shutdown a s w).
Proof.
  unfold shutdown. destruct (_ =? 0); [done|].
  transitivity (close_fd (ls_sockFd s) w); [by apply framed_same|by apply framed_server].
Qed.

(** ** Removing a server *)

(** The sets of the hosts of server [a], without it. *)
Definition struck (a : nat) (m : list (str * nat)) (w w' : world) : Prop := forall h x',
  obj_get h (w_hostList w') = Some x' -> exists x, obj_get h (w_hostList w) = Some x /\
    h_listenServers x' = if bool_decide (h ∈ map snd m) then h_listenServers x ∖ {[a]} else h_listenServers x.

Lemma unassignHost_hosts a v x s w w' :
  obj_get a (w_serverList w) = Some s -> obj_get v (w_hostList w) = Some x -> map_ok (w_hostList w) (ls_hostMap s) ->
  (exists n, om_find lex_ltb n (ls_hostMap s) = Some v) ->
  unassignHost a v w = Ret w' -> w_hostList w' = obj_update v (removeListenServer a) (w_hostList w).
Proof.
  intros Hs Hx Hm [n Hn]. destruct (mo_names _ _ Hm _ _ Hn) as (x0 & Hx0 & Hin & Hall).
  assert (x0 = x) as -> by congruence. unfold unassignHost, get_host, get_server. rewrite Hx. cbn. rewrite Hs. cbn.
  destruct (h_server_names x) as [|n0 names] eqn:En; [by apply elem_of_nil in Hin|]. cbn.
  assert (findHost n0 s = Some v) as -> by (apply Hall; by left). rewrite Hx. cbn. by intros [= <-].
Qed.

Lemma unassign_all_struck a fuel : forall s seen w w',
  obj_get a (w_serverList w) = Some s -> map_ok (w_hostList w) (ls_hostMap s) ->
  (forall e, e ∈ ls_hostMap s -> e.2 ∉ seen) ->
  unassign_all fuel a (mkIter (fst <$> head (ls_hostMap s)) seen) w = Ret w' ->
  struck a (ls_hostMap s) w w'.
Proof.
  induction fuel as [|fuel IH]; intros s seen w w' Hs Hm Hseen; [done|]. cbn [unassign_all it_base].
  destruct (ls_hostMap s) as [|[k v] m] eqn:Em.
  { cbn. intros [= <-] h x' Hx. exists x'. split; [done|]. by rewrite bool_decide_eq_false_2 by apply not_elem_of_nil. }
  cbn [head fmap option_fmap option_map fst]. unfold get_server. rewrite Hs. cbn [deref mbind outcome_bind]. rewrite Em.
  destruct (safePostIncrement_head (E:=exn * world) m seen k v) as [Hnext Hval];
    [apply Hm|intros e He; apply Hseen; by right|].
  rewrite Hnext. cbn [mbind outcome_bind]. rewrite Hval. cbn [mbind outcome_bind].
  assert (om_find lex_ltb k ((k, v) :: m) = Some v) as Hk by (cbn; by rewrite lex_irrefl).
  destruct (mo_names _ _ Hm _ _ Hk) as (x & Hx & _ & _).
  destruct (unassignHost_step a s v x w) as (w1 & s1 & H1 & Hs1 & Hm1 & Hsp1); [done|by rewrite Em|done|by exists k; rewrite Em|].
  pose proof (unassignHost_hosts a v x s w w1 Hs Hx) as Hh1. rewrite Em in Hh1.
  specialize (Hh1 Hm (ex_intro _ k Hk) H1). rewrite H1. cbn [mbind outcome_bind].
  rewrite Em, filter_cons in Hm1. cbn in Hm1. rewrite decide_False in Hm1 by (intros Hne; by apply Hne).
  rewrite <- Hm1. intros E. apply IH in E; [|done| |].
  - intros h x' Hx'. destruct (E h x' Hx') as (x1 & Hx1 & ->). rewrite Hh1, obj_get_update in Hx1.
    assert (bool_decide (h ∈ map snd (ls_hostMap s1)) = bool_decide (h <> v /\ h ∈ map snd m)) as ->.
    { apply bool_decide_ext. rewrite Hm1. rewrite !list_elem_of_fmap. split.
      - intros (e & -> & [He1 He2]%list_elem_of_filter). split; [done|]. by exists e.
      - intros [Hne (e & -> & He)]. exists e. split; [done|]. by apply list_elem_of_filter. }
    cbn [map snd]. destruct (Nat.eqb_spec v h) as [<-|Hne].
    + rewrite Hx in Hx1. injection Hx1 as <-. exists x. split; [done|].
      rewrite (bool_decide_eq_false_2 (_ /\ _)) by tauto. by rewrite bool_decide_eq_true_2 by by left.
    + exists x1. split; [done|]. rewrite (bool_decide_ext (h ∈ v :: map snd m) (h <> v /\ h ∈ map snd m)); [done|].
      rewrite elem_of_cons. split; [intros [?|?]; [congruence|by split]|tauto].
  - assert (filter (fun e => e.2 <> v) ((k, v) :: m) = ls_hostMap s1) as <-.
    { rewrite filter_cons. cbn. rewrite decide_False by (intros Hne; by apply Hne). done. }
    apply map_ok_filter. eapply map_ok_hosts; [|exact Hm]. intros b y Hy.
    destruct (spares_names _ _ _ _ _ Hsp1 Hy) as (y' & ? & ? & _). by exists y'.
  - rewrite Hm1. intros e [He1 He2]%list_elem_of_filter. rewrite not_elem_of_cons. split; [done|].
    apply Hseen. by right.
Qed.

(** A server in the map of which a host is. *)
Lemma in_map_find hosts m h : map_ok hosts m -> h ∈ map snd m <-> exists n, om_find lex_ltb n m = Some h.
Proof.
  intros [Hs _]. rewrite list_elem_of_fmap. split.
  - intros ([k a] & -> & He). exists k. apply om_find_Some; [apply _|done|]. exists k. split; [done|by apply lex_equiv].
  - intros (n & Hn). apply om_find_Some in Hn as (k & He & _); [|apply _|done]. by exists (k, h).
Qed.

(** The server goes once its hosts are told. *)
Lemma erase_rosters a s w w' :
  obj_get a (w_serverList w) = Some s -> map_ok (w_hostList w) (ls_hostMap s) -> spares a w w' ->
  NoDup (map fst (w_serverList w)) -> struck a (ls_hostMap s) w w' -> sets_agree w ->
  let w2 := w' <| w_serverList := obj_erase a (w_serverList w') |> in
  sets_agree w2 /\ (sets_alive w -> sets_alive w2).
Proof.
  intros Hs Hm Hsp Hnd Hst Hag w2.
  assert (forall b, obj_get b (w_serverList w2) = if Nat.eqb a b then None else obj_get b (w_serverList w)) as Her.
  { intros b. unfold w2. cbn. rewrite obj_get_erase by by rewrite (sp_keys _ _ _ Hsp).
    destruct (Nat.eqb_spec a b); [done|by apply (sp_servers _ _ _ Hsp)]. }
  assert (forall h x', obj_get h (w_hostList w2) = Some x' -> exists x, obj_get h (w_hostList w) = Some x /\
    forall b, b ∈ h_listenServers x' <-> b ∈ h_listenServers x /\ b <> a) as Hset.
  { intros h x' Hx'. destruct (Hst h x' Hx') as (x & Hx & E). exists x. split; [done|]. intros b. rewrite E.
    case_bool_decide as Hin; [by rewrite elem_of_difference, elem_of_singleton|]. split; [|tauto]. intros Hb. split; [done|]. intros ->.
    apply Hin. apply (in_map_find _ _ _ Hm). by apply (Hag h x a s). }
  split.
  - intros h x' b t Hx' Ht. rewrite Her in Ht. destruct (Nat.eqb_spec a b) as [|Hne]; [done|].
    destruct (Hset h x' Hx') as (x & Hx & Hiff). rewrite Hiff, (Hag h x b t Hx Ht). split; [tauto|]. intros ?. by split.
  - intros Hal h x' b Hx' Hb. destruct (Hset h x' Hx') as (x & Hx & Hiff). destruct (proj1 (Hiff b) Hb) as [Hb1 Hne].
    rewrite Her, (proj2 (Nat.eqb_neq a b)) by done. by apply (Hal h x).
Qed.

Lemma removeServer_rosters a w w' : good w -> sets_agree w -> removeServer a w = Ret w' ->
  sets_agree w' /\ (sets_alive w -> sets_alive w').
Proof.
  intros Hg Hag. unfold removeServer, get_server.
  destruct (obj_get a (w_serverList w)) as [s|] eqn:Hs; [|done]. cbn [deref mbind outcome_bind]. cbv zeta.
  destruct (good_shutdown _ _ _ Hg Hs) as (Hg1 & Hs1 & _). pose proof (shutdown_framed a s w) as F1.
  set (w1 := shutdown a s w) in *. pose proof (lk_members _ _ (proj1 Hg1) _ _ Hs1) as [_ M2 _ M4]. cbn in M2, M4.
  destruct (terminate_all_good (ls_orphanClients s) w1 Hg1 M4) as (w2 & E2 & Hg2 & _).
  { intros c (k & Hk & _)%M2. by exists k. }
  pose proof (post_elim _ _ _ (terminate_all_framed _ _) E2) as F2. rewrite E2. cbn [mbind outcome_bind].
  destruct (obj_get a (w_serverList w2)) as [s2|] eqn:Hs2; [|done]. cbn [deref mbind outcome_bind].
  pose proof (lk_members _ _ (proj1 Hg2) _ _ Hs2) as [N1 _ N3 _].
  destruct (terminate_all_good (ls_connectedClients s2) w2 Hg2 N3) as (w3 & E3 & Hg3 & _).
  { intros c (k & Hk & _)%N1. by exists k. }
  pose proof (post_elim _ _ _ (terminate_all_framed _ _) E3) as F3. rewrite E3. cbn [mbind outcome_bind].
  destruct (obj_get a (w_serverList w3)) as [s3|] eqn:Hs3; [|done]. cbn [deref mbind outcome_bind].
  destruct (lk_map _ _ (proj1 Hg3) _ _ Hs3) as [Hm3 _].
  assert (framed w w3) as F by (transitivity w1; [done|by transitivity w2]).
  destruct (unassign_all_good a (S (length (ls_hostMap s3))) s3 [] w3) as (w4 & s4 & H4 & _ & _ & Hsp);
    [done|done|by intros ? ? ?%elem_of_nil|lia|].
  unfold it_begin. pose proof H4 as Hst. apply unassign_all_struck in Hst; [|done|done|by intros ? ? ?%elem_of_nil].
  rewrite H4. cbn [mbind outcome_bind]. intros [= <-].
  destruct (erase_rosters a s3 w3 w4 Hs3 Hm3 Hsp (proj1 (lk_servers _ _ (proj1 Hg3))) Hst (framed_agree _ _ F Hag)) as [H1 H2].
  split; [exact H1|]. intros Hal. by apply H2, (framed_alive w).
Qed.

Lemma remove_servers_rosters ks : forall w w', good w -> sets_agree w -> map fst (w_serverList w) = ks ->
  remove_servers ks w = Ret w' -> sets_agree w' /\ (sets_alive w -> sets_alive w').
Proof.
  induction ks as [|a ks IH]; intros w w' Hg Hag Hks; cbn [remove_servers]; [by intros [= <-]|].
  destruct (obj_get a (w_serverList w)) as [s|] eqn:Hs.
  2:{ apply obj_get_None in Hs. rewrite Hks in Hs. destruct Hs. by left. }
  destruct (removeServer_good _ _ _ Hg Hs) as (w1 & H1 & Hg1 & Hk1 & _).
  rewrite (obj_erase_head _ _ ks) in Hk1 by done. destruct (removeServer_rosters a w w1 Hg Hag H1) as [Hag1 Hal1].
  rewrite H1. cbn [mbind outcome_bind]. intros E. destruct (IH w1 w' Hg1 Hag1 Hk1 E). split; auto.
Qed.
