(* ===== verification/Registration.v ===== *)
(** * Registration: the servers before they serve

    While the configuration is read there is no client.  Registering hosts whose
    names are free keeps the servers' maps in order, also when a port cannot be
    bound; the listening servers implement the interface of the configuration
    parser. *)

From S2P Require Import Prelude CxxString OrdMap Format Http RequestHeaders RequestUri Host Response Cgi Client ConfigLex Config Listen ListenFacts TurnFacts Links Removal Server Rosters.
#[local] Open Scope Z_scope.

Record configured (w : world) : Prop := {
  cf_servers : keys_ok (w_fresh w) (map fst (w_serverList w));
  cf_hosts : keys_ok (w_fresh w) (map fst (w_hostList w));
  cf_clients : w_clientList w = [];
  cf_map : maps_ok w;
  cf_members : forall a s, obj_get a (w_serverList w) = Some s ->
    ls_connectedClients s = [] /\ ls_orphanClients s = [];
  cf_guests : forall a h, obj_get a (w_hostList w) = Some h -> h_clients h = [];
  cf_open : forall fd, fd ∈ w_open w -> fd <> 0 ->
    exists a s, obj_get a (w_serverList w) = Some s /\ ls_sockFd s = fd;
}.

Lemma world_init_configured : configured world_init.
Proof.
  split; cbn; try done.
  - split; [constructor|by intros a ?%elem_of_nil].
  - split; [constructor|by intros a ?%elem_of_nil].
  - by intros fd ?%elem_of_nil.
Qed.

Lemma configured_world_ok w : configured w -> world_ok w.
Proof.
  intros Hc. destruct Hc as [H1 H2 _ H4 _ _ _]. split; [done|done|].
  intros a s n h Hin Hn. apply obj_get_elem in Hin; [|apply H1]. destruct (H4 _ _ Hin) as [[_ Hm] _].
  destruct (Hm _ _ Hn) as (x & Hx & _). by exists x.
Qed.

(** The invariant of the running server holds when it starts. *)
Lemma configured_good w : configured w -> good w.
Proof.
  intros [H1 H2 H3 H4 H5 H6 H7]. split; [split; try done|].
  - rewrite H3. split; [constructor|by intros a ?%elem_of_nil].
  - intros a s Hs. destruct (H5 _ _ Hs) as [E1 E2]. rewrite H3.
    split; rewrite ?E1, ?E2; try constructor; try (by intros ?%elem_of_nil); by intros (? & ? & _).
  - intros a h Hh. rewrite H3. split; rewrite (H6 _ _ Hh); [|constructor].
    intros c. split; [by intros ?%elem_of_nil|by intros (_ & ? & ? & _)].
  - intros c k. by rewrite H3.
  - intros fd Hin H0. left. by apply H7.
  - intros c k. by rewrite H3.
Qed.

(** While the configuration is read the sets of the hosts are in order too. *)
Definition rosters (w : world) : Prop := sets_agree w /\ sets_alive w.
Definition ready (w : world) : Prop := configured w /\ rosters w.

Lemma world_init_ready : ready world_init.
Proof. split; [apply world_init_configured|by split]. Qed.

(** ** Names *)
Lemma assign_new_sorted names host : forall m, om_sorted lex_ltb m -> om_sorted lex_ltb (assign_new names host m).
Proof.
  induction names as [|n names IH]; intros m Hm; cbn [assign_new]; [done|]. apply IH.
  destruct (om_find lex_ltb n m); [done|]. apply om_update_sorted; [apply _|done].
Qed.

(** The names of the host are free, or already its own. *)
Definition open_to (host : nat) (names : list str) (m : list (str * nat)) : Prop :=
  forall n, n ∈ names -> om_find lex_ltb n m = None \/ om_find lex_ltb n m = Some host.

Lemma assign_new_map_ok hosts host x m :
  map_ok hosts m -> obj_get host hosts = Some x -> h_server_names x <> [] ->
  open_to host (h_server_names x) m ->
  map_ok hosts (assign_new (h_server_names x) host m) /\ assign_new (h_server_names x) host m <> [].
Proof.
  intros [Hs Hn] Hx Hne Hopen. assert (forall n, n ∈ h_server_names x ->
    om_find lex_ltb n (assign_new (h_server_names x) host m) = Some host) as Hall.
  { intros n Hin. rewrite assign_new_find. destruct (Hopen n Hin) as [-> | ->]; [|done].
    by rewrite bool_decide_eq_true_2. }
  split.
  - split; [by apply assign_new_sorted|]. intros n h. rewrite assign_new_find.
    destruct (om_find lex_ltb n m) as [h0|] eqn:E.
    + intros [= ->]. destruct (Hn _ _ E) as (y & Hy & Hin & Hk). exists y. split_and!; [done..|].
      intros k Hk'. rewrite assign_new_find, Hk by done. done.
    + case_bool_decide as Hin; [|done]. intros [= <-]. by exists x.
  - destruct (h_server_names x) as [|n names] eqn:En; [done|]. intros E.
    pose proof (Hall n ltac:(by left)) as H. by rewrite E in H.
Qed.

(** ** One port *)
Lemma configured_assign host x a s w :
  configured w -> obj_get host (w_hostList w) = Some x -> h_server_names x <> [] ->
  obj_get a (w_serverList w) = Some s -> open_to host (h_server_names x) (ls_hostMap s) ->
  configured (with_assigned host x a w).
Proof.
  intros Hc Hx Hne Hs Hopen. destruct Hc as [H1 H2 H3 H4 H5 H6 H7]. unfold with_assigned. split; cbn.
  - by apply keys_ok_update.
  - by apply keys_ok_update.
  - done.
  - intros b t (t0 & Ht & ->)%obj_update_inv. destruct (H4 _ _ Ht) as [G1 G2].
    assert (forall m, map_ok (w_hostList w) m -> map_ok (obj_update host (addListenServer a) (w_hostList w)) m) as Hh.
    { intros m. apply map_ok_hosts. by apply same_names. }
    destruct (Nat.eqb_spec a b) as [<-|]; [|split; [by apply Hh|done]].
    assert (t0 = s) as -> by congruence. cbn.
    destruct (assign_new_map_ok _ _ _ _ G1 Hx Hne Hopen) as [Hm Hm']. split; [by apply Hh|done].
  - intros b t (t0 & Ht & ->)%obj_update_inv. destruct (H5 _ _ Ht). by destruct (Nat.eqb a b).
  - intros b h (h0 & Hh & ->)%obj_update_inv. pose proof (H6 _ _ Hh). by destruct (Nat.eqb host b).
  - intros fd Hin H0. destruct (H7 _ Hin H0) as (b & t & Ht & <-). exists b.
    rewrite obj_get_update, Ht. destruct (Nat.eqb a b); by eexists.
Qed.

(** A host that gets a server gets it in its set. *)
Lemma rosters_assign host x a s w :
  rosters w -> obj_get host (w_hostList w) = Some x -> h_server_names x <> [] ->
  obj_get a (w_serverList w) = Some s -> open_to host (h_server_names x) (ls_hostMap s) ->
  rosters (with_assigned host x a w).
Proof.
  intros [Hag Hal] Hx Hne Hs Hopen.
  assert (forall h y', obj_get h (w_hostList (with_assigned host x a w)) = Some y' ->
    exists y, obj_get h (w_hostList w) = Some y /\
      forall b, b ∈ h_listenServers y' <-> b ∈ h_listenServers y \/ h = host /\ b = a) as Hset.
  { intros h y' (y & Hy & ->)%obj_update_inv. exists y. split; [done|]. intros b.
    destruct (Nat.eqb_spec host h) as [<-|]; [|intuition congruence]. cbn.
    rewrite elem_of_union, elem_of_singleton. tauto. }
  split.
  - intros h y' b t' Hy' (t & Ht & ->)%obj_update_inv. destruct (Hset h y' Hy') as (y & Hy & ->).
    rewrite (Hag h y b t Hy Ht). destruct (Nat.eqb_spec a b) as [<-|Hab]; [|intuition congruence].
    assert (t = s) as -> by congruence. cbn. split.
    + intros [(n & Hn)|[-> _]]; [exists n; by rewrite assign_new_find, Hn|].
      destruct (h_server_names x) as [|n names]; [done|]. exists n. rewrite assign_new_find.
      destruct (Hopen n) as [-> | ->]; [by left| |done]. rewrite bool_decide_eq_true_2; [done|by left].
    + intros (n & Hn). rewrite assign_new_find in Hn. destruct (om_find lex_ltb n (ls_hostMap s)) as [h0|] eqn:E.
      * injection Hn as ->. left. by exists n.
      * case_bool_decide; [|done]. injection Hn as <-. by right.
  - intros h y' b Hy' Hb. destruct (Hset h y' Hy') as (y & Hy & Hiff). apply obj_update_is_Some.
    destruct (proj1 (Hiff b) Hb) as [Hb1|[_ ->]]; [by apply (Hal h y)|by exists s].
Qed.

(** A new server is in no set. *)
Lemma rosters_add w w' t :
  rosters w -> keys_ok (w_fresh w) (map fst (w_serverList w)) -> w_hostList w' = w_hostList w ->
  w_serverList w' = w_serverList w ++ [(w_fresh w, t)] -> ls_hostMap t = [] -> rosters w'.
Proof.
  intros [Hag Hal] Hk Eh Es Et.
  assert (forall h x, obj_get h (w_hostList w) = Some x -> w_fresh w ∉ h_listenServers x) as Hfresh.
  { intros h x Hx Hin. destruct (Hal h x _ Hx Hin) as [s Hs]. by rewrite (keys_fresh _ _ Hk) in Hs. }
  split; intros h x b; rewrite Eh, Es, ?(obj_get_add (w_fresh w)) by done.
  - intros s Hx. destruct (Nat.eqb_spec b (w_fresh w)) as [->|]; [|by apply Hag]. intros [= <-]. rewrite Et.
    split; [intros Hin; by destruct (Hfresh h x Hx)|by intros (n & ?)].
  - intros Hx Hb. destruct (Nat.eqb b (w_fresh w)); [by eexists|by apply (Hal h x)].
Qed.

(** A host without servers. *)
Lemma rosters_host h w w' :
  rosters w -> keys_ok (w_fresh w) (map fst (w_hostList w)) -> maps_ok w -> h_listenServers h = ∅ ->
  w_hostList w' = w_hostList w ++ [(w_fresh w, h)] -> w_serverList w' = w_serverList w -> rosters w'.
Proof.
  intros [Hag Hal] Hk Hm Hset Eh Es. split; intros b x a; rewrite Eh, Es, (obj_get_add (w_fresh w)) by done;
    destruct (Nat.eqb_spec b (w_fresh w)) as [->|]; try (by apply Hag); try (by apply Hal).
  - intros s [= <-] Hs. rewrite Hset. split; [by intros ?%elem_of_empty|]. intros (n & Hn).
    destruct (mo_names _ _ (proj1 (Hm _ _ Hs)) _ _ Hn) as (y & Hy & _). by rewrite (keys_fresh _ _ Hk) in Hy.
  - intros [= <-]. rewrite Hset. by intros ?%elem_of_empty.
Qed.

Lemma obj_update_last {T} a f (x : T) l : a ∉ map fst l -> obj_update a f (l ++ [(a, x)]) = l ++ [(a, f x)].
Proof.
  induction l as [|[b y] l IH]; cbn; [by rewrite Nat.eqb_refl|]. intros [Hb Hl]%not_elem_of_cons.
  rewrite (proj2 (Nat.eqb_neq a b)) by done. by rewrite IH.
Qed.

Lemma configured_new host x ip port fd w :
  configured w -> obj_get host (w_hostList w) = Some x -> h_server_names x <> [] ->
  configured (with_assigned host x (w_fresh w) (w <| w_open := fd :: w_open w |>
    <| w_serverList := w_serverList w ++ [(w_fresh w, (ListenServer_init ip port) <| ls_sockFd := fd |>)] |>
    <| w_fresh := S (w_fresh w) |>)).
Proof.
  intros Hc Hx Hne. destruct Hc as [H1 H2 H3 H4 H5 H6 H7]. unfold with_assigned. set (a := w_fresh w) in *.
  assert (a ∉ map fst (w_serverList w)) as Ha by (intros Hin%H1; lia).
  split; cbn; rewrite ?obj_update_last by done.
  - by apply keys_ok_add.
  - apply keys_ok_update. by eapply keys_ok_mono; [|exact H2]; lia.
  - done.
  - intros b t. cbn. rewrite obj_update_last, (obj_get_add a) by done.
    assert (forall m, map_ok (w_hostList w) m -> map_ok (obj_update host (addListenServer a) (w_hostList w)) m) as Hh.
    { intros m. apply map_ok_hosts. by apply same_names. }
    destruct (Nat.eqb b a).
    + intros [= <-]. cbn.
      destruct (assign_new_map_ok (w_hostList w) host x []) as [Hm Hm']; [|done|done|by intros n _; left|].
      { split; [constructor|done]. }
      split; [by apply Hh|done].
    + intros Hb. destruct (H4 _ _ Hb) as [G1 G2]. split; [by apply Hh|done].
  - intros b t. rewrite (obj_get_add a) by done. destruct (Nat.eqb b a); [by intros [= <-]|apply H5].
  - intros b h (h0 & Hh & ->)%obj_update_inv. pose proof (H6 _ _ Hh). by destruct (Nat.eqb host b).
  - intros fd' [->|Hin]%elem_of_cons H0.
    + exists a. eexists. rewrite (obj_get_add a), Nat.eqb_refl by done. by split.
    + destruct (H7 _ Hin H0) as (b & t & Ht & <-). exists b, t. split; [|done].
      rewrite (obj_get_add a) by done. destruct (Nat.eqb_spec b a) as [->|]; [|done].
      by rewrite (keys_fresh _ _ H1) in Ht.
Qed.

(** ** All the ports of a host *)
Section registry.
Context (nw : network).

Definition free_at (host : nat) (h : Host) (p : str) (w : world) : Prop :=
  forall a s, findServer (h_addr h) p w = Some (a, s) -> open_to host (h_server_names h) (ls_hostMap s).

(** While host [h] is being registered under the address [host]. *)
Definition registering (host : nat) (h : Host) (ports : list str) (w : world) : Prop :=
  ready w /\ (exists x, obj_get host (w_hostList w) = Some x /\ h_server_names x = h_server_names h) /\
  forall p, p ∈ ports -> free_at host h p w.

Lemma open_to_assign host names m : open_to host names m -> open_to host names (assign_new names host m).
Proof.
  intros H n Hn. rewrite assign_new_find. destruct (H n Hn) as [-> | ->]; [|by right].
  rewrite bool_decide_eq_true_2 by done. by right.
Qed.

Lemma with_assigned_names host h x a w : h_server_names x = h_server_names h ->
  with_assigned host h a w = with_assigned host x a w.
Proof. unfold with_assigned. by intros ->. Qed.

Lemma registering_assigned host h ports a w :
  world_ok w -> ready (with_assigned host h a w) ->
  (exists x, obj_get host (w_hostList w) = Some x /\ h_server_names x = h_server_names h) ->
  (forall p, p ∈ ports -> free_at host h p w) -> registering host h ports (with_assigned host h a w).
Proof.
  intros Hok Hc (x & Hx & Hnames) Hfree. split; [done|]. split.
  - exists (addListenServer a x). cbn. by rewrite obj_get_update, Nat.eqb_refl, Hx.
  - intros p Hp b t. rewrite findServer_assigned by done.
    destruct (findServer (h_addr h) p w) as [[b0 t0]|] eqn:E; [|done]. intros [= <- <-]. cbn.
    pose proof (Hfree p Hp b0 t0 E) as Ho. destruct (Nat.eqb a b0); [by apply open_to_assign|done].
Qed.

Lemma addServer_frame ip port w w' : addServer nw ip port w = (None, w') ->
  w_clientList w' = w_clientList w /\ forall fd, fd ∈ w_open w' -> fd ∈ w_open w.
Proof.
  unfold addServer. destruct (negb (nw_getaddrinfo _ _ _)); [by intros [= <-]|]. cbv zeta.
  destruct (_ <? 0); [by intros [= <-]|]. destruct (negb (nw_bind _ _ _)); [|done]. intros [= <-].
  split; [done|]. intros fd Hin. unfold close_fd in Hin. cbn [w_open upd] in Hin.
  apply list_elem_of_filter in Hin as [Hne [?|?]%elem_of_cons]; done.
Qed.

Lemma registerHost_port_registering host h ports port w b w' :
  registering host h ports w -> port ∈ ports -> h_server_names h <> [] ->
  registerHost_port nw host h port w = (b, w') -> registering host h ports w'.
Proof.
  intros ([Hc Hr] & (x & Hx & Hnames) & Hfree) Hp Hne. pose proof (configured_world_ok _ Hc) as Hok.
  unfold registerHost_port. destruct (findServer (h_addr h) port w) as [[a s]|] eqn:Ef.
  - intros [= <- <-]. change (on_host host _ _) with (with_assigned host h a w).
    apply registering_assigned; [done| |by exists x|done]. rewrite (with_assigned_names _ _ _ _ _ Hnames).
    apply findServer_elem in Ef as Ea. destruct Ea as (Ea & _). apply obj_get_elem in Ea; [|apply Hok].
    assert (open_to host (h_server_names x) (ls_hostMap s)) as Hopen by (rewrite Hnames; by apply (Hfree port Hp a)).
    split; [eapply configured_assign|eapply rosters_assign]; try done; by rewrite Hnames.
  - destruct (addServer_cases nw (h_addr h) port w) as [(w1 & E & H1 & H2 & H3)|[fd ->]].
    + rewrite E. intros [= <- <-]. destruct (addServer_frame _ _ _ _ E) as [H4 H5]. split; [|split].
      * split; [|unfold rosters, sets_agree, sets_alive in *; by rewrite H1, H2].
        destruct Hc as [C1 C2 C3 C4 C5 C6 C7]. unfold maps_ok in *.
        split; unfold maps_ok; rewrite ?H1, ?H2, ?H3, ?H4; try done. intros fd Hin. by apply C7, H5.
      * exists x. by rewrite H2.
      * intros p Hp' b t. unfold findServer. rewrite H1. by apply Hfree.
    + intros [= <- <-]. change (on_host host _ _) with (with_assigned host h (w_fresh w)
        (w <| w_open := fd :: w_open w |>
           <| w_serverList := w_serverList w ++ [(w_fresh w, (ListenServer_init (h_addr h) port) <| ls_sockFd := fd |>)] |>
           <| w_fresh := S (w_fresh w) |>)).
      destruct (with_server_resolve (h_addr h) port fd w [] [] [] Hok Ef) as (_ & Hok2 & _). cbv zeta in Hok2.
      apply registering_assigned; [exact Hok2| |by exists x|].
      * rewrite (with_assigned_names _ _ _ _ _ Hnames). split; [apply configured_new; [done|done|by rewrite Hnames]|].
        apply (rosters_assign _ _ _ ((ListenServer_init (h_addr h) port) <| ls_sockFd := fd |>));
          [by eapply rosters_add; [|apply Hc|..]|exact Hx|by rewrite Hnames| |by intros n _; left].
        cbn. by rewrite (obj_get_add (w_fresh w)), Nat.eqb_refl by apply Hc.
      * intros p Hp' b t. unfold findServer. cbn. rewrite find_server_app.
        destruct (find_server (h_addr h) p (w_serverList w)) as [[b0 t0]|] eqn:E.
        -- intros [= <- <-]. by apply (Hfree p Hp' b0).
        -- destruct (_ && _); [|done]. intros [= <- <-] n _. by left.
Qed.

Lemma registerHost_registering host h all ports : forall res w b w',
  registering host h all w -> (forall p, p ∈ ports -> p ∈ all) -> h_server_names h <> [] ->
  registerHost nw host h ports res w = (b, w') -> registering host h all w'.
Proof.
  induction ports as [|port ports IH]; intros res w b w' Hr Hin Hne; cbn [registerHost]; [by intros [= _ <-]|].
  destruct (registerHost_port nw host h port w) as [b1 w1] eqn:E1. intros E2.
  eapply IH; [|intros p Hp; apply Hin; by right|done|exact E2].
  eapply registerHost_port_registering; [done|apply Hin; by left|done|exact E1].
Qed.

Lemma addHost_ready h w b w' :
  ready w -> h_server_names h <> [] -> h_clients h = [] -> h_listenServers h = ∅ ->
  checkServerNames (h_addr h) (h_ports h) (h_server_names h) w = true ->
  addHost nw h w = (b, w') -> ready w'.
Proof.
  intros [Hc Hr] Hne Hcl Hls Hcheck. unfold addHost. intros E.
  eapply (registerHost_registering (w_fresh w) h (h_ports h)) in E; [apply E| |done|done].
  pose proof Hc as [C1 C2 C3 C4 C5 C6 C7]. split; [split; [split; cbn; try done|by eapply rosters_host]|split].
  - by eapply keys_ok_mono; [|exact C1]; lia.
  - by apply keys_ok_add.
  - eapply maps_ok_step; [| |exact C4]; cbn; [by intros; eexists|]. intros a y Hy. exists y.
    rewrite (obj_get_add (w_fresh w)) by done. destruct (Nat.eqb_spec a (w_fresh w)) as [->|]; [|done].
    by rewrite (keys_fresh _ _ C2) in Hy.
  - intros a y. rewrite (obj_get_add (w_fresh w)) by done. destruct (Nat.eqb a _); [by intros [= <-]|apply C6].
  - exists h. cbn. by rewrite (obj_get_add (w_fresh w)), Nat.eqb_refl.
  - intros p Hp a s Hs n Hn. left. unfold checkServerNames in Hcheck. rewrite forallb_forall in Hcheck.
    apply list_elem_of_In in Hp, Hn. specialize (Hcheck _ Hp). change (findServer (h_addr h) p w = Some (a, s)) in Hs.
    rewrite Hs in Hcheck. rewrite forallb_forall in Hcheck. specialize (Hcheck _ Hn). unfold findHost in Hcheck.
    by destruct (om_find lex_ltb n (ls_hostMap s)).
Qed.

(** The listening servers implement the registry. *)
#[export] Program Instance listen_registry : Registry world := {|
  reg_checkServerNames := checkServerNames;
  reg_addHost := addHost nw;
  reg_resolve := resolve;
  reg_ok := ready;
|}.
Next Obligation. intros addr ports names w [Hok _]. by apply checkServerNames_spec, configured_world_ok. Qed.
Next Obligation. intros h w b w' Hok Hne Hcl Hls Hcheck E. by eapply addHost_ready. Qed.
Next Obligation.
  intros h w b w' a p n h' [Hok%configured_world_ok _] E Hr.
  destruct (addHost_spec _ _ _ _ _ Hok E) as (_ & good & Hg & _). by rewrite Hg, Hr.
Qed.
Next Obligation.
  intros h w b w' a p n h' [Hok%configured_world_ok _] E Hnone Hs.
  destruct (addHost_spec _ _ _ _ _ Hok E) as (_ & good & Hg & Hsub & _).
  rewrite Hg, Hnone in Hs. case_bool_decide as Hb; [|done]. destruct Hb as (-> & Hp & Hn). injection Hs as <-.
  split_and!; [done|by apply Hsub|done..].
Qed.
Next Obligation.
  intros h w w' p n [Hok%configured_world_ok _] E Hp Hn.
  destruct (addHost_spec _ _ _ _ _ Hok E) as (_ & good & Hg & _ & Hall).
  rewrite Hg. destruct (resolve _ _ _ w); [by eexists|]. rewrite bool_decide_eq_true_2; [by eexists|].
  split_and!; [done|by apply Hall|done].
Qed.

(** [startServers] drops the servers that cannot listen. *)
Lemma configured_drop a s w : configured w -> obj_get a (w_serverList w) = Some s ->
  configured ((close_fd (ls_sockFd s) w) <| w_serverList := obj_erase a (w_serverList w) |>).
Proof.
  intros [H1 H2 H3 H4 H5 H6 H7] Hs.
  assert (forall b, obj_get b (obj_erase a (w_serverList w)) =
    if Nat.eqb a b then None else obj_get b (w_serverList w)) as Her by (intros b; apply obj_get_erase, H1).
  split; cbn; try done.
  - by apply keys_ok_erase.
  - intros b t. cbn. rewrite Her. destruct (Nat.eqb a b); [done|apply H4].
  - intros b t. rewrite Her. destruct (Nat.eqb a b); [done|apply H5].
  - intros fd [Hne Hin]%list_elem_of_filter H0. destruct (H7 _ Hin H0) as (b & t & Ht & <-).
    exists b, t. rewrite Her. destruct (Nat.eqb_spec a b) as [<-|]; [congruence|done].
Qed.

Lemma start_servers_configured l : forall w ret r w',
  configured w -> NoDup (map fst l) ->
  (forall a s, (a, s) ∈ l -> obj_get a (w_serverList w) = Some s) ->
  start_servers nw l w ret = (r, w') -> configured w'.
Proof.
  induction l as [|[a s] l IH]; intros w ret r w' Hc Hn Hin; cbn [start_servers]; [by intros [= _ <-]|].
  cbn in Hn. apply NoDup_cons in Hn as [Ha Hn]. destruct (nw_listen nw _ _).
  - apply IH; [done|done|]. intros b t Hb. apply Hin. by right.
  - apply IH; [apply configured_drop; [done|apply Hin; by left]|done|]. intros b t Hb. cbn.
    rewrite obj_get_erase by apply Hc. destruct (Nat.eqb_spec a b) as [<-|]; [|apply Hin; by right].
    destruct Ha. apply list_elem_of_fmap. by exists (a, t).
Qed.

Lemma startServers_configured w r w' : configured w -> startServers nw w = (r, w') -> configured w'.
Proof.
  intros Hc. apply start_servers_configured; [done|apply Hc|].
  intros a s Ha. apply obj_get_elem; [apply Hc|done].
Qed.

(** The sets keep the servers that went. *)
Lemma start_servers_rosters l : forall w ret r w',
  configured w -> NoDup (map fst l) ->
  (forall a s, (a, s) ∈ l -> obj_get a (w_serverList w) = Some s) ->
  start_servers nw l w ret = (r, w') -> sets_agree w ->
  sets_agree w' /\ ((forall ip port, nw_listen nw ip port = true) -> sets_alive w -> sets_alive w').
Proof.
  induction l as [|[a s] l IH]; intros w ret r w' Hc Hn Hin; cbn [start_servers]; [by intros [= _ <-]|].
  cbn in Hn. apply NoDup_cons in Hn as [Ha Hn]. destruct (nw_listen nw _ _) eqn:El.
  - apply IH; [done|done|]. intros b t Hb. apply Hin. by right.
  - intros E Hag. apply IH in E as [H1 _]; [|apply configured_drop; [done|apply Hin; by left]|done| |].
    + split; [done|]. intros Hall. by rewrite Hall in El.
    + intros b t Hb. cbn. rewrite obj_get_erase by apply Hc.
      destruct (Nat.eqb_spec a b) as [<-|]; [|apply Hin; by right].
      destruct Ha. apply list_elem_of_fmap. by exists (a, t).
    + intros h x b t Hx. cbn. rewrite obj_get_erase by apply Hc. destruct (Nat.eqb a b); [done|by apply Hag].
Qed.

Lemma startServers_rosters w r w' : configured w -> startServers nw w = (r, w') -> sets_agree w ->
  sets_agree w' /\ ((forall ip port, nw_listen nw ip port = true) -> sets_alive w -> sets_alive w').
Proof.
  intros Hc. apply start_servers_rosters; [done|apply Hc|].
  intros a s Ha. apply obj_get_elem; [apply Hc|done].
Qed.

Lemma start_servers_refused l : forall w ret r w',
  NoDup (map fst (w_serverList w)) -> start_servers nw l w ret = (r, w') ->
  w_hostList w' = w_hostList w /\ (ret = 1 -> r = 1) /\
  (forall a, obj_get a (w_serverList w) = None -> obj_get a (w_serverList w') = None) /\
  forall a s, (a, s) ∈ l -> nw_listen nw (c_str (ls_ip s)) (c_str (ls_port s)) = false ->
    r = 1 /\ obj_get a (w_serverList w') = None.
Proof.
  induction l as [|[b t] l IH]; intros w ret r w' Hn; cbn [start_servers].
  { intros [= <- <-]. split_and!; [done..|]. by intros a s ?%elem_of_nil. }
  destruct (nw_listen nw _ _) eqn:El; intros E;
    (apply IH in E as (H1 & H2 & H3 & H4); [|first [done|cbn; by apply obj_erase_NoDup]]).
  - split_and!; [done..|]. intros a s [[= -> ->]|Hin]%elem_of_cons Hf; [congruence|by apply (H4 a s)].
  - assert (forall a, obj_get a (w_serverList w) = None \/ a = b -> obj_get a (w_serverList w') = None) as Hgone.
    { intros a Ha. apply H3. cbn. rewrite obj_get_erase by done. destruct (Nat.eqb_spec b a); [done|].
      destruct Ha; [done|congruence]. }
    split; [exact H1|]. split; [intros _; by apply H2|]. split; [intros a Ha; apply Hgone; by left|].
    intros a s [[= -> ->]|Hin]%elem_of_cons Hf; [|by apply (H4 a s)]. split; [by apply H2|]. apply Hgone. by right.
Qed.

(** A server that cannot listen is erased, and stays in the sets of its hosts. *)
Theorem refused_server_stays w r w' a s h x :
  ready w -> obj_get a (w_serverList w) = Some s -> (exists n, om_find lex_ltb n (ls_hostMap s) = Some h) ->
  obj_get h (w_hostList w) = Some x -> nw_listen nw (c_str (ls_ip s)) (c_str (ls_port s)) = false ->
  startServers nw w = (r, w') ->
  r = 1 /\ obj_get a (w_serverList w') = None /\ obj_get h (w_hostList w') = Some x /\ a ∈ h_listenServers x.
Proof.
  intros [Hc [Hag _]] Hs Hn Hx Hf E. pose proof (cf_servers _ Hc) as [Hnd _].
  destruct (start_servers_refused _ _ _ _ _ Hnd E) as (H1 & _ & _ & H4).
  destruct (H4 a s) as [H5 H6]; [by apply obj_get_elem|done|]. rewrite H1. split_and!; [done..|].
  by apply (Hag h x a s).
Qed.
End registry.
