(* ===== verification/ConfigFacts.v ===== *)
(** * ConfigFacts: what the configuration parser guarantees

    More fuel never changes a result; every host that is registered is well
    formed, answers to its own names and never takes a name from another; a
    location that was written out is read back; and the loop the parser does
    not leave. *)

From S2P Require Import Prelude CxxString OrdMap Format Http RequestHeaders RequestUri Host Response ConfigLex ConfigLexFacts Config.
From Stdlib Require Import Sorted.
#[local] Open Scope Z_scope.

(** ** More fuel never changes a result *)
Section fuel.
Context {W : Type}.

(** [m] does as [m'] does wherever it ends. *)
Definition below {A} (m m' : P W A) : Prop := forall g s, m g s = PLoop \/ m g s = m' g s.

Lemma below_refl {A} (m : P W A) : below m m.
Proof. by right. Qed.

Lemma below_loop {A} (m : P W A) : below loop m.
Proof. by left. Qed.

Lemma below_bind {A B} (m m' : P W A) (k k' : A -> P W B) :
  below m m' -> (forall a, below (k a) (k' a)) -> below (mbind k m) (mbind k' m').
Proof.
  intros Hm Hk g s. unfold mbind, P_bind. destruct (Hm g s) as [->| ->]; [by left|].
  destruct (m' g s); [apply Hk|by right|by right].
Qed.

Lemma below_with_stream {A} text (m m' : P W A) : below m m' -> below (with_stream text m) (with_stream text m').
Proof. intros Hm g s. unfold with_stream. destruct (Hm g (open_stream text)) as [->| ->]; [by left|by right]. Qed.

Lemma below_try {A} (m m' h : P W A) : below m m' -> below (try_config m h) (try_config m' h).
Proof. intros Hm g s. unfold try_config. destruct (Hm g s) as [->| ->]; [by left|by right]. Qed.
End fuel.
Create HintDb fuel.
#[export] Hint Resolve below_refl below_loop : fuel.

(** Goes through binds, tests and matches. *)
Ltac below_step :=
  match goal with
  | |- forall _, _ => intro
  | |- below (mbind _ _) (mbind _ _) => apply below_bind
  | |- below (with_stream _ _) (with_stream _ _) => apply below_with_stream
  | |- below (try_config _ _) (try_config _ _) => apply below_try
  | |- below (if ?b then _ else _) (if ?b then _ else _) => destruct b
  | |- below (let '(_, _) := ?x in _) _ => destruct x
  | |- below (match ?x with _ => _ end) (match ?x with _ => _ end) => destruct x
  | |- below (let x := _ in _) _ => cbv zeta
  | |- below _ _ => solve [eauto with fuel lia]
  end.
Ltac below_tac := repeat below_step.

Section lex_fuel.
Context {W : Type}.

Lemma skipSpace_below n m : (n <= m)%nat -> below (W:=W) (skipSpace n) (skipSpace m).
Proof.
  revert m. induction n as [|n IH]; intros [|m] H; cbn [skipSpace]; [auto with fuel..|lia|].
  assert (below (W:=W) (skipSpace n) (skipSpace m)) by (apply IH; lia). below_tac.
Qed.

Lemma parseQuote_below n m esc dest : (n <= m)%nat -> below (W:=W) (parseQuote n esc dest) (parseQuote m esc dest).
Proof.
  revert m esc dest. induction n as [|n IH]; intros [|m] esc dest H; cbn [parseQuote]; [auto with fuel..|lia|].
  assert (forall esc dest, below (W:=W) (parseQuote n esc dest) (parseQuote m esc dest)) by (intros; apply IH; lia).
  below_tac.
Qed.

Lemma skip_comment_below n m c : (n <= m)%nat -> below (W:=W) (skip_comment_loop n c) (skip_comment_loop m c).
Proof.
  revert m c. induction n as [|n IH]; intros [|m] c H; cbn [skip_comment_loop]; [auto with fuel..|lia|].
  assert (forall c, below (W:=W) (skip_comment_loop n c) (skip_comment_loop m c)) by (intros; apply IH; lia).
  below_tac.
Qed.
#[local] Hint Resolve skipSpace_below parseQuote_below skip_comment_below : fuel.

Lemma skipComment_below n m : (n <= m)%nat -> below (W:=W) (skipComment n) (skipComment m).
Proof. intros. unfold skipComment. below_tac. Qed.
#[local] Hint Resolve skipComment_below : fuel.

Lemma checkSemiColon_below n m : (n <= m)%nat -> below (W:=W) (checkSemiColon n) (checkSemiColon m).
Proof. intros. unfold checkSemiColon. below_tac. Qed.

Lemma word_char_below n m c word : (n <= m)%nat -> below (W:=W) (word_char n c word) (word_char m c word).
Proof. intros. unfold word_char. below_tac. Qed.
#[local] Hint Resolve word_char_below : fuel.

Lemma word_loop_below n m esc next word :
  (n <= m)%nat -> below (W:=W) (word_loop n esc next word) (word_loop m esc next word).
Proof.
  revert m esc next word. induction n as [|n IH]; intros [|m] esc next word H; cbn [word_loop]; [auto with fuel..|lia|].
  assert (forall esc c word, below (W:=W) (word_loop n esc c word) (word_loop m esc c word)) by (intros; apply IH; lia).
  below_tac.
Qed.
#[local] Hint Resolve word_loop_below : fuel.

Lemma getNextWord_below n m word : (n <= m)%nat -> below (W:=W) (getNextWord n word) (getNextWord m word).
Proof. intros. unfold getNextWord. below_tac. Qed.
#[local] Hint Resolve getNextWord_below : fuel.

Lemma values_loop_below k l n m i maxNbr words : (k <= l)%nat -> (n <= m)%nat ->
  below (W:=W) (values_loop k n i maxNbr words) (values_loop l m i maxNbr words).
Proof.
  revert l i words. induction k as [|k IH]; intros [|l] i words H1 H2; cbn [values_loop]; [auto with fuel..|lia|].
  assert (forall i words, below (W:=W) (values_loop k n i maxNbr words) (values_loop l m i maxNbr words))
    by (intros; apply IH; lia).
  below_tac.
Qed.

Lemma parseValues_below n m words maxNbr : (n <= m)%nat ->
  below (W:=W) (parseValues n words maxNbr) (parseValues m words maxNbr).
Proof. intros. by apply values_loop_below. Qed.

Lemma block_loop_below n m esc quoted depth out : (n <= m)%nat ->
  below (W:=W) (block_loop n esc quoted depth out) (block_loop m esc quoted depth out).
Proof.
  revert m esc quoted depth out. induction n as [|n IH]; intros [|m] esc quoted depth out H; cbn [block_loop];
    [auto with fuel..|lia|].
  assert (forall esc quoted depth out,
    below (W:=W) (block_loop n esc quoted depth out) (block_loop m esc quoted depth out)) by (intros; apply IH; lia).
  below_tac.
Qed.

Lemma getNextBlock_below n m : (n <= m)%nat -> below (W:=W) (getNextBlock n) (getNextBlock m).
Proof. intros. by apply block_loop_below. Qed.
End lex_fuel.
#[export] Hint Resolve checkSemiColon_below getNextWord_below parseValues_below getNextBlock_below : fuel.

Section grammar_fuel.
Context {W : Type}.

Lemma block_tokens_below {O} k l n m (h h' : str -> O -> P W O) obj :
  (k <= l)%nat -> (n <= m)%nat -> (forall t o, below (h t o) (h' t o)) ->
  below (block_tokens k n h obj) (block_tokens l m h' obj).
Proof.
  revert l obj. induction k as [|k IH]; intros [|l] obj H1 H2 Hh; cbn [block_tokens]; [auto with fuel..|lia|].
  assert (forall obj, below (block_tokens k n h obj) (block_tokens l m h' obj)) by (intros; apply IH; [lia|done..]).
  below_tac.
Qed.

Lemma parseBlock_below {O} n m (h h' : str -> O -> P W O) obj :
  (n <= m)%nat -> (forall t o, below (h t o) (h' t o)) -> below (parseBlock n h obj) (parseBlock m h' obj).
Proof. intros. by apply block_tokens_below. Qed.

Lemma parsePath_below n m dest id e : (n <= m)%nat -> below (W:=W) (parsePath n dest id e) (parsePath m dest id e).
Proof. intros. unfold parsePath. below_tac. Qed.
#[local] Hint Resolve parsePath_below : fuel.

Lemma handleLocationToken_below n m t o : (n <= m)%nat ->
  below (W:=W) (handleLocationToken n t o) (handleLocationToken m t o).
Proof.
  intros. unfold handleLocationToken, parseAllowedMethods, parseBoolean, parseUri, parseRedirection. below_tac.
Qed.

Lemma handleCGIConfigToken_below n m t o : (n <= m)%nat ->
  below (W:=W) (handleCGIConfigToken n t o) (handleCGIConfigToken m t o).
Proof. intros. unfold handleCGIConfigToken, parseAllowedMethods, parseExtension. below_tac. Qed.
#[local] Hint Resolve handleLocationToken_below handleCGIConfigToken_below parseBlock_below : fuel.

Lemma handleHostToken_below n m t o : (n <= m)%nat ->
  below (W:=W) (handleHostToken n t o) (handleHostToken m t o).
Proof.
  intros. unfold handleHostToken, parsePorts, parseHostName, parseServerName, parseBodyMaxSize, parseLocation,
    parseCGIConfig. below_tac.
Qed.
#[local] Hint Resolve handleHostToken_below : fuel.

Context `{!Registry W}.

Lemma handleConfigToken_below n m t o : (n <= m)%nat ->
  below (W:=W) (handleConfigToken n t o) (handleConfigToken m t o).
Proof.
  intros H. unfold handleConfigToken, parseHost. below_tac.
  intros g s. unfold parseDefaultErrorPages.
  destruct (parsePath_below n m [] (Some (`s"default error page location")) None H g s) as [->| ->];
    [by left|by right].
Qed.

Lemma parseConfigText_below n m : (n <= m)%nat -> below (W:=W) (parseConfigText n) (parseConfigText m).
Proof.
  intros H g s. unfold parseConfigText.
  destruct (block_tokens_below n m n m (handleConfigToken n) (handleConfigToken m) tt H H
    (fun t o => handleConfigToken_below n m t o H) g s) as [->| ->]; [by left|by right].
Qed.
End grammar_fuel.

(** ** What the handlers build

    [sound m Q]: what [m] returns satisfies [Q], and the registered hosts and
    the default error pages are left alone, also when it throws. *)
Section sound.
Context {W : Type}.

Definition untouched (g g' : cfg W) : Prop :=
  c_world g' = c_world g /\ c_default_error_pages g' = c_default_error_pages g.

Definition sound {A} (m : P W A) (Q : A -> Prop) : Prop := forall g s,
  match m g s with
  | POk a g' _ => Q a /\ untouched g g'
  | PErr _ g' => untouched g g'
  | PLoop => True
  end.

Lemma untouched_refl g : untouched g g.
Proof. done. Qed.

Lemma untouched_trans g1 g2 g3 : untouched g1 g2 -> untouched g2 g3 -> untouched g1 g3.
Proof. intros [H1 H2] [H3 H4]. split; congruence. Qed.

Lemma sound_ret {A} (a : A) (Q : A -> Prop) : Q a -> sound (mret a) Q.
Proof. by intros H g s. Qed.

Lemma sound_throw {A} e (Q : A -> Prop) : sound (throw e) Q.
Proof. by intros g s. Qed.

Lemma sound_loop {A} (Q : A -> Prop) : sound loop Q.
Proof. by intros g s. Qed.

Lemma sound_bind {A B} (m : P W A) (k : A -> P W B) (Q : A -> Prop) (R : B -> Prop) :
  sound m Q -> (forall a, Q a -> sound (k a) R) -> sound (mbind k m) R.
Proof.
  intros Hm Hk g s. unfold mbind, P_bind. specialize (Hm g s). destruct (m g s) as [a g1 s1|e g1|]; [|done..].
  destruct Hm as [Ha H1]. specialize (Hk a Ha g1 s1). destruct (k a g1 s1) as [b g2 s2|e g2|]; [|by eapply untouched_trans|done].
  destruct Hk as [Hb H2]. split; [done|by eapply untouched_trans].
Qed.

Lemma sound_any {A B} (m : P W A) (k : A -> P W B) (R : B -> Prop) :
  sound m (fun _ => True) -> (forall a, sound (k a) R) -> sound (mbind k m) R.
Proof. intros Hm Hk. eapply sound_bind; [exact Hm|by intros a _]. Qed.

Lemma sound_mono {A} (m : P W A) (Q R : A -> Prop) : sound m Q -> (forall a, Q a -> R a) -> sound m R.
Proof. intros Hm HQ g s. specialize (Hm g s). destruct (m g s); [|done..]. destruct Hm; auto. Qed.

Lemma sound_with_stream {A} text (m : P W A) (Q : A -> Prop) : sound m Q -> sound (with_stream text m) Q.
Proof. intros Hm g s. unfold with_stream. specialize (Hm g (open_stream text)). by destruct (m g _). Qed.

Lemma sound_try {A} (m h : P W A) (Q : A -> Prop) : sound m Q -> sound h Q -> sound (try_config m h) Q.
Proof.
  intros Hm Hh g s. unfold try_config. specialize (Hm g s). destruct (m g s) as [| e g1|]; [done| |done].
  destruct (is_config_exn e); [|done]. specialize (Hh g1 s). destruct (h g1 s); [|by eapply untouched_trans|done].
  destruct Hh. split; [done|by eapply untouched_trans].
Qed.

Lemma sound_state (f : cfg W -> cfg W) : (forall g, untouched g (f g)) -> sound (modify f) (fun _ => True).
Proof. by intros H g s; split; [|apply H]. Qed.
End sound.

(** Reads the primitive readers off their definitions. *)
Create HintDb sound.
#[export] Hint Resolve sound_throw sound_loop : sound.

Ltac sound_step :=
  match goal with
  | |- forall _, _ => intro
  | |- sound (mret _) _ => apply sound_ret; try exact I
  | |- sound (mbind _ _) _ => apply sound_any
  | |- sound (with_stream _ _) _ => apply sound_with_stream
  | |- sound (try_config _ _) _ => apply sound_try
  | |- sound (if ?b then _ else _) _ => destruct b eqn:?
  | |- sound (let '(_, _) := ?x in _) _ => destruct x
  | |- sound (match ?x with _ => _ end) _ => destruct x eqn:?
  | |- sound (let x := _ in _) _ => cbv zeta
  | |- sound _ _ => solve [eauto with sound]
  end.
Ltac sound_tac := repeat sound_step.

Section lex_sound.
Context {W : Type}.

Lemma on_peek_sound : sound (W:=W) on_peek (fun _ => True).
Proof. intros g s. unfold on_peek. by destruct (peek s). Qed.

Lemma on_get_sound : sound (W:=W) on_get (fun _ => True).
Proof. intros g s. unfold on_get. by destruct (get s). Qed.

Lemma on_good_sound : sound (W:=W) on_good (fun _ => True).
Proof. by intros g s. Qed.

Lemma incr_line_sound c : sound (W:=W) (incr_line c) (fun _ => True).
Proof. apply sound_state. intros g. by destruct (Ascii.eqb c NL). Qed.

Lemma mark_block_sound : sound (W:=W) mark_block (fun _ => True).
Proof. by apply sound_state. Qed.

Lemma block_failed_sound : sound (W:=W) block_failed (fun _ => True).
Proof. by apply sound_state. Qed.

Lemma next_line_sound : sound (W:=W) next_line (fun _ => True).
Proof. intros g s. unfold next_line. by destruct (getline s (c_lineBuffer g)). Qed.

Lemma on_stream_state_sound f : sound (W:=W) (on_stream_state f) (fun _ => True).
Proof. by intros g s. Qed.

Lemma stream_state_sound : sound (W:=W) stream_state (fun _ => True).
Proof. by intros g s. Qed.
#[local] Hint Resolve on_peek_sound on_get_sound on_good_sound incr_line_sound next_line_sound
  on_stream_state_sound stream_state_sound : sound.

Lemma skipSpace_sound n : sound (W:=W) (skipSpace n) (fun _ => True).
Proof. induction n as [|n IH]; cbn [skipSpace]; sound_tac. Qed.

Lemma parseQuote_sound n : forall esc dest, sound (W:=W) (parseQuote n esc dest) (fun _ => True).
Proof. induction n as [|n IH]; intros; cbn [parseQuote]; sound_tac. Qed.

Lemma skip_comment_sound n : forall c, sound (W:=W) (skip_comment_loop n c) (fun _ => True).
Proof. induction n as [|n IH]; intros; cbn [skip_comment_loop]; sound_tac. Qed.
#[local] Hint Resolve skipSpace_sound parseQuote_sound skip_comment_sound : sound.

Lemma checkSemiColon_sound n : sound (W:=W) (checkSemiColon n) (fun _ => True).
Proof. unfold checkSemiColon. sound_tac. Qed.

Lemma word_char_sound n c word : sound (W:=W) (word_char n c word) (fun _ => True).
Proof. unfold word_char, skipComment. sound_tac. Qed.
#[local] Hint Resolve word_char_sound : sound.

(** A word that is reported is not empty. *)
Definition reported (r : Z * str) : Prop := r.1 = 0 -> r.2 <> [].

Lemma word_loop_sound n : forall esc next word, sound (W:=W) (word_loop n esc next word) reported.
Proof.
  induction n as [|n IH]; intros; cbn [word_loop]; [apply sound_loop|].
  destruct (esc || negb (delimiter next)) eqn:Hd; [sound_tac|]. apply sound_ret.
  apply orb_false_iff in Hd as [_ Hd%negb_false_iff]. unfold reported. cbn.
  destruct word; cbn; [|done]. intros H. by apply int_of_nonzero in Hd.
Qed.

Lemma getNextWord_sound n word : sound (W:=W) (getNextWord n word) reported.
Proof. unfold getNextWord. sound_tac. apply word_loop_sound. Qed.

Lemma values_loop_sound n fuel maxNbr : forall i words, Forall (fun w => w <> []) words ->
  sound (W:=W) (values_loop n fuel i maxNbr words) (Forall (fun w => w <> [])).
Proof.
  induction n as [|n IH]; intros i words Hw; cbn [values_loop]; [apply sound_loop|].
  eapply sound_bind; [apply getNextWord_sound|]. intros [ret word] Hr. cbv zeta.
  assert (Forall (fun w => w <> []) (if ret =? 0 then words ++ [word] else words)).
  { destruct (Z.eqb_spec ret 0) as [->|]; [|done]. apply Forall_app. split; [done|].
    constructor; [by apply Hr|done]. }
  destruct ((ret =? 0) && (i + 1 <? maxNbr)); [by apply IH|by apply sound_ret].
Qed.

Lemma parseValues_sound n words maxNbr : Forall (fun w => w <> []) words ->
  sound (W:=W) (parseValues n words maxNbr) (Forall (fun w => w <> [])).
Proof. by apply values_loop_sound. Qed.

Lemma block_loop_sound n : forall esc quoted depth out,
  sound (W:=W) (block_loop n esc quoted depth out) (fun _ => True).
Proof. induction n as [|n IH]; intros; cbn [block_loop]; sound_tac. Qed.

Lemma getNextBlock_sound n : sound (W:=W) (getNextBlock n) (fun _ => True).
Proof. apply block_loop_sound. Qed.

Lemma block_tokens_sound {O} n fuel (h : str -> O -> P W O) (Q : O -> Prop) :
  (forall t o, Q o -> sound (h t o) Q) -> forall o, Q o -> sound (block_tokens n fuel h o) Q.
Proof.
  intros Hh. induction n as [|n IH]; intros o Ho; cbn [block_tokens]; [apply sound_loop|].
  eapply sound_bind; [apply getNextWord_sound|]. intros [ret word] _.
  destruct (ret =? 0).
  - eapply sound_bind; [by apply Hh|]. intros o' Ho'.
    eapply sound_any; [apply checkSemiColon_sound|]. intros [|]; [by apply IH|apply sound_throw].
  - destruct (ret =? -1); [by apply sound_ret|apply sound_throw].
Qed.
End lex_sound.
#[export] Hint Resolve mark_block_sound block_failed_sound getNextBlock_sound checkSemiColon_sound : sound.

(** ** Well-formed objects *)

(** A directory's path ends with a slash. *)
Definition dir_path (p : str) : Prop := last p = Some SLASH.

(** The bits of a mask are methods. *)
Definition method_mask (m : Z) : Prop := 0 <= m < 32.

Definition redirection_ok (l : Location) : Prop :=
  (loc_redir l = 0 /\ loc_addr_redir l = []) \/
  (loc_redir l ∈ [RES_MULTIPLE_CHOICE; RES_MOVED_PERMANENTLY; RES_FOUND; RES_SEE_OTHER;
                  RES_TEMPORARY_REDIRECT; RES_PERMANENT_REDIRECT] /\
   loc_addr_redir l <> [] /\ Forall (fun x => x <> []) (loc_addr_redir l)).

(** [started l]: holds while the block is read; [loc_wf l]: once it is checked. *)
Definition loc_started (l : Location) : Prop :=
  (loc_root l = [] \/ dir_path (loc_root l)) /\ method_mask (loc_methods l) /\
  (loc_upload_root l = [] \/ dir_path (loc_upload_root l)) /\ redirection_ok l.
Definition loc_wf (l : Location) : Prop := loc_started l /\ dir_path (loc_root l).

Definition cgi_started (c : CGIConfig) : Prop :=
  (cgi_root c = [] \/ dir_path (cgi_root c)) /\ method_mask (cgi_methods c).
Definition cgi_wf (c : CGIConfig) : Prop :=
  dir_path (cgi_root c) /\ method_mask (cgi_methods c) /\ cgi_extension c <> [].

Definition port_ok (p : str) : Prop := fst (getInt p 10 0) = 0.

Definition host_started (h : Host) : Prop :=
  Forall port_ok (h_ports h) /\ StronglySorted (fun a b => lex_ltb a b = true) (h_ports h) /\
  Forall (fun n => n <> []) (h_server_names h) /\
  om_sorted lex_ltb (h_locationMap h) /\ om_sorted lex_ltb (h_cgiMap h) /\
  (forall n l, getLocation n h = Some l -> loc_wf l) /\
  (forall n c, getCGIConfig n h = Some c -> cgi_wf c) /\
  h_clients h = [] /\ h_listenServers h = ∅.

(** What [checkHost] adds. *)
Definition host_wf (h : Host) : Prop :=
  host_started h /\ h_addr h <> [] /\ h_ports h <> [] /\ h_server_names h <> [] /\
  is_Some (getLocation (`s"*") h).

(** *** Values *)
Lemma set_insert_sorted x l :
  StronglySorted (fun a b => lex_ltb a b = true) l ->
  StronglySorted (fun a b => lex_ltb a b = true) (set_insert x l) /\
  (forall y, y ∈ set_insert x l <-> y = x \/ y ∈ l).
Proof.
  induction 1 as [|y l Hs IH Hy]; cbn [set_insert].
  { split; [by repeat constructor|intros z; apply elem_of_cons]. }
  destruct IH as [IH1 IH2]. destruct (lex_ltb y x) eqn:E1.
  { split; [|intros z; rewrite !elem_of_cons, IH2; tauto]. constructor; [done|]. apply Forall_forall. intros z [->|Hz]%IH2; [done|].
    by eapply Forall_forall in Hy. }
  destruct (lex_ltb x y) eqn:E2.
  { split; [|intros z; rewrite !elem_of_cons; tauto]. constructor; [by constructor|]. constructor; [done|].
    eapply Forall_impl; [exact Hy|]. intros z Hz. by eapply lex_trans. }
  assert (x = y) as <- by by apply lex_total. split; [by constructor|]. intros z. rewrite !elem_of_cons. tauto.
Qed.

Lemma getMethodIndex_spec m :
  getMethodIndex m < 0 \/ (0 <= getMethodIndex m < 5 /\ METHOD_STR !! Z.to_nat (getMethodIndex m) = Some m).
Proof.
  unfold getMethodIndex, METHOD_STR. cbn [index_of].
  repeat match goal with |- context [str_eqb ?a ?b] => destruct (str_eqb a b) eqn:?; idtac end;
    repeat match goal with H : str_eqb _ _ = true |- _ => apply str_eqb_eq in H as <- end;
    (left; done) || (right; split; [lia|done]).
Qed.

Lemma lor_bound a b n : 0 <= n -> 0 <= a < 2 ^ n -> 0 <= b < 2 ^ n -> 0 <= Z.lor a b < 2 ^ n.
Proof.
  intros Hn Ha Hb. assert (0 <= Z.lor a b) as Hp by (apply Z.lor_nonneg; lia). split; [done|].
  destruct (Z.eq_dec (Z.lor a b) 0) as [->|Hne]; [lia|].
  apply Z.log2_lt_pow2; [lia|]. rewrite Z.log2_lor by lia.
  destruct (Z.eq_dec n 0) as [->|]; [assert (a = 0 /\ b = 0) as [-> ->] by lia; done|].
  assert (forall x, 0 <= x < 2 ^ n -> Z.log2 x < n) as Hlog.
  { intros x Hx. destruct (Z.eq_dec x 0) as [->|]; [simpl; lia|]. apply Z.log2_lt_pow2; lia. }
  apply Z.max_lub_lt; by apply Hlog.
Qed.

Lemma methods_mask_range ms : forall d m, method_mask d -> methods_mask ms d = Some m -> method_mask m.
Proof.
  induction ms as [|x ms IH]; intros d m Hd; cbn [methods_mask]; cbv zeta; [by intros [= <-]|].
  destruct (Z.ltb_spec (getMethodIndex x) 0); [done|]. apply IH.
  destruct (getMethodIndex_spec x) as [?|[Hi _]]; [lia|]. unfold method_mask in *.
  assert (0 <= Z.shiftl 1 (getMethodIndex x) < 2 ^ 5) as Hs.
  { rewrite Z.shiftl_mul_pow2 by lia. split; [lia|]. rewrite Z.mul_1_l. apply Z.pow_lt_mono_r; lia. }
  apply (lor_bound _ _ 5); [lia|exact Hd|exact Hs].
Qed.

Lemma insert_ports_started ports : forall h h', host_started h -> insert_ports ports h = Some h' ->
  host_started h' /\ (h_ports h' <> [] \/ ports = []).
Proof.
  assert (forall ports h h', insert_ports ports h = Some h' -> h_ports h <> [] -> h_ports h' <> []) as Hne.
  { clear. induction ports as [|p ports IH]; intros h h'; cbn [insert_ports]; [by intros [= <-]|].
    destruct (negb _); [done|]. intros H _. apply IH in H; [done|]. cbn. destruct (h_ports h); cbn; [done|].
    destruct (lex_ltb _ p); [done|]. by destruct (lex_ltb p _). }
  induction ports as [|p ports IH]; intros h h' Hh; cbn [insert_ports]; [intros [= <-]; auto|].
  destruct (negb _) eqn:E; [done|]. intros H. split.
  - eapply IH; [|exact H]. destruct Hh as (H1 & H2 & Hr). apply (set_insert_sorted p) in H2 as [H2 H3].
    split_and!; [|exact H2|apply Hr..]. cbn. apply Forall_forall. intros q [->|Hq]%H3.
    + apply negb_false_iff, Z.eqb_eq in E. exact E.
    + by eapply Forall_forall in H1.
  - left. eapply Hne; [exact H|]. cbn. destruct (h_ports h); cbn; [done|].
    destruct (lex_ltb _ p); [done|]. by destruct (lex_ltb p _).
Qed.

(** *** The handlers *)
Section handlers.
Context {W : Type}.

Lemma parsePath_sound n dest id :
  sound (W:=W) (parsePath n dest id (Some SLASH)) dir_path.
Proof.
  unfold parsePath. eapply sound_bind; [apply getNextWord_sound|]. intros [ret d] Hd.
  destruct (Z.eqb_spec ret 0) as [->|]; cbn [negb]; [|apply sound_throw].
  specialize (Hd eq_refl). cbn in Hd. apply sound_ret. unfold dir_path.
  destruct (last d) as [c|] eqn:E; [|by apply last_None in E].
  destruct (Ascii.eqb_spec c SLASH) as [->|]; [done|]. by rewrite last_app.
Qed.

Lemma parsePath_any n dest id e : sound (W:=W) (parsePath n dest id e) (fun _ => True).
Proof.
  unfold parsePath. eapply sound_bind; [apply getNextWord_sound|]. intros [ret d] _. sound_tac.
Qed.

Lemma parseAllowedMethods_sound n : sound (W:=W) (parseAllowedMethods n) method_mask.
Proof.
  unfold parseAllowedMethods. eapply sound_bind; [by apply parseValues_sound|]. intros ms _.
  destruct (methods_mask ms 0) as [m|] eqn:E; [|apply sound_throw]. apply sound_ret.
  by apply methods_mask_range in E.
Qed.

Lemma parseBoolean_sound n id : sound (W:=W) (parseBoolean n id) (fun _ => True).
Proof. unfold parseBoolean. eapply sound_bind; [apply getNextWord_sound|]. intros [ret w] _. sound_tac. Qed.

Lemma parseUri_sound n dest id : sound (W:=W) (parseUri n dest id) (fun _ => True).
Proof. unfold parseUri. eapply sound_bind; [apply getNextWord_sound|]. intros [ret w] _. sound_tac. Qed.

Lemma valid_redirection_spec s : valid_redirection s = true ->
  s ∈ [RES_MULTIPLE_CHOICE; RES_MOVED_PERMANENTLY; RES_FOUND; RES_SEE_OTHER; RES_TEMPORARY_REDIRECT;
       RES_PERMANENT_REDIRECT].
Proof.
  unfold valid_redirection. rewrite negb_true_iff, !orb_false_iff, andb_false_iff, !Z.ltb_ge.
  intros [[H1 H2] H3]. rewrite !elem_of_cons.
  unfold RES_MULTIPLE_CHOICE, RES_MOVED_PERMANENTLY, RES_FOUND, RES_SEE_OTHER, RES_TEMPORARY_REDIRECT,
    RES_PERMANENT_REDIRECT. lia.
Qed.

Lemma parseRedirection_sound n l : loc_started l -> sound (W:=W) (parseRedirection n l) loc_started.
Proof.
  intros (Hr & Hm & Hu & Hredir). unfold parseRedirection.
  eapply sound_bind; [by apply parseValues_sound|]. intros values Hv.
  destruct values as [|v [|t ts]]; [apply sound_throw..|].
  destruct (getInt v 10 0) as [err status]. destruct (_ || _) eqn:E; [apply sound_throw|].
  apply orb_false_iff in E as [_ E%negb_false_iff]. apply sound_ret. split_and!; [done..|].
  right. cbn. split_and!; [by apply valid_redirection_spec| |].
  - by destruct (loc_addr_redir l).
  - apply Forall_app. inversion_clear Hv. split; [|done].
    destruct Hredir as [[_ ->]|(_ & _ & ?)]; [constructor|done].
Qed.

Lemma handleLocationToken_sound n t l : loc_started l -> sound (W:=W) (handleLocationToken n t l) loc_started.
Proof.
  intros Hl. pose proof Hl as (Hr & Hm & Hu & Hredir). unfold handleLocationToken.
  destruct (str_eqb t (`s"root")).
  { eapply sound_bind; [apply parsePath_sound|]. intros v Hv. apply sound_ret. split_and!; [by right|done..]. }
  destruct (str_eqb t (`s"methods")).
  { eapply sound_bind; [apply parseAllowedMethods_sound|]. intros v Hv. apply sound_ret. by split_and!. }
  destruct (str_eqb t (`s"dir_listing")).
  { eapply sound_bind; [apply parseBoolean_sound|]. intros v _. apply sound_ret. by split_and!. }
  destruct (str_eqb t (`s"upload")).
  { eapply sound_bind; [apply parseBoolean_sound|]. intros v _. apply sound_ret. by split_and!. }
  destruct (str_eqb t (`s"default_uri")).
  { eapply sound_bind; [apply parseUri_sound|]. intros v _. apply sound_ret. by split_and!. }
  destruct (str_eqb t (`s"upload_root")).
  { eapply sound_bind; [apply parsePath_sound|]. intros v Hv. apply sound_ret. split_and!; [done..|by right|done]. }
  destruct (str_eqb t (`s"return")); [by apply parseRedirection_sound|apply sound_throw].
Qed.

Lemma handleCGIConfigToken_sound n t c : cgi_started c -> sound (W:=W) (handleCGIConfigToken n t c) cgi_started.
Proof.
  intros [Hr Hm]. unfold handleCGIConfigToken.
  destruct (str_eqb t (`s"root")).
  { eapply sound_bind; [apply parsePath_sound|]. intros v Hv. apply sound_ret. split; [by right|done]. }
  destruct (str_eqb t (`s"methods")).
  { eapply sound_bind; [apply parseAllowedMethods_sound|]. intros v Hv. by apply sound_ret. }
  destruct (str_eqb t (`s"exec")).
  { eapply sound_bind; [apply parsePath_any|]. intros v _. by apply sound_ret. }
  destruct (str_eqb t (`s"identifier")); [|apply sound_throw].
  unfold parseExtension. eapply sound_bind; [|intros v _; by apply sound_ret].
  eapply sound_bind; [apply getNextWord_sound|]. intros [ret w] _. sound_tac.
Qed.

Lemma assign_names_Forall {T} (Q : T -> Prop) names l (m : list (str * T)) n v :
  (forall n l, om_find lex_ltb n m = Some l -> Q l) -> Q l ->
  om_find lex_ltb n (assign_names names l m) = Some v -> Q v.
Proof.
  intros Hm Hl. rewrite assign_names_find. case_bool_decide; [by intros [= <-]|by apply Hm].
Qed.

Lemma assign_names_sorted {T} names (x : T) m :
  om_sorted lex_ltb m -> om_sorted lex_ltb (assign_names names x m).
Proof.
  unfold assign_names. revert m. induction names as [|n names IH]; intros m Hm; [done|]. cbn [fold_left].
  apply IH. unfold om_assign. apply om_update_sorted; [apply _|done].
Qed.

Lemma host_addLocation_sound names l h :
  loc_wf l -> host_started h -> sound (W:=W) (host_addLocation names l h) host_started.
Proof.
  intros Hl Hh g s. unfold host_addLocation, addLocation.
  pose proof (pool_add_spec Location_eqb l (c_locations g) Location_eqb_eq) as Hp.
  destruct (pool_add _ l _) as [pool pos]. destruct Hp as (Hx & _). cbn in Hx. subst pos. split; [|done].
  destruct Hh as (H1 & H2 & H3 & H4 & H5 & H6 & H7 & H8 & H9). split_and!; try done.
  - by apply assign_names_sorted.
  - intros n v Hv. eapply (assign_names_Forall loc_wf); [exact H6|exact Hl|exact Hv].
Qed.

Lemma host_addCGIConfig_sound names c h :
  cgi_wf c -> host_started h -> sound (W:=W) (host_addCGIConfig names c h) host_started.
Proof.
  intros Hc Hh g s. unfold host_addCGIConfig, addCGIConfig.
  pose proof (pool_add_spec CGIConfig_eqb c (c_cgis g) CGIConfig_eqb_eq) as Hp.
  destruct (pool_add _ c _) as [pool pos]. destruct Hp as (Hx & _). cbn in Hx. subst pos. split; [|done].
  destruct Hh as (H1 & H2 & H3 & H4 & H5 & H6 & H7 & H8 & H9). split_and!; try done.
  - by apply assign_names_sorted.
  - intros n v Hv. eapply (assign_names_Forall cgi_wf); [exact H7|exact Hc|exact Hv].
Qed.

Lemma Location_init_started : loc_started Location_init.
Proof. split_and!; [by left|done..| |by left]. by left. Qed.

Lemma CGIConfig_init_started : cgi_started CGIConfig_init.
Proof. by split; [left|]. Qed.

Lemma parseLocation_sound n h : host_started h -> sound (W:=W) (parseLocation n h) host_started.
Proof.
  intros Hh. unfold parseLocation.
  eapply sound_any; [eapply sound_mono; [by apply parseValues_sound|done]|]. intros names.
  eapply sound_any; [apply mark_block_sound|]. intros _.
  eapply sound_any; [apply getNextBlock_sound|]. intros text.
  apply sound_try; [apply sound_with_stream|eapply sound_any; [apply block_failed_sound|intros _; by apply sound_ret]].
  eapply sound_bind.
  { apply block_tokens_sound; [intros; by apply handleLocationToken_sound|apply Location_init_started]. }
  intros l Hl. eapply sound_bind with (Q := fun _ => loc_wf l).
  - unfold checkLocation. destruct (str_eqb _ _) eqn:E; [apply sound_throw|]. apply sound_ret. split; [done|].
    destruct Hl as ([Hl|Hl] & _); [|done]. by rewrite Hl in E.
  - intros _ Hwf. by apply host_addLocation_sound.
Qed.

Lemma parseCGIConfig_sound n h : host_started h -> sound (W:=W) (parseCGIConfig n h) host_started.
Proof.
  intros Hh. unfold parseCGIConfig.
  eapply sound_any; [eapply sound_mono; [by apply parseValues_sound|done]|]. intros names.
  eapply sound_any; [apply mark_block_sound|]. intros _.
  eapply sound_any; [apply getNextBlock_sound|]. intros text.
  apply sound_try; [apply sound_with_stream|eapply sound_any; [apply block_failed_sound|intros _; by apply sound_ret]].
  eapply sound_bind.
  { apply block_tokens_sound; [intros; by apply handleCGIConfigToken_sound|apply CGIConfig_init_started]. }
  intros c Hc. eapply sound_bind with (Q := fun _ => cgi_wf c).
  - unfold checkCGIConfig. destruct (str_eqb (cgi_root c) []) eqn:E; [apply sound_throw|].
    destruct (str_eqb (cgi_extension c) []) eqn:E2; [apply sound_throw|]. apply sound_ret.
    destruct Hc as [[Hl|Hl] ?]; [by rewrite Hl in E|]. split_and!; [done..|]. intros Hx. by rewrite Hx in E2.
  - intros _ Hwf. by apply host_addCGIConfig_sound.
Qed.

Lemma handleHostToken_sound n t h : host_started h -> sound (W:=W) (handleHostToken n t h) host_started.
Proof.
  intros Hh. unfold handleHostToken.
  destruct (str_eqb t (`s"listen")).
  { unfold parsePorts. eapply sound_any; [eapply sound_mono; [by apply parseValues_sound|done]|]. intros ports.
    destruct ports as [|p ports]; [apply sound_throw|]. destruct (insert_ports _ _) as [h'|] eqn:E; [|apply sound_throw].
    apply sound_ret. by eapply insert_ports_started. }
  destruct (str_eqb t (`s"host")).
  { unfold parseHostName. eapply sound_bind; [apply getNextWord_sound|]. intros [ret w] _.
    destruct (negb _); [apply sound_throw|by apply sound_ret]. }
  destruct (str_eqb t (`s"server_name")).
  { unfold parseServerName. destruct Hh as (H1 & H2 & H3 & Hr).
    eapply sound_bind; [by apply parseValues_sound|]. intros names Hn.
    destruct names; [apply sound_throw|]. by apply sound_ret. }
  destruct (str_eqb t (`s"error_pages")).
  { eapply sound_any; [apply parsePath_any|]. intros v. by apply sound_ret. }
  destruct (str_eqb t (`s"body_max_size")).
  { unfold parseBodyMaxSize. eapply sound_bind; [apply getNextWord_sound|]. intros [ret w] _.
    destruct (negb _); [apply sound_throw|]. destruct (getInt _ _ _). destruct (negb _); [apply sound_throw|by apply sound_ret]. }
  destruct (str_eqb t (`s"location")); [by apply parseLocation_sound|].
  destruct (str_eqb t (`s"cgi")); [by apply parseCGIConfig_sound|apply sound_throw].
Qed.

Lemma Host_init_started : host_started Host_init.
Proof. split_and!; try done; constructor. Qed.
End handlers.

(** *** Registration *)
Section registration.
Context {W : Type} `{!Registry W}.

Lemma checkHost_sound h :
  host_started h ->
  forall g s, match checkHost h g s with
    | POk h' g' _ => host_wf h' /\ untouched g g' /\
        reg_checkServerNames (h_addr h') (h_ports h') (h_server_names h') (c_world g') = true
    | PErr _ g' => untouched g g'
    | PLoop => True
    end.
Proof.
  intros Hh g s. unfold checkHost.
  destruct (str_eqb (h_addr h) []) eqn:E1; [done|].
  destruct (Nat.eqb_spec (length (h_ports h)) 0) as [?|E2]; [done|].
  unfold mbind, P_bind, gets. cbv beta iota zeta.
  set (h1 := default_pages (c_default_error_pages g) h).
  assert (host_started h1 /\ h_addr h1 = h_addr h /\ h_ports h1 = h_ports h /\ h_server_names h1 = h_server_names h)
    as (Hs & Ha & Hp & Hn) by (unfold h1, default_pages; by destruct (str_eqb (h_dir_errors h) [])).
  destruct (Nat.eqb_spec (length (h_server_names h1)) 0) as [?|E3]; [done|].
  case_bool_decide as E4; [|done]. cbn [negb].
  destruct (reg_checkServerNames _ _ _ _) eqn:E5; [|done].
  split; [split; [exact Hs|split_and!; [| | |exact E4]]|split; [done|exact E5]].
  - intros Hx. rewrite Ha in Hx. by rewrite Hx in E1.
  - rewrite Hp. intros Hx. by rewrite Hx in E2.
  - intros Hx. by rewrite Hx in E3.
Qed.

(** The registered hosts after a step: the old ones, and well-formed new ones
    under their own names, which were free. *)
Definition registered (w w' : W) : Prop :=
  reg_ok w -> reg_ok w' /\
  (forall a p n h, reg_resolve a p n w = Some h -> reg_resolve a p n w' = Some h) /\
  (forall a p n h, reg_resolve a p n w = None -> reg_resolve a p n w' = Some h ->
     host_wf h /\ a = h_addr h /\ p ∈ h_ports h /\ n ∈ h_server_names h).

Lemma registered_refl w : registered w w.
Proof. intros Hok. split_and!; [done..|]. intros. congruence. Qed.

Lemma registered_trans w1 w2 w3 : registered w1 w2 -> registered w2 w3 -> registered w1 w3.
Proof.
  intros H1 H2 Hok. destruct (H1 Hok) as (Hok2 & Hk1 & Hn1). destruct (H2 Hok2) as (Hok3 & Hk2 & Hn2).
  split_and!; [done|auto|]. intros a p n h Hnone Hs.
  destruct (reg_resolve a p n w2) as [h2|] eqn:E; [|by apply Hn2].
  apply Hk2 in E as E'. assert (h2 = h) as -> by congruence. by apply Hn1.
Qed.

Lemma config_of_wf h : host_wf h -> host_wf (config_of h).
Proof. intros ((H1 & H2 & H3 & H4 & H5 & H6 & H7 & H8 & H9) & ?). split; [|done]. by split_and!. Qed.

Lemma host_addHost_registered h g s :
  host_wf h -> reg_checkServerNames (h_addr h) (h_ports h) (h_server_names h) (c_world g) = true ->
  match host_addHost h g s with
  | POk _ g' _ | PErr _ g' => registered (c_world g) (c_world g')
  | PLoop => True
  end.
Proof.
  intros Hh Hcheck. unfold host_addHost. destruct (reg_addHost h (c_world g)) as [b w'] eqn:E.
  assert (registered (c_world g) w') as Hr.
  { intros Hok. pose proof Hh as ((_ & _ & _ & _ & _ & _ & _ & Hcl & Hls) & _ & _ & Hnames & _).
    split_and!; [by eapply reg_add_ok|intros; by eapply reg_add_keeps|].
    intros a p n h' Hnone Hs. destruct (reg_add_new _ _ _ _ _ _ _ _ Hok E Hnone Hs) as (-> & Hp & Hn & ->).
    split_and!; [by apply config_of_wf|done..]. }
  by destruct b.
Qed.

Definition step_registered {A} (m : P W A) : Prop := forall g s,
  match m g s with POk _ g' _ | PErr _ g' => registered (c_world g) (c_world g') | PLoop => True end.

Lemma sound_registered {A} (m : P W A) Q : sound m Q -> step_registered m.
Proof.
  intros H g s. specialize (H g s). destruct (m g s) as [a g' s'|e g'|]; [destruct H as [_ [-> _]]|destruct H as [-> _]|done];
    apply registered_refl.
Qed.

Lemma step_registered_bind {A B} (m : P W A) (k : A -> P W B) :
  step_registered m -> (forall a, step_registered (k a)) -> step_registered (mbind k m).
Proof.
  intros Hm Hk g s. unfold mbind, P_bind. specialize (Hm g s). destruct (m g s) as [a g' s'|e g'|]; [|done..].
  specialize (Hk a g' s'). destruct (k a g' s'); [|by eapply registered_trans..|done]. by eapply registered_trans.
Qed.

Lemma parseHost_registered n : step_registered (parseHost n).
Proof.
  unfold parseHost. apply step_registered_bind; [eapply sound_registered, mark_block_sound|]. intros _.
  apply step_registered_bind; [eapply sound_registered, getNextBlock_sound|]. intros text g s.
  unfold try_config, with_stream, mbind, P_bind.
  pose proof (block_tokens_sound (W:=W) n n (handleHostToken n) host_started
    (fun t o => handleHostToken_sound n t o) Host_init Host_init_started g (open_stream text)) as Hb.
  unfold parseBlock. destruct (block_tokens n n _ _ _ _) as [h g1 s1|e g1|]; [| |done].
  2:{ destruct Hb as [Hw _]. destruct (is_config_exn e); cbn; rewrite Hw; apply registered_refl. }
  destruct Hb as [Hh [Hw _]]. pose proof (checkHost_sound h Hh g1 s1) as Hc.
  destruct (checkHost h g1 s1) as [h2 g2 s2|e g2|]; [| |done].
  2:{ destruct Hc as [Hc _]. destruct (is_config_exn e); cbn; rewrite Hc, Hw; apply registered_refl. }
  destruct Hc as (Hwf & [Hw2 _] & Hcheck). pose proof (host_addHost_registered h2 g2 s2 Hwf Hcheck) as Ha.
  rewrite Hw2, Hw in Ha. destruct (host_addHost h2 g2 s2) as [u g3 s3|e g3|]; [done| |done].
  by destruct (is_config_exn e).
Qed.

Lemma handleConfigToken_registered n t u : step_registered (handleConfigToken n t u).
Proof.
  unfold handleConfigToken. destruct (str_eqb t (`s"server")); [apply parseHost_registered|].
  destruct (str_eqb t (`s"default_error_pages")); [|intros g s; apply registered_refl].
  intros g s. unfold parseDefaultErrorPages.
  pose proof (parsePath_any (W:=W) n [] (Some (`s"default error page location")) None g s) as H.
  destruct (parsePath _ _ _ _ g s) as [v g' s'|e g'|]; [destruct H as [_ [H _]]|destruct H as [H _]|done];
    cbn; rewrite H; apply registered_refl.
Qed.

Lemma block_tokens_registered {O} k n (h : str -> O -> P W O) :
  (forall t o, step_registered (h t o)) -> forall o, step_registered (block_tokens k n h o).
Proof.
  intros Hh. induction k as [|k IH]; intros o; cbn [block_tokens]; [by intros g s|].
  apply step_registered_bind; [eapply sound_registered, getNextWord_sound|]. intros [ret w].
  destruct (ret =? 0).
  - apply step_registered_bind; [apply Hh|]. intros o'.
    apply step_registered_bind; [eapply sound_registered, checkSemiColon_sound|]. intros [|]; [apply IH|].
    intros g s. apply registered_refl.
  - destruct (ret =? -1); intros g s; apply registered_refl.
Qed.

Lemma finish_registered : step_registered finish.
Proof.
  intros g s. unfold finish, mbind, P_bind, gets. cbv beta iota.
  destruct (str_eqb (c_default_error_pages g) []); apply registered_refl.
Qed.

Lemma parseConfigText_registered n : step_registered (parseConfigText n).
Proof.
  intros g s. unfold parseConfigText.
  pose proof (block_tokens_registered n n (handleConfigToken n) (handleConfigToken_registered n) tt g s) as H.
  destruct (block_tokens n n _ tt g s) as [u g' s'|e g'|]; [| |done].
  - pose proof (finish_registered g' s') as Hf. destruct (finish g' s'); [|by eapply registered_trans..|done].
    by eapply registered_trans.
  - pose proof (finish_registered g' s) as Hf.
    destruct e; try exact H; destruct (finish g' s); try done; by eapply registered_trans.
Qed.
End registration.
