(* ===== verification/ConfigProps.v ===== *)
(** * ConfigProps: the theorems about the configuration parser

    Registered hosts are well formed and route every request; more fuel never
    changes a result; the masks of allowed methods; the exception nobody
    catches; the loop the parser does not leave. *)

From S2P Require Import Prelude CxxString OrdMap Format Http RequestHeaders RequestUri Host Response ConfigLex ConfigLexFacts Config Listen ListenFacts Registration ConfigFacts.
#[local] Open Scope Z_scope.

Definition demo_network : network :=
  mkNetwork (fun _ _ => true) (fun _ _ => 5) (fun _ p => negb (str_eqb p (`s"1"))) (fun _ _ => true).

Definition demo_config : str :=
  `s"default_error_pages err/; server { listen 80 81; host 0.0.0.0; server_name a b; location * { root www; return 301 /x; methods GET POST; }; };".

Definition config_fs (text : str) : filesystem :=
  mkFilesystem (fun _ => Some RegularFile) (fun _ _ => true) (fun _ => 0) (fun _ => Some text) (fun _ => None).

(** ** Registration *)
Section registry.
Context {W : Type} `{!Registry W}.

Lemma parseConfigFile_step fuel fs path w :
  match parseConfigFile fuel fs path w with
  | POk _ g _ | PErr _ g => registered w (c_world g)
  | PLoop => True
  end.
Proof.
  unfold parseConfigFile. destruct (openFile fs path) as [text|]; [|by apply registered_refl].
  exact (parseConfigText_registered fuel (cfg_init w) (open_stream text)).
Qed.

(** C15: Whatever the file holds and however the parsing ends, hosts that were
    registered keep their names, and every host that was added is well formed
    and answers to its own address, ports and names only. *)
Theorem parseConfigFile_registers fuel fs path w :
  reg_ok w ->
  match parseConfigFile fuel fs path w with
  | POk _ g _ | PErr _ g =>
      reg_ok (c_world g) /\
      (forall a p n h, reg_resolve a p n w = Some h -> reg_resolve a p n (c_world g) = Some h) /\
      (forall a p n h, reg_resolve a p n w = None -> reg_resolve a p n (c_world g) = Some h ->
         host_wf h /\ a = h_addr h /\ p ∈ h_ports h /\ n ∈ h_server_names h)
  | PLoop => True
  end.
Proof.
  intros Hok. pose proof (parseConfigFile_step fuel fs path w) as H.
  by destruct (parseConfigFile fuel fs path w); [apply H..|].
Qed.

Lemma parseConfigFile_registered fuel fs path w r g s :
  parseConfigFile fuel fs path w = POk r g s -> registered w (c_world g).
Proof. intros E. pose proof (parseConfigFile_step fuel fs path w) as H. by rewrite E in H. Qed.

Lemma wf_location h uri : host_wf h -> exists l, matchLocation uri h = Some l /\ loc_wf l.
Proof.
  intros (Hs & _ & _ & _ & [l0 Hl0]). destruct Hs as (_ & _ & _ & Hsort & _ & Hwf & _).
  unfold getLocation, getMapObjectByKey in Hl0, Hwf.
  apply om_find_Some in Hl0 as (k & Hin & Hk); [|apply _|done]. apply lex_equiv in Hk as ->.
  destruct (getObjectMatch_star uri _ _ Hin) as [l Hl]. exists l. split; [exact Hl|].
  pose proof (getObjectMatch_spec uri (h_locationMap h)) as Hm. rewrite Hl in Hm. destruct Hm as (k & Hkl & _).
  apply (Hwf k). apply om_find_Some; [apply _|done|]. exists k. split; [done|]. by apply lex_equiv.
Qed.

(** C26: Every host the parser registers finds a location for every path, and that
    location is sound: a root that ends with a slash, a mask of known methods,
    and a redirection with a status the responses support and targets that are
    not empty, or none. *)
Theorem registered_hosts_route fuel fs path w g s r a p n h uri :
  reg_ok w -> (forall a p n, reg_resolve a p n w = None) ->
  parseConfigFile fuel fs path w = POk r g s -> reg_resolve a p n (c_world g) = Some h ->
  exists l, matchLocation uri h = Some l /\ dir_path (loc_root l) /\ method_mask (loc_methods l) /\ redirection_ok l.
Proof.
  intros Hok Hnone E Hs.
  destruct (parseConfigFile_registered _ _ _ _ _ _ _ E Hok) as (_ & _ & Hnew). destruct (Hnew _ _ _ _ (Hnone a p n) Hs) as [Hwf _].
  destruct (wf_location h uri Hwf) as (l & Hl & (_ & Hm & _ & Hred) & Hroot). exists l. by split_and!.
Qed.
End registry.

Lemma parseConfigFile_registers_witness :
  let r := listen_registry demo_network in
  reg_ok world_init /\
  match parseConfigFile 300 (config_fs demo_config) (Some (`s"f")) world_init with
  | POk _ g _ | PErr _ g =>
      reg_ok (c_world g) /\
      (forall a p n h, reg_resolve a p n world_init = Some h -> reg_resolve a p n (c_world g) = Some h) /\
      (forall a p n h, reg_resolve a p n world_init = None -> reg_resolve a p n (c_world g) = Some h ->
         host_wf h /\ a = h_addr h /\ p ∈ h_ports h /\ n ∈ h_server_names h)
  | PLoop => True
  end.
Proof.
  split; [exact world_init_ready|].
  apply (@parseConfigFile_registers world (listen_registry demo_network) 300 (config_fs demo_config)
    (Some (`s"f")) world_init). exact world_init_ready.
Defined.

(** The state after [demo_config] was read. *)
Definition demo_parsed : pres world Z :=
  @parseConfigFile world (listen_registry demo_network) 300 (config_fs demo_config) (Some (`s"f")) world_init.
Definition demo_cfg : cfg world :=
  Eval vm_compute in match demo_parsed with POk _ g _ => g | _ => cfg_init world_init end.
Definition demo_stream : istream :=
  Eval vm_compute in match demo_parsed with POk _ _ s => s | _ => open_stream [] end.
Definition demo_parsed_host : Host :=
  Eval vm_compute in default Host_init (resolve (`s"0.0.0.0") (`s"81") (`s"b") (c_world demo_cfg)).

Lemma demo_parsed_eq :
  @parseConfigFile world (listen_registry demo_network) 300 (config_fs demo_config) (Some (`s"f")) world_init =
  POk 0 demo_cfg demo_stream.
Proof. vm_compute. reflexivity. Qed.

Lemma demo_parsed_host_eq : resolve (`s"0.0.0.0") (`s"81") (`s"b") (c_world demo_cfg) = Some demo_parsed_host.
Proof. vm_compute. reflexivity. Qed.

Lemma registered_hosts_route_witness :
  exists l, matchLocation (`s"/any") demo_parsed_host = Some l /\ dir_path (loc_root l) /\
    method_mask (loc_methods l) /\ redirection_ok l.
Proof.
  apply (@registered_hosts_route world (listen_registry demo_network) 300 (config_fs demo_config) (Some (`s"f"))
    world_init demo_cfg demo_stream 0 (`s"0.0.0.0") (`s"81") (`s"b") demo_parsed_host (`s"/any")).
  - exact world_init_ready.
  - intros a p n. reflexivity.
  - exact demo_parsed_eq.
  - exact demo_parsed_host_eq.
Defined.

(** ** Fuel *)

(** A result the parser reaches with some fuel is its result with any more: the
    fuel of the model is a bound on the steps and decides nothing. *)
Theorem parseConfigText_fuel {W} `{!Registry W} n m (g : cfg W) s :
  (n <= m)%nat -> parseConfigText n g s <> PLoop -> parseConfigText m g s = parseConfigText n g s.
Proof. intros H Hn. by destruct (parseConfigText_below n m H g s). Qed.

Lemma parseConfigText_fuel_witness :
  let r := listen_registry demo_network in
  parseConfigText 1000 (cfg_init world_init) (open_stream demo_config) =
  parseConfigText 300 (cfg_init world_init) (open_stream demo_config).
Proof.
  apply (@parseConfigText_fuel world (listen_registry demo_network)); [lia|]. vm_compute. discriminate.
Defined.

(** ** Methods *)
Lemma testbit_one n : Z.testbit 1 n = (n =? 0).
Proof.
  destruct (Z.eqb_spec n 0) as [->|Hne]; [done|]. destruct (Z.ltb_spec n 0); [by apply Z.testbit_neg_r|].
  apply Z.bits_above_log2; [done|]. change (Z.log2 1) with 0. lia.
Qed.

Lemma methods_mask_bits ms : forall d m i,
  0 <= i -> methods_mask ms d = Some m ->
  Z.testbit m i = Z.testbit d i || existsb (fun x => getMethodIndex x =? i) ms.
Proof.
  induction ms as [|x ms IH]; intros d m i Hi; cbn [methods_mask existsb]; cbv zeta.
  { intros [= <-]. by rewrite orb_false_r. }
  destruct (Z.ltb_spec (getMethodIndex x) 0) as [|Hx]; [done|]. intros H%(IH _ _ i Hi). rewrite H.
  rewrite Z.lor_spec, Z.shiftl_spec, orb_assoc by done. f_equal. f_equal.
  destruct (Z.eqb_spec (getMethodIndex x) i) as [->|Hne].
  - rewrite Z.sub_diag. done.
  - rewrite testbit_one. apply Z.eqb_neq. lia.
Qed.

Lemma method_allowed_testbit m i : 0 <= i -> method_allowed m i = Z.testbit m i.
Proof.
  intros Hi. unfold method_allowed. destruct (Z.testbit m i) eqn:E.
  - apply negb_true_iff, Z.eqb_neq. intros H0.
    assert (Z.testbit (Z.land m (Z.shiftl 1 i)) i = true); [|by rewrite H0, Z.bits_0 in *].
    rewrite Z.land_spec, E, Z.shiftl_spec, Z.sub_diag by done. done.
  - apply negb_false_iff, Z.eqb_eq. apply Z.bits_inj'. intros n Hn.
    rewrite Z.land_spec, Z.bits_0, Z.shiftl_spec by done.
    destruct (Z.eq_dec n i) as [->|]; [by rewrite E|].
    rewrite testbit_one, (proj2 (Z.eqb_neq (n - i) 0)) by lia. apply andb_false_r.
Qed.

(** The mask of a list of methods allows exactly the methods of the list, and
    there is a mask exactly when every name is a method's. *)
Theorem methods_mask_correct ms :
  match methods_mask ms 0 with
  | Some m => method_mask m /\ forall i name, METHOD_STR !! Z.to_nat i = Some name -> 0 <= i ->
      (method_allowed m i = true <-> name ∈ ms)
  | None => exists name, name ∈ ms /\ name ∉ METHOD_STR
  end.
Proof.
  destruct (methods_mask ms 0) as [m|] eqn:E.
  - split; [by apply methods_mask_range in E|]. intros i name Hn Hi.
    rewrite method_allowed_testbit, (methods_mask_bits _ _ _ _ Hi E), Z.bits_0 by done. cbn [orb].
    rewrite existsb_exists. split.
    + intros (x & Hx & He%Z.eqb_eq). apply list_elem_of_In in Hx.
      destruct (getMethodIndex_spec x) as [?|[_ Hx']]; [lia|]. rewrite He in Hx'. congruence.
    + intros Hin. exists name. split; [by apply list_elem_of_In|]. apply Z.eqb_eq.
      assert (exists k, (k < 5)%nat /\ Z.to_nat i = k) as (k & Hk & Hik).
      { exists (Z.to_nat i). split; [|done]. by apply lookup_lt_Some in Hn. }
      rewrite Hik in Hn. replace i with (Z.of_nat k) by lia. clear Hin E.
      destruct k as [|[|[|[|[|]]]]]; [..|lia]; injection Hn as <-; reflexivity.
  - assert (forall d, methods_mask ms d = None -> exists name, name ∈ ms /\ name ∉ METHOD_STR) as H; [|by eapply H].
    clear E. induction ms as [|x ms IH]; intros d; cbn [methods_mask]; cbv zeta; [done|].
    destruct (Z.ltb_spec (getMethodIndex x) 0) as [Hx|Hx].
    + intros _. exists x. split; [by left|]. intros Hin.
      repeat (apply elem_of_cons in Hin as [->|Hin]; [by vm_compute in Hx|]). by apply elem_of_nil in Hin.
    + intros (name & ? & ?)%IH. exists name. split; [by right|done].
Qed.

(** ** Missing values *)

(** Decides the comparisons of two known tokens. *)
Ltac eval_tokens :=
  repeat match goal with
  | |- context [str_eqb ?a ?b] => let r := eval vm_compute in (str_eqb a b) in change (str_eqb a b) with r
  end; cbv iota.

(** A directive whose value is missing and that has no name for the message
    ([dir_listing], [upload], [default_uri] here) throws [std::logic_error],
    which no handler of the parser catches, instead of the parser's own
    exception: the error of one block ends the server. *)
Theorem missing_value_uncaught {W} fuel tok l sp c t s (g : cfg W) :
  at_text s (sp ++ c :: t) -> blanks sp -> stopper c = true -> (length sp < fuel)%nat ->
  tok ∈ [`s"dir_listing"; `s"upload"; `s"default_uri"] -> loc_default_uri l = [] ->
  exists g', handleLocationToken fuel tok l g s = PErr logic_error g' /\
    forall handler, try_config (handleLocationToken fuel tok l) handler g s = PErr logic_error g'.
Proof.
  intros Ht Hsp Hc Hf Htok Hl.
  destruct (reads_getNextWord_stop (W:=W) fuel sp c t s Ht Hsp Hc Hf g) as (g' & Hw & _).
  assert ((int_of c =? 0) = false) as Hz.
  { apply Z.eqb_neq, int_of_nonzero. by apply stopper_delimiter. }
  assert (handleLocationToken fuel tok l g s = PErr logic_error g') as E; [|exists g'; split; [done|]].
  { repeat (apply elem_of_cons in Htok as [->|Htok]); [..|by apply elem_of_nil in Htok];
      unfold handleLocationToken, parseBoolean, parseUri; eval_tokens;
      unfold mbind, P_bind; rewrite ?Hl, Hw; cbv beta iota; rewrite Hz; reflexivity. }
  intros handler. unfold try_config. by rewrite E.
Qed.

Lemma missing_value_uncaught_witness :
  exists g', handleLocationToken 9 (`s"upload") Location_init (cfg_init tt) (open_stream (`s" ; root /; ")) = PErr logic_error g' /\
    forall handler, try_config (handleLocationToken 9 (`s"upload") Location_init) handler (cfg_init tt)
      (open_stream (`s" ; root /; ")) = PErr logic_error g'.
Proof.
  apply (missing_value_uncaught 9 (`s"upload") Location_init [SPACE] SEMICOLON (`s" root /; ")).
  - apply at_text_open.
  - repeat constructor.
  - reflexivity.
  - cbn. lia.
  - apply (bool_decide_unpack _). vm_compute. exact I.
  - reflexivity.
Defined.

(** ** The loop that does not end *)

(** A file that ends with the word [server] right after a block, without a new
    line. *)
Definition stale_config : str := `s"server { bad x; };server".
Definition stale_line : str := drop 6 stale_config.
Definition stale_stream : istream := mkIstream stale_config 18 false false.

(** One turn of the loop: [inr] when the file is read. *)
Definition turn {W O} (fuel : nat) (h : str -> O -> P W O) (obj : O) : P W (O + O) :=
  '(ret, token) ← getNextWord fuel [];
  if ret =? 0 then
    obj ← h token obj;
    semi ← checkSemiColon fuel;
    if (semi : bool) then mret (inl obj) else throw MissingSemicolonException
  else if ret =? -1 then mret (inr obj)
  else throw (UnexpectedTokenException token).

Lemma block_tokens_turn {W O} n fuel (h : str -> O -> P W O) obj g s :
  block_tokens (S n) fuel h obj g s =
  match turn fuel h obj g s with
  | POk (inl obj) g s => block_tokens n fuel h obj g s
  | POk (inr obj) g s => POk obj g s
  | PErr e g => PErr e g
  | PLoop => PLoop
  end.
Proof.
  cbn [block_tokens]. unfold turn, mbind, P_bind.
  destruct (getNextWord fuel [] g s) as [[ret w] g1 s1| |]; [|done..].
  destruct (ret =? 0); [|by destruct (ret =? -1)].
  destruct (h w obj g1 s1) as [o g2 s2| |]; [|done..].
  destruct (checkSemiColon fuel g2 s2) as [[|] g3 s3| |]; done.
Qed.

Section stale.
Context {W : Type} `{!Registry W}.

Definition stale_cfg (l e : Z) (pages : str) (err : bool) ls cs (w : W) : cfg W :=
  mkCfg l e stale_line pages err ls cs w.

Lemma turn_below {O} n m (h h' : str -> O -> P W O) obj :
  (n <= m)%nat -> (forall t o, below (h t o) (h' t o)) -> below (turn n h obj) (turn m h' obj).
Proof. intros. unfold turn. below_tac. Qed.

(** With enough fuel for the words, a turn is the one computed with little. *)
Lemma turn_enough n m g s r g' s' :
  (n <= m)%nat -> turn n (handleConfigToken n) tt g s = POk r g' s' ->
  turn m (handleConfigToken m) tt g s = POk r g' s'.
Proof.
  intros H E. destruct (turn_below n m (handleConfigToken n) (handleConfigToken m) tt H
    (fun t o => handleConfigToken_below n m t o H) g s); congruence.
Qed.

(** From just after the block the parser comes back to just after the block. *)
Lemma stale_turn l e pages err ls cs w :
  turn 60 (handleConfigToken 60) tt (stale_cfg l e pages err ls cs w) stale_stream =
  POk (inl tt) (stale_cfg (l + 1 - 1) (l + 1 - 1) pages true ls cs w) stale_stream.
Proof. vm_compute. reflexivity. Qed.

Lemma stale_first w :
  turn 60 (handleConfigToken 60) tt (cfg_init w) (open_stream stale_config) =
  POk (inl tt) (stale_cfg 1 1 [] true [] [] w) stale_stream.
Proof. vm_compute. reflexivity. Qed.

Lemma stale_loop n fuel : (60 <= fuel)%nat -> forall l e pages err ls cs w,
  block_tokens n fuel (handleConfigToken fuel) tt (stale_cfg l e pages err ls cs w) stale_stream = PLoop.
Proof.
  intros Hf. induction n as [|n IH]; intros; [done|].
  rewrite block_tokens_turn, (turn_enough 60 fuel _ _ _ _ _ Hf (stale_turn _ _ _ _ _ _ _)). apply IH.
Qed.

(** C39: The parser never ends on this file, whatever the bound on its steps: the
    end of the file leaves the previous line in the static line buffer, the
    block of that line is read again and the stream moved back over it. *)
Theorem parseConfigText_loops fuel (w : W) :
  parseConfigText fuel (cfg_init w) (open_stream stale_config) = PLoop.
Proof.
  destruct (parseConfigText_below fuel (fuel + 60) ltac:(lia) (cfg_init w) (open_stream stale_config))
    as [->|Hb]; [done|]. rewrite Hb. unfold parseConfigText. rewrite Nat.add_comm.
  change (60 + fuel)%nat with (S (59 + fuel)) at 1.
  rewrite block_tokens_turn, (turn_enough 60 (60 + fuel) _ _ _ _ _ ltac:(lia) (stale_first w)).
  rewrite stale_loop by lia. done.
Qed.
End stale.
