(* ===== verification/ConfigRender.v ===== *)
(** * ConfigRender: writing a configuration so that it is read back

    The text of a block is a list of directives on lines of their own, every
    value between quotes; a nested block is the argument of its directive.
    Reading the text gives the object that was written, for locations, CGI
    configurations and whole hosts, and a file written from hosts registers
    these hosts in order. *)

From S2P Require Import Prelude CxxString OrdMap Format Http RequestHeaders RequestUri Host ConfigLex ConfigLexFacts Config Listen ListenFacts Registration ConfigFacts ConfigProps.
From Stdlib Require Import Sorted.
#[local] Open Scope Z_scope.

(** ** Directives *)

Definition directive (d : str * str) : str := NL :: d.1 ++ d.2 ++ [SEMICOLON].
Definition render_block (ds : list (str * str)) : str := mjoin (map directive ds).
Definition nested (names : list str) (body : str) : str :=
  render_values names ++ [SPACE; LBRACE] ++ body ++ [RBRACE].

(** A word that needs no quotes. *)
Definition token (tok : str) : Prop := Forall (fun c => plain c = true) tok /\ tok <> [].

(** What follows a token ends it. *)
Definition ends_token (arg : str) : Prop :=
  match arg with [] => True | c :: _ => delimiter c = true end.

Lemma render_values_ends ws : ends_token (render_values ws).
Proof. by destruct ws. Qed.

Lemma length_render_values ws : (length ws <= length (render_values ws))%nat.
Proof. induction ws as [|w ws IH]; [done|]. rewrite render_values_cons. cbn [length]. rewrite length_app. lia. Qed.

Lemma nested_ends names body : ends_token (nested names body).
Proof. by destruct names. Qed.

Lemma render_block_cons d ds : render_block (d :: ds) = directive d ++ render_block ds.
Proof. reflexivity. Qed.

Lemma render_block_app ds ds' : render_block (ds ++ ds') = render_block ds ++ render_block ds'.
Proof. unfold render_block. by rewrite map_app, join_app. Qed.

Lemma length_render_block ds : (length ds <= length (render_block ds))%nat.
Proof.
  induction ds as [|d ds IH]; [done|]. rewrite render_block_cons, length_app. unfold directive. simpl. lia.
Qed.

(** ** Blocks inside blocks

    Text that [getNextBlock] goes over without finding a brace that counts. *)
Definition neutral (body : str) : Prop := forall t depth out,
  1 <= depth -> read_block (body ++ t) false false depth out = read_block t false false depth (out ++ body).

Lemma neutral_nil : neutral [].
Proof. intros t depth out _. by rewrite app_nil_r. Qed.

Lemma neutral_app a b : neutral a -> neutral b -> neutral (a ++ b).
Proof. intros Ha Hb t depth out H. rewrite <- app_assoc, Ha, Hb by done. by rewrite <- app_assoc. Qed.

Lemma emit_inside c depth out : 1 <= depth -> emit c depth out = out ++ [c].
Proof. intros. unfold emit. by rewrite (proj2 (Z.eqb_neq depth 0)) by lia. Qed.

Definition ordinary (c : ascii) : bool :=
  negb (Ascii.eqb c BACKSLASH || Ascii.eqb c DQUOTE || Ascii.eqb c LBRACE || Ascii.eqb c RBRACE).

Lemma neutral_char c : ordinary c = true -> neutral [c].
Proof.
  unfold ordinary. rewrite negb_true_iff, !orb_false_iff. intros [[[H1 H2] H3] H4] t depth out Hd.
  cbn [app read_block]. rewrite H1, H2, H3, H4, !emit_inside by done. cbn [negb andb].
  by destruct (Ascii.eqb c NL).
Qed.

Lemma neutral_token tok : Forall (fun c => plain c = true) tok -> neutral tok.
Proof.
  induction 1 as [|c tok Hc Htok IH]; [apply neutral_nil|]. apply (neutral_app [c]); [|done].
  apply neutral_char. revert Hc. clear. ascii_cases c.
Qed.

Lemma read_escape w : forall t depth out, 1 <= depth ->
  read_block (escape w ++ t) false true depth out = read_block t false true depth (out ++ escape w).
Proof.
  induction w as [|c w IH]; intros t depth out Hd; [by rewrite app_nil_r|].
  rewrite escape_cons, <- app_assoc. unfold escape_char.
  destruct (Ascii.eqb c BACKSLASH || Ascii.eqb c DQUOTE) eqn:E.
  - cbn [app read_block]. change (Ascii.eqb BACKSLASH NL) with false.
    change (Ascii.eqb BACKSLASH BACKSLASH) with true. cbv iota.
    replace (Ascii.eqb c NL) with false
      by (apply orb_true_iff in E as [E|E]; apply Ascii.eqb_eq in E as ->; done).
    rewrite !emit_inside, IH by done. by rewrite <- !app_assoc.
  - apply orb_false_iff in E as [E1 E2]. cbn [app read_block]. rewrite E1, E2, !emit_inside by done.
    cbn [negb andb]. destruct (Ascii.eqb c NL); rewrite IH by done; by rewrite <- app_assoc.
Qed.

Lemma neutral_quote w : neutral (quote w).
Proof.
  intros t depth out Hd. unfold quote. cbn [app read_block]. rewrite <- app_assoc.
  change (Ascii.eqb DQUOTE NL) with false. change (Ascii.eqb DQUOTE BACKSLASH) with false.
  change (Ascii.eqb DQUOTE DQUOTE) with true. cbv iota. rewrite emit_inside, read_escape by done.
  cbn [app read_block]. change (Ascii.eqb DQUOTE NL) with false. change (Ascii.eqb DQUOTE BACKSLASH) with false.
  change (Ascii.eqb DQUOTE DQUOTE) with true. cbv iota. rewrite emit_inside by done.
  by rewrite <- !app_assoc.
Qed.

Lemma neutral_values ws : neutral (render_values ws).
Proof.
  induction ws as [|w ws IH]; [apply neutral_nil|]. rewrite render_values_cons.
  apply (neutral_app [SPACE]); [by apply neutral_char|]. apply neutral_app; [apply neutral_quote|done].
Qed.

Lemma read_block_body body t : neutral body ->
  read_block (LBRACE :: body ++ RBRACE :: t) false false 0 [] = Found body t.
Proof.
  intros H. change (read_block (body ++ RBRACE :: t) false false 1 [] = Found body t).
  rewrite H by lia. reflexivity.
Qed.

Lemma neutral_nested names body : neutral body -> neutral (nested names body).
Proof.
  intros Hb. unfold nested. apply neutral_app; [apply neutral_values|].
  apply (neutral_app [SPACE] (LBRACE :: body ++ [RBRACE])); [by apply neutral_char|].
  intros t depth out Hd. cbn [app read_block]. rewrite <- app_assoc, !emit_inside by done.
  change (Ascii.eqb LBRACE NL) with false. change (Ascii.eqb LBRACE BACKSLASH) with false.
  change (Ascii.eqb LBRACE DQUOTE) with false. change (negb false && Ascii.eqb LBRACE LBRACE) with true.
  cbv iota. rewrite Hb by lia. cbn [app read_block].
  change (Ascii.eqb RBRACE NL) with false. change (Ascii.eqb RBRACE BACKSLASH) with false.
  change (Ascii.eqb RBRACE DQUOTE) with false. change (negb false && Ascii.eqb RBRACE LBRACE) with false.
  change (negb false && Ascii.eqb RBRACE RBRACE) with true. cbv iota.
  rewrite (proj2 (Z.eqb_neq (depth + 1 - 1) 0)), (proj2 (Z.ltb_ge (depth + 1 - 1) 0)) by lia.
  rewrite emit_inside by lia. replace (depth + 1 - 1) with depth by lia. by rewrite <- !app_assoc.
Qed.

Lemma neutral_directive tok arg : Forall (fun c => plain c = true) tok -> neutral arg -> neutral (directive (tok, arg)).
Proof.
  intros Ht Ha. unfold directive. cbn [fst snd]. apply (neutral_app [NL]); [by apply neutral_char|].
  apply neutral_app; [by apply neutral_token|]. apply neutral_app; [done|by apply neutral_char].
Qed.

Lemma neutral_block ds : Forall (fun d => neutral (directive d)) ds -> neutral (render_block ds).
Proof.
  induction 1 as [|d ds Hd Hds IH]; [apply neutral_nil|]. rewrite render_block_cons. by apply neutral_app.
Qed.

(** ** One directive *)
Section directive.
Context {W O : Type} (fuel : nat) (h : str -> O -> P W O).

Lemma getNextWord_end s (g : cfg W) :
  at_text s [] -> (1 < fuel)%nat -> exists s', getNextWord fuel [] g s = POk (-1, []) g s'.
Proof.
  intros (_ & Hg & Hr) Hf. destruct fuel as [|f]; [lia|].
  unfold getNextWord. cbn [skipSpace word_loop]. unfold mbind, P_bind, on_peek, peek at 1. rewrite Hg, Hr.
  cbn [isspace_opt mret P_ret]. cbv beta iota.
  assert (good (s <| is_eof := true |>) = false) as Hg' by done. unfold peek. rewrite Hg'. by eexists.
Qed.

(** The loop over a directive whose argument the handler reads. *)
Lemma directive_step n tok arg rest o o1 s (g : cfg W) (Q : cfg W -> Prop) :
  token tok -> ends_token arg -> at_text s (directive (tok, arg) ++ rest) ->
  (length (directive (tok, arg)) + 1 < fuel)%nat ->
  (forall g1, core g1 = core g -> at_text (advance (S (length tok)) s) (arg ++ SEMICOLON :: rest) ->
     exists g2, h tok o g1 (advance (S (length tok)) s) =
       POk o1 g2 (advance (length arg) (advance (S (length tok)) s)) /\ Q g2) ->
  exists g2 g3, Q g2 /\ core g3 = core g2 /\ at_text (advance (length (directive (tok, arg))) s) rest /\
    block_tokens (S n) fuel h o g s =
    block_tokens n fuel h o1 g3 (advance (length (directive (tok, arg))) s).
Proof.
  intros [Hplain Hne] Hends Ht Hf Hh. pose proof (at_text_advance _ _ _ Ht) as Hrest.
  unfold directive in Ht, Hf. cbn [fst snd] in Ht, Hf.
  rewrite <- app_comm_cons, <- !app_assoc in Ht. cbn [app] in Ht.
  cbn [length] in Hf. rewrite !length_app in Hf. cbn [length] in Hf.
  assert (exists d u, arg ++ SEMICOLON :: rest = d :: u /\ delimiter d = true) as (d & u & Hu & Hd).
  { destruct arg as [|c arg]; eexists _, _; (split; [reflexivity|]); done. }
  cbn [block_tokens]. unfold mbind, P_bind.
  destruct (reads_getNextWord_plain (W:=W) fuel [NL] tok [] d u s) with (g := g) as (g1 & -> & H1);
    [cbn [app]; by rewrite <- Hu|by repeat constructor|done|done|done|cbn [length]; lia|].
  cbn [app length Nat.add]. rewrite Z.eqb_refl.
  assert (at_text (advance (S (length tok)) s) (arg ++ SEMICOLON :: rest)) as Ht1.
  { change (S (length tok)) with (length (NL :: tok)). by apply at_text_advance. }
  destruct (Hh g1 H1 Ht1) as (g2 & -> & HQ).
  apply at_text_advance in Ht1.
  destruct (reads_checkSemiColon (W:=W) fuel [] rest _ Ht1 ltac:(constructor) ltac:(simpl; lia) g2)
    as (g3 & -> & H3).
  exists g2, g3. split_and!; [done|done|done|]. rewrite !advance_advance. f_equal. f_equal.
  unfold directive. cbn [fst snd length]. rewrite !length_app. cbn [length]. lia.
Qed.
End directive.

Section blocks.
Context {W C : Type} (view : cfg W -> C).
Context (view_core : forall g g', core g' = core g -> view g' = view g).

(** Like [reads], for a part of the static variables. *)
Definition reads_in {A} (m : P W A) (s : istream) (a : A) (n : nat) : Prop :=
  forall g, exists g', m g s = POk a g' (advance n s) /\ view g' = view g.

Lemma reads_reads_in {A} (m : P W A) s a n : reads m s a n -> reads_in m s a n.
Proof. intros H g. destruct (H g) as (g' & -> & Hg). exists g'. split; [done|by apply view_core]. Qed.

Lemma reads_in_bind {A B} (m : P W A) (f : A -> P W B) s a b n n' N :
  reads_in m s a n -> reads_in (f a) (advance n s) b n' -> N = (n + n')%nat -> reads_in (mbind f m) s b N.
Proof.
  intros Hm Hf -> g. unfold mbind, P_bind. destruct (Hm g) as (g1 & -> & H1).
  destruct (Hf g1) as (g2 & -> & H2). exists g2. by rewrite advance_advance, H2.
Qed.

(** [parseValues] counts the values it reads in an [int]. *)
Context (fuel : nat) (fuel_small : Z.of_nat fuel <= INT32_MAX).

Section handler.
Context {O : Type} (h : str -> O -> P W O).

(** The handler reads the argument of its directive and fills the object. *)
Definition handles (tok arg : str) (o o' : O) : Prop := forall s t,
  at_text s (arg ++ SEMICOLON :: t) -> (length arg + length t + 2 < fuel)%nat -> reads_in (h tok o) s o' (length arg).

Inductive runs : list (str * str) -> O -> O -> Prop :=
  | runs_nil o : runs [] o o
  | runs_cons tok arg ds o o1 o2 :
      token tok -> ends_token arg -> handles tok arg o o1 -> runs ds o1 o2 -> runs ((tok, arg) :: ds) o o2.

Lemma runs_app ds ds' o o1 o2 : runs ds o o1 -> runs ds' o1 o2 -> runs (ds ++ ds') o o2.
Proof. induction 1; [done|]. intros. econstructor; eauto. Qed.

Lemma runs_one tok arg o o' : token tok -> ends_token arg -> handles tok arg o o' -> runs [(tok, arg)] o o'.
Proof. intros. econstructor; [done..|constructor]. Qed.

Lemma block_tokens_runs n ds o o' s g :
  runs ds o o' -> at_text s (render_block ds) -> (length ds < n)%nat -> (length (render_block ds) + 4 < fuel)%nat ->
  exists g' s', block_tokens n fuel h o g s = POk o' g' s' /\ view g' = view g.
Proof.
  intros Hr. revert n s g. induction Hr as [o|tok arg ds o o1 o2 Htok Hends Hh Hr IH]; intros n s g Ht Hn Hf;
    (destruct n as [|n]; [simpl in Hn; lia|]).
  { cbn [block_tokens]. unfold mbind, P_bind.
    destruct (getNextWord_end fuel s g Ht ltac:(lia)) as [s' ->]. by exists g, s'. }
  rewrite render_block_cons in Ht, Hf. rewrite length_app in Hf.
  destruct (directive_step fuel h n tok arg (render_block ds) o o1 s g (fun g2 => view g2 = view g))
    as (g2 & g3 & H2 & H3 & Ht3 & ->); [done|done|done|lia| |].
  - intros g1 H1 Ht1. unfold directive in Hf. cbn [fst snd length] in Hf. rewrite !length_app in Hf.
    destruct (Hh _ _ Ht1 ltac:(lia) g1) as (g2 & -> & H2). exists g2. split; [done|].
    rewrite H2. by apply view_core.
  - destruct (IH n _ g3 Ht3 ltac:(simpl in Hn; lia) ltac:(lia)) as (g4 & s4 & -> & H4).
    exists g4, s4. split; [done|]. rewrite H4, (view_core _ _ H3). done.
Qed.

(** A block that was written is read. *)
Lemma parseBlock_runs ds o o' g :
  runs ds o o' -> (length (render_block ds) + 4 < fuel)%nat ->
  exists g' s', parseBlock fuel h o g (open_stream (render_block ds)) = POk o' g' s' /\ view g' = view g.
Proof.
  intros Hr Hf. apply (block_tokens_runs _ ds o); [done|apply at_text_open| |done].
  pose proof (length_render_block ds). lia.
Qed.
End handler.

(** ** Values *)
Lemma quoted_word w word s t :
  at_text s (render_values [w] ++ SEMICOLON :: t) -> word ++ w <> [] -> (length (render_values [w]) < fuel)%nat ->
  reads_in (getNextWord fuel word) s (0, word ++ w) (length (render_values [w])).
Proof.
  intros Ht Hne Hf. change (render_values [w]) with ((SPACE :: quote w) ++ []) in *. rewrite app_nil_r in *.
  change (length (SPACE :: quote w)) with (length [SPACE] + length (quote w))%nat.
  apply reads_reads_in. eapply (reads_getNextWord_quote fuel [SPACE] w word SEMICOLON t); [exact Ht| |done|done|done].
  by repeat constructor.
Qed.

Lemma reads_path w id e s t :
  at_text s (render_values [w] ++ SEMICOLON :: t) -> w <> [] -> (length (render_values [w]) < fuel)%nat ->
  match e with Some c => last w = Some c | None => True end ->
  reads_in (parsePath fuel [] id e) s w (length (render_values [w])).
Proof.
  intros Ht Hne Hf He. unfold parsePath.
  eapply reads_in_bind with (n' := 0%nat); [by eapply quoted_word| |lia]. cbn [app negb Z.eqb]. cbv beta iota.
  assert (match e, last w with Some c, Some c' => if Ascii.eqb c' c then w else w ++ [c] | _, _ => w end = w) as ->.
  { destruct e as [c|]; [|done]. rewrite He. by rewrite Ascii.eqb_refl. }
  apply reads_reads_in, reads_ret.
Qed.

Lemma reads_value_list ws s t :
  at_text s (render_values ws ++ SEMICOLON :: t) -> Forall (fun w => w <> []) ws ->
  (S (length (render_values ws)) < fuel)%nat ->
  forall words, reads_in (parseValues fuel words INT32_MAX) s (words ++ ws) (length (render_values ws)).
Proof.
  intros Ht Hws Hf words. apply reads_reads_in. pose proof (length_render_values ws).
  replace (length (render_values ws)) with (length (render_values ws ++ [])) by by rewrite app_nil_r.
  eapply (reads_parseValues fuel ws [] SEMICOLON t); [exact Ht|done|constructor|done|lia|by rewrite app_nil_r].
Qed.

Definition on_off (b : bool) : str := if b then `s"on" else `s"off".

Lemma reads_boolean b id s t :
  at_text s (render_values [on_off b] ++ SEMICOLON :: t) -> (length (render_values [on_off b]) < fuel)%nat ->
  reads_in (parseBoolean fuel id) s b (length (render_values [on_off b])).
Proof.
  intros Ht Hf. unfold parseBoolean.
  eapply reads_in_bind with (n' := 0%nat); [eapply quoted_word; [exact Ht|by destruct b|done]| |lia].
  cbn [app negb Z.eqb]. cbv beta iota. destruct b; apply reads_reads_in, reads_ret.
Qed.

(** The methods of a mask. *)
Definition mask_methods (m : Z) : list str :=
  mjoin (imap (fun i name => if Z.testbit m (Z.of_nat i) then [name] else []) METHOD_STR).

Lemma mask_methods_spec m : method_mask m ->
  methods_mask (mask_methods m) 0 = Some m /\ Forall (fun w => w <> []) (mask_methods m) /\
  (length (mask_methods m) <= 5)%nat.
Proof.
  intros Hm. unfold method_mask in Hm.
  assert (exists k, (k < 32)%nat /\ m = Z.of_nat k) as (k & Hk & ->) by (exists (Z.to_nat m); lia). clear Hm.
  do 32 (destruct k as [|k]; [split_and!; [reflexivity|apply (bool_decide_unpack _); vm_compute; exact I|vm_compute; lia]|]). lia.
Qed.

Lemma reads_methods m s t :
  method_mask m -> at_text s (render_values (mask_methods m) ++ SEMICOLON :: t) ->
  (S (length (render_values (mask_methods m))) < fuel)%nat ->
  reads_in (parseAllowedMethods fuel) s m (length (render_values (mask_methods m))).
Proof.
  intros Hm Ht Hf. destruct (mask_methods_spec m Hm) as (Hmask & Hne & Hlen). unfold parseAllowedMethods.
  eapply reads_in_bind with (n' := 0%nat).
  - eapply reads_value_list; [exact Ht|done|done].
  - cbn [app]. rewrite Hmask. apply reads_reads_in, reads_ret.
  - lia.
Qed.

(** Decides a literal token and the end of its arguments. *)
Lemma handled {O} (h : str -> O -> P W O) tok ws o o' :
  bool_decide (Forall (fun c => plain c = true) tok /\ tok <> []) = true ->
  handles h tok (render_values ws) o o' -> runs h [(tok, render_values ws)] o o'.
Proof.
  intros Ht Hh. apply bool_decide_eq_true in Ht. apply runs_one; [exact Ht|apply render_values_ends|done].
Qed.

(** ** Locations *)
Definition optional (present : bool) (d : str * str) : list (str * str) := if present then [d] else [].

Definition loc_directives (l : Location) : list (str * str) :=
  [(`s"root", render_values [loc_root l]);
   (`s"methods", render_values (mask_methods (loc_methods l)));
   (`s"dir_listing", render_values [on_off (loc_dir_listing l)]);
   (`s"upload", render_values [on_off (loc_upload l)])] ++
  optional (negb (is_empty (loc_default_uri l))) (`s"default_uri", render_values [loc_default_uri l]) ++
  optional (negb (is_empty (loc_upload_root l))) (`s"upload_root", render_values [loc_upload_root l]) ++
  optional (negb (loc_redir l =? 0))
    (`s"return", render_values (IntToString (loc_redir l) 10 :: loc_addr_redir l)).

(** A handler that stores what it read. *)
Lemma handles_store {O A} (h : str -> O -> P W O) tok ws o (m : P W A) (f : A -> O) a :
  h tok o = (v ← m; mret (f v)) ->
  (forall s t, at_text s (render_values ws ++ SEMICOLON :: t) -> (length (render_values ws) + length t + 2 < fuel)%nat ->
     reads_in m s a (length (render_values ws))) ->
  handles h tok (render_values ws) o (f a).
Proof.
  intros Heq Hm s t Ht Hf. rewrite Heq. eapply reads_in_bind with (n' := 0%nat); [by eapply Hm| |lia].
  apply reads_reads_in, reads_ret.
Qed.

Lemma valid_redirection_complete l : redirection_ok l -> loc_redir l <> 0 ->
  valid_redirection (loc_redir l) = true /\ 0 <= loc_redir l <= INT32_MAX /\
  loc_addr_redir l <> [] /\ Forall (fun x => x <> []) (loc_addr_redir l).
Proof.
  intros [[? _]|(Hr & Hne & Hf)] H0; [done|]. rewrite !elem_of_cons in Hr.
  unfold RES_MULTIPLE_CHOICE, RES_MOVED_PERMANENTLY, RES_FOUND, RES_SEE_OTHER, RES_TEMPORARY_REDIRECT,
    RES_PERMANENT_REDIRECT in Hr.
  destruct Hr as [->|[->|[->|[->|[->|[->|Hr%elem_of_nil]]]]]]; by split_and!.
Qed.

Lemma handles_return l loc :
  redirection_ok l -> loc_redir l <> 0 ->
  loc_addr_redir loc = [] ->
  handles (handleLocationToken fuel) (`s"return")
    (render_values (IntToString (loc_redir l) 10 :: loc_addr_redir l)) loc
    (loc <| loc_redir := loc_redir l |> <| loc_addr_redir := loc_addr_redir l |>).
Proof.
  intros Hok H0 Hnil s t Ht Hf.
  destruct (valid_redirection_complete l Hok H0) as (Hv & Hrange & Hne & Hall).
  destruct (IntToString_spec 10 (loc_redir l)) as (Hpr & _); [by left|done|].
  change (handleLocationToken fuel (`s"return") loc) with (parseRedirection (W:=W) fuel loc).
  unfold parseRedirection. eapply reads_in_bind with (n' := 0%nat).
  - eapply reads_value_list; [exact Ht|by constructor|lia].
  - cbn [app]. destruct (loc_addr_redir l) as [|x xs] eqn:E; [done|].
    rewrite getInt_print by (by left || done). rewrite Hv, Hnil. cbn [Z.eqb negb orb tail app].
    apply reads_reads_in, reads_ret.
  - lia.
Qed.

Lemma loc_runs l :
  loc_wf l ->
  runs (handleLocationToken fuel) (loc_directives l) Location_init l.
Proof.
  intros ((_ & Hm & Hu & Hred) & Hroot). unfold loc_directives.
  assert (loc_root l <> []) as Hrne by (intros E; unfold dir_path in Hroot; by rewrite E in Hroot).
  set (l1 := Location_init <| loc_root := loc_root l |>).
  set (l2 := l1 <| loc_methods := loc_methods l |>).
  set (l3 := l2 <| loc_dir_listing := loc_dir_listing l |>).
  set (l4 := l3 <| loc_upload := loc_upload l |>).
  set (l5 := l4 <| loc_default_uri := loc_default_uri l |>).
  set (l6 := l5 <| loc_upload_root := loc_upload_root l |>).
  eapply runs_app with (o1 := l4).
  { apply (runs_app _ [_] [_; _; _] _ l1).
    { apply handled; [reflexivity|]. eapply (handles_store _ _ _ _ _ (fun v => Location_init <| loc_root := v |>)); [reflexivity|].
      intros s t Ht Hf. eapply reads_path; [exact Ht|done|lia|exact Hroot]. }
    apply (runs_app _ [_] [_; _] _ l2).
    { apply handled; [reflexivity|]. eapply (handles_store _ _ _ _ _ (fun v => l1 <| loc_methods := v |>)); [reflexivity|].
      intros s t Ht Hf. eapply reads_methods; [done|exact Ht|lia]. }
    apply (runs_app _ [_] [_] _ l3).
    { apply handled; [reflexivity|]. eapply (handles_store _ _ _ _ _ (fun v => l2 <| loc_dir_listing := v |>)); [reflexivity|].
      intros s t Ht Hf. eapply reads_boolean; [exact Ht|lia]. }
    apply handled; [reflexivity|]. eapply (handles_store _ _ _ _ _ (fun v => l3 <| loc_upload := v |>)); [reflexivity|].
    intros s t Ht Hf. eapply reads_boolean; [exact Ht|lia]. }
  eapply runs_app with (o1 := l5).
  { destruct (loc_default_uri l) as [|c u] eqn:E; cbn [is_empty negb optional]; [subst l5; constructor|].
    apply handled; [reflexivity|]. eapply (handles_store _ _ _ _ _ (fun v => l4 <| loc_default_uri := v |>)); [reflexivity|].
    intros s t Ht Hf. unfold parseUri. eapply reads_in_bind with (n' := 0%nat); [eapply quoted_word; [exact Ht|done|lia]| |lia].
    cbn [app negb Z.eqb]. apply reads_reads_in, reads_ret. }
  eapply runs_app with (o1 := l6).
  { destruct (loc_upload_root l) as [|c u] eqn:E; cbn [is_empty negb optional]; [subst l6; constructor|].
    apply handled; [reflexivity|]. eapply (handles_store _ _ _ _ _ (fun v => l5 <| loc_upload_root := v |>)); [reflexivity|].
    intros s t Ht Hf. eapply reads_path; [exact Ht|done|lia|]. by destruct Hu. }
  destruct (Z.eqb_spec (loc_redir l) 0) as [H0|H0]; cbn [negb optional].
  - destruct Hred as [[_ Hnil]|[Hr _]]; [|exfalso; rewrite H0 in Hr; revert Hr; apply (bool_decide_unpack (0 ∉ _)); vm_compute; exact I].
    replace l with l6 at 1; [constructor|]. subst l6 l5 l4 l3 l2 l1. cbn.
    destruct l as [r m d du u ur re ad]. cbn in *. by subst.
  - apply handled; [reflexivity|].
    replace l with (l6 <| loc_redir := loc_redir l |> <| loc_addr_redir := loc_addr_redir l |>) at 3.
    + by apply handles_return.
    + by destruct l.
Qed.
End blocks.

Lemma loc_neutral l : neutral (render_block (loc_directives l)).
Proof.
  apply neutral_block. unfold loc_directives, optional.
  repeat (apply Forall_app; split); repeat case_match; repeat constructor;
    (apply neutral_directive; [apply (bool_decide_unpack _); vm_compute; exact I|apply neutral_values]).
Qed.

(** ** CGI configurations *)
Definition cgi_directives (c : CGIConfig) : list (str * str) :=
  [(`s"root", render_values [cgi_root c]);
   (`s"methods", render_values (mask_methods (cgi_methods c)));
   (`s"identifier", render_values [cgi_extension c])] ++
  optional (negb (is_empty (cgi_exec c))) (`s"exec", render_values [cgi_exec c]).

Lemma cgi_neutral c : neutral (render_block (cgi_directives c)).
Proof.
  apply neutral_block. unfold cgi_directives, optional.
  repeat (apply Forall_app; split); repeat case_match; repeat constructor;
    (apply neutral_directive; [apply (bool_decide_unpack _); vm_compute; exact I|apply neutral_values]).
Qed.

Section cgi.
Context {W C : Type} (view : cfg W -> C).
Context (view_core : forall g g', core g' = core g -> view g' = view g).
Context (fuel : nat) (fuel_small : Z.of_nat fuel <= INT32_MAX).

Lemma cgi_runs c :
  cgi_wf c -> runs view fuel (handleCGIConfigToken fuel) (cgi_directives c) CGIConfig_init c.
Proof.
  intros (Hroot & Hm & Hext). unfold cgi_directives.
  assert (cgi_root c <> []) as Hrne by (intros E; unfold dir_path in Hroot; by rewrite E in Hroot).
  set (c1 := CGIConfig_init <| cgi_root := cgi_root c |>).
  set (c2 := c1 <| cgi_methods := cgi_methods c |>).
  set (c3 := c2 <| cgi_extension := cgi_extension c |>).
  eapply runs_app with (o1 := c3).
  { apply (runs_app view fuel _ [_] [_; _] _ c1).
    { apply handled; [reflexivity|]. eapply (handles_store view view_core fuel _ _ _ _ _ (fun v => CGIConfig_init <| cgi_root := v |>)); [reflexivity|].
      intros s t Ht Hf. eapply reads_path; [done|exact Ht|done|lia|exact Hroot]. }
    apply (runs_app view fuel _ [_] [_] _ c2).
    { apply handled; [reflexivity|]. eapply (handles_store view view_core fuel _ _ _ _ _ (fun v => c1 <| cgi_methods := v |>)); [reflexivity|].
      intros s t Ht Hf. eapply reads_methods; [done|done|done|exact Ht|lia]. }
    apply handled; [reflexivity|]. eapply (handles_store view view_core fuel _ _ _ _ _ (fun v => c2 <| cgi_extension := v |>)); [reflexivity|].
    intros s t Ht Hf. unfold parseExtension.
    eapply reads_in_bind with (n' := 0%nat); [eapply quoted_word; [done|exact Ht|done|lia]| |lia].
    cbn [app negb Z.eqb]. apply reads_reads_in, reads_ret. done. }
  destruct (cgi_exec c) as [|x u] eqn:E; cbn [is_empty negb optional].
  - replace c with c3 at 1; [constructor|]. destruct c. cbn in *. by subst.
  - assert (c = c3 <| cgi_exec := x :: u |>) as Hc by (destruct c; cbn in *; by subst).
    rewrite Hc. apply handled; [reflexivity|].
    eapply (handles_store view view_core fuel _ _ _ _ _ (fun v => c3 <| cgi_exec := v |>)); [reflexivity|].
    intros s t Ht Hf. eapply reads_path; [done|exact Ht|done|lia|done].
Qed.
End cgi.

(** ** Hosts *)

(** What reading a host may not change. *)
Definition host_view {W} (g : cfg W) : W * str * bool := (c_world g, c_default_error_pages g, c_error g).

Lemma host_view_core {W} (g g' : cfg W) : core g' = core g -> host_view g' = host_view g.
Proof.
  intros H. unfold host_view. change (c_world g) with (c_world (core g)).
  change (c_default_error_pages g) with (c_default_error_pages (core g)).
  change (c_error g) with (c_error (core g)). by rewrite <- H.
Qed.

Definition loc_dir (e : str * Location) : str * str :=
  (`s"location", nested [e.1] (render_block (loc_directives e.2))).
Definition cgi_dir (e : str * CGIConfig) : str * str :=
  (`s"cgi", nested [e.1] (render_block (cgi_directives e.2))).

Definition host_directives (h : Host) : list (str * str) :=
  [(`s"listen", render_values (h_ports h));
   (`s"host", render_values [h_addr h]);
   (`s"server_name", render_values (h_server_names h));
   (`s"body_max_size", render_values [IntToString (h_body_max_size h) 10])] ++
  optional (negb (is_empty (h_dir_errors h))) (`s"error_pages", render_values [h_dir_errors h]) ++
  map loc_dir (h_locationMap h) ++ map cgi_dir (h_cgiMap h).

(** Entries inserted in order are appended. *)
Lemma om_assign_last {T} (m : list (str * T)) k v :
  om_sorted lex_ltb (m ++ [(k, v)]) -> om_assign lex_ltb k v m = m ++ [(k, v)].
Proof.
  unfold om_assign. induction m as [|[j w] m IH]; [done|]. cbn [app om_update].
  intros H. inversion_clear H as [|? ? Hs Hj]. rewrite Forall_app in Hj. destruct Hj as [_ Hj].
  inversion_clear Hj as [|? ? Hlt _]. cbn in Hlt. by rewrite Hlt, IH.
Qed.

Lemma set_insert_last l x :
  StronglySorted (fun a b => lex_ltb a b = true) (l ++ [x]) -> set_insert x l = l ++ [x].
Proof.
  induction l as [|y l IH]; [done|]. cbn [app set_insert].
  intros H. inversion_clear H as [|? ? Hs Hj]. rewrite Forall_app in Hj. destruct Hj as [_ Hj].
  inversion_clear Hj as [|? ? Hlt _]. by rewrite Hlt, IH.
Qed.

Lemma sorted_prefix {T} (R : T -> T -> Prop) a b : StronglySorted R (a ++ b) -> StronglySorted R a.
Proof.
  induction a as [|x a IH]; [constructor|]. cbn. intros H. inversion_clear H as [|? ? Hs Hf].
  apply Forall_app in Hf as [? _]. constructor; auto.
Qed.

Lemma insert_ports_sorted ps : forall h,
  StronglySorted (fun a b => lex_ltb a b = true) (h_ports h ++ ps) -> Forall port_ok ps ->
  insert_ports ps h = Some (h <| h_ports := h_ports h ++ ps |>).
Proof.
  induction ps as [|p ps IH]; intros h Hs Hp; cbn [insert_ports].
  { rewrite app_nil_r. by destruct h. }
  inversion_clear Hp as [|? ? Hok Hps]. unfold port_ok in Hok. rewrite Hok. cbn [Z.eqb negb].
  replace (h_ports h ++ p :: ps) with ((h_ports h ++ [p]) ++ ps) in * by by rewrite <- app_assoc.
  rewrite (set_insert_last (h_ports h) p) by by eapply sorted_prefix.
  by rewrite (IH (h <| h_ports := h_ports h ++ [p] |>)).
Qed.

Section hosts.
Context {W : Type} (fuel : nat) (fuel_small : Z.of_nat fuel <= INT32_MAX).
Abbreviation reads_in := (reads_in (@host_view W)).
Abbreviation runs := (runs (@host_view W) fuel).

Lemma reads_block body t s :
  neutral body -> at_text s (LBRACE :: body ++ RBRACE :: t) -> (length body + length t + 2 < fuel)%nat ->
  reads (W:=W) (getNextBlock fuel) s body (length body + 2).
Proof.
  intros Hn Ht Hf g.
  assert (length (LBRACE :: body ++ RBRACE :: t) < fuel)%nat as Hlen.
  { cbn [length]. rewrite length_app. cbn [length]. lia. }
  pose proof (block_loop_spec fuel _ s false false 0 [] g Ht Hlen ltac:(lia) ltac:(done)) as H.
  rewrite read_block_body in H by done. destruct H as (p & g' & Hp & H & Hg). exists g'. split; [|done].
  unfold getNextBlock. rewrite H.
  f_equal. f_equal. apply (f_equal length) in Hp. rewrite length_app in Hp. cbn [length] in Hp.
  rewrite length_app in Hp. cbn [length] in Hp. lia.
Qed.

(** The part [parseLocation] and [parseCGIConfig] share: the names, the text of
    the block, what was read in it. *)
Lemma reads_nested {O A} (names : list str) (h0 : str -> O -> P W O) ds o o' (k : list str -> O -> P W A) a t s handler :
  at_text s (nested names (render_block ds) ++ SEMICOLON :: t) ->
  (length (nested names (render_block ds)) + length t + 2 < fuel)%nat ->
  Forall (fun w => w <> []) names -> neutral (render_block ds) -> runs h0 ds o o' ->
  (forall g s, exists g', k names o' g s = POk a g' s /\ host_view g' = host_view g) ->
  reads_in (names ← parseValues fuel [] INT32_MAX;
            _ ← mark_block;
            text ← getNextBlock fuel;
            try_config (with_stream text (o' ← parseBlock fuel h0 o; k names o')) handler)
    s a (length (nested names (render_block ds))).
Proof.
  intros Ht Hf Hn Hneu Hr Hk g. set (body := render_block ds) in *.
  assert (length (nested names body) = length (render_values names ++ [SPACE]) + (2 + length body))%nat as Hlen.
  { unfold nested. rewrite !length_app. cbn [length]. lia. }
  assert (at_text s (render_values names ++ [SPACE] ++ LBRACE :: body ++ RBRACE :: SEMICOLON :: t)) as Ht1.
  { unfold nested in Ht. rewrite <- !app_assoc in Ht. exact Ht. }
  pose proof (length_render_values names) as Hnames. rewrite length_app in Hlen. cbn [length] in Hlen.
  assert (reads (parseValues (W:=W) fuel [] INT32_MAX) s names (length (render_values names ++ [SPACE]))) as R1.
  { eapply (reads_parseValues fuel names [SPACE] LBRACE); [exact Ht1|done|by repeat constructor|done|lia|].
    rewrite length_app. cbn [length]. lia. }
  apply at_text_advance in Ht1 as Ht2. rewrite app_assoc in Ht1. apply at_text_advance in Ht1.
  assert (reads (getNextBlock (W:=W) fuel) (advance (length (render_values names ++ [SPACE])) s) body (length body + 2)) as R2.
  { eapply reads_block; [done|exact Ht1|]. cbn [length]. lia. }
  unfold mbind, P_bind. destruct (R1 g) as (g1 & -> & H1). unfold mark_block, modify at 1.
  destruct (R2 (g1 <| c_lineNbrEndOfBlock := c_lineNbr g1 |>)) as (g2 & -> & H2).
  unfold try_config, with_stream, mbind, P_bind.
  destruct (parseBlock_runs host_view host_view_core fuel h0 ds o o' g2 Hr ltac:(fold body; lia)) as (g3 & s3 & Hp & H3).
  fold body in Hp. rewrite Hp. destruct (Hk g3 s3) as (g4 & -> & H4). exists g4. split.
  - f_equal. rewrite advance_advance. f_equal. rewrite length_app. cbn [length]. lia.
  - rewrite H4, H3, (host_view_core _ _ H2). apply host_view_core in H1. exact H1.
Qed.

Lemma handles_location name l h :
  loc_wf l -> name <> [] ->
  handles (@host_view W) fuel (handleHostToken fuel) (`s"location") (nested [name] (render_block (loc_directives l)))
    h (h <| h_locationMap := om_assign lex_ltb name l (h_locationMap h) |>).
Proof.
  intros Hl Hn s t Ht Hf. change (handleHostToken fuel (`s"location") h) with (parseLocation (W:=W) fuel h).
  unfold parseLocation.
  apply (reads_nested [name] _ (loc_directives l) Location_init l
    (fun names loc => _ ← checkLocation loc; host_addLocation names loc h) _ t);
    [exact Ht|exact Hf|by constructor|apply loc_neutral|by apply loc_runs; [apply host_view_core|..]|].
  intros g s'. unfold mbind, P_bind, checkLocation.
  destruct (str_eqb (loc_root l) []) eqn:E.
  { apply str_eqb_eq in E. destruct Hl as [_ Hd]. unfold dir_path in Hd. by rewrite E in Hd. }
  cbn [mret P_ret]. unfold host_addLocation, addLocation.
  pose proof (pool_add_spec Location_eqb l (c_locations g) Location_eqb_eq) as Hp.
  destruct (pool_add _ l _) as [pool pos]. destruct Hp as (Hx & _). cbn in Hx. subst pos.
  eexists. split; [reflexivity|done].
Qed.

Lemma handles_cgi name c h :
  cgi_wf c -> name <> [] ->
  handles (@host_view W) fuel (handleHostToken fuel) (`s"cgi") (nested [name] (render_block (cgi_directives c)))
    h (h <| h_cgiMap := om_assign lex_ltb name c (h_cgiMap h) |>).
Proof.
  intros Hc Hn s t Ht Hf. change (handleHostToken fuel (`s"cgi") h) with (parseCGIConfig (W:=W) fuel h).
  unfold parseCGIConfig.
  apply (reads_nested [name] _ (cgi_directives c) CGIConfig_init c
    (fun names cgi => _ ← checkCGIConfig cgi; host_addCGIConfig names cgi h) _ t);
    [exact Ht|exact Hf|by constructor|apply cgi_neutral|by apply cgi_runs; [apply host_view_core|..]|].
  intros g s'. unfold mbind, P_bind, checkCGIConfig. destruct Hc as (Hd & _ & He).
  destruct (str_eqb (cgi_root c) []) eqn:E1.
  { apply str_eqb_eq in E1. unfold dir_path in Hd. by rewrite E1 in Hd. }
  destruct (str_eqb (cgi_extension c) []) eqn:E2; [by apply str_eqb_eq in E2|].
  cbn [mret P_ret]. unfold host_addCGIConfig, addCGIConfig.
  pose proof (pool_add_spec CGIConfig_eqb c (c_cgis g) CGIConfig_eqb_eq) as Hp.
  destruct (pool_add _ c _) as [pool pos]. destruct Hp as (Hx & _). cbn in Hx. subst pos.
  eexists. split; [reflexivity|done].
Qed.

Lemma locations_run ls : forall h,
  om_sorted lex_ltb (h_locationMap h ++ ls) -> Forall (fun e => e.1 <> [] /\ loc_wf e.2) ls ->
  runs (handleHostToken fuel) (map loc_dir ls) h (h <| h_locationMap := h_locationMap h ++ ls |>).
Proof.
  induction ls as [|[name l] ls IH]; intros h Hs Hf; cbn [map].
  { rewrite app_nil_r. destruct h. constructor. }
  inversion_clear Hf as [|? ? [Hne Hl] Hls]. cbn in Hne, Hl.
  replace (h_locationMap h ++ (name, l) :: ls) with ((h_locationMap h ++ [(name, l)]) ++ ls) in *
    by by rewrite <- app_assoc.
  econstructor; [by apply (bool_decide_unpack _); vm_compute|apply nested_ends|by apply handles_location|].
  rewrite om_assign_last by by eapply sorted_prefix.
  pose proof (IH (h <| h_locationMap := h_locationMap h ++ [(name, l)] |>)) as Hi. cbn in Hi |- *. by apply Hi.
Qed.

Lemma cgis_run cs : forall h,
  om_sorted lex_ltb (h_cgiMap h ++ cs) -> Forall (fun e => e.1 <> [] /\ cgi_wf e.2) cs ->
  runs (handleHostToken fuel) (map cgi_dir cs) h (h <| h_cgiMap := h_cgiMap h ++ cs |>).
Proof.
  induction cs as [|[name c] cs IH]; intros h Hs Hf; cbn [map].
  { rewrite app_nil_r. destruct h. constructor. }
  inversion_clear Hf as [|? ? [Hne Hc] Hcs]. cbn in Hne, Hc.
  replace (h_cgiMap h ++ (name, c) :: cs) with ((h_cgiMap h ++ [(name, c)]) ++ cs) in *
    by by rewrite <- app_assoc.
  econstructor; [by apply (bool_decide_unpack _); vm_compute|apply nested_ends|by apply handles_cgi|].
  rewrite om_assign_last by by eapply sorted_prefix.
  pose proof (IH (h <| h_cgiMap := h_cgiMap h ++ [(name, c)] |>)) as Hi. cbn in Hi |- *. by apply Hi.
Qed.

(** Values that survive a text: no empty name, a size of at most 2147483647. *)
Definition writable (h : Host) : Prop :=
  host_wf h /\ 0 <= h_body_max_size h <= INT32_MAX /\
  Forall (fun e => e.1 <> []) (h_locationMap h) /\ Forall (fun e => e.1 <> []) (h_cgiMap h).

Lemma map_entries {T} (Q : T -> Prop) (m : list (str * T)) :
  om_sorted lex_ltb m -> (forall n v, om_find lex_ltb n m = Some v -> Q v) ->
  Forall (fun e => e.1 <> []) m -> Forall (fun e => e.1 <> [] /\ Q e.2) m.
Proof.
  intros Hs Hq Hn. apply Forall_forall. intros [k v] Hin. split; [by eapply Forall_forall in Hn|].
  apply (Hq k). apply om_find_Some; [apply _|done|]. exists k. split; [done|by apply lex_equiv].
Qed.

Lemma handles_listen ps h :
  h_ports h = [] -> StronglySorted (fun a b => lex_ltb a b = true) ps -> Forall port_ok ps -> ps <> [] ->
  handles (@host_view W) fuel (handleHostToken fuel) (`s"listen") (render_values ps) h (h <| h_ports := ps |>).
Proof.
  intros Hnil Hs Hp Hne s t Ht Hf.
  change (handleHostToken fuel (`s"listen") h) with (parsePorts (W:=W) fuel h).
  unfold parsePorts. eapply reads_in_bind with (n' := 0%nat).
  - eapply reads_value_list; [apply host_view_core|exact fuel_small|exact Ht| |lia].
    eapply Forall_impl; [exact Hp|]. intros p Hpo ->. by vm_compute in Hpo.
  - cbn [app]. pose proof (insert_ports_sorted ps h) as Hi. rewrite Hnil in Hi. rewrite Hi by done.
    destruct ps; [done|]. apply reads_reads_in, reads_ret. apply host_view_core.
  - lia.
Qed.

Lemma handles_hostname addr h :
  addr <> [] ->
  handles (@host_view W) fuel (handleHostToken fuel) (`s"host") (render_values [addr]) h (h <| h_addr := addr |>).
Proof.
  intros Ha s t Ht Hf. change (handleHostToken fuel (`s"host") h) with (parseHostName (W:=W) fuel h).
  unfold parseHostName. eapply reads_in_bind with (n' := 0%nat);
    [eapply quoted_word; [apply host_view_core|exact Ht|done|lia]| |lia].
  cbn [app negb Z.eqb]. apply reads_reads_in, reads_ret. apply host_view_core.
Qed.

Lemma handles_names names h :
  h_server_names h = [] -> Forall (fun n => n <> []) names -> names <> [] ->
  handles (@host_view W) fuel (handleHostToken fuel) (`s"server_name") (render_values names) h
    (h <| h_server_names := names |>).
Proof.
  intros Hnil Hn Hne s t Ht Hf. change (handleHostToken fuel (`s"server_name") h) with (parseServerName (W:=W) fuel h).
  unfold parseServerName. eapply reads_in_bind with (n' := 0%nat).
  - eapply reads_value_list; [apply host_view_core|exact fuel_small|exact Ht|done|lia].
  - rewrite Hnil. cbn [app]. destruct names; [done|]. apply reads_reads_in, reads_ret. apply host_view_core.
  - lia.
Qed.

Lemma handles_size n h :
  0 <= n <= INT32_MAX ->
  handles (@host_view W) fuel (handleHostToken fuel) (`s"body_max_size") (render_values [IntToString n 10]) h
    (h <| h_body_max_size := n |>).
Proof.
  intros Hn s t Ht Hf. change (handleHostToken fuel (`s"body_max_size") h) with (parseBodyMaxSize (W:=W) fuel h).
  unfold parseBodyMaxSize. destruct (IntToString_spec 10 n) as (Hpr & _); [by left|done|].
  eapply reads_in_bind with (n' := 0%nat); [eapply quoted_word; [apply host_view_core|exact Ht|done|lia]| |lia].
  cbn [app]. rewrite getInt_print by (by left || done). cbn [negb Z.eqb].
  apply reads_reads_in, reads_ret. apply host_view_core.
Qed.

Lemma host_runs h : writable h -> runs (handleHostToken fuel) (host_directives h) Host_init h.
Proof.
  intros (((Hp & Hps & Hns & Hls & Hcs & Hl & Hc & Hcl & Hsv) & Ha & Hpne & Hnne & _) & Hsize & Hln & Hcn).
  unfold host_directives.
  set (h1 := Host_init <| h_ports := h_ports h |>).
  set (h2 := h1 <| h_addr := h_addr h |>).
  set (h3 := h2 <| h_server_names := h_server_names h |>).
  set (h4 := h3 <| h_body_max_size := h_body_max_size h |>).
  set (h5 := h4 <| h_dir_errors := h_dir_errors h |>).
  set (h6 := h5 <| h_locationMap := h_locationMap h |>).
  eapply runs_app with (o1 := h4).
  { apply (runs_app host_view fuel _ [_] [_; _; _] _ h1).
    { apply handled; [reflexivity|]. by apply handles_listen. }
    apply (runs_app host_view fuel _ [_] [_; _] _ h2).
    { apply handled; [reflexivity|]. by apply handles_hostname. }
    apply (runs_app host_view fuel _ [_] [_] _ h3).
    { apply handled; [reflexivity|]. by apply handles_names. }
    apply handled; [reflexivity|]. by apply handles_size. }
  eapply runs_app with (o1 := h5).
  { destruct (h_dir_errors h) as [|c u] eqn:E; cbn [is_empty negb optional]; [subst h5; constructor|].
    apply handled; [reflexivity|].
    eapply (handles_store host_view host_view_core fuel _ _ _ _ _ (fun v => h4 <| h_dir_errors := v |>)); [reflexivity|].
    intros s t Ht Hf. eapply reads_path; [apply host_view_core|exact Ht|done|lia|done]. }
  eapply runs_app with (o1 := h6).
  - apply (locations_run (h_locationMap h) h5); [exact Hls|]. by apply map_entries.
  - assert (h6 <| h_cgiMap := h_cgiMap h |> = h) as Hh.
    { destruct h. cbn in *. by subst. }
    rewrite <- Hh at 2. apply (cgis_run (h_cgiMap h) h6); [exact Hcs|]. by apply map_entries.
Qed.
End hosts.

(** ** Files *)
Definition server_dir (h : Host) : str * str := (`s"server", nested [] (render_block (host_directives h))).
Definition render_config (pages : str) (hs : list Host) : str :=
  render_block ((`s"default_error_pages", render_values [pages]) :: map server_dir hs).

Lemma host_neutral h : neutral (render_block (host_directives h)).
Proof.
  apply neutral_block. unfold host_directives, optional.
  apply Forall_app; split; [|apply Forall_app; split; [|apply Forall_app; split]].
  - repeat constructor;
      (apply neutral_directive; [apply (bool_decide_unpack _); vm_compute; exact I|apply neutral_values]).
  - case_match; repeat constructor.
    apply neutral_directive; [apply (bool_decide_unpack _); vm_compute; exact I|apply neutral_values].
  - apply Forall_fmap, Forall_true. intros [n l].
    apply neutral_directive; [apply (bool_decide_unpack _); vm_compute; exact I|apply neutral_nested, loc_neutral].
  - apply Forall_fmap, Forall_true. intros [n c].
    apply neutral_directive; [apply (bool_decide_unpack _); vm_compute; exact I|apply neutral_nested, cgi_neutral].
Qed.

Section files.
Context {W : Type} `{!Registry W}.

(** The hosts are accepted one after the other. *)
Fixpoint add_hosts (pages : str) (hs : list Host) (w : W) : option W :=
  match hs with
  | [] => Some w
  | h :: hs =>
      let h := default_pages pages h in
      if reg_checkServerNames (h_addr h) (h_ports h) (h_server_names h) w then
        match reg_addHost h w with (false, w) => add_hosts pages hs w | (true, _) => None end
      else None
  end.

Lemma checkHost_wf h (g : cfg W) s :
  host_wf h ->
  (let h := default_pages (c_default_error_pages g) h in
   reg_checkServerNames (h_addr h) (h_ports h) (h_server_names h) (c_world g) = true) ->
  checkHost h g s = POk (default_pages (c_default_error_pages g) h) g s.
Proof.
  intros (Hst & Ha & Hp & Hn & Hl) Hc. unfold checkHost.
  destruct (str_eqb (h_addr h) []) eqn:E1; [by apply str_eqb_eq in E1|].
  destruct (Nat.eqb_spec (length (h_ports h)) 0) as [E2|_]; [by apply length_zero_iff_nil in E2|].
  unfold mbind, P_bind, gets. cbv beta iota zeta in Hc |- *.
  set (h1 := default_pages (c_default_error_pages g) h) in *.
  assert (h_server_names h1 = h_server_names h /\ h_locationMap h1 = h_locationMap h) as [H1 H2]
    by (unfold h1, default_pages; by destruct (str_eqb (h_dir_errors h) [])).
  destruct (Nat.eqb_spec (length (h_server_names h1)) 0) as [E3|_].
  { rewrite H1 in E3. by apply length_zero_iff_nil in E3. }
  rewrite bool_decide_eq_true_2 by (unfold getLocation in *; by rewrite H2). cbn [negb].
  by rewrite Hc.
Qed.

Context (fuel : nat) (fuel_small : Z.of_nat fuel <= INT32_MAX).

Lemma reads_host h pages w w' t s (g : cfg W) :
  writable h -> c_default_error_pages g = pages -> c_world g = w ->
  add_hosts pages [h] w = Some w' ->
  at_text s (nested [] (render_block (host_directives h)) ++ SEMICOLON :: t) ->
  (length (nested [] (render_block (host_directives h))) + length t + 2 < fuel)%nat ->
  exists g', parseHost fuel g s = POk tt g' (advance (length (nested [] (render_block (host_directives h)))) s) /\
    c_world g' = w' /\ c_default_error_pages g' = pages /\ c_error g' = c_error g.
Proof.
  intros Hw Hpages Hworld Hadd Ht Hf. set (body := render_block (host_directives h)) in *.
  change (nested [] body) with ([SPACE] ++ LBRACE :: body ++ [RBRACE]) in *.
  cbn [app length] in Hf. rewrite length_app in Hf. cbn [length] in Hf.
  unfold parseHost, mbind, P_bind, mark_block, modify at 1.
  set (g0 := g <| c_lineNbrEndOfBlock := c_lineNbr g |>).
  assert (reads (getNextBlock (W:=W) fuel) s body (3 + length body)) as Hb.
  { intros g1. rewrite <- app_assoc in Ht. cbn [app] in Ht. rewrite <- app_assoc in Ht. cbn [app] in Ht.
    pose proof (block_loop_spec fuel _ s false false 0 [] g1 Ht ltac:(cbn [length]; rewrite length_app; cbn [length]; lia)
      ltac:(lia) ltac:(done)) as H.
    change (read_block (SPACE :: LBRACE :: body ++ RBRACE :: SEMICOLON :: t) false false 0 [])
      with (read_block (LBRACE :: body ++ RBRACE :: SEMICOLON :: t) false false 0 []) in H.
    rewrite read_block_body in H by apply host_neutral. destruct H as (p & g' & Hp & H & Hg). exists g'.
    unfold getNextBlock. rewrite H. split; [|done]. do 2 f_equal.
    apply (f_equal length) in Hp. cbn [length] in Hp. rewrite !length_app in Hp. cbn [length] in Hp. lia. }
  destruct (Hb g0) as (g1 & -> & H1). apply host_view_core in H1.
  unfold try_config, with_stream, mbind, P_bind.
  destruct (parseBlock_runs host_view host_view_core fuel _ _ _ _ g1 (host_runs fuel fuel_small h Hw) ltac:(fold body; lia))
    as (g2 & s2 & Hp & H2). fold body in Hp. rewrite Hp.
  assert (host_view g2 = host_view g) as Hv by (rewrite H2, H1; done). unfold host_view in Hv.
  injection Hv as Hv1 Hv2 Hv3.
  cbn [add_hosts] in Hadd. rewrite <- Hworld, <- Hpages, <- Hv1, <- Hv2 in Hadd.
  destruct (reg_checkServerNames _ _ _ _) eqn:Ec in Hadd; [|done].
  rewrite (checkHost_wf h g2 s2); [|by apply Hw|exact Ec].
  unfold host_addHost. destruct (reg_addHost _ _) as [[|] w1]; [done|]. injection Hadd as <-.
  exists (g2 <| c_world := w1 |>). split; [|split; [reflexivity|]].
  - f_equal. f_equal. cbn [app length]. rewrite length_app. cbn [length]. lia.
  - cbn. by rewrite Hv2, Hv3.
Qed.

Lemma servers_run hs : forall n pages w w' s (g : cfg W),
  Forall writable hs -> c_default_error_pages g = pages -> c_world g = w -> add_hosts pages hs w = Some w' ->
  at_text s (render_block (map server_dir hs)) -> (length hs < n)%nat ->
  (length (render_block (map server_dir hs)) + 4 < fuel)%nat ->
  exists g' s', block_tokens n fuel (handleConfigToken fuel) tt g s = POk tt g' s' /\
    c_world g' = w' /\ c_default_error_pages g' = pages /\ c_error g' = c_error g.
Proof.
  induction hs as [|h hs IH]; intros n pages w w' s g Hw Hpages Hworld Hadd Ht Hn Hf;
    (destruct n as [|n]; [simpl in Hn; lia|]).
  { injection Hadd as <-. cbn [block_tokens]. unfold mbind, P_bind.
    destruct (getNextWord_end fuel s g Ht ltac:(lia)) as [s' ->]. by exists g, s'. }
  inversion_clear Hw as [|? ? Hh Hhs]. cbn [map] in Ht, Hf. rewrite render_block_cons in Ht, Hf.
  rewrite length_app in Hf. change (server_dir h) with (`s"server", nested [] (render_block (host_directives h))) in Ht, Hf.
  assert (exists w1, add_hosts pages [h] w = Some w1 /\ add_hosts pages hs w1 = Some w') as (w1 & Ha1 & Ha2).
  { cbn [add_hosts] in Hadd |- *. destruct (reg_checkServerNames _ _ _ _); [|done].
    destruct (reg_addHost _ _) as [[|] w1]; [done|]. by exists w1. }
  destruct (directive_step fuel (handleConfigToken fuel) n (`s"server")
      (nested [] (render_block (host_directives h))) (render_block (map server_dir hs)) tt tt s g
      (fun g2 => c_world g2 = w1 /\ c_default_error_pages g2 = pages /\ c_error g2 = c_error g))
    as (g2 & g3 & (H2w & H2p & H2e) & H3 & Ht3 & ->);
    [by apply (bool_decide_unpack _); vm_compute|done|exact Ht|lia| |].
  - intros g1 H1 Ht1. apply host_view_core in H1. unfold host_view in H1. injection H1 as H1w H1p H1e.
    unfold directive in Hf. cbn [fst snd length] in Hf. rewrite !length_app in Hf.
    destruct (reads_host h pages w w1 (render_block (map server_dir hs)) (advance (S (length (`s"server"))) s) g1 Hh) as (g2 & Hp & Hq);
      [congruence|congruence|done|exact Ht1|lia|].
    exists g2. split; [exact Hp|]. rewrite <- H1e. exact Hq.
  - apply host_view_core in H3. unfold host_view in H3. injection H3 as H3w H3p H3e.
    destruct (IH n pages w1 w' (advance (length (directive (`s"server", nested [] (render_block (host_directives h))))) s) g3 Hhs) as (g4 & s4 & -> & H4w & H4p & H4e);
      [congruence|congruence|done|exact Ht3|simpl in Hn; lia|lia|].
    exists g4, s4. split_and!; [done|done|done|congruence].
Qed.

Lemma config_small pages hs w w' :
  Forall writable hs -> pages <> [] -> add_hosts pages hs w = Some w' ->
  (length (render_config pages hs) + 4 < fuel)%nat ->
  exists g' s', parseConfigText fuel (cfg_init w) (open_stream (render_config pages hs)) = POk 0 g' s' /\
    c_world g' = w' /\ c_default_error_pages g' = pages /\ c_error g' = false.
Proof.
  intros Hw Hp Hadd Hf. unfold parseConfigText. set (s0 := open_stream _).
  assert (at_text s0 (render_config pages hs)) as Ht by apply at_text_open.
  unfold render_config in Ht, Hf. rewrite render_block_cons in Ht, Hf. rewrite length_app in Hf.
  assert (exists n, fuel = S n) as [n Hn] by (exists (pred fuel); lia).
  assert (block_tokens fuel fuel (handleConfigToken fuel) tt = block_tokens (S n) fuel (handleConfigToken fuel) tt) as ->
    by (by rewrite <- Hn).
  destruct (directive_step fuel (handleConfigToken fuel) n (`s"default_error_pages")
      (render_values [pages]) (render_block (map server_dir hs)) tt tt s0 (cfg_init w)
      (fun g2 => c_world g2 = w /\ c_default_error_pages g2 = pages /\ c_error g2 = false))
    as (g2 & g3 & (H2w & H2p & H2e) & H3 & Ht3 & ->);
    [by apply (bool_decide_unpack _); vm_compute|done|exact Ht|lia| |].
  - intros g1 H1 Ht1. apply host_view_core in H1. unfold host_view in H1. injection H1 as H1w H1p H1e.
    unfold directive in Hf. cbn [fst snd length] in Hf. rewrite !length_app in Hf.
    change (handleConfigToken fuel (`s"default_error_pages") tt) with (parseDefaultErrorPages (W:=W) fuel).
    unfold parseDefaultErrorPages.
    destruct (reads_path host_view host_view_core fuel pages (Some (`s"default error page location")) None (advance (S (length (`s"default_error_pages"))) s0) _ Ht1 Hp
      ltac:(lia) I g1) as (g2 & -> & H2). unfold host_view in H2. injection H2 as H2w H2p H2e.
    eexists. split; [reflexivity|]. cbn. split_and!; congruence.
  - apply host_view_core in H3. unfold host_view in H3. injection H3 as H3w H3p H3e.
    pose proof (length_render_block (map server_dir hs)) as Hl. rewrite length_map in Hl.
    destruct (servers_run hs n pages w w' (advance (length (directive (`s"default_error_pages", render_values [pages]))) s0) g3 Hw) as (g4 & s4 & -> & H4w & H4p & H4e);
      [congruence|congruence|done|exact Ht3|unfold directive in Hf; cbn in Hf; lia|lia|].
    unfold finish, mbind, P_bind, gets. cbv beta iota. rewrite H4p.
    destruct (str_eqb pages []) eqn:E; [by apply str_eqb_eq in E|].
    exists g4, s4. split_and!; [done|done|done|congruence].
Qed.
End files.

(** C1: A configuration that is written out from hosts, values quoted and blocks
    nested, is read back: the parser returns without an error and has
    registered exactly these hosts, in order, with the default error pages
    filled in. *)
Theorem parseConfigText_render {W} `{!Registry W} fuel pages hs w w' :
  Forall writable hs -> pages <> [] -> add_hosts pages hs w = Some w' ->
  Z.of_nat (length (render_config pages hs)) + 5 <= INT32_MAX ->
  (length (render_config pages hs) + 5 <= fuel)%nat ->
  exists g s, parseConfigText fuel (cfg_init w) (open_stream (render_config pages hs)) = POk 0 g s /\
    c_world g = w' /\ c_default_error_pages g = pages /\ c_error g = false.
Proof.
  intros Hw Hp Hadd Hsmall Hf.
  destruct (config_small (length (render_config pages hs) + 5) ltac:(lia) pages hs w w' Hw Hp Hadd ltac:(lia))
    as (g & s & Hrun & Hres).
  exists g, s. split; [|done]. rewrite <- Hrun.
  destruct (parseConfigText_below (length (render_config pages hs) + 5) fuel Hf (cfg_init w)
    (open_stream (render_config pages hs))); congruence.
Qed.

Definition demo_location : Location :=
  Location_init <| loc_root := `s"www/" |> <| loc_redir := 301 |> <| loc_addr_redir := [`s"/x"] |>.
Definition written_host : Host :=
  Host_init <| h_addr := `s"0.0.0.0" |> <| h_ports := [`s"80"; `s"81"] |> <| h_server_names := [`s"a"; [DQUOTE]] |>
            <| h_locationMap := [(`s"*", demo_location)] |>.

Lemma written_host_writable : writable written_host.
Proof.
  assert (loc_wf demo_location) as Hl.
  { split; [|reflexivity]. split_and!; [by right|by vm_compute|by left|]. right. cbn.
    split_and!; [|done|repeat constructor; done]. apply (bool_decide_unpack _). vm_compute. exact I. }
  split; [|split_and!; [by vm_compute..|by repeat constructor|constructor]].
  split; [|split_and!; [done..|by eexists]].
  split_and!; try done; try (by repeat constructor).
  intros n l Hf. apply om_find_Some in Hf as (k & Hin & _); [|apply _|by repeat constructor].
  apply list_elem_of_singleton in Hin as [= _ ->]. exact Hl.
Qed.

Definition added_world : world :=
  Eval vm_compute in default world_init
    (@add_hosts world (listen_registry demo_network) (`s"err/") [written_host] world_init).

Lemma added_world_eq :
  @add_hosts world (listen_registry demo_network) (`s"err/") [written_host] world_init = Some added_world.
Proof. vm_compute. reflexivity. Qed.

Lemma parseConfigText_render_witness :
  exists g s, @parseConfigText world (listen_registry demo_network) 400 (cfg_init world_init)
      (open_stream (render_config (`s"err/") [written_host])) = POk 0 g s /\
    c_world g = added_world /\ c_default_error_pages g = `s"err/" /\ c_error g = false.
Proof.
  apply (@parseConfigText_render world (listen_registry demo_network) 400 (`s"err/") [written_host] world_init added_world).
  - constructor; [exact written_host_writable|constructor].
  - discriminate.
  - exact added_world_eq.
  - vm_compute. discriminate.
  - apply Nat.leb_le. vm_compute. reflexivity.
Defined.
