(* ===== verification/ServerFacts.v ===== *)
(** * ServerFacts: the theorems about the running server

    From the configuration on, every turn of the main loop keeps the pointers
    between servers, hosts and clients sound; connections, turns of clients,
    time-outs, the removal of one server and the final shutdown run to their end
    without undefined behaviour.  The exceptions -- removing a host that has
    clients, an unclosed quote at the prompt -- are theorems too. *)

From S2P Require Import Prelude CxxString OrdMap Format Http RequestHeaders RequestUri Host Response Cgi Client Control ControlFacts ConfigLex ConfigLexFacts Config Listen ListenFacts TurnFacts Links Removal Server Rosters Registration ConfigFacts ConfigProps.
#[local] Open Scope Z_scope.

(** ** Lemmas *)
Lemma accept_connected now fd a s w :
  obj_get a (w_serverList w) = Some s ->
  Z.of_nat (length (ls_connectedClients s)) < ls_maxClientNbr s -> 0 <= fd ->
  acceptConnection now fd a w =
  Ret (Some (w_fresh w), connected a (mkConn fd a None
    (Client_init now (resolve_map (w_hostList w) (ls_hostMap s)))) w).
Proof.
  intros Hs Hmax Hfd. unfold acceptConnection, get_server. rewrite Hs. cbn [deref mbind outcome_bind].
  rewrite (proj2 (Z.leb_gt _ _)) by done. rewrite (proj2 (Z.ltb_ge _ _)) by done. done.
Qed.

Lemma good_connected a s now fd w :
  good w -> obj_get a (w_serverList w) = Some s ->
  good (connected a (mkConn fd a None (Client_init now (resolve_map (w_hostList w) (ls_hostMap s)))) w).
Proof.
  intros [Hl Hsn] Hs. set (k0 := mkConn _ _ _ _). split; [by apply links_connect|].
  assert (forall m b, map_of_server m w b -> map_of_server m (connected a k0 w) b) as Hm.
  { intros m b (t & Ht & Hsame). unfold map_of_server. cbn. rewrite obj_get_update, Ht.
    destruct (Nat.eqb a b); by eexists. }
  intros c k. cbn. rewrite (obj_get_add (w_fresh w)) by apply Hl. destruct (Nat.eqb c _).
  - intros [= <-]. split; [|by split]. apply Hm. exists s. split; [done|].
    apply resolve_map_same. by apply (lk_map _ _ Hl _ _ Hs).
  - intros Hk. destruct (Hsn c k Hk) as (H1 & H2 & H3). split; [by apply Hm|by split].
Qed.

Lemma accept_good now fd a w : good w ->
  yields (acceptConnection now fd a w) (fun x => good x.2) (fun e => good e.2).
Proof.
  intros Hg. destruct (obj_get a (w_serverList w)) as [s|] eqn:Hs.
  2:{ unfold acceptConnection, get_server. by rewrite Hs. }
  destruct (Z.leb_spec (ls_maxClientNbr s) (Z.of_nat (length (ls_connectedClients s)))) as [Hmax|Hmax].
  { unfold acceptConnection, get_server. rewrite Hs. cbn [deref mbind outcome_bind].
    by rewrite (proj2 (Z.leb_le _ _)). }
  destruct (Z.ltb_spec fd 0) as [Hfd|Hfd].
  { unfold acceptConnection, get_server. rewrite Hs. cbn [deref mbind outcome_bind].
    rewrite (proj2 (Z.leb_gt _ _)) by done. by rewrite (proj2 (Z.ltb_lt _ _)). }
  rewrite (accept_connected _ _ _ s) by done. by apply good_connected.
Qed.

(** The client a turn starts from. *)
Definition turn_start (k : conn) (w : world) : Client :=
  (cn_client k) <| cl_hostMap := match obj_get (cn_server k) (w_serverList w) with
                                 | Some s => resolve_map (w_hostList w) (ls_hostMap s)
                                 | None => [] end |>.

Lemma refresh_start k w : good w -> is_Some (obj_get (cn_server k) (w_serverList w)) ->
  refresh_map k w = Ret (turn_start k w) /\ map_of_server (cl_hostMap (turn_start k w)) w (cn_server k).
Proof.
  intros [Hl _] [s Hs]. unfold refresh_map, turn_start, get_server. rewrite Hs. split; [done|].
  exists s. split; [done|]. apply resolve_map_same. by apply (lk_map _ _ Hl _ _ Hs).
Qed.

Lemma turn_good c k hup ein eout os pages w : good w -> obj_get c (w_clientList w) = Some k ->
  match client_event os pages hup ein eout (turn_start k w) with
  | Ret new => exists w', turn_client c hup ein eout os pages w = Ret w' /\ good w' /\ after [c] w w' /\
      if cl_terminated new then obj_get c (w_clientList w') = None
      else exists k', obj_get c (w_clientList w') = Some k' /\ cn_client k' = new
  | Throw (e, new) => exists w', turn_client c hup ein eout os pages w = Throw (e, w') /\ good w' /\ after [c] w w' /\
      exists k', obj_get c (w_clientList w') = Some k' /\ cn_client k' = new
  | Undef => turn_client c hup ein eout os pages w = Undef
  | Diverge => turn_client c hup ein eout os pages w = Diverge
  end.
Proof.
  intros Hg Hk. destruct (lk_conn _ _ (proj1 Hg) _ _ Hk) as [Hs _].
  destruct (refresh_start k w Hg Hs) as [Hr Hm]. unfold turn_client, get_client. rewrite Hk.
  cbn [deref mbind outcome_bind]. rewrite Hr. cbn [mbind outcome_bind].
  pose proof (client_event_turns os pages hup ein eout (turn_start k w)) as Ht.
  destruct (good_client _ _ _ Hg Hk) as [_ Hterm].
  destruct (client_event os pages hup ein eout (turn_start k w)) as [new|[e new]| |]; [..|done|done]; cbn [settle].
  - destruct (commit_good c k (turn_start k w) new w) as (w' & -> & H); try done. by exists w'.
  - cbn [yields snd] in Ht. destruct (commit_good c k (turn_start k w) new w) as (w' & -> & H1 & H2 & H3); try done; [by left|].
    exists w'. do 3 (split; [done|]).
    assert (cl_terminated new = false) as E by (rewrite (proj1 (proj2 Ht)); exact Hterm). by rewrite E in H3.
Qed.

(** Whether it returns or throws, it leaves a sound world. *)
Definition sound_world {A} (p : A -> world) (m : failing world A) : Prop :=
  yields m (fun x => good (p x)) (fun e => good e.2).

Lemma turn_keeps_good c hup ein eout os pages w : good w -> sound_world id (turn_client c hup ein eout os pages w).
Proof.
  intros Hg. destruct (obj_get c (w_clientList w)) as [k|] eqn:Hk.
  2:{ unfold turn_client, get_client. by rewrite Hk. }
  pose proof (turn_good c k hup ein eout os pages w Hg Hk) as H.
  destruct (client_event _ _ _ _ _ _) as [new|[e new]| |].
  - destruct H as (w' & -> & Hg' & _). exact Hg'.
  - destruct H as (w' & -> & Hg' & _). exact Hg'.
  - by rewrite H.
  - by rewrite H.
Qed.

(** [checkTO] always returns. *)
Lemma check_timeout_returns os pages c : exists c', check_timeout os pages c = Ret c'.
Proof.
  destruct (cl_response c) as [r|] eqn:Hr.
  - unfold check_timeout. destruct (_ && _); [|by eexists]. destruct (cl_request c); [|by eexists].
    cbv zeta. set (c1 := set_request _ _). rewrite (generateResponse_held os pages c1 408 r) by exact Hr. by eexists.
  - unfold check_timeout. destruct (_ && _); [|by eexists]. destruct (cl_request c) as [q|]; [|by eexists].
    cbv zeta. set (c1 := set_request _ _).
    destruct (generateResponse_error os pages c1 408) as (c' & s & -> & _); [exact Hr|done..|]. by eexists.
Qed.

Lemma check_clients_good os pages cs : forall w, good w -> NoDup cs ->
  (forall c, c ∈ cs -> is_Some (obj_get c (w_clientList w))) ->
  exists w', check_clients os pages cs w = Ret w' /\ good w'.
Proof.
  induction cs as [|c cs IH]; intros w Hg Hn Hall; cbn [check_clients]; [by exists w|].
  apply NoDup_cons in Hn as [Hc Hn]. destruct (Hall c) as [k Hk]; [by left|].
  unfold get_client. rewrite Hk. cbn [deref mbind outcome_bind]. cbv zeta.
  destruct (check_timeout_returns os pages (cn_client k)) as [new Hnew].
  pose proof (check_timeout_turns os pages (cn_client k)) as Ht. rewrite Hnew in Ht |- *. cbn [settle].
  destruct (good_client _ _ _ Hg Hk) as [Hm Hterm].
  destruct (commit_good c k (cn_client k) new w) as (w1 & -> & Hg1 & Ha1 & _); [done..|].
  cbn [mbind outcome_bind]. destruct (cl_terminated new); [by exists w1|]. apply IH; [done|done|].
  intros b Hb. rewrite (af_clients _ _ _ Ha1); [apply Hall; by right|]. by intros ->%list_elem_of_singleton.
Qed.

Lemma checkTO_good os pages w : good w -> exists w', checkTO os pages w = Ret w' /\ good w'.
Proof.
  intros Hg. apply check_clients_good; [done|apply (lk_clients _ _ (proj1 Hg))|].
  intros c Hc. destruct (obj_get c (w_clientList w)) eqn:E; [by eexists|]. by apply obj_get_None in E.
Qed.

Lemma removeServers_good w : good w -> exists w', removeServers w = Ret w' /\ good w' /\ w_serverList w' = [].
Proof. intros Hg. by apply remove_servers_good. Qed.

Lemma findServer_get ip port w a s : good w -> findServer ip port w = Some (a, s) -> obj_get a (w_serverList w) = Some s.
Proof. intros [Hl _] (Hin & _)%findServer_elem. apply obj_get_elem; [apply Hl|done]. Qed.

(** The command that removes a host. *)
Definition kills_host (words : list str) : bool :=
  match words with
  | [cmd; arg; _; _] => str_eqb cmd (`s"kill") && negb (str_eqb arg (`s"all"))
  | _ => false
  end.

Lemma command_good words w : good w -> kills_host words = false ->
  exists w', parseCommandPrompt words w = Ret w' /\ good w'.
Proof.
  intros Hg Hk. unfold parseCommandPrompt. destruct words as [|cmd words]; [by exists w|].
  destruct (str_eqb cmd (`s"kill")) eqn:Ecmd; [|by exists w].
  destruct (removeServers_good w Hg) as (w' & Hr & Hg' & _). unfold handleKillCommand.
  destruct words as [|arg [|port [|host [|? ?]]]]; try by exists w.
  - destruct (str_eqb arg _); [by exists w'|by exists w].
  - destruct (str_eqb arg _); [by exists w'|]. unfold removeServer_at. destruct (findServer arg port w) as [[a s]|] eqn:Ef; [|by exists w].
    destruct (removeServer_good a s w) as (w2 & H2 & Hg2 & _); [done|by eapply findServer_get|by exists w2].
  - unfold kills_host in Hk. rewrite Ecmd in Hk. apply negb_false_iff in Hk. rewrite Hk. by exists w'.
Qed.

Lemma host_gone c h x w w' : good w -> obj_get h (w_hostList w) = Some x -> c ∈ h_clients x ->
  terminateClient c w = Ret w' -> forall x', obj_get h (w_hostList w') = Some x' -> c ∉ h_clients x'.
Proof.
  intros Hg Hx Hc E x' Hx' Hin.
  apply (gu_clients _ _ _ _ (lk_guests _ _ (proj1 Hg) _ _ Hx)) in Hc as (_ & k & Hk & _).
  destruct (terminateClient_good _ _ _ Hg Hk) as (w2 & E2 & Hg2 & _ & Hd). assert (w2 = w') as -> by congruence.
  apply (gu_clients _ _ _ _ (lk_guests _ _ (proj1 Hg2) _ _ Hx')) in Hin as (_ & k' & Hk' & _). congruence.
Qed.

(** ** Reachable states *)

(** The event is not the command that removes a host. *)
Definition spares_hosts (fuel : nat) (e : epoll_event) (g : state) : Prop :=
  match e with
  | StdinEvent _ _ _ line =>
      match parseValues fuel [] 100 g (open_stream line) with
      | POk words _ _ => kills_host words = false
      | _ => True
      end
  | _ => True
  end.

(** The states of the program once its servers are started: any configuration
    file, any network, any events in any order, time-outs at any moment. *)
Inductive serving (nw : network) : state -> Prop :=
  | serving_start fuel fs path r g s ret w :
      @parseConfigFile world (listen_registry nw) fuel fs path world_init = POk r g s ->
      startServers nw (c_world g) = (ret, w) ->
      serving nw (g <| c_world := w |>)
  | serving_event fuel now e g res g' :
      serving nw g -> spares_hosts fuel e g -> handle_event fuel now e g = Ret (res, g') -> serving nw g'
  | serving_check os g w :
      serving nw g -> checkTO os (c_default_error_pages g) (c_world g) = Ret w -> serving nw (g <| c_world := w |>).

Lemma parseValues_world fuel words max g s words' g' s' :
  @parseValues world fuel words max g s = POk words' g' s' -> Forall (fun w => w <> []) words -> c_world g' = c_world g.
Proof.
  intros E Hw. pose proof (parseValues_sound (W:=world) fuel words max Hw g s) as H. rewrite E in H.
  by destruct H as [_ [H _]].
Qed.

(** The same for the whole state. *)
Definition sound_state {A} (p : A -> state) (m : failing state A) : Prop :=
  yields m (fun x => good (c_world (p x))) (fun e => good (c_world e.2)).

Lemma on_world_good f g : (forall w, good w -> sound_world id (f w)) -> good (c_world g) ->
  sound_state id (on_world f g).
Proof.
  intros Hf Hg. unfold on_world. eapply yields_bind; [|by intros w].
  apply yields_map_exn. exact (Hf _ Hg).
Qed.

Lemma sound_returns {A} (p : A -> world) m (Q : A -> Prop) :
  (exists a, m = Ret a /\ Q a) -> (forall a, Q a -> good (p a)) -> sound_world p m.
Proof. intros (a & -> & Ha) H. by apply H. Qed.

Lemma handle_event_good fuel now e g : good (c_world g) -> spares_hosts fuel e g ->
  sound_state snd (handle_event fuel now e g).
Proof.
  assert (forall f g, (forall w, good w -> sound_world id (f w)) -> good (c_world g) -> forall r : Z,
    sound_state snd (g ← on_world f g; Ret (r, g))) as Hw.
  { intros f g0 Hf Hg r. eapply yields_bind; [by apply on_world_good|]. by intros g1. }
  intros Hg Hs. destruct e as [hup ein eof line|a fd|c hup ein eout os]; cbn [handle_event].
  - unfold handleCommandPrompt. destruct (_ || _).
    { apply Hw; [|done]. intros w Hgw. eapply sound_returns; [by apply removeServers_good|]. by intros w' [? _]. }
    destruct (negb ein); [done|]. cbn in Hs.
    pose proof (parseValues_sound (W:=world) fuel [] 100 (Forall_nil_2 _) g (open_stream line)) as Hp.
    destruct (parseValues fuel [] 100 g (open_stream line)) as [words g1 s1|e1 g1|] eqn:E; [| |done].
    + apply parseValues_world in E; [|constructor]. apply Hw; [|by rewrite E].
      intros w Hgw. eapply sound_returns; [by apply command_good|]. done.
    + unfold sound_state. cbn. by rewrite (proj1 Hp).
  - apply Hw; [|done]. intros w Hgw. unfold handleListenEvent.
    eapply yields_bind; [by apply accept_good|]. by intros [o w'].
  - apply Hw; [|done]. intros w Hgw. by apply turn_keeps_good.
Qed.

Lemma serving_links nw g : serving nw g -> good (c_world g).
Proof.
  induction 1 as [fuel fs path r g s ret w E Hstart|fuel now e g res g' _ IH Hs E|os g w _ IH E].
  - cbn. apply configured_good. eapply startServers_configured; [|exact Hstart].
    by destruct (parseConfigFile_registered _ _ _ _ _ _ _ E world_init_ready) as [[H _] _].
  - pose proof (handle_event_good fuel now e g IH Hs) as H. by rewrite E in H.
  - cbn. destruct (checkTO_good os (c_default_error_pages g) (c_world g) IH) as (w' & E' & Hg). congruence.
Qed.

(** The sets of the hosts in these states. *)
Lemma command_rosters words w w' : good w -> sets_agree w -> kills_host words = false ->
  parseCommandPrompt words w = Ret w' -> sets_agree w' /\ (sets_alive w -> sets_alive w').
Proof.
  intros Hg Hag Hk. unfold parseCommandPrompt. destruct words as [|cmd words]; [by intros [= <-]|].
  destruct (str_eqb cmd (`s"kill")) eqn:Ecmd; [|by intros [= <-]].
  assert (removeServers w = Ret w' -> sets_agree w' /\ (sets_alive w -> sets_alive w')) as Hall
    by (intros H; by eapply remove_servers_rosters).
  unfold handleKillCommand. destruct words as [|arg [|port [|host [|? ?]]]]; try by intros [= <-].
  - destruct (str_eqb arg _); [done|by intros [= <-]].
  - destruct (str_eqb arg _); [done|]. unfold removeServer_at.
    destruct (findServer arg port w) as [[a s]|]; [by apply removeServer_rosters|by intros [= <-]].
  - unfold kills_host in Hk. rewrite Ecmd in Hk. apply negb_false_iff in Hk. by rewrite Hk.
Qed.

Lemma handle_event_rosters fuel now e g res g' : good (c_world g) -> spares_hosts fuel e g ->
  handle_event fuel now e g = Ret (res, g') -> sets_agree (c_world g) ->
  sets_agree (c_world g') /\ (sets_alive (c_world g) -> sets_alive (c_world g')).
Proof.
  intros Hg Hs E Hag.
  assert (forall f g1 r, c_world g1 = c_world g -> (g ← on_world f g1; Ret (r, g)) = Ret (res, g') ->
    f (c_world g) = Ret (c_world g')) as Hw.
  { intros f g1 r E1 (g2 & (w & H1%map_exn_ret & [= <-])%bind_ret_inv & [= _ <-])%bind_ret_inv. by rewrite E1 in H1. }
  destruct e as [hup ein eof line|a fd|c hup ein eout os]; cbn [handle_event] in E.
  - revert E. unfold handleCommandPrompt. destruct (_ || _).
    { intros H%Hw; [|done]. by eapply remove_servers_rosters. }
    destruct (negb ein); [by intros [= _ <-]|]. cbn in Hs.
    destruct (parseValues fuel [] 100 g (open_stream line)) as [words g1 s1|e1 g1|] eqn:Ep; [|done..].
    apply parseValues_world in Ep; [|constructor]. intros H%Hw; [|done]. by eapply command_rosters.
  - apply Hw in E; [|done]. apply bind_ret_inv in E as ([x w'] & E & [= <-]).
    pose proof (post_elim _ _ _ (acceptConnection_framed _ _ _ _) E) as F.
    cbn [snd] in F. split; [by eapply framed_agree|by apply framed_alive].
  - apply Hw in E; [|done]. pose proof (post_elim _ _ _ (turn_client_framed _ _ _ _ _ _ _) E) as F.
    split; [by eapply framed_agree|by apply framed_alive].
Qed.

Lemma serving_rosters nw g : serving nw g ->
  sets_agree (c_world g) /\ ((forall ip port, nw_listen nw ip port = true) -> sets_alive (c_world g)).
Proof.
  induction 1 as [fuel fs path r g s ret w E Hstart|fuel now e g res g' Hg [IH1 IH2] Hs E|os g w Hg [IH1 IH2] E].
  - destruct (parseConfigFile_registered _ _ _ _ _ _ _ E world_init_ready) as [[Hc [Hag Hal]] _].
    destruct (startServers_rosters nw _ _ _ Hc Hstart Hag) as [H1 H2]. split; [done|]. intros Hall. by apply H2.
  - destruct (handle_event_rosters fuel now e g res g' (serving_links nw g Hg) Hs E IH1) as [H1 H2].
    split; [done|]. intros Hall. by apply H2, IH2.
  - pose proof (post_elim _ _ _ (checkTO_framed _ _ _) E) as F.
    split; [by eapply framed_agree|]. intros Hall. by eapply framed_alive, IH2.
Qed.

(** *** A server with one client *)
Definition demo_started : state := Eval vm_compute in
  demo_cfg <| c_world := (startServers demo_network (c_world demo_cfg)).2 |>.

Lemma demo_started_eq : startServers demo_network (c_world demo_cfg) = (0, c_world demo_started).
Proof. vm_compute. reflexivity. Qed.

Lemma demo_started_serving : serving demo_network demo_started.
Proof.
  change demo_started with (demo_cfg <| c_world := c_world demo_started |>).
  eapply serving_start; [exact demo_parsed_eq|exact demo_started_eq].
Qed.

Definition demo_address : nat := Eval vm_compute in default O (fst <$> head (w_serverList (c_world demo_started))).

(** A client connects and asks for a page of host [a]. *)
Definition demo_events : list epoll_event :=
  [ServerEvent demo_address 6;
   ClientEvent (w_fresh (c_world demo_started)) false true false
     (demo_os (crlf "GET /a.txt HTTP/1.1" ++ crlf "Host: a" ++ CRLF))].
Definition demo_run : failing state (Z * state) := handle_events 100 0 demo_events demo_started.
Definition demo_busy : state := Eval vm_compute in (run_or (0, demo_started) demo_run).2.

Lemma demo_run_eq : handle_events 100 0 demo_events demo_started = Ret (0, demo_busy).
Proof. vm_compute. reflexivity. Qed.

Lemma serving_events nw fuel now es : forall g r g',
  Forall (fun e => match e with StdinEvent _ _ _ _ => False | _ => True end) es ->
  serving nw g -> handle_events fuel now es g = Ret (r, g') -> serving nw g'.
Proof.
  induction es as [|e es IH]; intros g r g' Hes Hg; cbn [handle_events]; [by intros [= _ <-]|].
  apply Forall_cons in Hes as [He Hes]. intros E.
  destruct (handle_event fuel now e g) as [[res g1]|x| |] eqn:E1; [|done..]. cbn [mbind outcome_bind] in E.
  assert (serving nw g1) as H1 by (eapply serving_event; [exact Hg| |exact E1]; by destruct e).
  destruct (negb _); [by injection E as _ <-|]. by eapply IH.
Qed.

Lemma demo_busy_serving : serving demo_network demo_busy.
Proof.
  eapply serving_events; [|exact demo_started_serving|exact demo_run_eq].
  repeat constructor.
Qed.

(** ** Theorems *)

(** C2: In every state the program reaches, whatever the configuration, the network,
    the clients and the operator do short of removing one host, the pointers are
    sound.  A client's server and host are alive; a server's lists hold exactly
    its clients, a host's list exactly the clients bound to it; every host of a
    server's map is alive and known there under all its names; every client
    answers with the configuration of the host it is listed with; and every open
    descriptor has an owner.  The set of servers of a host holds exactly the
    living servers whose map leads to the host.  It may hold dead ones too: a
    server that cannot listen is erased without its hosts being told.  If every
    server can listen, it holds none. *)
Theorem serving_good nw g :
  serving nw g ->
  links None (c_world g) /\
  (forall c k, obj_get c (w_clientList (c_world g)) = Some k -> snapshot (c_world g) k) /\
  sets_agree (c_world g) /\
  ((forall ip port, nw_listen nw ip port = true) -> sets_alive (c_world g)).
Proof.
  intros Hg. destruct (serving_links nw g Hg) as [H1 H2]. destruct (serving_rosters nw g Hg) as [H3 H4].
  by split_and!.
Qed.

Lemma serving_good_witness :
  (exists k, obj_get 3 (w_clientList (c_world demo_busy)) = Some k /\ cn_host k = Some 0%nat) /\
  links None (c_world demo_busy) /\
  (forall c k, obj_get c (w_clientList (c_world demo_busy)) = Some k -> snapshot (c_world demo_busy) k) /\
  sets_agree (c_world demo_busy) /\
  ((forall ip port, nw_listen demo_network ip port = true) -> sets_alive (c_world demo_busy)).
Proof.
  split; [eexists; split; reflexivity|].
  apply (serving_good demo_network demo_busy). exact demo_busy_serving.
Defined.

(** C19: One event of a client, seen from the whole server.  It does what the model of
    a single client does, which finds the hosts of its server; in particular it
    adds no undefined behaviour to it.  Afterwards the client is destroyed if it
    terminated and in its new state otherwise; no other client changed, no
    server came or went and the invariant holds.  The same is true of the world
    that an exception leaves. *)
Theorem turn_client_correct c k hup ein eout os pages w :
  good w -> obj_get c (w_clientList w) = Some k ->
  match client_event os pages hup ein eout (turn_start k w) with
  | Ret new => exists w', turn_client c hup ein eout os pages w = Ret w' /\ good w' /\
      (forall b, b <> c -> obj_get b (w_clientList w') = obj_get b (w_clientList w)) /\
      map fst (w_serverList w') = map fst (w_serverList w) /\
      if cl_terminated new then obj_get c (w_clientList w') = None
      else exists k', obj_get c (w_clientList w') = Some k' /\ cn_client k' = new
  | Throw (e, new) => exists w', turn_client c hup ein eout os pages w = Throw (e, w') /\ good w' /\
      (forall b, b <> c -> obj_get b (w_clientList w') = obj_get b (w_clientList w)) /\
      map fst (w_serverList w') = map fst (w_serverList w) /\
      exists k', obj_get c (w_clientList w') = Some k' /\ cn_client k' = new
  | Undef => turn_client c hup ein eout os pages w = Undef
  | Diverge => turn_client c hup ein eout os pages w = Diverge
  end.
Proof.
  intros Hg Hk. pose proof (turn_good c k hup ein eout os pages w Hg Hk) as H.
  destruct (client_event _ _ _ _ _ _) as [new|[e new]| |]; try exact H;
    (destruct H as (w' & H1 & H2 & [Ha _ Hs] & H3); exists w'; split_and!; [done|done| |done|done];
     intros b Hb; apply Ha; by intros ?%list_elem_of_singleton).
Qed.

Definition demo_conn : conn :=
  Eval vm_compute in match obj_get 3 (w_clientList (c_world demo_busy)) with
                     | Some k => k | None => mkConn 0 0 None (Client_init 0 []) end.

Lemma demo_busy_good : good (c_world demo_busy).
Proof. apply (serving_links demo_network), demo_busy_serving. Qed.

Lemma turn_client_correct_witness :
  match client_event (demo_os []) [] true false false (turn_start demo_conn (c_world demo_busy)) with
  | Ret new => exists w', turn_client 3 true false false (demo_os []) [] (c_world demo_busy) = Ret w' /\ good w' /\
      (forall b, b <> 3%nat -> obj_get b (w_clientList w') = obj_get b (w_clientList (c_world demo_busy))) /\
      map fst (w_serverList w') = map fst (w_serverList (c_world demo_busy)) /\
      if cl_terminated new then obj_get 3 (w_clientList w') = None
      else exists k', obj_get 3 (w_clientList w') = Some k' /\ cn_client k' = new
  | Throw (e, new) => exists w', turn_client 3 true false false (demo_os []) [] (c_world demo_busy) = Throw (e, w') /\
      good w' /\ (forall b, b <> 3%nat -> obj_get b (w_clientList w') = obj_get b (w_clientList (c_world demo_busy))) /\
      map fst (w_serverList w') = map fst (w_serverList (c_world demo_busy)) /\
      exists k', obj_get 3 (w_clientList w') = Some k' /\ cn_client k' = new
  | Undef => turn_client 3 true false false (demo_os []) [] (c_world demo_busy) = Undef
  | Diverge => turn_client 3 true false false (demo_os []) [] (c_world demo_busy) = Diverge
  end.
Proof.
  apply (turn_client_correct 3 demo_conn true false false (demo_os []) [] (c_world demo_busy)).
  - exact demo_busy_good.
  - vm_compute. reflexivity.
Defined.

(** C16: Shutting down.  From a sound state [cleanExit] -- and with it [kill all] and
    the end of the standard input -- runs to its end, never through a dangling
    pointer, whatever hosts, servers and clients there are: no server and no
    client is left and every descriptor above 0 is closed. *)
Theorem cleanExit_correct code w :
  good w ->
  exists w', cleanExit code w = Ret (code, w') /\ w_serverList w' = [] /\ w_clientList w' = [] /\
    forall fd, fd ∈ w_open w' -> fd = 0.
Proof.
  intros Hg. unfold cleanExit. destruct (Nat.eqb_spec (length (w_serverList w)) 0) as [E|E]; cbn [negb].
  - apply nil_length_inv in E. destruct (good_no_server w Hg E). exists w. by split_and!.
  - destruct (removeServers_good w Hg) as (w' & Hr & Hg' & He). rewrite Hr. cbn [mbind outcome_bind].
    destruct (good_no_server w' Hg' He). exists w'. by split_and!.
Qed.

Lemma cleanExit_correct_witness :
  exists w', cleanExit 0 (c_world demo_busy) = Ret (0, w') /\ w_serverList w' = [] /\ w_clientList w' = [] /\
    forall fd, fd ∈ w_open w' -> fd = 0.
Proof. apply (cleanExit_correct 0 (c_world demo_busy)). exact demo_busy_good. Defined.

(** C25: Removing a server.  It returns; the server is out of the list, exactly the
    clients connected to it are destroyed, whether or not they had a host, and
    the invariant holds for the others. *)
Theorem removeServer_correct a s w :
  good w -> obj_get a (w_serverList w) = Some s ->
  exists w', removeServer a w = Ret w' /\ good w' /\
    map fst (w_serverList w') = map fst (obj_erase a (w_serverList w)) /\
    forall c k, obj_get c (w_clientList w) = Some k ->
      obj_get c (w_clientList w') = if Nat.eqb (cn_server k) a then None else Some k.
Proof. apply removeServer_good. Qed.

Lemma removeServer_correct_witness :
  exists w', removeServer 1 (c_world demo_busy) = Ret w' /\ good w' /\
    map fst (w_serverList w') = map fst (obj_erase 1 (w_serverList (c_world demo_busy))) /\
    forall c k, obj_get c (w_clientList (c_world demo_busy)) = Some k ->
      obj_get c (w_clientList w') = if Nat.eqb (cn_server k) 1 then None else Some k.
Proof.
  eapply (removeServer_correct 1).
  - exact demo_busy_good.
  - vm_compute. reflexivity.
Defined.

(** C31: Accepting a connection.  A client is made exactly when the server has room
    and [accept] gives a descriptor; it is new, it belongs to the server, it has
    no host yet, and the server lists it as connected and as an orphan.
    Otherwise nothing changes. *)
Theorem acceptConnection_correct now fd a s w :
  good w -> obj_get a (w_serverList w) = Some s ->
  exists r w', acceptConnection now fd a w = Ret (r, w') /\ good w' /\
    if (Z.of_nat (length (ls_connectedClients s)) <? ls_maxClientNbr s) && (0 <=? fd) then
      exists c k s', r = Some c /\ obj_get c (w_clientList w) = None /\ obj_get c (w_clientList w') = Some k /\
        cn_fd k = fd /\ cn_server k = a /\ cn_host k = None /\ obj_get a (w_serverList w') = Some s' /\
        c ∈ ls_connectedClients s' /\ c ∈ ls_orphanClients s'
    else r = None /\ w' = w.
Proof.
  intros Hg Hs. destruct (Z.ltb_spec (Z.of_nat (length (ls_connectedClients s))) (ls_maxClientNbr s)) as [Hmax|Hmax];
    [destruct (Z.leb_spec 0 fd) as [Hfd|Hfd]|]; cbn [andb].
  - rewrite (accept_connected _ _ _ s) by done. eexists _, _. split; [reflexivity|].
    split; [by apply good_connected|]. eexists _, _, _. split; [reflexivity|].
    split; [apply keys_fresh, (lk_clients _ _ (proj1 Hg))|].
    split; [cbn; by rewrite obj_get_add, Nat.eqb_refl by apply (lk_clients _ _ (proj1 Hg))|].
    do 3 (split; [done|]). split; [cbn; by rewrite obj_get_update, Nat.eqb_refl, Hs|]. cbn.
    rewrite !elem_of_app, !list_elem_of_singleton. split; by right.
  - unfold acceptConnection, get_server. rewrite Hs. cbn [deref mbind outcome_bind].
    rewrite (proj2 (Z.leb_gt _ _)) by done. rewrite (proj2 (Z.ltb_lt _ _)) by done. by exists None, w.
  - unfold acceptConnection, get_server. rewrite Hs. cbn [deref mbind outcome_bind].
    rewrite (proj2 (Z.leb_le _ _)) by done. by exists None, w.
Qed.

Definition demo_second : ListenServer :=
  Eval vm_compute in default (ListenServer_init [] []) (obj_get 2 (w_serverList (c_world demo_busy))).

Lemma acceptConnection_correct_witness :
  exists r w', acceptConnection 0 9 2 (c_world demo_busy) = Ret (r, w') /\ good w' /\
    exists c k s', r = Some c /\ obj_get c (w_clientList (c_world demo_busy)) = None /\
      obj_get c (w_clientList w') = Some k /\ cn_fd k = 9 /\ cn_server k = 2%nat /\ cn_host k = None /\
      obj_get 2 (w_serverList w') = Some s' /\ c ∈ ls_connectedClients s' /\ c ∈ ls_orphanClients s'.
Proof.
  apply (acceptConnection_correct 0 9 2 demo_second (c_world demo_busy)).
  - exact demo_busy_good.
  - vm_compute. reflexivity.
Defined.

(** Time-outs never fail: [checkTO] goes through the list while it destroys
    clients, and returns in a sound state. *)
Theorem checkTO_returns os pages w :
  good w -> exists w', checkTO os pages w = Ret w' /\ good w'.
Proof. apply checkTO_good. Qed.

Lemma checkTO_returns_witness :
  exists w', checkTO (demo_os []) [] (c_world demo_busy) = Ret w' /\ good w'.
Proof. apply (checkTO_returns (demo_os []) [] (c_world demo_busy)). exact demo_busy_good. Defined.

(** Removing a host that has clients is undefined behaviour: the first client it
    terminates takes itself out of the list the loop is going through, and the
    loop increments the iterator that was erased. *)
Theorem removeHost_undefined h x w :
  good w -> obj_get h (w_hostList w) = Some x -> h_clients x <> [] -> removeHost h w = Undef.
Proof.
  intros Hg Hx Hne. unfold removeHost, get_host. rewrite Hx. cbn [deref mbind outcome_bind].
  destruct (h_clients x) as [|c cs] eqn:Ec; [done|]. cbn [shutdown_clients].
  assert (c ∈ h_clients x) as Hc by (rewrite Ec; by left).
  pose proof Hc as (_ & k & Hk & _)%(gu_clients _ _ _ _ (lk_guests _ _ (proj1 Hg) _ _ Hx)).
  destruct (terminateClient_good _ _ _ Hg Hk) as (w1 & E & _). rewrite E. cbn [mbind outcome_bind].
  unfold get_host. destruct (obj_get h (w_hostList w1)) as [x'|] eqn:Hx'; [|done]. cbn [deref mbind outcome_bind].
  rewrite bool_decide_eq_false_2; [done|]. by eapply host_gone.
Qed.

Definition demo_busy_host : Host :=
  Eval vm_compute in default Host_init (obj_get 0 (w_hostList (c_world demo_busy))).

Lemma removeHost_undefined_witness : removeHost 0 (c_world demo_busy) = Undef.
Proof.
  apply (removeHost_undefined 0 demo_busy_host (c_world demo_busy)).
  - exact demo_busy_good.
  - vm_compute. reflexivity.
  - vm_compute. discriminate.
Defined.

(** Taking the only host off the map of a server, with all its clients. *)
Definition emptied (a h : nat) (x : Host) (w : world) : world :=
  on_host h (removeListenServer a) (on_server a (fun s =>
    s <| ls_connectedClients := filter (fun c => c ∉ h_clients x) (ls_connectedClients s) |>
      <| ls_hostMap := unassign_names (h_server_names x) (ls_hostMap s) |>
      <| ls_nbrHost := ls_nbrHost s - 1 |>) w).

Lemma unassign_only a s h x name w :
  good w -> obj_get a (w_serverList w) = Some s -> findHost name s = Some h -> obj_get h (w_hostList w) = Some x ->
  unassignHost a h w = Ret (emptied a h x w).
Proof.
  intros [Hl _] Hs Hn Hx. destruct (lk_map _ _ Hl _ _ Hs) as [Hm _].
  destruct (mo_names _ _ Hm _ _ Hn) as (x0 & Hx0 & Hin & Hall). assert (x0 = x) as -> by congruence.
  unfold unassignHost, get_host, get_server. rewrite Hx. cbn. rewrite Hs. cbn.
  destruct (h_server_names x) as [|n0 names] eqn:En; [by apply elem_of_nil in Hin|]. cbn.
  assert (findHost n0 s = Some h) as -> by (apply Hall; by left). rewrite Hx. unfold emptied. by rewrite En.
Qed.

(** A server without hosts and clients goes at once. *)
Lemma removeServer_bare a s w :
  obj_get a (w_serverList w) = Some s -> ls_orphanClients s = [] -> ls_connectedClients s = [] -> ls_hostMap s = [] ->
  removeServer a w = Ret ((shutdown a s w) <| w_serverList := obj_erase a (w_serverList (shutdown a s w)) |>).
Proof.
  intros Hs Ho Hc Hm. unfold removeServer, get_server. rewrite Hs. cbn [deref mbind outcome_bind]. cbv zeta.
  rewrite Ho. cbn [terminate_all mbind outcome_bind].
  assert (exists s', obj_get a (w_serverList (shutdown a s w)) = Some s' /\
    ls_connectedClients s' = [] /\ ls_hostMap s' = []) as (s' & Es' & Hc' & Hm').
  { unfold shutdown. destruct (_ =? 0); [by exists s|]. cbn. rewrite obj_get_update, Nat.eqb_refl, Hs. by eexists. }
  rewrite Es'. cbn [deref mbind outcome_bind]. rewrite Hc'. cbn [terminate_all mbind outcome_bind].
  rewrite Es'. cbn [deref mbind outcome_bind]. by rewrite Hm'.
Qed.

Lemma shutdown_others a s w :
  w_hostList (shutdown a s w) = w_hostList w /\ w_clientList (shutdown a s w) = w_clientList w /\
  map fst (w_serverList (shutdown a s w)) = map fst (w_serverList w).
Proof. unfold shutdown. destruct (_ =? 0); [done|]. split_and!; [done..|apply obj_update_keys]. Qed.

(** All the clients of the server are the host's. *)
Lemma only_clients a s h x w :
  good w -> obj_get a (w_serverList w) = Some s -> obj_get h (w_hostList w) = Some x ->
  (forall c k, obj_get c (w_clientList w) = Some k -> cn_server k = a -> cn_host k = Some h) ->
  ls_orphanClients s = [] /\ filter (fun c => c ∉ h_clients x) (ls_connectedClients s) = [].
Proof.
  intros [Hl _] Hs Hx Hall. destruct (lk_members _ _ Hl _ _ Hs) as [M1 M2 _ _]. split.
  - apply elem_of_nil_inv. intros c (k & Hk & E & Hn)%M2. by rewrite (Hall c k Hk E) in Hn.
  - apply elem_of_nil_inv. intros c [Hn (k & Hk & E)%M1]%list_elem_of_filter. apply Hn.
    apply (gu_clients _ _ _ _ (lk_guests _ _ Hl _ _ Hx)). split; [done|]. exists k. split; [done|]. by apply (Hall c).
Qed.


Definition demo_first : ListenServer :=
  Eval vm_compute in default (ListenServer_init [] []) (obj_get 1 (w_serverList (c_world demo_busy))).


(** *** An unclosed quote *)
Definition unclosed {A} (m : P world A) (s : istream) : Prop :=
  forall g, exists dest g', m g s = PErr (UnclosedQuoteException dest) g'.

Lemma unclosed_bind {A B} (m : P world A) (f : A -> P world B) s : unclosed m s -> unclosed (mbind f m) s.
Proof. intros H g. destruct (H g) as (dest & g' & E). exists dest, g'. unfold mbind, P_bind. by rewrite E. Qed.

Lemma unclosed_after {A B} (m : P world A) (f : A -> P world B) s a n :
  reads m s a n -> unclosed (f a) (advance n s) -> unclosed (mbind f m) s.
Proof.
  intros Hm H g. destruct (Hm g) as (g1 & E1 & _). destruct (H g1) as (dest & g' & E).
  exists dest, g'. unfold mbind, P_bind. by rewrite E1.
Qed.

Lemma parseQuote_unclosed t : forall fuel dest s,
  at_text s t -> Forall (fun c => c <> DQUOTE /\ c <> BACKSLASH) t -> (S (length t) < fuel)%nat ->
  unclosed (parseQuote fuel false dest) s.
Proof.
  induction t as [|c t IH]; intros fuel dest s Ht Hq Hf; (destruct fuel as [|fuel]; [lia|]); cbn [parseQuote].
  - destruct fuel as [|fuel]; [cbn in Hf; lia|]. destruct Ht as (Hok & Hg & Hr). intros g.
    unfold mbind, P_bind, on_good. rewrite Hg. cbn [negb]. unfold on_get, get. rewrite Hg, Hr. cbn. by eexists _, _.
  - apply Forall_cons in Hq as [[Hc1 Hc2] Hq]. cbn [length] in Hf.
    eapply unclosed_after; [by eapply reads_good|]. rewrite advance_0. cbn [negb].
    eapply unclosed_after; [by eapply reads_get|]. cbv zeta. rewrite to_char_Some. apply at_text_cons in Ht.
    destruct (Ascii.eqb c NL).
    + eapply unclosed_after; [apply reads_incr_line|]. rewrite advance_0. apply IH; [done|done|lia].
    + rewrite (proj2 (Ascii.eqb_neq c BACKSLASH)), (proj2 (Ascii.eqb_neq c DQUOTE)) by done. cbn [andb].
      apply IH; [done|done|lia].
Qed.

Lemma values_unclosed t fuel n s :
  at_text s (DQUOTE :: t) -> Forall (fun c => c <> DQUOTE /\ c <> BACKSLASH) t -> (length t + 3 < fuel)%nat ->
  unclosed (values_loop (S n) fuel 0 100 []) s.
Proof.
  intros Ht Hq Hf. cbn [values_loop]. apply unclosed_bind. unfold getNextWord.
  eapply unclosed_after; [apply (reads_skipSpace fuel [] DQUOTE t); [done|constructor|done|cbn; lia]|].
  cbn [length]. rewrite advance_0. eapply unclosed_after; [by eapply reads_peek|]. rewrite advance_0, to_char_Some.
  destruct fuel as [|fuel]; [lia|]. cbn [word_loop]. change (false || negb (delimiter DQUOTE)) with true. cbv iota.
  eapply unclosed_after; [by eapply reads_get|]. cbv zeta. rewrite to_char_Some. apply unclosed_bind.
  unfold word_char. change (Ascii.eqb DQUOTE BACKSLASH) with false. change (Ascii.eqb DQUOTE DQUOTE) with true. cbv iota.
  apply unclosed_bind, (parseQuote_unclosed t); [by apply at_text_cons in Ht|done|lia].
Qed.

(** A line of the prompt that opens a quote and does not close it stops the whole
    server: the exception of the configuration parser is caught by [main] only. *)
Theorem prompt_unclosed_quote fuel t g :
  Forall (fun c => c <> DQUOTE /\ c <> BACKSLASH) t -> (length t + 3 < fuel)%nat ->
  exists g', handleCommandPrompt fuel false true false (DQUOTE :: t) g = Throw (std_exception, g').
Proof.
  intros Hq Hf. unfold handleCommandPrompt. cbn [orb negb]. destruct fuel as [|fuel]; [lia|].
  destruct (values_unclosed t (S fuel) fuel _ (at_text_open _) Hq Hf g) as (dest & g' & E).
  unfold parseValues. rewrite E. by eexists.
Qed.

Lemma prompt_unclosed_quote_witness :
  exists g', handleCommandPrompt 20 false true false (DQUOTE :: `s"kill all") demo_busy = Throw (std_exception, g').
Proof. apply (prompt_unclosed_quote 20 (`s"kill all") demo_busy); [apply (bool_decide_unpack _); vm_compute; exact I|vm_compute; lia]. Defined.
