(* ===== verification/Served.v ===== *)
(** * Served: a client among others

    [Session] follows one client on its own.  Here the client is one of the
    running server: other clients take their turns and new ones connect in
    between, and every turn refreshes its map of hosts.  None of this shows in
    what the client is sent. *)

From S2P Require Import Prelude CxxString OrdMap Format Http RequestHeaders RequestUri Host Response Cgi Client Control ControlFacts Session ConfigLex Config Listen ListenFacts TurnFacts Links Removal Registration ConfigFacts ConfigProps Server ServerFacts.
#[local] Open Scope Z_scope.

(** ** Hosts of the same configuration *)

(** What serving looks at. *)
Lemma config_same h h' : config_of h = config_of h' ->
  h_locationMap h = h_locationMap h' /\ h_cgiMap h = h_cgiMap h' /\ h_server_names h = h_server_names h'.
Proof. destruct h, h'. unfold config_of. cbn. by intros [= <- <- <- <- <- <- <-]. Qed.

Lemma serves_config fs h h' e : config_of h = config_of h' -> serves fs h e -> serves fs h' e.
Proof.
  intros (E1 & E2 & _)%config_same. unfold serves, matchLocation, matchCGIConfig. by rewrite E1, E2.
Qed.

Definition config_option (h h' : option Host) : Prop :=
  config_of <$> h = config_of <$> h'.

Definition config_map (m m' : list (str * Host)) : Prop :=
  Forall2 (fun a b => a.1 = b.1 /\ config_of a.2 = config_of b.2) m m'.

Lemma host_for_config n m m' cur cur' :
  config_map m m' -> config_option cur cur' -> config_option (host_for n m cur) (host_for n m' cur').
Proof.
  intros Hm Hc. unfold host_for.
  assert (config_option (match om_find lex_ltb n m with Some h => Some h | None => snd <$> head m end)
            (match om_find lex_ltb n m' with Some h => Some h | None => snd <$> head m' end)) as Hl.
  { assert (config_option (om_find lex_ltb n m) (om_find lex_ltb n m')) as Hf.
    { induction Hm as [|[k h] [k' h'] m m' [Hk Hh] _ IH]; [done|]. cbn in Hk, Hh |- *. subst k'.
      destruct (lex_ltb k n); [done|]. destruct (lex_ltb n k); [done|]. unfold config_option. cbn. by rewrite Hh. }
    unfold config_option in *. destruct (om_find lex_ltb n m), (om_find lex_ltb n m'); try done.
    destruct Hm as [|a b ? ? [_ Hh] _]; [done|]. cbn. by rewrite Hh. }
  unfold config_option in *. destruct cur as [h|], cur' as [h'|]; try done.
  change (Some (config_of h) = Some (config_of h')) in Hc.
  assert (config_of h = config_of h') as Hc' by congruence.
  unfold checkServerName. rewrite (proj2 (proj2 (config_same _ _ Hc'))).
  by destruct (existsb _ _).
Qed.

Lemma all_served_config fs es : forall m m' cur cur',
  config_map m m' -> config_option cur cur' -> all_served fs m cur es -> all_served fs m' cur' es.
Proof.
  induction es as [|e es IH]; intros m m' cur cur' Hm Hc; [done|]. intros (h & Hh & Hs & Hes).
  pose proof (host_for_config (ex_name e) _ _ _ _ Hm Hc) as H. unfold config_option in H. rewrite Hh in H.
  destruct (host_for _ m' cur') as [h'|] eqn:E; [|done].
  change (Some (config_of h) = Some (config_of h')) in H. assert (config_of h = config_of h') as H' by congruence.
  exists h'. split; [done|]. split; [by eapply serves_config|].
  eapply IH; [exact Hm| |exact Hes]. exact H.
Qed.

Lemma same_map_config m m' hosts hm : same_map m hosts hm -> same_map m' hosts hm -> config_map m m'.
Proof.
  intros H. revert m'. induction H as [|a b m hm [Hk Hh] _ IH]; intros m' H';
    inversion H' as [|a' ? m'' ? [Hk' Hh'] Hm']; subst; [constructor|].
  constructor; [|by apply IH]. split; congruence.
Qed.

(** ** The client of a turn *)

(** Refreshing its map changes nothing else of a session. *)
Lemma progress_refresh es A recv out c t m :
  config_map (cl_hostMap c) m -> progress es A recv out c t -> progress es A recv out (c <| cl_hostMap := m |>) t.
Proof.
  intros Hm Hp.
  assert (forall todo, seated A c todo -> seated A (c <| cl_hostMap := m |>) todo) as Hs.
  { intros todo H os Hos. eapply all_served_config; [exact Hm|reflexivity|exact (H os Hos)]. }
  destruct Hp as [past todo resps p E Er Hr Ho Hk Hrd Hst Hw
    |past e todo resps p E Er Hr Ho Hk Hsd Hst Hne|past e todo resps E Hr Ho Hk He Hq Ht].
  - eapply at_reading; try done; [|by apply Hs]. destruct Hrd. by split.
  - eapply at_sending; try done; [|by apply Hs]. destruct Hsd as [[] ? ?]. by repeat split.
  - by eapply at_closed.
Qed.

Lemma turn_start_config c k w : good w -> obj_get c (w_clientList w) = Some k ->
  config_map (cl_hostMap (cn_client k)) (cl_hostMap (turn_start k w)).
Proof.
  intros Hg Hk. destruct (lk_conn _ _ (proj1 Hg) _ _ Hk) as [Hs _].
  destruct (refresh_start k w Hg Hs) as [_ (s & Hs1 & H1)].
  destruct (good_client _ _ _ Hg Hk) as [(s' & Hs2 & H2) _].
  rewrite Hs1 in Hs2. injection Hs2 as <-. by eapply same_map_config.
Qed.

Lemma accept_others now fd a c k w : good w -> obj_get c (w_clientList w) = Some k ->
  post (acceptConnection now fd a w) (fun x => obj_get c (w_clientList x.2) = Some k).
Proof.
  intros Hg Hk. unfold acceptConnection. apply post_bind_any. intros s.
  destruct (_ <=? _); [exact Hk|]. destruct (fd <? 0); [exact Hk|]. cbn.
  rewrite obj_get_add by apply (lk_clients _ _ (proj1 Hg)).
  destruct (Nat.eqb_spec c (w_fresh w)) as [->|]; [|done].
  by rewrite (keys_fresh _ _ (lk_clients _ _ (proj1 Hg))) in Hk.
Qed.

Lemma commit_event_fresh c e w : post (commit_event c e w) (fun w' => w_fresh w' = w_fresh w).
Proof.
  destruct e; cbn [commit_event]; try done.
  - apply post_bind_any. intros k. apply post_bind with (P := fun x => w_fresh x.2 = w_fresh w).
    + unfold bindClient. apply post_bind_any. intros s. apply post_bind_any. intros h. by apply post_bind_any.
    + by intros [h w'] Hw.
  - apply post_bind_any. intros k. apply post_bind_any. intros h. by apply post_bind_any.
  - apply post_bind_any. intros k. by apply post_bind_any.
Qed.

Lemma commit_fresh c old new w : post (commit c old new w) (fun w' => w_fresh w' = w_fresh w).
Proof.
  unfold commit. cbv zeta. set (w0 := on_conn _ _ w). change (w_fresh w) with (w_fresh w0). clearbody w0.
  generalize (drop (length (cl_log old)) (cl_log new)) as es. intros es. revert w0.
  induction es as [|e es IH]; intros w0; [done|]. cbn [commit_events].
  eapply post_bind; [apply commit_event_fresh|]. intros w1 <-. apply IH.
Qed.

Lemma turn_fresh c hup ein eout os pages w w' :
  turn_client c hup ein eout os pages w = Ret w' -> w_fresh w' = w_fresh w.
Proof.
  unfold turn_client. intros (k & _ & (old & _ & ([x w1] & E & H)%bind_ret_inv)%bind_ret_inv)%bind_ret_inv.
  injection H as <-. revert E. destruct (client_event _ _ _ _ _ _) as [new|[e new]| |]; cbn [settle].
  - intros (w2 & E & [= _ <-])%bind_ret_inv. exact (post_elim _ _ _ (commit_fresh c old new w) E).
  - by intros (w2 & _ & ?)%bind_ret_inv.
  - done.
  - done.
Qed.

(** ** A batch of events *)
Section served.
Context (c : nat) (es : list exchange) (A : os_answers -> Prop).
Context (es_ok : Forall exchange_ok es).

(** The turns of the client. *)
Definition turn_of (e : epoll_event) : list wakeup :=
  match e with
  | ClientEvent b _ ein eout os => if Nat.eqb b c then [mkWakeup ein eout os] else []
  | _ => []
  end.
Definition turns_of (evs : list epoll_event) : list wakeup := concat (map turn_of evs).

(** No command of the operator; what concerns the client is regular. *)
Definition regular (e : epoll_event) : Prop :=
  match e with
  | StdinEvent _ _ _ _ => False
  | ServerEvent _ _ => True
  | ClientEvent b hup ein eout os => b = c -> hup = false /\ wakeup_ok (mkWakeup ein eout os) /\ A os
  end.

(** The client in the server: connected and as far as [progress] says, or
    closed, as it asked. *)
Definition attended (recv : str) (log0 : list event) (w : world) : Prop :=
  match obj_get c (w_clientList w) with
  | Some k => exists new t, cl_log (cn_client k) = log0 ++ new /\ Forall harmless new /\
      progress es A recv (sent new) (cn_client k) t
  | None => (c < w_fresh w)%nat /\
      exists past e todo, es = past ++ e :: todo /\ closes e = true /\ Forall (fun e => closes e = false) past
  end.

Lemma accept_attended now fd a recv log0 w :
  good w -> attended recv log0 w -> post (acceptConnection now fd a w) (fun x => attended recv log0 x.2).
Proof.
  intros Hg Ha. unfold attended in *. destruct (obj_get c (w_clientList w)) as [k|] eqn:Hk.
  - eapply post_mono; [by apply (accept_others now fd a c k)|]. intros x Hx. by rewrite Hx.
  - unfold acceptConnection. apply post_bind_any. intros s.
    destruct (_ <=? _); [cbn; by rewrite Hk|]. destruct (fd <? 0); [cbn; by rewrite Hk|]. cbn.
    rewrite obj_get_add by apply (lk_clients _ _ (proj1 Hg)). destruct Ha as [Hlt Ha].
    rewrite (proj2 (Nat.eqb_neq c (w_fresh w))) by lia. rewrite Hk. split; [lia|done].
Qed.

(** The turn of another client. *)
Lemma other_attended b hup ein eout os pages recv log0 w :
  good w -> b <> c -> attended recv log0 w ->
  post (turn_client b hup ein eout os pages w) (fun w' => attended recv log0 w').
Proof.
  intros Hg Hb Ha. destruct (turn_client b hup ein eout os pages w) as [w'| | |] eqn:E; [|done..].
  cbn [post]. assert (w_fresh w' = w_fresh w) as Hf by exact (turn_fresh _ _ _ _ _ _ _ _ E).
  destruct (obj_get b (w_clientList w)) as [k|] eqn:Hk.
  2:{ unfold turn_client, get_client in E. by rewrite Hk in E. }
  pose proof (turn_good b k hup ein eout os pages w Hg Hk) as H.
  destruct (client_event _ _ _ _ _ _) as [new|[e new]| |];
    [|destruct H as (w1 & H & _); by rewrite H in E|by rewrite H in E..].
  destruct H as (w1 & E1 & _ & Haf & _). rewrite E1 in E. injection E as ->.
  unfold attended in *. rewrite Hf, (af_clients _ _ _ Haf c); [done|]. by intros ->%list_elem_of_singleton.
Qed.

(** Its own turn. *)
Lemma own_attended ein eout os pages recv log0 w :
  good w -> wakeup_ok (mkWakeup ein eout os) -> A os -> attended recv log0 w ->
  recv ++ arrives (mkWakeup ein eout os) `prefix_of` requests es ->
  post (turn_client c false ein eout os pages w)
    (fun w' => attended (recv ++ arrives (mkWakeup ein eout os)) log0 w').
Proof.
  intros Hg Hok Hos Ha Hp. destruct (turn_client c false ein eout os pages w) as [w'| | |] eqn:E; [|done..].
  cbn [post]. assert (w_fresh w' = w_fresh w) as Hf by exact (turn_fresh _ _ _ _ _ _ _ _ E).
  unfold attended in Ha. destruct (obj_get c (w_clientList w)) as [k|] eqn:Hk.
  2:{ unfold turn_client, get_client in E. by rewrite Hk in E. }
  destruct Ha as (new & t & Hlog & Hh & Hpr).
  destruct (good_client _ _ _ Hg Hk) as [_ Hlive].
  apply (progress_refresh _ _ _ _ _ _ _ (turn_start_config c k w Hg Hk)) in Hpr.
  change ((cn_client k) <| cl_hostMap := _ |>) with (turn_start k w) in Hpr.
  destruct (turn_progress pages es A es_ok (mkWakeup ein eout os) recv (sent new) (turn_start k w) t Hpr Hlive Hok Hos Hp)
    as (c1 & new1 & t1 & H1 & H2 & H3 & H4 & _). cbn [w_os w_in w_out] in H1.
  pose proof (turn_good c k false ein eout os pages w Hg Hk) as H. rewrite H1 in H.
  destruct H as (w1 & E1 & _ & _ & Hend). rewrite E1 in E. injection E as ->.
  unfold attended. destruct (cl_terminated c1) eqn:Et.
  - rewrite Hend, Hf. split.
    { apply (lk_clients _ _ (proj1 Hg)). apply obj_get_elem in Hk; [|apply (lk_clients _ _ (proj1 Hg))].
      by apply (list_elem_of_fmap_2 fst) in Hk. }
    destruct (progress_closed _ _ _ _ _ _ H4 Et) as (past & e & todo & resps & H5 & _ & _ & H6 & H7 & _).
    by exists past, e, todo.
  - destruct Hend as (k' & -> & ->). exists (new ++ new1), t1.
    split; [rewrite H2; change (cl_log (turn_start k w)) with (cl_log (cn_client k)); by rewrite Hlog, (assoc_L (++))|].
    split; [by apply Forall_app|]. by rewrite sent_app.
Qed.

Lemma events_attended fuel now evs : forall g g' recv log0,
  good (c_world g) -> Forall regular evs -> attended recv log0 (c_world g) ->
  recv ++ arrived (turns_of evs) `prefix_of` requests es ->
  handle_events fuel now evs g = Ret (0, g') ->
  good (c_world g') /\ attended (recv ++ arrived (turns_of evs)) log0 (c_world g').
Proof.
  induction evs as [|e evs IH]; intros g g' recv log0 Hg Hev Ha Hp H; cbn [handle_events] in H.
  { injection H as <-. split; [done|]. by rewrite app_nil_r. }
  apply Forall_cons in Hev as [He Hev]. apply bind_ret_inv in H as ([res g1] & H1 & H).
  destruct (negb (res =? 0)) eqn:E0; [done|]. apply negb_false_iff, Z.eqb_eq in E0. subst res.
  assert (arrived (turns_of (e :: evs)) = arrived (turn_of e) ++ arrived (turns_of evs)) as Har.
  { unfold arrived, turns_of. cbn [map concat]. by rewrite map_app, concat_app. }
  rewrite Har, (assoc_L (++)) in Hp |- *.
  assert (good (c_world g1) /\ attended (recv ++ arrived (turn_of e)) log0 (c_world g1)) as [Hg1 Ha1]; [|by eapply IH].
  clear IH H. apply prefix_app_l in Hp.
  destruct e as [hup ein at_eof line|server fd|b hup ein eout os]; [done| |].
  - cbn [turn_of] in *. change (arrived []) with (@nil ascii) in *. rewrite app_nil_r in *.
    apply bind_ret_inv in H1 as (g2 & H2 & H1). injection H1 as <-.
    apply bind_ret_inv in H2 as (w & H2%map_exn_ret & H3). injection H3 as <-. cbn [c_world upd].
    apply bind_ret_inv in H2 as ([x w2] & H2 & H3). injection H3 as <-.
    split; [exact (yields_elim _ _ _ _ (accept_good now fd server _ Hg) H2)|].
    exact (post_elim _ _ _ (accept_attended now fd server recv log0 _ Hg Ha) H2).
  - apply bind_ret_inv in H1 as (g2 & H2 & H1). injection H1 as <-.
    apply bind_ret_inv in H2 as (w & H2%map_exn_ret & H3). injection H3 as <-. cbn [c_world upd].
    split; [exact (yields_elim _ _ _ _ (turn_keeps_good b hup ein eout os _ _ Hg) H2)|].
    cbn [turn_of] in *. destruct (Nat.eqb_spec b c) as [->|Hb].
    + destruct (He eq_refl) as (-> & Hok & Hos). unfold arrived in *. cbn [map concat] in *. rewrite app_nil_r in *.
      exact (post_elim _ _ _ (own_attended ein eout os _ recv log0 _ Hg Hok Hos Ha Hp) H2).
    + change (arrived []) with (@nil ascii) in *. rewrite app_nil_r in *.
      exact (post_elim _ _ _ (other_attended b hup ein eout os _ recv log0 _ Hg Hb Ha) H2).
Qed.
End served.

(** ** Theorems *)


(** *** A site with two clients *)
Definition site_config : str :=
  `s"default_error_pages err/; server { listen 80; host 0.0.0.0; server_name demo; location * { root /www; methods GET HEAD; }; };".
Definition site_parsed : pres world Z :=
  @parseConfigFile world (listen_registry demo_network) 300 (config_fs site_config) (Some (`s"f")) world_init.
Definition site_cfg : cfg world :=
  Eval vm_compute in match site_parsed with POk _ g _ => g | _ => cfg_init world_init end.
Definition site_stream : istream :=
  Eval vm_compute in match site_parsed with POk _ _ s => s | _ => open_stream [] end.
Definition site_started : state := Eval vm_compute in
  site_cfg <| c_world := (startServers demo_network (c_world site_cfg)).2 |>.
Definition site_address : nat := Eval vm_compute in default O (fst <$> head (w_serverList (c_world site_started))).
Definition site_arrivals : list epoll_event := [ServerEvent site_address 6; ServerEvent site_address 7].
Definition site : state := Eval vm_compute in
  (run_or (0, site_started) (handle_events 100 0 site_arrivals site_started)).2.
Definition site_client : nat := Eval vm_compute in w_fresh (c_world site_started).
Definition site_conn : conn := Eval vm_compute in
  default (mkConn 0 0 None (Client_init 0 [])) (obj_get site_client (w_clientList (c_world site))).

Lemma site_parsed_eq :
  @parseConfigFile world (listen_registry demo_network) 300 (config_fs site_config) (Some (`s"f")) world_init =
  POk 0 site_cfg site_stream.
Proof. vm_compute. reflexivity. Qed.

Lemma site_serving : serving demo_network site.
Proof.
  eapply (serving_events _ 100 0 site_arrivals site_started); [by repeat constructor| |vm_compute; reflexivity].
  change site_started with (site_cfg <| c_world := c_world site_started |>).
  eapply serving_start; [exact site_parsed_eq|vm_compute; reflexivity].
Qed.

Definition site_events : list epoll_event :=
  let s := requests demo_exchanges in
  [ClientEvent site_client false true true (demo_os (take 10 s));
   ClientEvent (S site_client) false true false (demo_os (`s"nonsense"));
   ClientEvent site_client false true true (demo_os (drop 10 s));
   ServerEvent site_address 8;
   ClientEvent (S site_client) true true false (demo_os (`s"nonsense"));
   ClientEvent site_client false false true (demo_os []);
   ClientEvent site_client false false true (demo_os [])].
Definition site_after : state := Eval vm_compute in
  (run_or (0, site) (handle_events 100 0 site_events site)).2.
Definition site_conn_after : conn := Eval vm_compute in
  default (mkConn 0 0 None (Client_init 0 [])) (obj_get site_client (w_clientList (c_world site_after))).

(** The first response is sent, the second one queued. *)
Example site_ex : map (fun e => match e with EvWrite s => length s | _ => O end) (cl_log (cn_client site_conn_after)) =
  [0; 147; 5; 0; 0]%nat /\ length (cl_outBuffers (cn_client site_conn_after)) = 1%nat.
Proof. by vm_compute. Qed.

Lemma site_served s : all_served (os_fs (demo_os s)) (cl_hostMap (cn_client site_conn)) (cl_host (cn_client site_conn)) demo_exchanges.
Proof.
  set (h := from_option snd Host_init (head (cl_hostMap (cn_client site_conn)))).
  assert (forall e, ex_path e = `s"a.txt" -> ex_content e = `s"hello" -> ex_code e = GET \/ ex_code e = HEAD ->
    serves (os_fs (demo_os s)) h e) as H.
  { intros e Hp Hc Hm. unfold serves. rewrite Hp, Hc. split; [vm_compute; reflexivity|].
    exists (from_option snd Location_init (head (h_locationMap h))).
    split; [vm_compute; reflexivity|]. split; [reflexivity|]. split; [by destruct Hm as [-> | ->]|].
    split; [split; vm_compute; reflexivity|]. repeat split; vm_compute; reflexivity. }
  exists h. split; [vm_compute; reflexivity|]. split; [apply H; [reflexivity|reflexivity|by left]|].
  exists h. split; [vm_compute; reflexivity|]. split; [apply H; [reflexivity|reflexivity|by right]|exact I].
Qed.

Lemma site_regular :
  Forall (regular site_client (fun os => all_served (os_fs os) (cl_hostMap (cn_client site_conn)) (cl_host (cn_client site_conn)) demo_exchanges))
    site_events.
Proof.
  unfold site_events. cbv zeta. repeat apply Forall_cons_2; [..|apply Forall_nil_2]; cbn [regular];
    first [exact I | intros H; vm_compute in H; discriminate H
      | intros _; split; [reflexivity|split; [|apply site_served]]].
  - eexists. split; [reflexivity|]. discriminate.
  - eexists. split; [reflexivity|]. discriminate.
  - vm_compute. discriminate.
  - vm_compute. discriminate.
Qed.

