(* ===== verification/Logger.v ===== *)
(** * Logger: the log streams and the format of a message ([srcs/ILogger.cpp], [includes/ILogger.hpp])

    A message goes to every registered stream its level is enabled for.  An
    [std::ostream] is named by a number, its address ([std::cout] is [COUT]);
    what was written to each is the map [lg_written].  The clock, the formatted
    date and whether a file can be opened are parameters. *)

From S2P Require Import Prelude CxxString OrdMap Format Http.
From stdpp Require Import pretty.
#[local] Open Scope Z_scope.

(** ** Data *)
Definition LOG_FILE : Z := -1.
Definition LOG_DISABLE : Z := 0.
Definition LOG_ERROR : Z := 1.
Definition LOG_WARNING : Z := 2.
Definition LOG_INFO : Z := 3.
Definition LOG_DEBUG : Z := 4.
Definition LOG_VERBOSE : Z := 5.
Definition LOG_LVL_MAX : Z := LOG_VERBOSE.

Definition LOG_ERROR_MSK : Z := Z.shiftl 1 0.
Definition LOG_WARNING_MSK : Z := Z.shiftl 1 1.
Definition LOG_INFO_MSK : Z := Z.shiftl 1 2.
Definition LOG_DEBUG_MSK : Z := Z.shiftl 1 3.
Definition LOG_VERBOSE_MSK : Z := Z.shiftl 1 4.
Definition LOG_COLORIZE_MSK : Z := Z.shiftl 1 5.
Definition LOG_CONFIG_DEBUG : Z :=
  Z.lor (Z.lor (Z.lor LOG_ERROR_MSK LOG_WARNING_MSK) LOG_INFO_MSK) LOG_DEBUG_MSK.

Definition ESC : ascii := Ascii.ascii_of_nat 27.
Definition NEWLINE : ascii := Ascii.ascii_of_nat 10.
Definition TAB : ascii := Ascii.ascii_of_nat 9.
Definition TERM_CL_RED : str := ESC :: `s"[31m".
Definition TERM_CL_GREEN : str := ESC :: `s"[32m".
Definition TERM_CL_YELLOW : str := ESC :: `s"[33m".
Definition TERM_CL_MAGENTA : str := ESC :: `s"[35m".
Definition TERM_CL_WHITE : str := ESC :: `s"[37m".
Definition TERM_CL_RESET : str := ESC :: `s"[0m".
Definition TERM_CL_BOLD : str := ESC :: `s"[1m".

(** [colors[level]]; reading outside the array is undefined. *)
Definition colors : list str :=
  [TERM_CL_WHITE; TERM_CL_RED; TERM_CL_YELLOW; TERM_CL_GREEN; TERM_CL_MAGENTA; TERM_CL_WHITE].
Definition at_index {T} (l : list T) (i : Z) : outcome exn T :=
  if i <? 0 then Undef else deref (l !! Z.to_nat i).

Record LogStreamEntry := mkEntry {
  le_os : nat;
  le_levels : list bool;
  le_colorize : bool;
  le_file : bool;
}.
#[export] Instance eta_LogStreamEntry : Eta LogStreamEntry := fun e =>
  mkEntry (le_os e) (le_levels e) (le_colorize e) (le_file e).

(** [lg_files] holds the [ofstream]s on the heap, [lg_fileTable] leads from a
    path to one of them. *)
Record Logger := mkLogger {
  lg_streams : list LogStreamEntry;
  lg_files : list nat;
  lg_fileTable : list (str * nat);
  lg_isInit : bool;
  lg_written : gmap nat str;
  lg_fresh : nat;
}.
#[export] Instance eta_Logger : Eta Logger := fun l =>
  mkLogger (lg_streams l) (lg_files l) (lg_fileTable l) (lg_isInit l) (lg_written l) (lg_fresh l).

Definition COUT : nat := 0.
Definition Logger_init : Logger := mkLogger [] [] [] false ∅ 1.

(** What the logger asks the system: the seconds since the start, the date, and
    whether a path can be opened for writing. *)
Record log_env := mkLogEnv {
  le_elapsed : Z;
  le_date : str;
  le_opens : str -> bool;
}.

(** ** [LogStream] *)
Definition write_to (os : nat) (s : str) (l : Logger) : Logger :=
  l <| lg_written := <[os := default [] (lg_written l !! os) ++ s]> (lg_written l) |>.

(** The condition of [print] and [colorize]; [lvl] is at most [LOG_LVL_MAX]. *)
Definition enabled (lvl : Z) (e : LogStreamEntry) : bool :=
  ((lvl =? -1) && le_file e) || (lvl =? 0) || ((0 <? lvl) && nth (Z.to_nat (lvl - 1)) (le_levels e) false).

Definition print (s : str) (lvl : Z) (l : Logger) : Logger :=
  fold_left (fun l e => if enabled lvl e then write_to (le_os e) s l else l) (lg_streams l) l.

Definition colorize (code : str) (lvl : Z) (l : Logger) : Logger :=
  fold_left (fun l e => if enabled lvl e && le_colorize e then write_to (le_os e) code l else l) (lg_streams l) l.

Fixpoint findOs (os : nat) (streams : list LogStreamEntry) : option LogStreamEntry :=
  match streams with
  | [] => None
  | e :: streams => if Nat.eqb (le_os e) os then Some e else findOs os streams
  end.

Definition stream_addStream (os : nat) (levels : list bool) (color file : bool) (l : Logger) : Logger :=
  match findOs os (lg_streams l) with
  | Some _ => l
  | None => l <| lg_streams := lg_streams l ++ [mkEntry os levels color file] |>
  end.

Fixpoint erase_os (os : nat) (streams : list LogStreamEntry) : list LogStreamEntry :=
  match streams with
  | [] => []
  | e :: streams => if Nat.eqb (le_os e) os then streams else e :: erase_os os streams
  end.

Definition removeStream (os : nat) (l : Logger) : Logger :=
  l <| lg_streams := erase_os os (lg_streams l) |>.

Fixpoint edit_os (os : nat) (levels : list bool) (color : bool) (streams : list LogStreamEntry) : list LogStreamEntry :=
  match streams with
  | [] => []
  | e :: streams =>
      if Nat.eqb (le_os e) os then e <| le_colorize := color |> <| le_levels := levels |> :: streams
      else e :: edit_os os levels color streams
  end.

Definition editStream (os : nat) (levels : list bool) (color : bool) (l : Logger) : Logger :=
  l <| lg_streams := edit_os os levels color (lg_streams l) |>.

(** [levels] has [LOG_LVL_MAX] elements: its last index is [LOG_LVL_MAX - 1]. *)
Fixpoint fastCheck_loop (idx : Z) (streams : list LogStreamEntry) : outcome exn bool :=
  match streams with
  | [] => Ret false
  | e :: streams =>
      b ← at_index (le_levels e) idx;
      if b : bool then Ret true else fastCheck_loop idx streams
  end.
Definition fastCheck (level : Z) (l : Logger) : outcome exn bool :=
  fastCheck_loop (if LOG_LVL_MAX <? level then LOG_LVL_MAX else level) (lg_streams l).

Definition getLevels (os : nat) (l : Logger) : option (list bool) := le_levels <$> findOs os (lg_streams l).
Definition getStreamEntry (os : nat) (l : Logger) : option LogStreamEntry := findOs os (lg_streams l).

(** Returns the address of the levels, as a [bool]. *)
Definition getColorize (os : nat) (l : Logger) : bool :=
  match findOs os (lg_streams l) with None => false | Some _ => true end.

Definition getNbr (l : Logger) : Z := Z.of_nat (length (lg_streams l)).

(** ** Formats

    An argument of the variadic functions.  A pointer to an object is null or
    leads to an object that [operator<<] prints as the text; a [double] is the
    text of its value. *)
Inductive pointee : Type := PString | PHost | PLocation | PListenServer | PCGIConfig | PClient.
#[export] Instance pointee_eq_dec : EqDecision pointee.
Proof. solve_decision. Defined.

Inductive arg : Type :=
  | ArgInt (z : Z)
  | ArgUnsigned (z : Z)
  | ArgLong (z : Z)
  | ArgULong (z : Z)
  | ArgDouble (text : str)
  | ArgCStr (s : option str)
  | ArgPtr (kind : pointee) (text : option str).

Definition dec (z : Z) : str := lit (pretty z).
Definition NULL_TEXT : str := `s"(NULL)".

(** What a directive takes. *)
Inductive wanted : Type :=
  | WInt | WUnsigned | WLong | WULong | WDouble | WCStr
  | WString (len : Z)
  | WObject (kind : pointee).

(** [va_arg] with another type than the argument's is undefined; so is printing
    a null C string. *)
Definition arg_text (w : wanted) (a : arg) : outcome exn str :=
  match w, a with
  | WInt, ArgInt z => Ret (dec z)
  | WUnsigned, ArgUnsigned z => Ret (dec z)
  | WLong, ArgLong z => Ret (dec z)
  | WULong, ArgULong z => Ret (dec z)
  | WDouble, ArgDouble t => Ret t
  | WCStr, ArgCStr (Some s) => Ret (c_str s)
  | WString len, ArgPtr PString p =>
      Ret (match p with
           | Some s => if 0 <=? len then take (Z.to_nat len) s else s
           | None => NULL_TEXT
           end)
  | WObject kind, ArgPtr kind' p =>
      if bool_decide (kind = kind') then Ret (default NULL_TEXT p) else Undef
  | _, _ => Undef
  end.

(** The [switch] of [parseFormat] on what follows a [%]: the directive and the
    number of characters it skips after the [%], or the end of the message. *)
Inductive switched : Type :=
  | SwPrint (w : wanted) (skip : nat)
  | SwPercent
  | SwNothing
  | SwReturn.

Definition third (rest : str) : ascii := default NUL (rest !! 1%nat).

Definition switch (rest : str) : switched :=
  match default NUL (head rest) with
  | "%"%char => SwPercent
  | "d"%char | "i"%char => SwPrint WInt 1
  | "s"%char =>
      match third rest with
      | "s"%char => SwPrint (WString (-1)) 2
      | "h"%char => SwPrint (WString 10) 2
      | "l"%char => SwPrint (WString 20) 2
      | _ => SwPrint WCStr 1
      end
  | "f"%char => SwPrint WDouble 1
  | "u"%char => SwPrint WUnsigned 1
  | "l"%char =>
      match third rest with
      | "d"%char => SwPrint WLong 2
      | "u"%char => SwPrint WULong 2
      | "f"%char => SwPrint WDouble 2
      | _ => SwNothing
      end
  | "H"%char => SwPrint (WObject PHost) 1
  | "L"%char =>
      match third rest with
      | "o"%char => SwPrint (WObject PLocation) 2
      | "s"%char => SwPrint (WObject PListenServer) 2
      | _ => SwNothing
      end
  | "C"%char =>
      match third rest with
      | "g"%char => SwPrint (WObject PCGIConfig) 2
      | "l"%char => SwPrint (WObject PClient) 2
      | _ => SwNothing
      end
  | _ => SwReturn
  end.

(** [parseFormat] on the characters before the terminator. *)
Fixpoint format_loop (fuel : nat) (format : str) (args : list arg) (lvl : Z) (l : Logger) : outcome exn Logger :=
  match fuel with
  | O => Diverge
  | S fuel =>
      match format with
      | [] => Ret l
      | c :: rest =>
          if Ascii.eqb c "%" then
            match switch rest with
            | SwPercent => format_loop fuel (drop 1 rest) args lvl (print (`s"%") lvl l)
            | SwPrint w skip =>
                match args with
                | [] => Undef
                | a :: args =>
                    text ← arg_text w a;
                    format_loop fuel (drop skip rest) args lvl (print text lvl l)
                end
            | SwNothing => format_loop fuel (drop 1 rest) args lvl l
            | SwReturn => Ret l
            end
          else format_loop fuel rest args lvl (print [c] lvl l)
      end
  end.

Definition parseFormat (format : str) (args : list arg) (lvl : Z) (l : Logger) : outcome exn Logger :=
  format_loop (S (length (c_str format))) (c_str format) args lvl l.

(** ** [ILogger] *)
Section env.
Context (env : log_env).

Definition levels_of (flags : Z) : list bool :=
  map (fun i => negb (Z.land flags (Z.shiftl 1 i) =? 0)) [0; 1; 2; 3; 4].

Definition addStream (os : nat) (flags : Z) (l : Logger) : Logger :=
  stream_addStream os (levels_of flags) (negb (Z.land flags LOG_COLORIZE_MSK =? 0)) false l.

Definition printTimestamp (level : Z) (l : Logger) : outcome exn Logger :=
  let l := colorize TERM_CL_BOLD level l in
  code ← at_index colors level;
  let l := colorize code level l in
  let l := print (`s"[") level l in
  let l := print (dec (le_elapsed env)) level l in
  let l := print (`s"] ") level l in
  Ret (colorize TERM_CL_RESET level l).

Definition logDate (level : Z) (l : Logger) : Logger :=
  let l := colorize (TERM_CL_BOLD ++ TERM_CL_GREEN) level l in
  let l := print (NEWLINE :: TAB :: `s"---") level l in
  let l := print (le_date env) level l in
  let l := print (`s"---" ++ [NEWLINE; NEWLINE]) level l in
  colorize TERM_CL_RESET level l.

(** [LOG_AUTO_LOGFILE] is 0. *)
Definition initDefault (l : Logger) : Logger :=
  logDate (-1) (addStream COUT (Z.lor LOG_CONFIG_DEBUG LOG_COLORIZE_MSK) l).

Definition clamp (lvl : Z) : Z := if LOG_LVL_MAX <? lvl then LOG_LVL_MAX else if lvl <? -1 then -1 else lvl.

Definition log (lvl : Z) (format : str) (args : list arg) (l : Logger) : outcome exn Logger :=
  let l := if negb (lg_isInit l) then initDefault (l <| lg_isInit := true |>) else l in
  l ← printTimestamp (clamp lvl) l;
  parseFormat format args (clamp lvl) l.

Definition setInit (l : Logger) : Logger := l <| lg_isInit := true |>.

Definition removeLogFile (path : str) (l : Logger) : Logger :=
  match om_find lex_ltb path (lg_fileTable l) with
  | None => l
  | Some file =>
      (removeStream file l) <| lg_files := filter (fun f => f <> file) (lg_files l) |>
                            <| lg_fileTable := om_erase lex_ltb path (lg_fileTable l) |>
  end.

Definition open_error : str :=
  `s"Error adding log file : unable to open %ss. If it refers to a subdir, is the subdir created ?" ++ [NEWLINE].

(** Whether the file could not be opened. *)
Definition addLogFile_levels (path : str) (levels : list bool) (color : bool) (l : Logger) : outcome exn (Z * Logger) :=
  match om_find lex_ltb path (lg_fileTable l) with
  | Some _ => Ret (0, l)
  | None =>
      let file := lg_fresh l in
      let l := l <| lg_files := file :: lg_files l |>
                 <| lg_fileTable := om_assign lex_ltb path file (lg_fileTable l) |>
                 <| lg_fresh := S file |> in
      if negb (le_opens env (c_str path)) then
        l ← log LOG_ERROR open_error [ArgPtr PString (Some path)] (removeLogFile path l);
        Ret (1, l)
      else Ret (0, stream_addStream file levels color true l)
  end.

Definition addLogFile (path : str) (flags : Z) (l : Logger) : outcome exn (Z * Logger) :=
  addLogFile_levels path (levels_of flags) (negb (Z.land flags LOG_COLORIZE_MSK =? 0)) l.

Definition setLogLvl (path : str) (levels : list bool) (color : bool) (l : Logger) : Logger :=
  match om_find lex_ltb path (lg_fileTable l) with
  | None => l
  | Some file => editStream file levels color l
  end.

(** The loop over the table, which is cleared at the end. *)
Definition clear_file (l : Logger) (e : str * nat) : Logger :=
  (removeStream e.2 l) <| lg_files := filter (fun f => f <> e.2) (lg_files l) |>.
Definition clearFiles (l : Logger) : Logger :=
  (fold_left clear_file (lg_fileTable l) l) <| lg_fileTable := [] |>.

(** What [printLogConfig] writes about one file. *)
Definition config_entry (l : Logger) (e : str * nat) : outcome exn str :=
  entry ← deref (getStreamEntry e.2 l);
  let shown i name := if nth i (le_levels entry) false then name else [] in
  Ret (TAB :: `s"- " ++ e.1 ++ [NEWLINE; TAB; TAB]
       ++ shown 0%nat (`s" | CLIENT_MODE_ERROR") ++ shown 1%nat (`s" | WARNING") ++ shown 2%nat (`s" | INFO")
       ++ shown 3%nat (`s" | DEBUG") ++ shown 4%nat (`s" | VERBOSE")
       ++ [NEWLINE; TAB; TAB] ++ `s" colorize = " ++ (if le_colorize entry then `s"1" else `s"0") ++ [NEWLINE]).

Fixpoint config_entries (l : Logger) (table : list (str * nat)) : outcome exn str :=
  match table with
  | [] => Ret []
  | e :: table => s ← config_entry l e; t ← config_entries l table; Ret (s ++ t)
  end.

Definition printLogConfig (l : Logger) : outcome exn Logger :=
  entries ← config_entries l (lg_fileTable l);
  Ret (write_to COUT (TERM_CL_BOLD ++ TERM_CL_MAGENTA ++ `s"------- [LOG CONFIG] -------" ++ [NEWLINE]
    ++ dec (getNbr l) ++ `s" stream(s) registered, including " ++ dec (Z.of_nat (length (lg_files l)))
    ++ `s" file(s) :" ++ [NEWLINE] ++ entries ++ TERM_CL_RESET ++ [NEWLINE]) l).
End env.

(** *** Examples *)
Definition demo_log_env : log_env := mkLogEnv 7 (`s"2024-01-01 00-00-00") (fun p => negb (str_eqb p (`s"none/x"))).

Definition demo_logger : Logger :=
  match (l ← Ret (addStream COUT (Z.lor (Z.lor LOG_ERROR_MSK LOG_INFO_MSK) LOG_COLORIZE_MSK) Logger_init);
         '(_, l) ← addLogFile demo_log_env (`s"e.log") LOG_ERROR_MSK l; Ret (setInit l)) with
  | Ret l => l
  | _ => Logger_init
  end.

Example log_ex :
  match log demo_log_env LOG_INFO (`s"client %d: %ss") [ArgInt 42; ArgPtr PString (Some (`s"bye"))] demo_logger with
  | Ret l => (lg_written l !! COUT, lg_written l !! 1%nat)
  | _ => (None, None)
  end = (Some (TERM_CL_BOLD ++ TERM_CL_GREEN ++ `s"[7] " ++ TERM_CL_RESET ++ `s"client 42: bye"), None).
Proof. vm_compute. reflexivity. Qed.
