(* ===== verification/LoggerFacts.v ===== *)
(** * LoggerFacts: what the logger writes

    Every stream receives a message exactly when its level is enabled, rendered
    as the format says; opening and closing log files keeps the table of files,
    the list of files and the list of streams in step. *)

From S2P Require Import Prelude CxxString OrdMap Format Http Logger.
#[local] Open Scope Z_scope.

(** ** What each stream receives *)
Definition content (os : nat) (l : Logger) : str := default [] (lg_written l !! os).

(** [l'] is [l] after every stream [e] received [f e], and the others nothing. *)
Definition received (l : Logger) (f : LogStreamEntry -> str) (l' : Logger) : Prop :=
  (lg_streams l' = lg_streams l /\ lg_files l' = lg_files l /\ lg_fileTable l' = lg_fileTable l /\
   lg_isInit l' = lg_isInit l /\ lg_fresh l' = lg_fresh l) /\
  forall os, content os l' = content os l ++ match findOs os (lg_streams l) with Some e => f e | None => [] end.

Definition distinct (l : Logger) : Prop := NoDup (map le_os (lg_streams l)).

Lemma received_nothing l : received l (fun _ => []) l.
Proof. split; [done|]. intros os. destruct (findOs os _); by rewrite app_nil_r. Qed.

Lemma received_trans l1 l2 l3 f g :
  received l1 f l2 -> received l2 g l3 -> received l1 (fun e => f e ++ g e) l3.
Proof.
  intros [(A1 & A2 & A3 & A4 & A5) A] [(B1 & B2 & B3 & B4 & B5) B]. split; [split_and!; congruence|].
  intros os. rewrite B, A, A1. destruct (findOs os (lg_streams l1)); by rewrite <- app_assoc.
Qed.

Lemma received_distinct l f l' : received l f l' -> distinct l -> distinct l'.
Proof. unfold distinct. by intros [(-> & _) _]. Qed.

Lemma received_ext l f g l' : (forall e, f e = g e) -> received l f l' -> received l g l'.
Proof. intros E [H1 H2]. split; [done|]. intros os. rewrite H2. destruct (findOs os _); by rewrite ?E. Qed.

Lemma findOs_None os streams : findOs os streams = None <-> os ∉ map le_os streams.
Proof.
  induction streams as [|e streams IH]; cbn [findOs map]; [split; [intros _; apply not_elem_of_nil|done]|].
  rewrite not_elem_of_cons, <- IH. destruct (Nat.eqb_spec (le_os e) os) as [->|]; [split; [done|by intros [? _]]|].
  split; [|by intros [_ ?]]. intros. by split.
Qed.

Lemma content_write a os s l : content a (write_to os s l) = content a l ++ (if Nat.eqb os a then s else []).
Proof.
  unfold content, write_to. cbn [lg_written upd]. destruct (Nat.eqb_spec os a) as [->|Hne].
  - by rewrite lookup_insert_eq.
  - by rewrite lookup_insert_ne, app_nil_r.
Qed.

(** A pass over the streams that writes to the chosen ones. *)
Lemma emit_received (P : LogStreamEntry -> bool) s streams : forall l,
  NoDup (map le_os streams) ->
  let l' := fold_left (fun l e => if P e then write_to (le_os e) s l else l) streams l in
  (lg_streams l' = lg_streams l /\ lg_files l' = lg_files l /\ lg_fileTable l' = lg_fileTable l /\
   lg_isInit l' = lg_isInit l /\ lg_fresh l' = lg_fresh l) /\
  forall os, content os l' = content os l ++ match findOs os streams with
                                             | Some e => if P e then s else [] | None => [] end.
Proof.
  induction streams as [|e streams IH]; intros l Hn; cbn [fold_left findOs].
  { split; [done|]. intros os. by rewrite app_nil_r. }
  cbn [map] in Hn. apply NoDup_cons in Hn as [He Hn].
  destruct (IH (if P e then write_to (le_os e) s l else l) Hn) as [H1 H2]. cbv zeta in *.
  split; [by destruct (P e)|]. intros os. rewrite H2. apply findOs_None in He.
  destruct (Nat.eqb_spec (le_os e) os) as [<-|Hne].
  - rewrite He, app_nil_r. destruct (P e); [by rewrite content_write, Nat.eqb_refl|by rewrite app_nil_r].
  - destruct (P e); [|done]. by rewrite content_write, (proj2 (Nat.eqb_neq _ _)), app_nil_r.
Qed.

Lemma print_received s lvl l : distinct l -> received l (fun e => if enabled lvl e then s else []) (print s lvl l).
Proof. intros Hd. apply (emit_received (enabled lvl)), Hd. Qed.

Lemma colorize_received code lvl l : distinct l ->
  received l (fun e => if enabled lvl e && le_colorize e then code else []) (colorize code lvl l).
Proof. intros Hd. apply (emit_received (fun e => enabled lvl e && le_colorize e)), Hd. Qed.

(** ** Formats

    A format as a list of pieces, with the text it stands for. *)
Definition directives : list (str * wanted) :=
  [(`s"d", WInt); (`s"i", WInt); (`s"s", WCStr); (`s"ss", WString (-1)); (`s"sh", WString 10);
   (`s"sl", WString 20); (`s"f", WDouble); (`s"u", WUnsigned); (`s"ld", WLong); (`s"lu", WULong);
   (`s"lf", WDouble); (`s"H", WObject PHost); (`s"Lo", WObject PLocation); (`s"Ls", WObject PListenServer);
   (`s"Cg", WObject PCGIConfig); (`s"Cl", WObject PClient)].

Inductive piece : Type :=
  | Plain (c : ascii)
  | Percent
  | Item (name : str) (w : wanted) (a : arg) (text : str).

Definition piece_format (p : piece) : str :=
  match p with Plain c => [c] | Percent => `s"%%" | Item name _ _ _ => "%"%char :: name end.
Definition piece_text (p : piece) : str :=
  match p with Plain c => [c] | Percent => `s"%" | Item _ _ _ text => text end.
Definition piece_args (p : piece) : list arg := match p with Item _ _ a _ => [a] | _ => [] end.

Definition format_of (ps : list piece) : str := concat (map piece_format ps).
Definition text_of (ps : list piece) : str := concat (map piece_text ps).
Definition args_of (ps : list piece) : list arg := concat (map piece_args ps).

(** A [%s] must not be followed by a letter that makes another directive of it. *)
Definition piece_ok (p : piece) (next : str) : Prop :=
  match p with
  | Plain c => c <> "%"%char /\ c <> NUL
  | Percent => True
  | Item name w a text =>
      (name, w) ∈ directives /\ arg_text w a = Ret text /\
      (name = `s"s" -> default NUL (head next) ∉ [ "s"%char; "h"%char; "l"%char ])
  end.

Fixpoint pieces_ok (ps : list piece) : Prop :=
  match ps with
  | [] => True
  | p :: ps => piece_ok p (format_of ps) /\ pieces_ok ps
  end.

(** The [switch] recognises every directive. *)
Lemma switch_directive name w next :
  (name, w) ∈ directives -> (name = `s"s" -> default NUL (head next) ∉ [ "s"%char; "h"%char; "l"%char ]) ->
  exists skip, switch (name ++ next) = SwPrint w skip /\ drop skip (name ++ next) = next.
Proof.
  intros Hin Hs. unfold directives in Hin.
  repeat (apply elem_of_cons in Hin as [Hin|Hin]; [injection Hin as -> ->|]); [..|by apply elem_of_nil in Hin];
    try (eexists; split; [reflexivity|done]).
  specialize (Hs eq_refl). exists 1%nat. split; [|done]. unfold switch, third. cbn [app head lit].
  change (String.list_ascii_of_string "s" ++ next) with ("s"%char :: next). cbn [lookup list_lookup head default].
  destruct next as [|c next]; [done|]. cbn in Hs |- *.
  rewrite !not_elem_of_cons in Hs. destruct Hs as (H1 & H2 & H3 & _).
  destruct c as [[] [] [] [] [] [] [] []]; done.
Qed.

Lemma format_loop_pieces lvl ps : forall fuel l,
  pieces_ok ps -> distinct l -> (length (format_of ps) < fuel)%nat ->
  exists l', format_loop fuel (format_of ps) (args_of ps) lvl l = Ret l' /\
    received l (fun e => if enabled lvl e then text_of ps else []) l'.
Proof.
  induction ps as [|p ps IH]; intros fuel l Hok Hd Hf; (destruct fuel as [|fuel]; [lia|]).
  { exists l. split; [done|]. eapply received_ext; [|apply received_nothing]. intros e. by destruct (enabled lvl e). }
  destruct Hok as [Hp Hok].
  assert (forall t l1, received l (fun e => if enabled lvl e then t else []) l1 -> piece_text p = t ->
    (length (format_of ps) < fuel)%nat ->
    exists l', format_loop fuel (format_of ps) (args_of ps) lvl l1 = Ret l' /\
      received l (fun e => if enabled lvl e then text_of (p :: ps) else []) l') as Hnext.
  { intros t l1 H1 Ht Hf'. destruct (IH fuel l1 Hok) as (l' & E & H2); [by eapply received_distinct|done|].
    exists l'. split; [done|]. eapply received_ext; [|by eapply received_trans]. intros e. cbn beta.
    unfold text_of. cbn [map concat]. rewrite Ht. by destruct (enabled lvl e). }
  unfold format_of, args_of in *. cbn [map concat] in *. rewrite length_app in Hf.
  destruct p as [c| |name w a text]; cbn [piece_format piece_args app length format_loop] in *.
  - destruct Hp as [Hp _]. rewrite (proj2 (Ascii.eqb_neq _ _)) by done.
    apply (Hnext [c]); [by apply print_received|done|lia].
  - change (Ascii.eqb "%" "%") with true. cbv iota.
    change (switch (_ :: ?r)) with SwPercent. cbv iota.
    apply (Hnext (`s"%")); [by apply print_received|done|cbn in Hf; lia].
  - change (Ascii.eqb "%" "%") with true. cbv iota. destruct Hp as (Hin & Ha & Hs).
    destruct (switch_directive _ _ _ Hin Hs) as (skip & Hsw & Hdrop). unfold format_of in Hsw, Hdrop.
    rewrite Hsw, Ha, Hdrop. cbn [mbind outcome_bind].
    apply (Hnext text); [by apply print_received|done|lia].
Qed.

Lemma directive_no_nul name w : (name, w) ∈ directives -> NUL ∉ name.
Proof.
  intros Hin. assert (Forall (fun d => NUL ∉ d.1) directives) as H by (apply (bool_decide_unpack _); vm_compute; exact I).
  rewrite Forall_forall in H. by apply (H (name, w)).
Qed.

Lemma format_no_nul ps : pieces_ok ps -> NUL ∉ format_of ps.
Proof.
  induction ps as [|p ps IH]; [intros _; apply not_elem_of_nil|]. intros [Hp Hok].
  unfold format_of in *. cbn [map concat]. rewrite not_elem_of_app. split; [|by apply IH].
  destruct p as [c| |name w a text]; cbn [piece_format].
  - destruct Hp as [_ Hp]. rewrite list_elem_of_singleton. congruence.
  - apply (bool_decide_unpack _). vm_compute. exact I.
  - destruct Hp as (Hin & _). rewrite not_elem_of_cons. split; [done|]. by eapply directive_no_nul.
Qed.

(** What precedes a message on one stream. *)
Definition stamp (env : log_env) (code : str) (e : LogStreamEntry) : str :=
  (if le_colorize e then TERM_CL_BOLD ++ code else []) ++ `s"[" ++ dec (le_elapsed env) ++ `s"] "
  ++ (if le_colorize e then TERM_CL_RESET else []).

Lemma timestamp_received env lvl code l :
  distinct l -> at_index colors lvl = Ret code ->
  exists l', printTimestamp env lvl l = Ret l' /\ received l (fun e => if enabled lvl e then stamp env code e else []) l'.
Proof.
  intros Hd Hc. unfold printTimestamp. cbv zeta. rewrite Hc. cbn [mbind outcome_bind]. eexists. split; [reflexivity|].
  pose proof (colorize_received TERM_CL_BOLD lvl l Hd) as R1. pose proof (received_distinct _ _ _ R1 Hd) as D1.
  pose proof (colorize_received code lvl _ D1) as R2. pose proof (received_distinct _ _ _ R2 D1) as D2.
  pose proof (print_received (`s"[") lvl _ D2) as R3. pose proof (received_distinct _ _ _ R3 D2) as D3.
  pose proof (print_received (dec (le_elapsed env)) lvl _ D3) as R4. pose proof (received_distinct _ _ _ R4 D3) as D4.
  pose proof (print_received (`s"] ") lvl _ D4) as R5. pose proof (received_distinct _ _ _ R5 D4) as D5.
  pose proof (colorize_received TERM_CL_RESET lvl _ D5) as R6.
  eapply received_ext; [|exact (received_trans _ _ _ _ _ R1 (received_trans _ _ _ _ _ R2 (received_trans _ _ _ _ _ R3
    (received_trans _ _ _ _ _ R4 (received_trans _ _ _ _ _ R5 R6)))))].
  intros e. cbn beta. unfold stamp. destruct (enabled lvl e); [|done]. destruct (le_colorize e); cbn [andb];
    by rewrite <- ?app_assoc.
Qed.

(** ** Files *)

(** The table of files, the list of files and the list of streams are in step. *)
Record files_ok (l : Logger) : Prop := {
  fo_sorted : om_sorted lex_ltb (lg_fileTable l);
  fo_files : forall f, f ∈ lg_files l <-> f ∈ map snd (lg_fileTable l);
  fo_nodup : NoDup (map snd (lg_fileTable l));
  fo_streams : NoDup (map le_os (lg_streams l));
  fo_entries : forall f, f ∈ lg_files l <-> exists e, e ∈ lg_streams l /\ le_os e = f /\ le_file e = true;
  fo_fresh : forall a, a ∈ lg_files l \/ a ∈ map le_os (lg_streams l) -> (a < lg_fresh l)%nat;
  fo_cout : (COUT < lg_fresh l)%nat;
}.

Lemma received_files_ok l f l' : received l f l' -> files_ok l -> files_ok l'.
Proof.
  intros [(E1 & E2 & E3 & _ & E5) _] [H1 H2 H3 H4 H5 H6 H7].
  split; by rewrite ?E1, ?E2, ?E3, ?E5.
Qed.

Lemma erase_os_spec os streams : NoDup (map le_os streams) ->
  erase_os os streams = filter (fun e => le_os e <> os) streams.
Proof.
  induction streams as [|e streams IH]; intros Hn; [done|]. cbn [map] in Hn. apply NoDup_cons in Hn as [He Hn].
  cbn [erase_os]. rewrite filter_cons. destruct (Nat.eqb_spec (le_os e) os) as [<-|Hne].
  - rewrite decide_False by (intros H; by apply H). clear IH Hn. induction streams as [|e' streams IH]; [done|].
    cbn [map] in He. apply not_elem_of_cons in He as [Hne He]. rewrite filter_cons, decide_True by congruence.
    by rewrite <- IH.
  - by rewrite decide_True, IH.
Qed.

Lemma NoDup_map_filter {A B} (f : A -> B) (P : A -> Prop) `{!forall x, Decision (P x)} (l : list A) :
  NoDup (map f l) -> NoDup (map f (filter P l)).
Proof.
  induction l as [|x l IH]; [done|]. cbn [map]. intros [Hx Hn]%NoDup_cons. rewrite filter_cons.
  destruct (decide (P x)); [|by apply IH]. cbn [map]. apply NoDup_cons. split; [|by apply IH].
  intros Hin. apply Hx. apply list_elem_of_fmap in Hin as (y & -> & Hy). apply list_elem_of_fmap.
  exists y. split; [done|]. by apply list_elem_of_filter in Hy as [_ ?].
Qed.

(** Closing some of the files. *)
Lemma files_ok_without (P : nat -> Prop) `{!forall x, Decision (P x)} l l' :
  files_ok l ->
  lg_streams l' = filter (fun e => le_file e = true -> P (le_os e)) (lg_streams l) ->
  lg_files l' = filter P (lg_files l) -> lg_fileTable l' = filter (fun e => P e.2) (lg_fileTable l) ->
  lg_fresh l' = lg_fresh l -> files_ok l'.
Proof.
  intros [H1 H2 H3 H4 H5 H6 H7] E1 E2 E3 E4.
  assert (forall e, (e ∈ lg_streams l' <-> e ∈ lg_streams l /\ (le_file e = true -> P (le_os e)))) as Hs.
  { intros e. rewrite E1, list_elem_of_filter. tauto. }
  split.
  - rewrite E3. by apply om_sorted_filter.
  - intros f. rewrite E2, E3, list_elem_of_filter, H2. split.
    + intros [Hf Hin]. apply list_elem_of_fmap in Hin as (e & -> & He). apply list_elem_of_fmap. exists e.
      split; [done|]. by apply list_elem_of_filter.
    + intros Hin. apply list_elem_of_fmap in Hin as (e & -> & He). apply list_elem_of_filter in He as [Hp He].
      split; [done|]. apply list_elem_of_fmap. by exists e.
  - rewrite E3. by apply NoDup_map_filter.
  - rewrite E1. by apply NoDup_map_filter.
  - intros f. rewrite E2, list_elem_of_filter, H5. split.
    + intros [Hp (e & He & <- & Hf)]. exists e. split; [|done]. by apply Hs.
    + intros (e & [He Hp]%Hs & <- & Hf). split; [by apply Hp|]. by exists e.
  - intros a. rewrite E2, E1, E4. intros [Ha|Ha]; apply H6.
    + apply list_elem_of_filter in Ha as [_ ?]. by left.
    + right. apply list_elem_of_fmap in Ha as (e & -> & He). apply list_elem_of_filter in He as [_ He].
      apply list_elem_of_fmap. by exists e.
  - by rewrite E4.
Qed.

(** A file is the file of its stream, which is the only one of that address. *)
Lemma file_stream l e f : files_ok l -> e ∈ lg_streams l -> le_os e = f -> f ∈ lg_files l -> le_file e = true.
Proof.
  intros Hok He <- Hf. apply (fo_entries _ Hok) in Hf as (e' & He' & Ho & Hfile).
  assert (e' = e) as ->; [|done]. pose proof (fo_streams _ Hok) as Hn. clear -Hn He He' Ho.
  induction (lg_streams l) as [|x streams IH]; [by apply elem_of_nil in He|]. cbn [map] in Hn.
  apply NoDup_cons in Hn as [Hx Hn]. apply elem_of_cons in He as [->|He], He' as [->|He']; [done| | |by apply IH].
  - destruct Hx. rewrite <- Ho. by apply list_elem_of_fmap_2.
  - destruct Hx. rewrite Ho. by apply list_elem_of_fmap_2.
Qed.

Lemma table_file l path f : files_ok l -> (path, f) ∈ lg_fileTable l -> f ∈ lg_files l.
Proof. intros Hok Hin. apply (fo_files _ Hok), list_elem_of_fmap. by exists (path, f). Qed.

Lemma table_find l path f : files_ok l -> om_find lex_ltb path (lg_fileTable l) = Some f <-> (path, f) ∈ lg_fileTable l.
Proof.
  intros Hok. rewrite om_find_Some by first [apply _|apply (fo_sorted _ Hok)]. split.
  - by intros (k & Hk & ->%lex_equiv).
  - intros Hin. exists path. split; [done|]. by apply lex_equiv.
Qed.

Lemma table_value_inj l path path' f : files_ok l ->
  (path, f) ∈ lg_fileTable l -> (path', f) ∈ lg_fileTable l -> path = path'.
Proof.
  intros Hok. pose proof (fo_nodup _ Hok) as Hn. induction (lg_fileTable l) as [|[k v] m IH]; [by intros ?%elem_of_nil|].
  cbn [map snd] in Hn. apply NoDup_cons in Hn as [Hv Hn]. rewrite !elem_of_cons.
  intros [H1|H1] [H2|H2]; simplify_eq; [done| | |by apply IH]; destruct Hv; apply list_elem_of_fmap; by eexists (_, _).
Qed.

Lemma removeLogFile_fields path f l : files_ok l -> om_find lex_ltb path (lg_fileTable l) = Some f ->
  lg_streams (removeLogFile path l) = filter (fun e => le_file e = true -> le_os e <> f) (lg_streams l) /\
  lg_files (removeLogFile path l) = filter (fun a => a <> f) (lg_files l) /\
  lg_fileTable (removeLogFile path l) = filter (fun e => e.2 <> f) (lg_fileTable l).
Proof.
  intros Hok Hf. unfold removeLogFile, removeStream. rewrite Hf. cbn [lg_streams lg_files lg_fileTable upd].
  pose proof Hf as Hin%(table_find _ _ _ Hok). split; [|split; [done|]].
  - rewrite erase_os_spec by apply Hok. apply filter_iff_in. intros e He. split; [done|]. intros H E. apply H; [|done].
    eapply file_stream; [done|done|exact E|by eapply table_file].
  - rewrite om_erase_filter by apply Hok. apply filter_iff_in. intros [k v] He. cbn. split; intros H E; apply H; subst.
    + by eapply table_value_inj.
    + apply (table_find _ _ _ Hok) in He. congruence.
Qed.

Lemma removeLogFile_ok path l : files_ok l -> files_ok (removeLogFile path l).
Proof.
  intros Hok. destruct (om_find lex_ltb path (lg_fileTable l)) as [f|] eqn:Hf.
  - destruct (removeLogFile_fields _ _ _ Hok Hf) as (H1 & H2 & H3).
    apply (files_ok_without (fun a => a <> f) l); [done|done|done|done|]. unfold removeLogFile. by rewrite Hf.
  - unfold removeLogFile. by rewrite Hf.
Qed.

Lemma clear_loop t : forall l, NoDup (map le_os (lg_streams l)) ->
  let l' := fold_left clear_file t l in
  lg_streams l' = filter (fun e => le_os e ∉ map snd t) (lg_streams l) /\
  lg_files l' = filter (fun f => f ∉ map snd t) (lg_files l) /\ lg_fileTable l' = lg_fileTable l /\
  lg_fresh l' = lg_fresh l.
Proof.
  induction t as [|[k f] t IH]; intros l Hn; cbn [fold_left].
  - split_and!; [| |done|done]; symmetry; apply filter_all, Forall_forall; intros x _ H; by apply elem_of_nil in H.
  - assert (lg_streams (clear_file l (k, f)) = filter (fun e => le_os e <> f) (lg_streams l)) as Es.
    { unfold clear_file, removeStream. cbn [lg_streams upd snd]. by apply erase_os_spec. }
    destruct (IH (clear_file l (k, f))) as (H1 & H2 & H3 & H4); [rewrite Es; by apply NoDup_map_filter|].
    cbv zeta. rewrite H1, H2, H3, H4, Es. split_and!; [| |done|done].
    + rewrite filter_filter_and. apply filter_iff_in. intros e _. cbn [map snd]. rewrite not_elem_of_cons. tauto.
    + unfold clear_file. cbn [lg_files upd snd]. rewrite filter_filter_and. apply filter_iff_in. intros a _.
      cbn [map snd]. rewrite not_elem_of_cons. tauto.
Qed.

Lemma filter_none {T} (P : T -> Prop) `{!forall x, Decision (P x)} (l : list T) :
  (forall x, x ∈ l -> ~ P x) -> filter P l = [].
Proof.
  induction l as [|x l IH]; intros Hno; [done|]. rewrite filter_cons, decide_False by (apply Hno; by left).
  apply IH. intros y Hy. apply Hno. by right.
Qed.

Lemma clearFiles_fields l : files_ok l ->
  lg_streams (clearFiles l) = filter (fun e => le_file e = true -> le_os e ∉ map snd (lg_fileTable l)) (lg_streams l) /\
  lg_files (clearFiles l) = [] /\ lg_fileTable (clearFiles l) = [] /\ lg_fresh (clearFiles l) = lg_fresh l.
Proof.
  intros Hok. destruct (clear_loop (lg_fileTable l) l (fo_streams _ Hok)) as (H1 & H2 & _ & H4).
  unfold clearFiles. cbn [lg_streams lg_files lg_fileTable lg_fresh upd]. cbv zeta in *. rewrite H1, H2, H4.
  split_and!; [| |done|done].
  - apply filter_iff_in. intros e He. split; [done|]. intros H Hin. apply H; [|done].
    eapply file_stream; [done|done|done|]. by apply (fo_files _ Hok).
  - apply filter_none. intros f Hf Hn. by apply Hn, (fo_files _ Hok).
Qed.

Lemma clearFiles_ok l : files_ok l -> files_ok (clearFiles l).
Proof.
  intros Hok. destruct (clearFiles_fields l Hok) as (H1 & H2 & H3 & H4).
  apply (files_ok_without (fun f => f ∉ map snd (lg_fileTable l)) l); [done|done| | |done].
  - rewrite H2. symmetry. apply filter_none. intros f Hf Hn. by apply Hn, (fo_files _ Hok).
  - rewrite H3. symmetry. apply filter_none. intros e He Hn. apply Hn. by apply list_elem_of_fmap_2.
Qed.

(** A stream that is not a file. *)
Lemma addStream_ok os flags l : files_ok l -> (os < lg_fresh l)%nat -> files_ok (addStream os flags l).
Proof.
  intros Hok Hos. unfold addStream, stream_addStream. destruct (findOs os (lg_streams l)) eqn:Ef; [done|].
  apply findOs_None in Ef. destruct Hok as [H1 H2 H3 H4 H5 H6 H7]. split; cbn; try done.
  - rewrite map_app. cbn. apply NoDup_app. split_and!; [done| |by apply NoDup_singleton].
    by intros a Ha ->%list_elem_of_singleton.
  - intros f. rewrite H5. split; intros (e & He & Ho & Hf); exists e; (split; [|done]).
    + apply elem_of_app. by left.
    + apply elem_of_app in He as [?| ->%list_elem_of_singleton]; [done|by cbn in Hf].
  - intros a [Ha|Ha]; [by apply H6; left|]. rewrite map_app, elem_of_app in Ha.
    destruct Ha as [Ha|Ha]; [by apply H6; right|]. by apply list_elem_of_singleton in Ha as ->.
Qed.

(** A new file, opened or not. *)
Lemma new_file_ok path levels color l : files_ok l -> om_find lex_ltb path (lg_fileTable l) = None ->
  files_ok (stream_addStream (lg_fresh l) levels color true
    (l <| lg_files := lg_fresh l :: lg_files l |>
       <| lg_fileTable := om_assign lex_ltb path (lg_fresh l) (lg_fileTable l) |>
       <| lg_fresh := S (lg_fresh l) |>)).
Proof.
  intros [H1 H2 H3 H4 H5 H6 H7] Hnone. set (f := lg_fresh l) in *. unfold stream_addStream. cbn [lg_streams upd].
  assert (f ∉ map le_os (lg_streams l)) as Hf by (intros Hin; specialize (H6 f (or_intror Hin)); subst f; lia).
  assert (f ∉ lg_files l) as Hf' by (intros Hin; specialize (H6 f (or_introl Hin)); subst f; lia).
  rewrite (proj2 (findOs_None _ _)) by done.
  pose proof (om_assign_new lex_ltb path f _ Hnone) as Htab.
  assert (map snd (om_assign lex_ltb path f (lg_fileTable l)) ≡ₚ f :: map snd (lg_fileTable l)) as Hmap.
  { exact (Permutation_map snd Htab). }
  split; cbn.
  - apply om_update_sorted; [apply _|done].
  - intros a. by rewrite Hmap, !elem_of_cons, H2.
  - rewrite Hmap. apply NoDup_cons. split; [|done]. by rewrite <- H2.
  - rewrite map_app. cbn. apply NoDup_app. split_and!; [done| |by apply NoDup_singleton].
    by intros a Ha ->%list_elem_of_singleton.
  - intros a. rewrite elem_of_cons, H5. split.
    + intros [->|(e & He & Ho)]; [eexists; split; [apply elem_of_app; right; by left|done]|].
      exists e. split; [|done]. apply elem_of_app. by left.
    + intros (e & [He| ->%list_elem_of_singleton]%elem_of_app & <- & Hfile); [right|by left]. by exists e.
  - intros a. rewrite elem_of_cons, map_app, elem_of_app. cbn. rewrite list_elem_of_singleton.
    intros [[->|Ha]|[Ha| ->]]; [lia| | |lia].
    + specialize (H6 a (or_introl Ha)). lia.
    + specialize (H6 a (or_intror Ha)). lia.
  - unfold COUT in *. lia.
Qed.

(** Removing, or changing the levels of, a stream. *)
Lemma removeStream_ok os l : files_ok l -> os ∉ lg_files l -> files_ok (removeStream os l).
Proof.
  intros Hok Hos. assert (lg_streams (removeStream os l) = filter (fun e => le_os e <> os) (lg_streams l)) as Es.
  { apply erase_os_spec, Hok. }
  destruct Hok as [H1 H2 H3 H4 H5 H6 H7]. split; rewrite ?Es; try done.
  - by apply NoDup_map_filter.
  - intros f. cbn [removeStream lg_files upd]. rewrite H5. split.
    + intros (e & He & <- & Hf). exists e. split; [|done]. apply list_elem_of_filter. split; [|done].
      intros <-. apply Hos, H5. by exists e.
    + intros (e & [_ He]%list_elem_of_filter & Ho). by exists e.
  - intros a Ha. apply H6. destruct Ha as [Ha|Ha]; [by left|right].
    apply list_elem_of_fmap in Ha as (e & -> & [_ He]%list_elem_of_filter). by apply list_elem_of_fmap_2.
Qed.

Lemma edit_os_entries os levels color streams e :
  e ∈ edit_os os levels color streams -> exists e', e' ∈ streams /\ le_os e' = le_os e /\ le_file e' = le_file e.
Proof.
  induction streams as [|x streams IH]; [by intros ?%elem_of_nil|]. cbn [edit_os].
  destruct (Nat.eqb (le_os x) os); intros [->|He]%elem_of_cons.
  - exists x. split; [by left|done].
  - exists e. split; [by right|done].
  - exists x. split; [by left|done].
  - destruct (IH He) as (e' & H & ?). exists e'. split; [by right|done].
Qed.

Lemma edit_os_keeps os levels color streams e :
  e ∈ streams -> exists e', e' ∈ edit_os os levels color streams /\ le_os e' = le_os e /\ le_file e' = le_file e.
Proof.
  induction streams as [|x streams IH]; [by intros ?%elem_of_nil|]. cbn [edit_os].
  destruct (Nat.eqb (le_os x) os); intros [->|He]%elem_of_cons.
  - eexists. split; [by left|done].
  - exists e. split; [by right|done].
  - exists x. split; [by left|done].
  - destruct (IH He) as (e' & H & ?). exists e'. split; [by right|done].
Qed.

Lemma edit_os_addresses os levels color streams : map le_os (edit_os os levels color streams) = map le_os streams.
Proof. induction streams as [|e streams IH]; [done|]. cbn [edit_os]. destruct (Nat.eqb _ _); cbn; by rewrite ?IH. Qed.

Lemma editStream_ok os levels color l : files_ok l -> files_ok (editStream os levels color l).
Proof.
  intros [H1 H2 H3 H4 H5 H6 H7]. split; cbn [editStream lg_streams lg_files lg_fileTable lg_fresh upd]; try done.
  - by rewrite edit_os_addresses.
  - intros f. rewrite H5. split; intros (e & He & <- & Hf).
    + destruct (edit_os_keeps os levels color _ _ He) as (e' & He' & Ho & Hf'). exists e'. by rewrite Hf'.
    + destruct (edit_os_entries _ _ _ _ _ He) as (e' & He' & Ho & Hf'). exists e'. by rewrite Hf'.
  - by rewrite edit_os_addresses.
Qed.

Lemma setLogLvl_ok path levels color l : files_ok l -> files_ok (setLogLvl path levels color l).
Proof. intros Hok. unfold setLogLvl. destruct (om_find _ _ _); [by apply editStream_ok|done]. Qed.

(** ** Messages *)

(** The logger a message finds: the default stream is there. *)
Definition started (env : log_env) (l : Logger) : Logger :=
  if lg_isInit l then l else initDefault env (l <| lg_isInit := true |>).

Definition color_of (lvl : Z) : str := default [] (colors !! Z.to_nat (clamp lvl)).

Lemma logDate_received env lvl l : distinct l -> exists f, received l f (logDate env lvl l).
Proof.
  intros Hd. unfold logDate. cbv zeta. eexists.
  pose proof (colorize_received (TERM_CL_BOLD ++ TERM_CL_GREEN) lvl l Hd) as R1. pose proof (received_distinct _ _ _ R1 Hd) as D1.
  pose proof (print_received (NEWLINE :: TAB :: `s"---") lvl _ D1) as R2. pose proof (received_distinct _ _ _ R2 D1) as D2.
  pose proof (print_received (le_date env) lvl _ D2) as R3. pose proof (received_distinct _ _ _ R3 D2) as D3.
  pose proof (print_received (`s"---" ++ [NEWLINE; NEWLINE]) lvl _ D3) as R4. pose proof (received_distinct _ _ _ R4 D3) as D4.
  exact (received_trans _ _ _ _ _ R1 (received_trans _ _ _ _ _ R2 (received_trans _ _ _ _ _ R3
    (received_trans _ _ _ _ _ R4 (colorize_received TERM_CL_RESET lvl _ D4))))).
Qed.

Lemma logDate_ok env lvl l : files_ok l -> files_ok (logDate env lvl l).
Proof. intros Hok. destruct (logDate_received env lvl l (fo_streams _ Hok)) as [f H]. by eapply received_files_ok. Qed.

Lemma setInit_ok l : files_ok l -> files_ok (setInit l).
Proof. by intros [H1 H2 H3 H4 H5 H6 H7]. Qed.

Lemma started_ok env l : files_ok l -> files_ok (started env l).
Proof.
  intros Hok. unfold started. destruct (lg_isInit l); [done|]. apply logDate_ok, addStream_ok.
  - exact (setInit_ok l Hok).
  - exact (fo_cout l Hok).
Qed.

Lemma clamp_range lvl : -1 <= clamp lvl <= LOG_LVL_MAX.
Proof. unfold clamp, LOG_LVL_MAX, LOG_VERBOSE. repeat case_match; lia. Qed.

Lemma color_at lvl : 0 <= lvl -> at_index colors (clamp lvl) = Ret (color_of lvl).
Proof.
  intros H. pose proof (clamp_range lvl) as Hr. unfold color_of.
  assert (0 <= clamp lvl) as H0 by (unfold clamp; repeat case_match; unfold LOG_LVL_MAX, LOG_VERBOSE in *; lia).
  unfold LOG_LVL_MAX, LOG_VERBOSE in Hr.
  assert (clamp lvl = 0 \/ clamp lvl = 1 \/ clamp lvl = 2 \/ clamp lvl = 3 \/ clamp lvl = 4 \/ clamp lvl = 5) as Hc by lia.
  by repeat destruct Hc as [->|Hc]; [..|rewrite Hc].
Qed.

Lemma log_received env l lvl ps :
  files_ok l -> 0 <= lvl -> pieces_ok ps ->
  exists l', log env lvl (format_of ps) (args_of ps) l = Ret l' /\
    received (started env l) (fun e => if enabled (clamp lvl) e then stamp env (color_of lvl) e ++ text_of ps else []) l'.
Proof.
  intros Hok Hl Hps. pose proof (started_ok env l Hok) as Hs. unfold log. cbv zeta.
  assert ((if negb (lg_isInit l) then initDefault env (l <| lg_isInit := true |>) else l) = started env l) as ->.
  { unfold started. by destruct (lg_isInit l). }
  destruct (timestamp_received env (clamp lvl) _ _ (fo_streams _ Hs) (color_at lvl Hl)) as (l1 & -> & H1).
  cbn [mbind outcome_bind]. unfold parseFormat. rewrite c_str_id by by apply format_no_nul.
  destruct (format_loop_pieces (clamp lvl) ps (S (length (format_of ps))) l1) as (l' & -> & H2); [done| |lia|].
  { by eapply received_distinct; [|apply Hs]. }
  exists l'. split; [done|]. eapply received_ext; [|by eapply received_trans]. intros e. cbn beta. by destruct (enabled _ e).
Qed.

(** Any message, whatever its format and arguments. *)
Lemma format_loop_ok lvl args : forall fuel format l l', files_ok l ->
  format_loop fuel format args lvl l = Ret l' -> files_ok l'.
Proof.
  assert (forall s l, files_ok l -> files_ok (print s lvl l)) as Hprint.
  { intros s l Hok. by eapply received_files_ok; [apply print_received, Hok|]. }
  intros fuel. revert args. induction fuel as [|fuel IH]; intros args format l l' Hok; [done|]. cbn [format_loop].
  destruct format as [|c rest]; [by intros [= <-]|]. destruct (Ascii.eqb c "%"); [|by apply IH, Hprint].
  destruct (switch rest) as [w skip| | |]; [|by apply IH, Hprint|by apply IH|by intros [= <-]].
  destruct args as [|a args]; [done|]. destruct (arg_text w a); cbn [mbind outcome_bind]; try done. by apply IH, Hprint.
Qed.

Lemma log_ok env lvl format args l l' : files_ok l -> log env lvl format args l = Ret l' -> files_ok l'.
Proof.
  intros Hok. pose proof (started_ok env l Hok) as Hs. unfold log. cbv zeta.
  assert ((if negb (lg_isInit l) then initDefault env (l <| lg_isInit := true |>) else l) = started env l) as ->.
  { unfold started. by destruct (lg_isInit l). }
  destruct (at_index colors (clamp lvl)) as [code| | |] eqn:Hc; cbn [mbind outcome_bind];
    try (unfold printTimestamp; cbv zeta; rewrite Hc; done).
  destruct (timestamp_received env _ _ _ (fo_streams _ Hs) Hc) as (l1 & -> & H1). cbn [mbind outcome_bind].
  apply format_loop_ok. by eapply received_files_ok.
Qed.

(** The message of a file that cannot be opened. *)
Definition plain (s : string) : list piece := map Plain (lit s).
Definition open_error_pieces (path : str) : list piece :=
  plain "Error adding log file : unable to open "
  ++ [Item (`s"ss") (WString (-1)) (ArgPtr PString (Some path)) path]
  ++ plain ". If it refers to a subdir, is the subdir created ?" ++ [Plain NEWLINE].

Lemma plain_ok s ps : Forall (fun c => c <> "%"%char /\ c <> NUL) s -> pieces_ok ps -> pieces_ok (map Plain s ++ ps).
Proof. induction 1 as [|c s Hc Hs IH]; [done|]. intros H. cbn [map app pieces_ok]. by split; [|apply IH]. Qed.

Lemma open_error_ok path :
  pieces_ok (open_error_pieces path) /\ format_of (open_error_pieces path) = open_error /\
  args_of (open_error_pieces path) = [ArgPtr PString (Some path)].
Proof.
  split; [|split; reflexivity]. apply plain_ok; [apply (bool_decide_unpack _); vm_compute; exact I|].
  split; [split_and!; [|done|done]|apply plain_ok; [apply (bool_decide_unpack _); vm_compute; exact I|done]].
  by do 3 right; left.
Qed.

Lemma erase_os_absent os streams : os ∉ map le_os streams -> erase_os os streams = streams.
Proof.
  induction streams as [|e streams IH]; [done|]. cbn [map erase_os]. intros [He Hs]%not_elem_of_cons.
  by rewrite (proj2 (Nat.eqb_neq _ _)), IH.
Qed.

Lemma filter_ne_absent (f : nat) (l : list nat) : f ∉ l -> filter (fun a => a <> f) l = l.
Proof. intros Hf. apply filter_all, Forall_forall. by intros a Ha ->. Qed.

(** A new file that is closed at once leaves nothing behind. *)
Lemma new_file_removed path l : files_ok l -> om_find lex_ltb path (lg_fileTable l) = None ->
  removeLogFile path (l <| lg_files := lg_fresh l :: lg_files l |>
                        <| lg_fileTable := om_assign lex_ltb path (lg_fresh l) (lg_fileTable l) |>
                        <| lg_fresh := S (lg_fresh l) |>)
  = l <| lg_fresh := S (lg_fresh l) |>.
Proof.
  intros Hok Hnone. unfold removeLogFile, removeStream. cbn [lg_fileTable lg_streams lg_files lg_isInit lg_written lg_fresh upd].
  assert (om_find lex_ltb path (om_assign lex_ltb path (lg_fresh l) (lg_fileTable l)) = Some (lg_fresh l)) as ->
    by exact (om_find_update_eq lex_ltb path (fun _ => lg_fresh l) (lg_fileTable l)).
  cbn [lg_streams lg_files lg_fileTable lg_isInit lg_written lg_fresh upd].
  assert (forall a, a ∈ lg_files l \/ a ∈ map le_os (lg_streams l) -> a <> lg_fresh l) as Hnew.
  { intros a Ha ->. apply (fo_fresh _ Hok) in Ha. lia. }
  rewrite erase_os_absent by (intros Ha; by apply (Hnew (lg_fresh l)); [right|]).
  rewrite filter_cons, decide_False by (intros H; by apply H).
  rewrite filter_ne_absent by (intros Ha; by apply (Hnew (lg_fresh l)); [left|]).
  rewrite om_erase_assign_new by first [apply _|done]. by destruct l.
Qed.

(** What [addLogFile_levels] answers and does. *)
Definition addLogFile_result (env : log_env) (path : str) (levels : list bool) (color : bool) (l : Logger) (r : Z) (l' : Logger) : Prop :=
  match om_find lex_ltb path (lg_fileTable l) with
  | Some _ => r = 0 /\ l' = l
  | None =>
      if le_opens env (c_str path) then
        r = 0 /\ lg_streams l' = lg_streams l ++ [mkEntry (lg_fresh l) levels color true] /\
        om_find lex_ltb path (lg_fileTable l') = Some (lg_fresh l) /\ lg_written l' = lg_written l
      else
        r = 1 /\ lg_files l' = lg_files l /\ lg_fileTable l' = lg_fileTable l /\
        received (started env (l <| lg_fresh := S (lg_fresh l) |>))
          (fun e => if enabled LOG_ERROR e then stamp env TERM_CL_RED e ++ text_of (open_error_pieces path) else []) l'
  end.

Lemma started_files env l : files_ok l ->
  lg_files (started env l) = lg_files l /\ lg_fileTable (started env l) = lg_fileTable l.
Proof.
  intros Hok. unfold started. destruct (lg_isInit l); [done|]. unfold initDefault.
  set (l1 := addStream COUT _ _).
  assert (files_ok l1) as H1 by (apply addStream_ok; [exact (setInit_ok l Hok)|exact (fo_cout l Hok)]).
  destruct (logDate_received env (-1) l1 (fo_streams _ H1)) as [f [(_ & -> & -> & _) _]].
  subst l1. unfold addStream, stream_addStream. by destruct (findOs _ _).
Qed.

Lemma fresh_ok l : files_ok l -> files_ok (l <| lg_fresh := S (lg_fresh l) |>).
Proof.
  intros [H1 H2 H3 H4 H5 H6 H7]. split; cbn; try done; unfold COUT in *; try lia.
  intros a Ha. specialize (H6 a Ha). lia.
Qed.

Lemma addLogFile_spec env path levels color l : files_ok l ->
  exists r l', addLogFile_levels env path levels color l = Ret (r, l') /\ files_ok l' /\
    addLogFile_result env path levels color l r l'.
Proof.
  intros Hok. unfold addLogFile_levels, addLogFile_result. cbv zeta.
  destruct (om_find lex_ltb path (lg_fileTable l)) eqn:Hfind; [by eexists _, _|].
  pose proof (new_file_ok path levels color l Hok Hfind) as Hnew.
  destruct (le_opens env (c_str path)); cbn [negb].
  - eexists _, _. split; [reflexivity|]. split; [exact Hnew|]. split; [done|].
    unfold stream_addStream. cbn [lg_streams upd]. rewrite (proj2 (findOs_None _ _)).
    + split; [done|]. split; [|done]. exact (om_find_update_eq lex_ltb path (fun _ => lg_fresh l) (lg_fileTable l)).
    + intros Hin. pose proof (fo_fresh _ Hok _ (or_intror Hin)). lia.
  - rewrite new_file_removed by done. destruct (open_error_ok path) as (Hp & <- & <-).
    destruct (log_received env (l <| lg_fresh := S (lg_fresh l) |>) LOG_ERROR (open_error_pieces path)) as (l' & -> & H);
      [by apply fresh_ok|done|done|]. cbn [mbind outcome_bind].
    pose proof (fresh_ok l Hok) as Hf. destruct (started_files env _ Hf) as [E1 E2].
    eexists _, l'. split; [reflexivity|]. split; [by eapply received_files_ok; [|apply started_ok]|].
    split; [done|]. pose proof H as [(_ & -> & -> & _) _]. rewrite E1, E2. done.
Qed.

(** *** The states of the logger *)
Section logging.
Context (env : log_env).

(** The public operations, in any order.  A stream the program registers or
    removes itself is not one of the logger's files. *)
Inductive logging : Logger -> Prop :=
  | logging_init : logging Logger_init
  | logging_addStream os flags l : logging l -> (os < lg_fresh l)%nat -> logging (addStream os flags l)
  | logging_removeStream os l : logging l -> os ∉ lg_files l -> logging (removeStream os l)
  | logging_addLogFile path levels color r l l' :
      logging l -> addLogFile_levels env path levels color l = Ret (r, l') -> logging l'
  | logging_removeLogFile path l : logging l -> logging (removeLogFile path l)
  | logging_setLogLvl path levels color l : logging l -> logging (setLogLvl path levels color l)
  | logging_editStream os levels color l : logging l -> logging (editStream os levels color l)
  | logging_clearFiles l : logging l -> logging (clearFiles l)
  | logging_log lvl format args l l' : logging l -> log env lvl format args l = Ret l' -> logging l'
  | logging_logDate lvl l : logging l -> logging (logDate env lvl l)
  | logging_setInit l : logging l -> logging (setInit l)
  | logging_printLogConfig l l' : logging l -> printLogConfig l = Ret l' -> logging l'.

Lemma Logger_init_ok : files_ok Logger_init.
Proof.
  split; try apply NoDup_nil_2; cbn.
  - constructor.
  - done.
  - intros f. split; [by intros ?%elem_of_nil|]. by intros (e & ?%elem_of_nil & _).
  - by intros a [?%elem_of_nil|?%elem_of_nil].
  - unfold COUT. lia.
Qed.

Lemma logging_ok l : logging l -> files_ok l.
Proof.
  induction 1 as [|os flags l _ IH Hos|os l _ IH Hos|path levels color r l l' _ IH E|path l _ IH|path levels color l _ IH
                 |os levels color l _ IH|l _ IH|lvl format args l l' _ IH E|lvl l _ IH|l _ IH|l l' _ IH E].
  - apply Logger_init_ok.
  - by apply addStream_ok.
  - by apply removeStream_ok.
  - destruct (addLogFile_spec env path levels color l IH) as (r' & l'' & E' & Hok & _). congruence.
  - by apply removeLogFile_ok.
  - by apply setLogLvl_ok.
  - by apply editStream_ok.
  - by apply clearFiles_ok.
  - by eapply log_ok.
  - by apply logDate_ok.
  - by apply setInit_ok.
  - revert E. unfold printLogConfig. destruct (config_entries _ _); cbn [mbind outcome_bind]; try done.
    intros [= <-]. by destruct IH.
Qed.
End logging.

Lemma findOs_in e streams : NoDup (map le_os streams) -> e ∈ streams -> findOs (le_os e) streams = Some e.
Proof.
  induction streams as [|x streams IH]; [by intros _ ?%elem_of_nil|]. cbn [map findOs].
  intros [Hx Hn]%NoDup_cons [->|He]%elem_of_cons; [by rewrite Nat.eqb_refl|].
  rewrite (proj2 (Nat.eqb_neq _ _)); [by apply IH|]. intros E. apply Hx. rewrite E. by apply list_elem_of_fmap_2.
Qed.

Lemma config_entries_returns l : files_ok l -> forall table, (forall e, e ∈ table -> e ∈ lg_fileTable l) ->
  exists s, config_entries l table = Ret s.
Proof.
  intros Hok table. induction table as [|[path f] table IH]; intros Hin; [by eexists|].
  destruct IH as [t Ht]; [intros e He; apply Hin; by right|]. cbn [config_entries].
  assert (exists s, config_entry l (path, f) = Ret s) as [s Hs].
  { unfold config_entry, getStreamEntry. cbn [snd]. assert (f ∈ lg_files l) as Hf by (eapply table_file; [done|by apply Hin; left]).
    apply (fo_entries _ Hok) in Hf as (e & He & <- & _). rewrite (findOs_in e) by first [apply Hok|done].
    cbn [deref mbind outcome_bind]. by eexists. }
  rewrite Hs. cbn [mbind outcome_bind]. rewrite Ht. by eexists.
Qed.

Lemma printLogConfig_returns l : files_ok l -> exists l', printLogConfig l = Ret l'.
Proof.
  intros Hok. unfold printLogConfig. destruct (config_entries_returns l Hok (lg_fileTable l)) as [s ->]; [done|].
  cbn [mbind outcome_bind]. by eexists.
Qed.

(** ** The properties *)

(** A message reaches every stream whose levels it is enabled for, once, after the time and in the colours of
    its level, with every directive of the format replaced by its argument; the other streams receive nothing. *)
Theorem log_delivers env l lvl ps :
  logging env l -> 0 <= lvl -> pieces_ok ps ->
  exists l', log env lvl (format_of ps) (args_of ps) l = Ret l' /\ files_ok l' /\
    received (started env l) (fun e => if enabled (clamp lvl) e then stamp env (color_of lvl) e ++ text_of ps else []) l'.
Proof.
  intros Hl Hlvl Hps. apply logging_ok in Hl as Hok. destruct (log_received env l lvl ps Hok Hlvl Hps) as (l' & E & H).
  exists l'. split; [done|]. split; [|done]. eapply received_files_ok; [done|]. by apply started_ok.
Qed.

Definition demo_pieces : list piece :=
  plain "client " ++ [Item (`s"d") WInt (ArgInt 42) (`s"42")] ++ plain ": "
  ++ [Item (`s"sh") (WString 10) (ArgPtr PString (Some (`s"a long farewell"))) (`s"a long far"); Percent].

Lemma demo_pieces_ok : pieces_ok demo_pieces.
Proof.
  unfold demo_pieces, plain. apply plain_ok; [apply (bool_decide_unpack _); vm_compute; exact I|].
  split; [split_and!; [by left|done|done]|]. apply plain_ok; [apply (bool_decide_unpack _); vm_compute; exact I|].
  split; [split_and!; [by do 4 right; left|done|done]|done].
Defined.

Lemma demo_logger_logging : logging demo_log_env demo_logger.
Proof.
  assert (exists r l, addLogFile demo_log_env (`s"e.log") LOG_ERROR_MSK
            (addStream COUT (Z.lor (Z.lor LOG_ERROR_MSK LOG_INFO_MSK) LOG_COLORIZE_MSK) Logger_init) = Ret (r, l)
          /\ demo_logger = setInit l) as (r & l & E & ->).
  { eexists _, _. split; [vm_compute; reflexivity|]. vm_compute. reflexivity. }
  apply logging_setInit. eapply logging_addLogFile; [|exact E]. apply logging_addStream; [constructor|unfold COUT; cbn; lia].
Qed.

Lemma log_delivers_witness :
  exists l', log demo_log_env LOG_INFO (format_of demo_pieces) (args_of demo_pieces) demo_logger = Ret l' /\ files_ok l' /\
    received (started demo_log_env demo_logger)
      (fun e => if enabled (clamp LOG_INFO) e then stamp demo_log_env (color_of LOG_INFO) e ++ text_of demo_pieces else []) l'.
Proof.
  apply (log_delivers demo_log_env demo_logger LOG_INFO demo_pieces demo_logger_logging); [done|exact demo_pieces_ok].
Defined.

(** C34: whatever is logged, registered, edited and removed, the table of files, the list of files and the list of
    streams stay in step: the configuration can be printed (no entry leads nowhere), a file is added once, or not
    at all with the error logged when it cannot be opened, and clearing the files leaves exactly the other streams. *)
Theorem logger_files env l :
  logging env l ->
  files_ok l /\ (exists l', printLogConfig l = Ret l') /\
  (forall path levels color, exists r l', addLogFile_levels env path levels color l = Ret (r, l') /\ files_ok l' /\
    addLogFile_result env path levels color l r l') /\
  lg_files (clearFiles l) = [] /\ lg_fileTable (clearFiles l) = [] /\
  lg_streams (clearFiles l) = filter (fun e => le_file e = false) (lg_streams l).
Proof.
  intros Hl. pose proof (logging_ok env l Hl) as Hok. split; [done|].
  split; [by apply printLogConfig_returns|].
  split; [intros; by apply addLogFile_spec|]. destruct (clearFiles_fields l Hok) as (H1 & H2 & H3 & _).
  split_and!; [done|done|]. rewrite H1. apply filter_iff_in. intros e He. destruct (le_file e) eqn:Hf; [|by split].
  split; [|done]. intros H. destruct (H eq_refl). apply (fo_files _ Hok), (fo_entries _ Hok). by exists e.
Qed.

Lemma logger_files_witness :
  files_ok demo_logger /\ (exists l', printLogConfig demo_logger = Ret l') /\
  (forall path levels color, exists r l', addLogFile_levels demo_log_env path levels color demo_logger = Ret (r, l') /\
    files_ok l' /\ addLogFile_result demo_log_env path levels color demo_logger r l') /\
  lg_files (clearFiles demo_logger) = [] /\ lg_fileTable (clearFiles demo_logger) = [] /\
  lg_streams (clearFiles demo_logger) = filter (fun e => le_file e = false) (lg_streams demo_logger).
Proof. apply (logger_files demo_log_env demo_logger demo_logger_logging). Defined.

(** A message for the files alone reads [colors[-1]]. *)
Theorem log_file_level_undefined env format args l lvl : lvl < 0 -> log env lvl format args l = Undef.
Proof.
  intros H. unfold log. cbv zeta. assert (clamp lvl = -1) as ->; [|done].
  unfold clamp, LOG_LVL_MAX, LOG_VERBOSE. repeat case_match; lia.
Qed.

(** The test of a level reads past the array for the last level. *)
Theorem fastCheck_undefined e streams l level :
  lg_streams l = e :: streams -> length (le_levels e) = 5%nat -> LOG_LVL_MAX <= level -> fastCheck level l = Undef.
Proof.
  intros Hs He Hl. unfold fastCheck. assert ((if LOG_LVL_MAX <? level then LOG_LVL_MAX else level) = 5) as ->.
  { unfold LOG_LVL_MAX, LOG_VERBOSE in *. case_match; lia. }
  rewrite Hs. cbn [fastCheck_loop]. unfold at_index. change (5 <? 0) with false. cbv iota.
  change (Z.to_nat 5) with 5%nat. by rewrite lookup_ge_None_2 by lia.
Qed.

(** The colours of a registered stream are always reported to be on. *)
Theorem getColorize_constant l e :
  files_ok l -> e ∈ lg_streams l -> getColorize (le_os e) l = true.
Proof. intros Hok He. unfold getColorize. by rewrite (findOs_in e) by first [apply Hok|done]. Qed.
