(* ===== verification/Display.v ===== *)
(** * Display: what the command prompt prints

    The printing members of [srcs/Host.cpp], [srcs/ListenServer.cpp] and
    [srcs/Client.cpp] as the text they write, and the commands of the prompt
    that print ([srcs/IControl.cpp]) as what they send to the logger.  Printing
    a server goes through its map of hosts with the iterator over distinct
    values: in every sound state each host is printed once. *)

From S2P Require Import Prelude CxxString OrdMap Unique Format Http RequestHeaders RequestUri Host Response Cgi Client Control ConfigLex Config Listen ListenFacts TurnFacts Links Removal Server ServerFacts Clock Logger LoggerFacts.
#[local] Open Scope Z_scope.

Definition tabs (n : nat) : str := replicate n TAB.
Definition endl : str := [NEWLINE].
Definition line (n : nat) (s : str) : str := tabs n ++ s ++ endl.
Definition flag (b : bool) : str := if b then `s"1" else `s"0".

(** ** Hosts *)
Definition printProperties (h : Host) : str :=
  line 2 (`s"->  Names :" ++ concat (map (fun n => `s" " ++ n) (h_server_names h)))
  ++ line 2 (`s"Max body size : " ++ dec (h_body_max_size h))
  ++ line 2 (`s"Error dir : " ++ h_dir_errors h).

Definition keys_text {T} (m : list (str * T)) : str := concat (map (fun e => `s" " ++ e.1) m).

Definition clients_nbr (h : Host) : str := `s"Clients (" ++ dec (Z.of_nat (length (h_clients h))) ++ `s") :".

Definition printShort (h : Host) : str :=
  printProperties h
  ++ line 2 (`s"Locations :" ++ keys_text (h_locationMap h))
  ++ line 2 (`s"CGIs :" ++ keys_text (h_cgiMap h))
  ++ line 2 (clients_nbr h).

(** [printFull] prints the pointers of the maps, and not the objects they lead
    to: the texts of the pointers are parameters. *)
Definition printFull (location_ptr cgi_ptr : str -> str) (h : Host) : str :=
  printProperties h
  ++ line 2 (`s"Locations :")
  ++ concat (map (fun e => TAB :: `s"  ->" ++ e.1 ++ endl ++ location_ptr e.1) (h_locationMap h))
  ++ tabs 2 ++ `s"CGIs :"
  ++ concat (map (fun e => tabs 2 ++ `s"  ->" ++ e.1 ++ endl ++ cgi_ptr e.1) (h_cgiMap h))
  ++ line 2 (clients_nbr h) ++ endl.

Definition methods_text (methods : Z) : str :=
  concat (imap (fun i m => if Z.land methods (Z.shiftl 1 (Z.of_nat i)) =? 0 then [] else m) METHOD_STR).

Definition show_location (l : Location) : str :=
  line 3 (`s"->  root: " ++ loc_root l)
  ++ line 3 (`s"default_uri: " ++ loc_default_uri l)
  ++ line 3 (`s"dir_listing: " ++ flag (loc_dir_listing l))
  ++ line 3 (`s"upload: " ++ flag (loc_upload l))
  ++ (if loc_upload l then line 3 (`s"upload_root: " ++ loc_upload_root l) else [])
  ++ line 3 (`s"allowed methods: " ++ methods_text (loc_methods l))
  ++ (if loc_redir l =? 0 then []
      else line 3 (`s"redirections (" ++ dec (loc_redir l) ++ `s"): ")
           ++ concat (map (fun a => line 3 (`s"  - " ++ a)) (loc_addr_redir l))).

Definition show_cgi (c : CGIConfig) : str :=
  line 3 (`s"->  root: " ++ cgi_root c)
  ++ line 3 (`s"exec_path: " ++ cgi_exec c)
  ++ line 3 (`s"identifier: " ++ cgi_extension c)
  ++ line 3 (`s"allowed methods: " ++ methods_text (cgi_methods c)).

(** ** Servers *)

(** The loop with [safePostIncrement]: the hosts in the order it meets them. *)
Fixpoint unique_values (fuel : nat) (m : list (str * nat)) (it : unique_iterator) : outcome exn (list nat) :=
  match fuel with
  | O => Diverge
  | S fuel =>
      match it_base it with
      | None => Ret []
      | Some _ =>
          v ← it_second m it; '(_, it) ← safePostIncrement m None it; vs ← unique_values fuel m it; Ret (v :: vs)
      end
  end.

(** The loop with [operator++], which looks at the entry after the last one
    before it compares the iterator with the end. *)
Fixpoint unchecked_values (fuel : nat) (m : list (str * nat)) (it : unique_iterator) : outcome exn (list nat) :=
  match fuel with
  | O => Diverge
  | S fuel =>
      match it_base it with
      | None => Ret []
      | Some _ =>
          v ← it_second m it; '(_, it) ← postIncrement m it; vs ← unchecked_values fuel m it; Ret (v :: vs)
      end
  end.

Definition server_head (s : ListenServer) : str :=
  TAB :: `s"->  ip/port: " ++ ls_ip s ++ `s"/" ++ ls_port s ++ endl
  ++ line 1 (`s"sock_fd: " ++ dec (ls_sockFd s))
  ++ line 1 (`s"number of connected clients (orphan): " ++ dec (Z.of_nat (length (ls_connectedClients s)))
             ++ `s" (" ++ dec (Z.of_nat (length (ls_orphanClients s))) ++ `s")")
  ++ line 1 (`s"host list (" ++ dec (ls_nbrHost s) ++ `s"):").

Fixpoint host_texts (text : Host -> str) (hosts : list nat) (w : world) : outcome exn str :=
  match hosts with
  | [] => Ret []
  | a :: hosts => h ← get_host a w; t ← host_texts text hosts w; Ret (text h ++ t)
  end.

Definition server_printShort (s : ListenServer) (w : world) : outcome exn str :=
  hosts ← unique_values (S (length (ls_hostMap s))) (ls_hostMap s) (it_begin (ls_hostMap s));
  texts ← host_texts printShort hosts w;
  Ret (server_head s ++ texts).

Definition server_printFull (location_ptr cgi_ptr : str -> str) (s : ListenServer) (w : world) : outcome exn str :=
  hosts ← unchecked_values (S (length (ls_hostMap s))) (ls_hostMap s) (it_begin (ls_hostMap s));
  texts ← host_texts (printFull location_ptr cgi_ptr) hosts w;
  Ret (server_head s ++ texts).

(** ** Clients

    The address of the client, the text of the pointer to its host and the
    clock are parameters. *)
Definition show_client (addr : str) (port : Z) (host_ptr : str) (now : Z) (c : conn) (w : world) : outcome exn str :=
  host ← (match cn_host c with
          | None => Ret []
          | Some h =>
              x ← get_host h w;
              name ← match head (h_server_names x) with Some n => Ret n | None => Throw out_of_range end;
              Ret (`s" (" ++ name ++ `s")")
          end);
  let cl := cn_client c in
  Ret (line 2 (`s"->  fd: " ++ dec (cn_fd c)) ++ line 2 (`s"ip/port: " ++ addr ++ `s":" ++ dec port)
    ++ line 2 (`s"host: " ++ host_ptr ++ host)
    ++ (match cl_request cl with
        | None => []
        | Some r => `s" | status = " ++ dec (_final_status r) ++ `s" | error = " ++ dec (rh_status (resHints r))
        end) ++ endl
    ++ line 2 (`s"last interaction: " ++ dec (now - cl_lastInteraction cl) ++ `s" ms")
    ++ line 2 (`s"nbr of out buffers: " ++ dec (Z.of_nat (length (cl_outBuffers cl))))).

(** ** The commands that print *)
Section commands.
Context (env : log_env).

Definition LOGI (format : str) (args : list arg) (l : Logger) : outcome exn Logger :=
  log env LOG_INFO (format ++ endl) args l.
Definition LOGV (format : str) (args : list arg) (l : Logger) : outcome exn Logger :=
  log env LOG_VERBOSE (format ++ endl) args l.

Definition log_server (s : ListenServer) (w : world) (l : Logger) : outcome exn Logger :=
  text ← server_printShort s w; LOGI (`s"%Ls") [ArgPtr PListenServer (Some text)] l.

Fixpoint log_servers (servers : list (nat * ListenServer)) (w : world) (l : Logger) : outcome exn Logger :=
  match servers with
  | [] => Ret l
  | (_, s) :: servers => l ← log_server s w l; log_servers servers w l
  end.

Definition handlePrintCommand (words : list str) (w : world) (l : Logger) : outcome exn Logger :=
  match words with
  | [] | [_] => log_servers (w_serverList w) w l
  | [_; _] => Ret l
  | _ :: ip :: port :: more =>
      match findServer ip port w with
      | None => LOGI (`s"Invalid server") [] l
      | Some (_, s) =>
          match more with
          | [] => log_server s w l
          | name :: _ =>
              match findHost name s with
              | None => LOGI (`s"Invalid host") [] l
              | Some a => h ← get_host a w; LOGI (`s"%H") [ArgPtr PHost (Some (printShort h))] l
              end
          end
      end
  end.

(** [parseCommandPrompt] without [kill]; [clear] only runs a program. *)
Definition printing_command (words : list str) (w : world) (l : Logger) : outcome exn Logger :=
  match words with
  | [] => Ret l
  | cmd :: _ =>
      if str_eqb cmd (`s"kill") then Ret l
      else if str_eqb cmd (`s"print") then handlePrintCommand words w l
      else if str_eqb cmd (`s"client_nbr") then
        LOGV (`s"Nbr of clients = %d") [ArgInt (Z.of_nat (length (w_clientList w)))] l
      else if str_eqb cmd (`s"clear") then Ret l
      else LOGV (`s"Invalid command") [] l
  end.
End commands.

(** ** The iterator meets every host once *)
Lemma unique_values_spec m0 fuel : forall seen,
  om_sorted lex_ltb m0 -> (length (filter (fun e => e.2 ∉ seen) m0) < fuel)%nat ->
  exists vs, unique_values fuel m0 (mkIter (fst <$> head (filter (fun e => e.2 ∉ seen) m0)) seen) = Ret vs /\
    NoDup vs /\ forall v, v ∈ vs <-> (v ∉ seen) /\ exists k, (k, v) ∈ m0.
Proof.
  induction fuel as [|fuel IH]; intros seen Hs Hf; [lia|]. cbn [unique_values it_base].
  assert (forall e, e ∈ filter (fun e => e.2 ∉ seen) m0 <-> (e.2 ∉ seen) /\ e ∈ m0) as Hm
    by (intros e; by rewrite list_elem_of_filter).
  destruct (filter (fun e => e.2 ∉ seen) m0) as [|[k v] m] eqn:E.
  { exists []. split; [done|]. split; [constructor|]. intros v. split; [by intros ?%elem_of_nil|].
    intros (Hv & k & Hk). pose proof (proj2 (Hm (k, v)) (conj Hv Hk)) as Hx. by apply elem_of_nil in Hx. }
  cbn [head fmap option_fmap option_map fst].
  assert ((v ∉ seen) /\ (k, v) ∈ m0) as [Hv Hin] by (apply (Hm (k, v)); by left).
  assert (om_find lex_ltb k m0 = Some v) as Hk
    by (apply om_find_Some; [apply _|done|]; exists k; split; [done|by apply lex_equiv]).
  rewrite (it_second_eq m0 (mkIter (Some k) seen) k v), (safePostIncrement_eq m0 (mkIter (Some k) seen) k v) by done.
  cbn [it_seen mbind outcome_bind]. rewrite next_unseen_head, (unseen_after m0 seen k v m) by done.
  destruct (IH (v :: seen) Hs) as (vs & Hvs & Hn & Hel).
  { assert (length (filter (fun e => e.2 ∉ v :: seen) m0) <= length m)%nat as Hl; [|cbn in Hf; lia].
    assert (filter (fun e => e.2 ∉ v :: seen) m0 = filter (fun e => e.2 <> v) m) as ->.
    { transitivity (filter (fun e => e.2 <> v) (filter (fun e => e.2 ∉ seen) m0)).
      - rewrite filter_filter_and. apply filter_iff_in. intros e _. rewrite not_elem_of_cons. tauto.
      - rewrite E, filter_cons. cbn. by rewrite decide_False by (intros H; by apply H). }
    apply filter_length_le. }
  rewrite Hvs. cbn [mbind outcome_bind]. exists (v :: vs). split; [done|]. split.
  - apply NoDup_cons. split; [|done]. intros [Hx _]%Hel. apply Hx. by left.
  - intros x. rewrite elem_of_cons, Hel, not_elem_of_cons. split.
    + intros [->|[[_ ?] ?]]; [split; [done|by exists k]|by split].
    + intros [Hx He]. destruct (decide (x = v)) as [->|]; [by left|right]. by split_and!.
Qed.

(** With [operator++] the loop never ends well. *)
Lemma unchecked_values_undefined m fuel : forall k v seen,
  om_find lex_ltb k m = Some v -> om_sorted lex_ltb m -> (length (entries_after k m) < fuel)%nat ->
  unchecked_values fuel m (mkIter (Some k) seen) = Undef.
Proof.
  induction fuel as [|fuel IH]; intros k v seen Hk Hs Hf; [lia|]. cbn [unchecked_values it_base].
  rewrite (it_second_eq m (mkIter (Some k) seen) k v) by done. unfold postIncrement, preIncrement, step.
  rewrite (it_second_eq m (mkIter (Some k) seen) k v) by done. cbn [it_base it_seen deref mbind outcome_bind].
  destruct (scan_defined (E:=exn) None (v :: seen) (nodes_after m k)) as [[b Hb]| ->]; [|done]. rewrite Hb.
  cbn [mbind outcome_bind]. apply unlimited_node in Hb as (k' & v' & Hin & -> & _).
  unfold nodes_after in Hin. apply elem_of_app in Hin as [Hin|Hin]; [|by apply list_elem_of_singleton in Hin].
  apply list_elem_of_fmap in Hin as (e & [= <-] & Hin). pose proof (entries_after_shorter _ _ _ _ Hin).
  rewrite (IH k' v'); [done| |done|lia]. apply om_find_Some; [apply _|done|]. exists k'.
  split; [by apply list_elem_of_filter in Hin as [_ ?]|by apply lex_equiv].
Qed.

(** ** Texts *)
Lemma host_texts_spec text w hosts : (forall h, h ∈ hosts -> is_Some (obj_get h (w_hostList w))) ->
  exists xs, Forall2 (fun h x => obj_get h (w_hostList w) = Some x) hosts xs /\
    host_texts text hosts w = Ret (concat (map text xs)).
Proof.
  induction hosts as [|h hosts IH]; intros H; cbn [host_texts]; [by exists []|].
  destruct (H h) as [x Hx]; [by left|]. destruct IH as (xs & Hxs & E); [intros h' Hh; apply H; by right|].
  exists (x :: xs). split; [by constructor|]. unfold get_host. rewrite Hx. cbn [deref mbind outcome_bind].
  by rewrite E.
Qed.

(** A server's text names each of its hosts once. *)
Lemma server_text a s w : good w -> obj_get a (w_serverList w) = Some s ->
  exists hosts xs, server_printShort s w = Ret (server_head s ++ concat (map printShort xs)) /\
    NoDup hosts /\ (forall h, h ∈ hosts <-> exists n, om_find lex_ltb n (ls_hostMap s) = Some h) /\
    Forall2 (fun h x => obj_get h (w_hostList w) = Some x) hosts xs.
Proof.
  intros [Hl _] Hs. destruct (lk_map _ _ Hl _ _ Hs) as [[Hsort Hn] _].
  assert (filter (fun e : str * nat => e.2 ∉ (@nil nat)) (ls_hostMap s) = ls_hostMap s) as Hall.
  { apply filter_all, Forall_forall. intros e _ He. by apply elem_of_nil in He. }
  destruct (unique_values_spec (ls_hostMap s) (S (length (ls_hostMap s))) [] Hsort) as (vs & Hvs & Hnd & Hel).
  { rewrite Hall. lia. }
  rewrite Hall in Hvs.
  assert (forall h, h ∈ vs <-> exists n, om_find lex_ltb n (ls_hostMap s) = Some h) as Hin.
  { intros h. rewrite Hel. split.
    - intros [_ [k Hk]]. exists k. apply om_find_Some; [apply _|done|]. exists k. split; [done|by apply lex_equiv].
    - intros [n Hf]. split; [apply not_elem_of_nil|]. apply om_find_Some in Hf as (k & Hk & _); [|apply _|done]. by exists k. }
  destruct (host_texts_spec printShort w vs) as (xs & Hxs & E).
  { intros h [n Hf]%Hin. destruct (Hn _ _ Hf) as (x & Hx & _). by exists x. }
  exists vs, xs. unfold server_printShort, it_begin. rewrite Hvs. cbn [mbind outcome_bind]. rewrite E.
  by split_and!.
Qed.

(** ** Commands *)
Section safety.
Context (env : log_env).

Lemma log_returns lvl ps l : logging env l -> 0 <= lvl -> pieces_ok ps ->
  exists l', log env lvl (format_of ps) (args_of ps) l = Ret l' /\ logging env l'.
Proof.
  intros Hl Hlvl Hps. destruct (log_received env l lvl ps (logging_ok _ _ Hl) Hlvl Hps) as (l' & E & _).
  exists l'. split; [done|]. by eapply logging_log.
Qed.

Lemma LOGI_plain s l : logging env l -> Forall (fun c => c <> "%"%char /\ c <> NUL) (lit s) ->
  exists l', LOGI env (lit s) [] l = Ret l' /\ logging env l'.
Proof.
  intros Hl Hs. unfold LOGI.
  assert (forall t, format_of (map Plain t) = t /\ args_of (map Plain t) = []) as Ht.
  { induction t as [|c t [IH1 IH2]]; [done|]. unfold format_of, args_of in *. cbn. by rewrite IH1, IH2. }
  destruct (Ht (lit s ++ endl)) as [E1 E2]. destruct (log_returns LOG_INFO (map Plain (lit s ++ endl)) l) as (l' & H); [done..| |].
  - rewrite map_app. by apply plain_ok.
  - rewrite E1, E2 in H. by exists l'.
Qed.

Definition object_pieces (name : str) (kind : pointee) (text : str) : list piece :=
  [Item name (WObject kind) (ArgPtr kind (Some text)) text; Plain NEWLINE].

Lemma object_pieces_ok name kind text : (name, WObject kind) ∈ directives -> pieces_ok (object_pieces name kind text).
Proof.
  intros Hd. split; [|done]. split_and!; [done| |].
  - cbn. by rewrite bool_decide_eq_true_2.
  - intros ->. exfalso. unfold directives in Hd.
    repeat (apply elem_of_cons in Hd as [Hd|Hd]; [done|]). by apply elem_of_nil in Hd.
Qed.

Lemma log_server_returns a s w l : good w -> obj_get a (w_serverList w) = Some s -> logging env l ->
  exists l', log_server env s w l = Ret l' /\ logging env l'.
Proof.
  intros Hg Hs Hl. destruct (server_text a s w Hg Hs) as (hosts & xs & E & _). unfold log_server. rewrite E.
  cbn [mbind outcome_bind]. set (text := server_head s ++ _).
  apply (log_returns LOG_INFO (object_pieces (`s"Ls") PListenServer text) l Hl); [done|].
  apply object_pieces_ok. by do 13 right; left.
Qed.

Lemma log_servers_returns w servers : good w -> forall l,
  (forall a s, (a, s) ∈ servers -> obj_get a (w_serverList w) = Some s) -> logging env l ->
  exists l', log_servers env servers w l = Ret l' /\ logging env l'.
Proof.
  intros Hg. induction servers as [|[a s] servers IH]; intros l Hin Hl; cbn [log_servers]; [by exists l|].
  destruct (log_server_returns a s w l Hg) as (l1 & -> & Hl1); [apply Hin; by left|done|]. cbn [mbind outcome_bind].
  apply IH; [|done]. intros b t Hb. apply Hin. by right.
Qed.

Lemma servers_get w a s : good w -> (a, s) ∈ w_serverList w -> obj_get a (w_serverList w) = Some s.
Proof. intros [Hl _] Hin. apply obj_get_elem; [apply Hl|done]. Qed.

Lemma print_returns words w l : good w -> logging env l ->
  exists l', handlePrintCommand env words w l = Ret l' /\ logging env l'.
Proof.
  intros Hg Hl.
  assert (exists l', log_servers env (w_serverList w) w l = Ret l' /\ logging env l') as Hall
    by (apply log_servers_returns; [done| |done]; intros a s; by apply servers_get).
  destruct words as [|cmd [|ip [|port more]]]; [exact Hall|exact Hall|by exists l|]. cbn [handlePrintCommand].
  destruct (findServer ip port w) as [[a s]|] eqn:Ef; [|apply LOGI_plain; [done|apply (bool_decide_unpack _); vm_compute; exact I]].
  apply findServer_elem in Ef as (Hin & _). apply servers_get in Hin; [|done].
  destruct more as [|name more]; [by eapply log_server_returns|].
  destruct (findHost name s) as [h|] eqn:Eh; [|apply LOGI_plain; [done|apply (bool_decide_unpack _); vm_compute; exact I]].
  destruct (lk_map _ _ (proj1 Hg) _ _ Hin) as [[_ Hn] _]. destruct (Hn _ _ Eh) as (x & Hx & _).
  unfold get_host. rewrite Hx. cbn [deref mbind outcome_bind].
  apply (log_returns LOG_INFO (object_pieces (`s"H") PHost (printShort x)) l Hl); [done|].
  apply object_pieces_ok. by do 11 right; left.
Qed.

Lemma command_returns words w l : good w -> logging env l ->
  exists l', printing_command env words w l = Ret l' /\ logging env l'.
Proof.
  intros Hg Hl. unfold printing_command. destruct words as [|cmd words]; [by exists l|].
  destruct (str_eqb cmd _); [by exists l|]. destruct (str_eqb cmd _); [by apply print_returns|].
  destruct (str_eqb cmd _).
  - set (n := Z.of_nat _). unfold LOGV.
    apply (log_returns LOG_VERBOSE (plain "Nbr of clients = " ++ [Item (`s"d") WInt (ArgInt n) (dec n); Plain NEWLINE]) l Hl); [done|].
    apply plain_ok; [apply (bool_decide_unpack _); vm_compute; exact I|]. split; [split_and!; [by left|done|done]|done].
  - destruct (str_eqb cmd _); [by exists l|]. unfold LOGV.
    apply (log_returns LOG_VERBOSE (plain "Invalid command" ++ [Plain NEWLINE]) l Hl); [done|].
    apply plain_ok; [apply (bool_decide_unpack _); vm_compute; exact I|done].
Qed.
End safety.

(** ** The properties *)

(** C33: printing is safe.  In every sound state every command that prints returns, with the logger still sound, and the
    text of a server lists each of its hosts exactly once, whatever number of names they have. *)
Theorem printing_correct env w l :
  good w -> logging env l ->
  (forall words, exists l', printing_command env words w l = Ret l' /\ files_ok l') /\
  forall a s, obj_get a (w_serverList w) = Some s ->
    exists hosts xs, server_printShort s w = Ret (server_head s ++ concat (map printShort xs)) /\
      NoDup hosts /\ (forall h, h ∈ hosts <-> exists n, om_find lex_ltb n (ls_hostMap s) = Some h) /\
      Forall2 (fun h x => obj_get h (w_hostList w) = Some x) hosts xs.
Proof.
  intros Hg Hl. split; [|intros a s; by apply server_text]. intros words.
  destruct (command_returns env words w l Hg Hl) as (l' & E & Hl'). exists l'. split; [done|]. by eapply logging_ok.
Qed.

Lemma printing_correct_witness :
  (forall words, exists l', printing_command demo_log_env words (c_world demo_busy) demo_logger = Ret l' /\ files_ok l') /\
  forall a s, obj_get a (w_serverList (c_world demo_busy)) = Some s ->
    exists hosts xs, server_printShort s (c_world demo_busy) = Ret (server_head s ++ concat (map printShort xs)) /\
      NoDup hosts /\ (forall h, h ∈ hosts <-> exists n, om_find lex_ltb n (ls_hostMap s) = Some h) /\
      Forall2 (fun h x => obj_get h (w_hostList (c_world demo_busy)) = Some x) hosts xs.
Proof.
  apply (printing_correct demo_log_env (c_world demo_busy) demo_logger); [exact demo_busy_good|exact demo_logger_logging].
Defined.

(** The long form of a server's text, which nothing calls, reads past the end of the map. *)
Theorem printFull_undefined location_ptr cgi_ptr a s w :
  good w -> obj_get a (w_serverList w) = Some s -> server_printFull location_ptr cgi_ptr s w = Undef.
Proof.
  intros [Hl _] Hs. destruct (lk_map _ _ Hl _ _ Hs) as [[Hsort _] Hne]. unfold server_printFull, it_begin.
  destruct (ls_hostMap s) as [|[k v] m] eqn:E; [done|]. cbn [head fmap option_fmap option_map fst].
  rewrite (unchecked_values_undefined _ _ k v); [done| |done|].
  - cbn. by rewrite lex_irrefl.
  - unfold entries_after. pose proof (filter_length_le (fun e => lex_ltb k e.1 = true) ((k, v) :: m)). lia.
Qed.
