(* ===== verification/Main.v ===== *)
(** * Main: the whole program ([srcs/main.cpp])

    The start -- log files, [epoll], configuration, command prompt, listening
    servers --, the loop over what [epoll_wait] reports, and the exit.  A run is
    given by its turns; it ends, or goes on after the last of them.  An
    exception of the configuration parser or of a handler carries the state it
    leaves, on which the handlers of [main] run [cleanExit] with 1. *)

From S2P Require Import Prelude CxxString OrdMap Format Http RequestHeaders RequestUri Host Response Cgi Client Control ConfigLex Config Listen ListenFacts TurnFacts Links Removal Server Rosters Registration ConfigFacts ConfigProps ServerFacts Logger LoggerFacts.
#[local] Open Scope Z_scope.

(** ** Definitions *)
Definition LOG_CONFIG_INFO : Z := Z.lor (Z.lor LOG_ERROR_MSK LOG_WARNING_MSK) LOG_INFO_MSK.

Definition initLogs (env : log_env) (l : Logger) : outcome exn Logger :=
  let l := addStream COUT (Z.lor LOG_CONFIG_INFO LOG_COLORIZE_MSK) l in
  '(_, l) ← addLogFile env (`s"logs/sessions.log") LOG_CONFIG_DEBUG l;
  '(_, l) ← addLogFile env (`s"logs/error.log") LOG_ERROR_MSK l;
  printLogConfig (setInit (logDate env (-1) l)).

(** One turn: what [epoll_wait] reports ([None] is an error, which the loop
    takes for events), the time, and the answers of the operating system. *)
Record turn := mkTurn {
  tn_now : Z;
  tn_events : option (list epoll_event);
  tn_os : os_answers;
}.

Inductive main_result : Type :=
  | Exited (code : Z) (w : world)
  | Running (g : state).

Definition exit_with (code : Z) (g : state) : failing state main_result :=
  '(code, w) ← map_exn (fun x => (x.1, g <| c_world := x.2 |>)) (cleanExit code (c_world g));
  Ret (Exited code w).

(** [while (getNbrServer())] *)
Fixpoint main_loop (fuel : nat) (turns : list turn) (g : state) : failing state main_result :=
  if Nat.eqb (length (w_serverList (c_world g))) 0 then exit_with 0 g
  else
    match turns with
    | [] => Ret (Running g)
    | t :: turns =>
        match tn_events t with
        | None => exit_with 0 g
        | Some events =>
            '(on, g) ← main_turn fuel (tn_now t) events (tn_os t) g;
            if on : bool then main_loop fuel turns g else exit_with 0 g
        end
    end.

(** Whether [epoll_create] and the registration of the prompt succeed, and the
    logger's environment. *)
Record main_env := mkMainEnv {
  me_epoll : bool;
  me_prompt : bool;
  me_log : log_env;
  me_network : network;
  me_fs : filesystem;
}.

Definition DEFAULT_CONFIG : str := `s"conf/default.conf".

Definition main_init : state := cfg_init world_init.

(** The [try] block up to the loop. *)
Definition main_start (fuel : nat) (env : main_env) (argv1 : option str) : failing state main_result :=
  if negb (me_epoll env) then exit_with 1 main_init
  else
    match @parseConfigFile world (listen_registry (me_network env)) fuel (me_fs env) (Some (default DEFAULT_CONFIG argv1)) world_init with
    | PLoop => Diverge
    | PErr _ g => Throw (std_exception, g)
    | POk _ g _ =>
        if negb (me_prompt env) then exit_with 1 g
        else Ret (Running (g <| c_world := (startServers (me_network env) (c_world g)).2 |>))
    end.

Definition main_try (fuel : nat) (env : main_env) (argv1 : option str) (turns : list turn) : failing state main_result :=
  r ← main_start fuel env argv1;
  match r with
  | Running g => main_loop fuel turns g
  | Exited _ _ => Ret r
  end.

(** The two [catch] clauses do the same; what [initLogs] and [cleanExit] would
    throw there leaves [main]. *)
Definition main (fuel : nat) (env : main_env) (argv1 : option str) (turns : list turn) : failing state main_result :=
  _ ← throwing main_init (initLogs (me_log env) Logger_init);
  catch (main_try fuel env argv1 turns) (fun x => exit_with 1 x.2).

(** The operator does not remove single hosts during the run. *)
Fixpoint spares_events (fuel : nat) (now : Z) (events : list epoll_event) (g : state) : Prop :=
  match events with
  | [] => True
  | e :: events =>
      spares_hosts fuel e g /\
      match handle_event fuel now e g with Ret (_, g) => spares_events fuel now events g | _ => True end
  end.

Fixpoint spares_turns (fuel : nat) (turns : list turn) (g : state) : Prop :=
  match turns with
  | [] => True
  | t :: turns =>
      let events := default [] (tn_events t) in
      spares_events fuel (tn_now t) events g /\
      match main_turn fuel (tn_now t) events (tn_os t) g with Ret (_, g) => spares_turns fuel turns g | _ => True end
  end.

(** ** The start *)
Lemma initLogs_returns env : exists l, initLogs env Logger_init = Ret l /\ logging env l.
Proof.
  unfold initLogs, addLogFile. cbv zeta. set (l0 := addStream COUT _ _).
  assert (logging env l0) as H0 by (apply logging_addStream; [constructor|cbn; unfold COUT; lia]).
  destruct (addLogFile_spec env (`s"logs/sessions.log") (levels_of LOG_CONFIG_DEBUG)
    (negb (Z.land LOG_CONFIG_DEBUG LOG_COLORIZE_MSK =? 0)) l0 (logging_ok _ _ H0)) as (r1 & l1 & E1 & _).
  rewrite E1. cbn [mbind outcome_bind]. assert (logging env l1) as H1 by by eapply logging_addLogFile.
  destruct (addLogFile_spec env (`s"logs/error.log") (levels_of LOG_ERROR_MSK)
    (negb (Z.land LOG_ERROR_MSK LOG_COLORIZE_MSK =? 0)) l1 (logging_ok _ _ H1)) as (r2 & l2 & E2 & _).
  rewrite E2. cbn [mbind outcome_bind]. assert (logging env l2) as H2 by by eapply logging_addLogFile.
  assert (logging env (setInit (logDate env (-1) l2))) as H3 by by apply logging_setInit, logging_logDate.
  destruct (printLogConfig_returns _ (logging_ok _ _ H3)) as [l E]. exists l. split; [done|].
  by eapply logging_printLogConfig.
Qed.

(** ** The exit *)
Definition gone (w : world) : Prop :=
  w_serverList w = [] /\ w_clientList w = [] /\ forall fd, fd ∈ w_open w -> fd = 0.

Lemma exit_good code g : good (c_world g) -> exists w', exit_with code g = Ret (Exited code w') /\ gone w'.
Proof.
  intros Hg. unfold exit_with, cleanExit. set (w := c_world g) in *. clearbody w.
  destruct (Nat.eqb_spec (length (w_serverList w)) 0) as [E|E]; cbn [negb].
  - apply nil_length_inv in E. destruct (good_no_server w Hg E). exists w. by repeat split.
  - destruct (removeServers_good w Hg) as (w' & Hr & Hg' & He). rewrite Hr. cbn [map_exn mbind outcome_bind].
    destruct (good_no_server w' Hg' He). exists w'. by repeat split.
Qed.

(** ** The loop *)
Definition serving_state {A} (nw : network) (p : A -> state) (m : failing state A) : Prop :=
  yields m (fun x => serving nw (p x)) (fun e => good (c_world e.2)).

Lemma handle_events_serving nw fuel now es : forall g,
  serving nw g -> spares_events fuel now es g -> serving_state nw snd (handle_events fuel now es g).
Proof.
  induction es as [|e es IH]; intros g Hg Hs; cbn [handle_events]; [done|]. destruct Hs as [Hs Hes].
  pose proof (handle_event_good fuel now e g (serving_links _ _ Hg) Hs) as Hgood.
  destruct (handle_event fuel now e g) as [[res g1]|x| |] eqn:E; cbn [mbind outcome_bind]; [|exact Hgood|done..].
  assert (serving nw g1) as H1 by by eapply serving_event. destruct (negb _); [done|by apply IH].
Qed.

Lemma main_turn_serving nw fuel now events os g :
  serving nw g -> spares_events fuel now events g -> serving_state nw snd (main_turn fuel now events os g).
Proof.
  intros Hg Hs. unfold main_turn. eapply (yields_bind _ _ (fun x => serving nw x.2)).
  { destruct (Nat.eqb _ 0); [done|]. unfold handleEpoll. destruct (Nat.ltb _ 1); [done|]. by apply handle_events_serving. }
  intros [res g1] H1. cbn [snd] in H1. destruct (res <? 0); [done|]. unfold on_world.
  destruct (checkTO_good os (c_default_error_pages g1) (c_world g1) (serving_links _ _ H1)) as (w & E & _).
  rewrite E. cbn. by eapply serving_check.
Qed.

(** What a run leaves: an exit leaves nothing, otherwise the program serves. *)
Definition sound_result (nw : network) (r : main_result) : Prop :=
  match r with
  | Exited code w => (code = 0 \/ code = 1) /\ gone w
  | Running g => serving nw g /\ w_serverList (c_world g) <> []
  end.

(** A part of the [try] block: an exception leaves a state that can be cleaned. *)
Definition sound_try (nw : network) (m : failing state main_result) : Prop :=
  yields m (sound_result nw) (fun e => good (c_world e.2)).

Lemma exit_sound nw code g : good (c_world g) -> code = 0 \/ code = 1 -> sound_try nw (exit_with code g).
Proof. intros Hg Hc. destruct (exit_good code g Hg) as (w' & -> & Hw). by split. Qed.

Lemma main_loop_sound nw fuel turns : forall g,
  serving nw g -> spares_turns fuel turns g -> sound_try nw (main_loop fuel turns g).
Proof.
  induction turns as [|t turns IH]; intros g Hg Hs; cbn [main_loop];
    (destruct (Nat.eqb_spec (length (w_serverList (c_world g))) 0) as [E|E];
      [apply exit_sound; [by eapply serving_links|by left]|]).
  - split; [done|]. intros H. by rewrite H in E.
  - destruct Hs as [Hs Hts]. destruct (tn_events t) as [events|]; cbn [from_option id] in *.
    2:{ apply exit_sound; [by eapply serving_links|by left]. }
    pose proof (main_turn_serving nw fuel (tn_now t) events (tn_os t) g Hg Hs) as H1.
    destruct (main_turn fuel (tn_now t) events (tn_os t) g) as [[on g1]|x| |]; cbn [mbind outcome_bind]; [|exact H1|done..].
    cbn [yields serving_state snd] in H1. destruct on; [by apply IH|]. apply exit_sound; [by eapply serving_links|by left].
Qed.

(** A line that closes the standard input. *)
Definition eof_turn (now : Z) (os : os_answers) : turn := mkTurn now (Some [StdinEvent true false false []]) os.

Lemma eof_turn_exits fuel now os turns g : good (c_world g) -> w_serverList (c_world g) <> [] ->
  exists w, main_loop fuel (eof_turn now os :: turns) g = Ret (Exited 0 w) /\ gone w.
Proof.
  intros Hg Hne. cbn [main_loop]. destruct (Nat.eqb_spec (length (w_serverList (c_world g))) 0) as [E|_].
  { by apply nil_length_inv in E. }
  cbn [eof_turn tn_events tn_now tn_os]. unfold main_turn, handleEpoll. cbn [length Nat.eqb Nat.ltb Nat.leb handle_events handle_event].
  unfold handleCommandPrompt. cbn [orb]. unfold on_world.
  destruct (removeServers_good _ Hg) as (w & -> & Hgw & Hs). cbn [map_exn mbind outcome_bind].
  change (negb (1 =? 0)) with true. cbv iota. cbn [mbind outcome_bind]. change (1 <? 0) with false. cbv iota.
  destruct (good_no_server w Hgw Hs) as [Hc Ho]. cbn [c_world upd].
  assert (forall pages, checkTO os pages w = Ret w) as Hto by (intros pages; unfold checkTO; by rewrite Hc).
  rewrite Hto. cbn [map_exn mbind outcome_bind].
  cbn [c_world upd]. rewrite Hs. cbn [length Nat.eqb negb].
  unfold exit_with, cleanExit. cbn [c_world upd]. rewrite Hs. cbn [length Nat.eqb negb map_exn mbind outcome_bind].
  exists w. by repeat split.
Qed.

Lemma main_loop_app fuel t2 t1 : forall g,
  main_loop fuel (t1 ++ t2) g =
  (r ← main_loop fuel t1 g; match r with Running g' => main_loop fuel t2 g' | Exited _ _ => Ret r end).
Proof.
  assert (forall code g, (r ← exit_with code g; match r with Running g' => main_loop fuel t2 g' | Exited _ _ => Ret r end)
    = exit_with code g) as Hexit.
  { intros code g. unfold exit_with. by destruct (cleanExit code (c_world g)) as [[c w']| | |]. }
  induction t1 as [|t t1 IH]; intros g; cbn [app main_loop].
  - destruct (Nat.eqb _ 0) eqn:E; [|done]. rewrite Hexit. destruct t2; cbn [main_loop]; by rewrite E.
  - destruct (Nat.eqb _ 0); [by rewrite Hexit|]. destruct (tn_events t); [|by rewrite Hexit].
    destruct (main_turn _ _ _ _ _) as [[on g1]| | |]; cbn [mbind outcome_bind]; [|done..].
    destruct on; [apply IH|by rewrite Hexit].
Qed.

Lemma main_start_sound fuel env argv1 :
  yields (main_start fuel env argv1) (fun r =>
    match r with Exited code w => code = 1 /\ gone w | Running g => serving (me_network env) g end)
    (fun e => good (c_world e.2)).
Proof.
  unfold main_start.
  assert (forall g, configured (c_world g) -> yields (exit_with 1 g) (fun r =>
    match r with Exited code w => code = 1 /\ gone w | Running g => serving (me_network env) g end)
    (fun e => good (c_world e.2))) as Hexit.
  { intros g Hw. destruct (exit_good 1 g (configured_good _ Hw)) as (w' & -> & Hg). by split. }
  destruct (me_epoll env); cbn [negb]; [|apply Hexit, world_init_ready].
  pose proof (@parseConfigFile_step world (listen_registry (me_network env)) fuel (me_fs env)
    (Some (default DEFAULT_CONFIG argv1)) world_init) as Hp.
  destruct (parseConfigFile _ _ _ _) as [r g s|e g|] eqn:E; [| |done].
  - destruct (me_prompt env); cbn [negb]; [|by apply Hexit, Hp, world_init_ready].
    eapply serving_start; [exact E|]. by apply surjective_pairing.
  - by apply configured_good, Hp, world_init_ready.
Qed.

(** The handlers of [main] end what an exception leaves. *)
Lemma main_unfold fuel env argv1 turns :
  main fuel env argv1 turns = catch (main_try fuel env argv1 turns) (fun x => exit_with 1 x.2).
Proof. unfold main. by destruct (initLogs_returns (me_log env)) as (l & -> & _). Qed.

Lemma catch_sound nw m : sound_try nw m ->
  yields (catch m (fun x => exit_with 1 x.2)) (sound_result nw) (fun _ => False).
Proof.
  destruct m as [r|[e g]| |]; cbn; try done. intros Hg. destruct (exit_good 1 g Hg) as (w & -> & Hw).
  split; [by right|done].
Qed.

Lemma main_try_sound fuel env argv1 turns :
  (forall g, main_start fuel env argv1 = Ret (Running g) -> spares_turns fuel turns g) ->
  sound_try (me_network env) (main_try fuel env argv1 turns).
Proof.
  intros Hs. pose proof (main_start_sound fuel env argv1) as Hstart. unfold main_try.
  destruct (main_start fuel env argv1) as [[code w|g]|e| |]; cbn [mbind outcome_bind]; try done.
  - destruct Hstart as [-> Hw]. split; [by right|done].
  - by apply main_loop_sound; [|apply Hs].
Qed.

(** A run that goes on after its turns. *)
Lemma main_try_app fuel env argv1 t1 t2 g :
  main_try fuel env argv1 t1 = Ret (Running g) -> main_try fuel env argv1 (t1 ++ t2) = main_loop fuel t2 g.
Proof.
  unfold main_try. destruct (main_start fuel env argv1) as [[code w|g0]|e| |]; cbn [mbind outcome_bind]; try done.
  rewrite main_loop_app. by intros ->.
Qed.

Lemma main_running fuel env argv1 turns g :
  main fuel env argv1 turns = Ret (Running g) -> main_try fuel env argv1 turns = Ret (Running g).
Proof.
  rewrite main_unfold. destruct (main_try _ _ _ _) as [r|[e g1]| |]; cbn [catch]; try done.
  cbn [snd]. unfold exit_with. by destruct (cleanExit 1 (c_world g1)) as [[c w]|[x w]| |].
Qed.

(** The turn in which a handler throws. *)
Lemma throwing_turn nw fuel t events g e g' :
  serving nw g -> w_serverList (c_world g) <> [] -> tn_events t = Some events -> spares_events fuel (tn_now t) events g ->
  main_turn fuel (tn_now t) events (tn_os t) g = Throw (e, g') ->
  good (c_world g') /\ forall more, main_loop fuel (t :: more) g = Throw (e, g').
Proof.
  intros Hg Hne Ht Hs E. pose proof (main_turn_serving nw fuel (tn_now t) events (tn_os t) g Hg Hs) as H.
  rewrite E in H. split; [exact H|]. intros more. cbn [main_loop].
  destruct (Nat.eqb_spec (length (w_serverList (c_world g))) 0) as [E0|_]; [by apply nil_length_inv in E0|].
  by rewrite Ht, E.
Qed.

(** ** The property *)


Definition demo_env : main_env := mkMainEnv true true demo_log_env demo_network (config_fs demo_config).
Definition demo_turns : list turn := [mkTurn 0 (Some demo_events) (demo_os [])].

Lemma demo_start_eq : main_start 300 demo_env (Some (`s"f")) = Ret (Running demo_started).
Proof. vm_compute. reflexivity. Qed.


(** The example run goes on. *)
Example main_runs :
  match main 300 demo_env (Some (`s"f")) demo_turns with Ret (Running _) => true | _ => false end = true.
Proof. vm_compute. reflexivity. Qed.

(** A client that connects and sends a request line without version ends it. *)
Definition demo_fatal_turns : list turn := [mkTurn 0 (Some
  [ServerEvent demo_address 6;
   ClientEvent (w_fresh (c_world demo_started)) false true false (demo_os (crlf "GET /" ++ CRLF))]) (demo_os [])].

Example main_ends :
  match main 300 demo_env (Some (`s"f")) demo_fatal_turns with
  | Ret (Exited code w) => (code, length (w_serverList w), length (w_clientList w)) = (1, 0%nat, 0%nat)
  | _ => False
  end.
Proof. vm_compute. reflexivity. Qed.
